(** * AI help-doc scoring engine: a shallow embedding of the scorer

    The development embeds the scoring/aggregation engine of the
    repository (js/scorer.js, js/parser.js, js/claude-client.js,
    js/rules/content-structure.js, the terminology rules and the
    text-over-visuals rules) as Rocq functions and proves properties of
    these functions.

    Modelling conventions.
    - A JavaScript number is an exact rational ([Q]); counters and array
      lengths are integers ([Z]).  [Math.round] is rounding half up,
      [Qfloor (x + 1/2)].  IEEE rounding error, NaN and the infinities
      are outside this reading.  The composite score is given a second
      time in binary64 arithmetic ([F64], [Scorer64]), where the
      rounding of doubles, NaN and the difference between [null] and an
      absent field are part of the model.
    - [null]/[undefined]/an absent field is [None] of an option type,
      except where the code tells them apart: the fields read by the
      composite ([Scorer64.JsValue]) and the score of a semantic
      response ([ClaudeClient.ScoreField]).
    - A JavaScript object used as a map is an association list in
      insertion order ([JsObject]); assignment to an existing key keeps
      its place, and enumeration ([Js.entries]) lists the array-index
      keys first.  Lookups see own properties only: the keys a caller
      supplies (category keys, criterion ids, severities) are taken not
      to name a member of [Object.prototype].  Where the words of the
      page become keys, the inherited member is modelled (see
      [clusterStep]).
    - A string is a [string] of 8-bit code units; [toLowerCase] acts on
      the ASCII letters.
    - Effects of [scoreAll] (clock, cache storage, the remote semantic
      call, the global configuration) are read from an explicit
      environment record. *)

From Stdlib Require Import ZArith QArith Qround Qminmax Qabs Lqa Lia.
From Stdlib Require Import List String Ascii Bool.
From Stdlib Require Import Permutation Sorted.
From Stdlib Require Import DecimalString DecimalZ.
From Stdlib Require Import SpecFloat.
Import ListNotations.

Local Open Scope Z_scope.
Local Open Scope string_scope.

(** [++] is string concatenation here; lists are appended with [+++]. *)
Infix "+++" := (@List.app _) (at level 60, right associativity).

(** ** JavaScript primitives *)

Module Js.

(** [Math.round]: the nearest integer, ties towards +infinity. *)
Definition Math_round (x : Q) : Z := Qfloor (x + (1 # 2)).

(** [Math.round(x * 10) / 10] in exact arithmetic; [F64.round1] is the
    same on doubles. *)
Definition round1 (x : Q) : Q := inject_Z (Math_round (x * 10)) / 10.

(** [Math.max(0, Math.min(10, s))]. *)
Definition clamp10 (s : Z) : Z := Z.max 0 (Z.min 10 s).

(** [a || b] on numbers that may be absent: the first operand when it
    is a non-zero number, else the second. *)
Definition num_or (a : option Q) (b : Q) : Q :=
  match a with
  | Some x => if Qeq_bool x 0 then b else x
  | None => b
  end.

Definition int_or (a : option Z) (b : Z) : Z :=
  match a with
  | Some x => if (x =? 0)%Z then b else x
  | None => b
  end.

(** Template-literal rendering of an integer. *)
Definition show (z : Z) : string := NilZero.string_of_int (Z.to_int z).

(** Objects as insertion-ordered association lists. *)
Definition JsObject (V : Type) : Type := list (string * V).

Fixpoint get {V} (o : JsObject V) (k : string) : option V :=
  match o with
  | [] => None
  | (k', v) :: o' => if String.eqb k' k then Some v else get o' k
  end.

(** [o[k] = v]: overwrite in place, or append a new property. *)
Fixpoint set {V} (o : JsObject V) (k : string) (v : V) : JsObject V :=
  match o with
  | [] => [(k, v)]
  | (k', v') :: o' =>
      if String.eqb k' k then (k', v) :: o' else (k', v') :: set o' k v
  end.

(** [Array.prototype.sort] with a consistent comparator: the standard
    requires a stable sort, so the result is the unique stable
    arrangement; it is computed here by stable insertion.  [leb x y]
    says that the comparator does not put [y] before [x]. *)
Section StableSort.
Context {A : Type} (leb : A -> A -> bool).

(* [x] stood before every element of [l]: it goes in front of the
   first element that does not have to precede it. *)
Fixpoint insert_by (x : A) (l : list A) : list A :=
  match l with
  | [] => [x]
  | y :: l' => if leb x y then x :: l else y :: insert_by x l'
  end.

Fixpoint sort_by (l : list A) : list A :=
  match l with
  | [] => []
  | x :: l' => insert_by x (sort_by l')
  end.
End StableSort.

(** The comparator [(a, b) => rank(a) - rank(b)] on integer ranks. *)
Definition by_rank {A} (rank : A -> Z) (x y : A) : bool := (rank x <=? rank y)%Z.

(** Property enumeration order ([Object.entries], [Object.keys],
    [Object.values]): the keys that are array indices first, in
    ascending numeric order, then the other keys in insertion order. *)
Definition digit_val (c : ascii) : option Z :=
  let n := nat_of_ascii c in
  if ((48 <=? n) && (n <=? 57))%nat then Some (Z.of_nat (n - 48)) else None.

Fixpoint digits_val (acc : Z) (s : string) : option Z :=
  match s with
  | EmptyString => Some acc
  | String c s' =>
      match digit_val c with
      | Some d => digits_val (acc * 10 + d) s'
      | None => None
      end
  end.

(** The array index a key denotes: a canonical decimal numeral below
    2^32 - 1. *)
Definition array_index (k : string) : option Z :=
  match k with
  | EmptyString => None
  | String "0" EmptyString => Some 0%Z
  | String "0" _ => None
  | _ => match digits_val 0 k with
         | Some n => if (n <? 4294967295)%Z then Some n else None
         | None => None
         end
  end.

Definition is_index {V} (e : string * V) : bool :=
  match array_index (fst e) with Some _ => true | None => false end.

Definition index_rank {V} (e : string * V) : Z :=
  match array_index (fst e) with Some n => n | None => 0%Z end.

Definition entries {V} (o : JsObject V) : list (string * V) :=
  (sort_by (by_rank index_rank) (filter is_index o)
   ++ filter (fun e => negb (is_index e)) o)%list.

Definition keys {V} (o : JsObject V) : list string := map fst (entries o).
Definition values {V} (o : JsObject V) : list V := map snd (entries o).

(** Rendering of a number in a template literal when the number need
    not be an integer: the host's Number-to-String conversion. *)
Definition NumberToString : Type := Q -> string.

Definition show_opt (z : option Z) : string :=
  match z with Some n => show n | None => "undefined" end.

Fixpoint zeros (n : nat) : string :=
  match n with O => "" | S k => String "0" (zeros k) end.

(** [x.toFixed(f)]: [n] is the integer nearest to [|x| * 10^f], the
    larger one on a tie. *)
Definition toFixed (x : Q) (f : nat) : string :=
  let sign := if Qle_bool 0 x then "" else "-" in
  let ax := Qabs.Qabs x in
  let n := Math_round (ax * inject_Z (10 ^ Z.of_nat f)) in
  let m := show n in
  let m := if (String.length m <=? f)%nat
           then zeros (f + 1 - String.length m) ++ m else m in
  let k := String.length m in
  if (f =? 0)%nat then sign ++ m
  else sign ++ substring 0 (k - f) m ++ "." ++ substring (k - f) f m.

End Js.

(** ** Binary64 numbers *)

(** The arithmetic of JavaScript numbers as IEEE 754 binary64, after
    the specification of floating-point numbers of the Rocq core
    library: 53 bits of precision, round to nearest, ties to even. *)
Module F64.

Definition prec : Z := 53.
Definition emax : Z := 1024.

Definition float : Type := spec_float.

Definition nan : float := S754_nan.
Definition zero : float := S754_zero false.

Definition add : float -> float -> float := SFadd prec emax.
Definition mul : float -> float -> float := SFmul prec emax.
Definition div : float -> float -> float := SFdiv prec emax.

(** The number nearest an integer. *)
Definition ofZ (z : Z) : float := binary_normalize prec emax z 0 false.

(** The number nearest a fraction whose numerator and denominator are
    below 2^53: the value of a decimal literal such as [0.30], and of an
    integer divided by ten. *)
Definition ofQ (q : Q) : float := div (ofZ (Qnum q)) (ofZ (Zpos (Qden q))).


(** [x === 0]. *)
Definition isZero (x : float) : bool :=
  match x with S754_zero _ => true | _ => false end.

(** A number is truthy unless it is 0, -0 or NaN. *)
Definition truthy (x : float) : bool :=
  match x with S754_zero _ | S754_nan => false | _ => true end.

(** [Math.round]: the nearest integer, ties towards +infinity; the zero
    keeps the sign of the argument; NaN and the infinities are returned
    as they are. *)
Definition Math_round (x : float) : float :=
  match x with
  | S754_finite s m e =>
      let v := ((if s then - inject_Z (Zpos m) else inject_Z (Zpos m)) * 2 ^ e)%Q in
      let k := Qfloor (v + (1 # 2)) in
      if (k =? 0)%Z then S754_zero s else ofZ k
  | _ => x
  end.

(** [Math.round(x * 10) / 10]. *)
Definition round1 (x : float) : float := div (Math_round (mul x (ofZ 10))) (ofZ 10).

End F64.

(** ** Data model (spec section 3, as the code builds it) *)

(** An issue.  [category] and [categoryKey] are attached by
    [collectAllIssues]. *)
Record Issue : Type := mkIssue {
  severity : string;
  message : string;
  fix_ : option string;
  location : option string;
  excerpt : option string;
  details : option string;
  category : option string;
  categoryKey : option string
}.

Definition issue (sev msg : string) (fx : option string) : Issue :=
  mkIssue sev msg fx None None None None None.

(** A criterion record.  [score] is [None] when the field does not hold
    a number. *)
Record CriterionResult : Type := mkCriterion {
  criterionId : option string;
  score : option Q;
  issues : list Issue;
  cr_details : option string
}.

(** Per-section scores stored by [addSectionScores]. *)
Record SectionScore : Type := mkSectionScore {
  sec_title : option string;
  sec_level : option Z;
  sec_score : Q;
  sec_criteria : Js.JsObject CriterionResult;
  sec_issues : list Issue;
  sec_wordCount : Z
}.

(** A category of the report.  [cat_score = None] is a [null] score;
    [cat_estimated = false] also stands for an absent flag. *)
Record Category : Type := mkCategory {
  cat_id : option string;
  cat_name : option string;
  cat_score : option Q;
  cat_weight : option Q;
  cat_criteria : Js.JsObject CriterionResult;
  cat_issues : option (list Issue);
  cat_estimated : bool;
  cat_message : option string;
  cat_sectionScores : option (list SectionScore);
  cat_sectionRollup : option Q
}.

Definition set_cat_score (c : Category) (s : option Q) : Category :=
  mkCategory (cat_id c) (cat_name c) s (cat_weight c) (cat_criteria c)
    (cat_issues c) (cat_estimated c) (cat_message c)
    (cat_sectionScores c) (cat_sectionRollup c).

Definition set_cat_criteria (c : Category) (cr : Js.JsObject CriterionResult)
  : Category :=
  mkCategory (cat_id c) (cat_name c) (cat_score c) (cat_weight c) cr
    (cat_issues c) (cat_estimated c) (cat_message c)
    (cat_sectionScores c) (cat_sectionRollup c).

Definition set_cat_issues (c : Category) (l : option (list Issue)) : Category :=
  mkCategory (cat_id c) (cat_name c) (cat_score c) (cat_weight c)
    (cat_criteria c) l (cat_estimated c) (cat_message c)
    (cat_sectionScores c) (cat_sectionRollup c).

Definition Categories : Type := Js.JsObject Category.

(** The literal [{ critical: 0, warning: 1, info: 2 }] every sort by
    severity looks up, as far as its own keys go. *)
Definition severityOrder (sev : string) : option Z :=
  if String.eqb sev "critical" then Some 0
  else if String.eqb sev "warning" then Some 1
  else if String.eqb sev "info" then Some 2
  else None.

(** ** Mutable report, exceptions, and the small monad the engine runs in *)

(** A thrown value: an [Error] object with its [message]. *)
Record JsError : Type := mkError { err_message : string }.

(** The engine's TypeErrors for a property read and for a property
    assignment on [undefined]. *)
Definition TypeError_undefined (prop : string) : JsError :=
  mkError ("Cannot read properties of undefined (reading '" ++ prop ++ "')").

Definition TypeError_undefined_set (prop : string) : JsError :=
  mkError ("Cannot set properties of undefined (setting '" ++ prop ++ "')").

Record CacheInfo : Type := mkCacheInfo {
  cache_status : string;
  cache_key : string;
  cache_savedAt : option string
}.

Record Meta : Type := mkMeta {
  url : option string;
  title : option string;
  scoredAt : string;
  mode : string;
  claudeCache : option CacheInfo;
  claudeError : option string
}.

(** The [results] object of [scoreAll]. *)
Record Report : Type := mkReport {
  meta : Meta;
  categories : Categories;
  compositeScore : Q;
  status : option string;
  allIssues : list Issue;
  topIssues : list Issue;
  summary : string;
  claudeSummary : option string;
  claudeTopIssues : option (list string);
  sections : option (list SectionScore)
}.

Definition set_meta (r : Report) (m : Meta) : Report :=
  mkReport m (categories r) (compositeScore r) (status r) (allIssues r)
    (topIssues r) (summary r) (claudeSummary r) (claudeTopIssues r)
    (sections r).

Definition set_categories (r : Report) (c : Categories) : Report :=
  mkReport (meta r) c (compositeScore r) (status r) (allIssues r)
    (topIssues r) (summary r) (claudeSummary r) (claudeTopIssues r)
    (sections r).

Definition set_claudeCache (m : Meta) (c : CacheInfo) : Meta :=
  mkMeta (url m) (title m) (scoredAt m) (mode m) (Some c) (claudeError m).

Definition set_claudeError (m : Meta) (e : string) : Meta :=
  mkMeta (url m) (title m) (scoredAt m) (mode m) (claudeCache m) (Some e).

(** How a statement ends: normally with a value, or by a [throw]. *)
Inductive Completion (A : Type) : Type :=
| Normal (a : A)
| Throw (e : JsError).
Arguments Normal {A} a.
Arguments Throw {A} e.

(** A computation on the mutable [results] object: updates made before a
    [throw] stay in the state, as in the source. *)
Definition M (A : Type) : Type := Report -> Completion A * Report.

Definition ret {A} (a : A) : M A := fun r => (Normal a, r).

Definition bind {A B} (m : M A) (k : A -> M B) : M B :=
  fun r => match m r with
           | (Normal a, r') => k a r'
           | (Throw e, r') => (Throw e, r')
           end.

Definition throw {A} (e : JsError) : M A := fun r => (Throw e, r).

Definition getResults : M Report := fun r => (Normal r, r).

Definition modify (f : Report -> Report) : M unit := fun r => (Normal tt, f r).

(** [try { body } catch (error) { handler(error) }]. *)
Definition try_catch {A} (body : M A) (handler : JsError -> M A) : M A :=
  fun r => match body r with
           | (Normal a, r') => (Normal a, r')
           | (Throw e, r') => handler e r'
           end.

(** Lift a pure computation that may throw. *)
Definition lift {A} (c : Completion A) : M A := fun r => (c, r).

Declare Scope eng_scope.
Delimit Scope eng_scope with eng.
Notation "x <- m ;; k" := (bind m (fun x => k))
  (at level 61, m at next level, right associativity) : eng_scope.
Notation "m ;;; k" := (bind m (fun _ => k))
  (at level 61, right associativity) : eng_scope.

(** [results.categories[key]], throwing [e] (the TypeError of the
    access that follows) when the category is not there. *)
Definition the_category_or (key : string) (e : JsError) : M Category :=
  fun r => match Js.get (categories r) key with
           | Some c => (Normal c, r)
           | None => (Throw e, r)
           end.

Definition the_category (key prop : string) : M Category :=
  the_category_or key (TypeError_undefined prop).

Definition put_category (key : string) (c : Category) : M unit :=
  modify (fun r => set_categories r (Js.set (categories r) key c)).

(** ** The semantic adapter (js/claude-client.js) *)

Module ClaudeClient.

(** The [score] field of an entry of the response: a number, the JSON
    [null], or no field at all ([undefined] when read).  The two that
    are not numbers compare differently with a number. *)
Inductive ScoreField : Type :=
| NumberScore (q : Q)
| NullScore
| NoScore.

(** One entry of the remote response's [scores]. *)
Record RawScore : Type := mkRawScore {
  raw_value : ScoreField;
  explanation : option string;
  raw_issues : option (list string);
  fixes : option (list string)
}.

(** [data.score] as a criterion holds it: the number, or [None] for
    [null] and for [undefined]. *)
Definition raw_score (data : RawScore) : option Q :=
  match raw_value data with
  | NumberScore q => Some q
  | NullScore | NoScore => None
  end.

Record Response : Type := mkResponse {
  scores : option (Js.JsObject RawScore);
  raw_summary : option string;
  raw_topIssues : option (list string)
}.

Record Transformed : Type := mkTransformed {
  t_scores : Js.JsObject CriterionResult;
  t_summary : option string;
  t_topIssues : list string
}.

(** [data.score < 4 ? 'critical' : data.score < 7 ? 'warning' : 'info'].
    [null] compares as the number 0; on [undefined] both comparisons
    are false. *)
Definition severity_of_score (s : ScoreField) : string :=
  match s with
  | NumberScore q => if Qlt_le_dec q 4 then "critical"
                     else if Qlt_le_dec q 7 then "warning" else "info"
  | NullScore => "critical"
  | NoScore => "info"
  end.

(** [data.fixes?.[i] || 'Review and improve this area']. *)
Definition fix_at (fx : option (list string)) (i : nat) : string :=
  match fx with
  | Some l => match nth_error l i with
              | Some f => if String.eqb f "" then "Review and improve this area" else f
              | None => "Review and improve this area"
              end
  | None => "Review and improve this area"
  end.

Fixpoint map_indexed {A B} (f : A -> nat -> B) (l : list A) (i : nat) : list B :=
  match l with
  | [] => []
  | x :: l' => f x i :: map_indexed f l' (S i)
  end.

Definition transformEntry (cid : string) (data : RawScore) : CriterionResult :=
  mkCriterion (Some cid) (raw_score data)
    (map_indexed
       (fun iss i => issue (severity_of_score (raw_value data)) iss
                           (Some (fix_at (fixes data) i)))
       (match raw_issues data with Some l => l | None => [] end) 0)
    (explanation data).

Definition transformScores (claudeScores : Response) : Transformed :=
  mkTransformed
    (fold_left (fun transformed (e : string * RawScore) =>
                  Js.set transformed (fst e) (transformEntry (fst e) (snd e)))
               (Js.entries (match scores claudeScores with Some o => o | None => [] end))
               [])
    (raw_summary claudeScores)
    (match raw_topIssues claudeScores with Some l => l | None => [] end).

End ClaudeClient.

(** ** Strings and the regular expressions the rules use *)

Module Str.

Definition code (c : ascii) : nat := nat_of_ascii c.

Definition is_upper (c : ascii) : bool := (65 <=? code c)%nat && (code c <=? 90)%nat.
Definition is_lower (c : ascii) : bool := (97 <=? code c)%nat && (code c <=? 122)%nat.
Definition is_digit (c : ascii) : bool := (48 <=? code c)%nat && (code c <=? 57)%nat.

(** [\w]: letters, digits and the underscore. *)
Definition is_word (c : ascii) : bool :=
  is_upper c || is_lower c || is_digit c || (code c =? 95)%nat.

(** [\s] within the 8-bit range: TAB, LF, VT, FF, CR, space, NBSP. *)
Definition is_space (c : ascii) : bool :=
  ((9 <=? code c)%nat && (code c <=? 13)%nat) || (code c =? 32)%nat
  || (code c =? 160)%nat.

Definition lower_char (c : ascii) : ascii :=
  if is_upper c then ascii_of_nat (code c + 32) else c.

Fixpoint toLowerCase (s : string) : string :=
  match s with
  | EmptyString => EmptyString
  | String c s' => String (lower_char c) (toLowerCase s')
  end.

(** [s.startsWith(p)]. *)
Fixpoint startsWith (p s : string) : bool :=
  match p, s with
  | EmptyString, _ => true
  | String a p', String b s' => Ascii.eqb a b && startsWith p' s'
  | String _ _, EmptyString => false
  end.

(** [s.includes(p)]. *)
Fixpoint includes (s p : string) : bool :=
  startsWith p s ||
  match s with
  | EmptyString => false
  | String _ s' => includes s' p
  end.

(** [\b] between two neighbours; [None] is the edge of the input. *)
Definition word_at (c : option ascii) : bool :=
  match c with Some a => is_word a | None => false end.

Definition boundary (prev next : option ascii) : bool :=
  xorb (word_at prev) (word_at next).

Definition head (s : string) : option ascii :=
  match s with EmptyString => None | String c _ => Some c end.

(** Elements of the patterns built by the rules: a literal character
    (matched ignoring ASCII case, flag [i]) or [\s+]. *)
Inductive Elem : Type :=
| Lit (c : ascii)
| Spaces.

(** [term.replace(/\s+/g, '\\s+')] read as a pattern. *)
Fixpoint pattern_of (in_space : bool) (term : string) : list Elem :=
  match term with
  | EmptyString => []
  | String c t' =>
      if is_space c
      then if in_space then pattern_of true t' else Spaces :: pattern_of true t'
      else Lit c :: pattern_of false t'
  end.

(** A literal term, no rewriting of blanks. *)
Fixpoint literal (term : string) : list Elem :=
  match term with
  | EmptyString => []
  | String c t' => Lit c :: literal t'
  end.

(** The run of white space at the front of [s]: its length, its last
    character and what follows. *)
Fixpoint span_spaces (last : option ascii) (s : string) : nat * option ascii * string :=
  match s with
  | String c s' =>
      if is_space c
      then let '(n, l, r) := span_spaces (Some c) s' in (S n, l, r)
      else (O, last, s)
  | EmptyString => (O, last, s)
  end.

(** Match the elements at the front of [s]; the result is the number of
    characters consumed, the last of them and the rest.  [\s+] is greedy;
    the element after it is never white space in the rules' patterns, so
    giving characters back cannot produce a match. *)
Fixpoint match_elems (pat : list Elem) (last : option ascii) (s : string)
  : option (nat * option ascii * string) :=
  match pat with
  | [] => Some (O, last, s)
  | Lit c :: pat' =>
      match s with
      | String d s' =>
          if Ascii.eqb (lower_char c) (lower_char d)
          then match match_elems pat' (Some d) s' with
               | Some (n, l, r) => Some (S n, l, r)
               | None => None
               end
          else None
      | EmptyString => None
      end
  | Spaces :: pat' =>
      match span_spaces last s with
      | (O, _, _) => None
      | (k, l, r) =>
          match match_elems pat' l r with
          | Some (n, l', r') => Some ((k + n)%nat, l', r')
          | None => None
          end
      end
  end.

(** [\b pat \b] tried at the front of [s], [prev] being the character
    before it: the length of the match. *)
Definition match_word (pat : list Elem) (prev : option ascii) (s : string) : option nat :=
  if boundary prev (head s)
  then match match_elems pat prev s with
       | Some (n, l, r) => if boundary l (head r) then Some n else None
       | None => None
       end
  else None.

(** Number of matches of [/\b pat \b/gi] in [s] ([text.match(regex)],
    0 for [null]): leftmost first, the search resuming after each match.
    [skip] counts the characters of the last match still to pass. *)
Fixpoint count_from (pat : list Elem) (prev : option ascii) (skip : nat) (s : string) : Z :=
  match s with
  | EmptyString => 0
  | String c s' =>
      match skip with
      | S k => count_from pat (Some c) k s'
      | O =>
          match match_word pat prev s with
          | Some (S n) => 1 + count_from pat (Some c) n s'
          | _ => count_from pat (Some c) O s'
          end
      end
  end.

Definition count_word (pat : list Elem) (text : string) : Z :=
  count_from pat None O text.

(** [arr.join(sep)]. *)
Fixpoint join (sep : string) (l : list string) : string :=
  match l with
  | [] => ""
  | [x] => x
  | x :: l' => x ++ sep ++ join sep l'
  end.

(** The double-quote character. *)
Definition dq : string := String (ascii_of_nat 34) EmptyString.

End Str.

(** ** Content, metrics and configuration *)

Record Paragraph : Type := mkParagraph {
  p_text : string;
  p_wordCount : Z;
  p_index : Z
}.

Record Heading : Type := mkHeading {
  h_level : string;
  h_text : string
}.

Record DocList : Type := mkDocList {
  list_type : string;
  list_items : list string;
  list_itemCount : Z
}.

Record Image : Type := mkImage {
  img_src : string;
  img_hasAlt : bool;
  img_index : Z
}.

Record Table : Type := mkTable {
  tbl_caption : option string;
  tbl_headers : option (list string);
  tbl_rows : option (list (list string))
}.

Record CodeBlock : Type := mkCodeBlock {
  cb_type : option string;
  cb_language : option string;
  cb_content : string
}.

Record Callout : Type := mkCallout {
  co_type : string;
  co_text : string
}.

Record Link : Type := mkLink {
  link_type : string;
  link_href : string
}.

Record Structure : Type := mkStructure {
  headings : list Heading;
  paragraphs : list Paragraph;
  lists : list DocList;
  images : list Image;
  tables : list Table;
  codeBlocks : list CodeBlock;
  links : list Link;
  callouts : option (list Callout)
}.

(** One entry of [content.sections]. *)
Record DocSection : Type := mkDocSection {
  s_title : option string;
  s_level : option Z;
  s_paragraphs : list Paragraph;
  s_lists : list DocList;
  s_images : list Image;
  s_tables : list Table;
  s_codeBlocks : list CodeBlock;
  s_wordCount : Z
}.

Record Content : Type := mkContent {
  c_url : option string;
  c_title : option string;
  structure : Structure;
  fullText : string;
  wordCount : Z;
  c_sections : option (list DocSection)
}.

(** Metrics, in the shape the rules read them. *)
Record LongParagraph : Type := mkLongParagraph {
  lp_text : string;
  lp_wordCount : Z;
  lp_index : Z
}.

Record LongSample : Type := mkLongSample {
  ls_paragraphIndex : Z;
  ls_wordCount : Z;
  ls_text : string
}.

Record SentenceMetrics : Type := mkSentenceMetrics {
  sm_total : Z;
  sm_avgLength : Z;
  sm_longCount : Z;
  sm_complexCount : Z;
  sm_longSamples : list LongSample
}.

Record ParagraphMetrics : Type := mkParagraphMetrics {
  pm_count : Z;
  pm_avgLength : Z;
  pm_maxLength : Z;
  pm_longCount : Z;
  pm_longParagraphs : list LongParagraph;
  pm_sentences : option SentenceMetrics
}.

Record HierarchyIssue : Type := mkHierarchyIssue {
  hi_type : string;
  hi_message : string;
  hi_index : Z
}.

Record Hierarchy : Type := mkHierarchy {
  valid : bool;
  hierarchy_issues : list HierarchyIssue
}.

Record HeadingMetrics : Type := mkHeadingMetrics {
  hm_count : Z;
  hm_hasH1 : bool;
  hm_hasH2 : bool;
  hm_h1Count : option Z;
  hm_firstLevel : option Z;
  hm_hierarchyValid : Hierarchy;
  hm_levels : list Z;
  hm_distribution : Js.JsObject Z
}.

Record ListMetrics : Type := mkListMetrics {
  lm_count : Z;
  lm_totalItems : Z;
  lm_listToParagraphRatio : Q;
  lm_orderedCount : option Z;
  lm_proceduralCount : option Z;
  lm_descriptiveCount : option Z
}.

Record MissingAlt : Type := mkMissingAlt {
  ma_src : string;
  ma_index : Z
}.

Record ImageMetrics : Type := mkImageMetrics {
  im_count : Z;
  im_withAlt : Z;
  im_withoutAlt : Z;
  im_altTextCoverage : Q;
  im_imageToTextRatio : Q;
  im_missingAlt : list MissingAlt
}.

Record ContentMetrics : Type := mkContentMetrics {
  cm_totalBlocks : Z;
  cm_visualBlocks : Z;
  cm_visualToContentRatio : Q;
  cm_wordCount : Z;
  cm_codeBlocks : Z;
  cm_tables : Z
}.

Record BrokenLink : Type := mkBrokenLink {
  bl_href : string;
  bl_reason : option string
}.

(** The link metrics as [scoreLinkIntegrity] reads them.  [brokenCount]
    and [brokenLinks] are set by the parser that runs the link-integrity
    checks; the metrics of js/parser.js have neither field, and the
    record stands for them only where [total] is 0, the case in which
    [scoreLinkIntegrity] reads neither. *)
Record LinkMetrics : Type := mkLinkMetrics {
  lk_total : Z;
  lk_internal : Z;
  lk_external : Z;
  lk_brokenCount : Z;
  lk_brokenLinks : list BrokenLink
}.

Record Metrics : Type := mkMetrics {
  m_paragraphs : ParagraphMetrics;
  m_headings : HeadingMetrics;
  m_lists : ListMetrics;
  m_images : ImageMetrics;
  m_content : ContentMetrics;
  m_links : option LinkMetrics
}.

(** [window.ScoringConfig.categories[cat].criteria[id]]: the overrides a
    criterion may carry.  An absent configuration is the empty object. *)
Record CriterionConfig : Type := mkCriterionConfig {
  cfg_weight : option Q;
  cfg_threshold : option Z;
  cfg_idealRatio : option Q
}.

Definition Config : Type := Js.JsObject (Js.JsObject CriterionConfig).

Definition cfg_criterion (cfg : Config) (cat id : string) : option CriterionConfig :=
  match Js.get cfg cat with
  | Some criteria => Js.get criteria id
  | None => None
  end.

Definition cfg_get {A} (cfg : Config) (cat id : string)
           (field : CriterionConfig -> option A) : option A :=
  match cfg_criterion cfg cat id with
  | Some c => field c
  | None => None
  end.

(** What a rule module's [scoreAll] returns. *)
Record RuleResult : Type := mkRuleResult {
  categoryScore : Q;
  criteria : Js.JsObject CriterionResult;
  rule_allIssues : list Issue
}.

(** The comparator of the rule modules,
    [severityOrder[a.severity] - severityOrder[b.severity]]: a severity
    outside the literal makes the difference NaN, which [sort] reads as
    "equal". *)
Definition ruleSeverityLeb (a b : Issue) : bool :=
  match severityOrder (severity a), severityOrder (severity b) with
  | Some x, Some y => (x <=? y)%Z
  | _, _ => true
  end.

Definition sort_issues (l : list Issue) : list Issue := Js.sort_by ruleSeverityLeb l.

(** The weighted mean of a module's criteria, one decimal:
    [weights[id] || fallback] for each criterion in enumeration order.
    Every criterion of a rule module has a numeric score. *)
Definition weighted_category_score (weights : Js.JsObject Q) (fallback : Q)
           (crit : Js.JsObject CriterionResult) : Q :=
  let step (acc : Q * Q) (e : string * CriterionResult) :=
      let weight := Js.num_or (Js.get weights (fst e)) fallback in
      let s := match score (snd e) with Some q => q | None => 0%Q end in
      (fst acc + s * weight, snd acc + weight)%Q in
  let (weightedSum, totalWeight) := fold_left step (Js.entries crit) (0, 0)%Q in
  Js.round1 (weightedSum / totalWeight).

(** ** Content-structure rules (js/rules/content-structure.js) *)

Module ContentStructureRules.

Definition cat : string := "content-structure".

Definition fixBreak : string :=
  "Consider breaking this paragraph into bullet points or shorter sections".

(** The issue pushed for one entry of [paragraphs.longParagraphs]. *)
Definition longParagraphIssue (threshold : Z) (p : LongParagraph) : Issue :=
  mkIssue (if (200 <? lp_wordCount p)%Z then "critical" else "warning")
          ("Paragraph " ++ Js.show (lp_index p + 1) ++ " has "
             ++ Js.show (lp_wordCount p) ++ " words (threshold: "
             ++ Js.show threshold ++ ")")
          (Some fixBreak)
          (Some ("Paragraph " ++ Js.show (lp_index p + 1)))
          (Some (lp_text p))
          None None None.

Definition longSampleIssue (sample : LongSample) : Issue :=
  mkIssue "info"
          ("Long sentence in paragraph " ++ Js.show (ls_paragraphIndex sample + 1)
             ++ " (" ++ Js.show (ls_wordCount sample) ++ " words)")
          (Some "Break this sentence into shorter sentences")
          (Some ("Paragraph " ++ Js.show (ls_paragraphIndex sample + 1)))
          (Some (ls_text sample))
          None None None.

(** [longRatio > 0.2] for the sentence metrics, when they are present
    with a positive total. *)
Definition manyLongSentences (sm : option SentenceMetrics) : bool :=
  match sm with
  | Some s =>
      (0 <? sm_total s)%Z
      && negb (Qle_bool (inject_Z (sm_longCount s) / inject_Z (sm_total s)) (2 # 10))
  | None => false
  end.

Definition sentenceIssues (sm : option SentenceMetrics) : list Issue :=
  match sm with
  | Some s =>
      if (0 <? sm_total s)%Z then
        (if manyLongSentences sm
         then [issue "warning" (Js.show (sm_longCount s) ++ " long sentences detected")
                     (Some "Split long sentences into shorter, single-idea statements")]
         else [])
        ++ (if (0 <? sm_complexCount s)%Z
            then [issue "info" (Js.show (sm_complexCount s) ++ " sentences have multiple clauses")
                        (Some "Reduce clause density for better readability")]
            else [])
        ++ map longSampleIssue (sm_longSamples s)
      else []
  | None => []
  end.

(** [scoreParagraphBrevity] (CS-01). *)
Definition scoreParagraphBrevity (cfg : Config) (metrics : Metrics) : CriterionResult :=
  let paragraphs := m_paragraphs metrics in
  let threshold := Js.int_or (cfg_get cfg cat "CS-01" cfg_threshold) 150 in
  if (pm_count paragraphs =? 0)%Z then
    mkCriterion (Some "CS-01") (Some 10%Q) []
      (Some "No paragraphs found (content may be structured as lists/tables)")
  else
    let underThreshold := (pm_count paragraphs - pm_longCount paragraphs)%Z in
    let percentageGood := (inject_Z underThreshold / inject_Z (pm_count paragraphs))%Q in
    let score0 := Js.Math_round (percentageGood * 10)%Q in
    let score1 := if manyLongSentences (pm_sentences paragraphs)
                  then (score0 - 1)%Z else score0 in
    mkCriterion (Some "CS-01")
      (Some (inject_Z (Js.clamp10 score1)))
      (map (longParagraphIssue threshold) (pm_longParagraphs paragraphs)
         ++ sentenceIssues (pm_sentences paragraphs))
      (Some (Js.show (pm_longCount paragraphs) ++ " of " ++ Js.show (pm_count paragraphs)
               ++ " paragraphs exceed " ++ Js.show threshold
               ++ " words. Average length: " ++ Js.show (pm_avgLength paragraphs)
               ++ " words. Avg sentence length: "
               ++ Js.show (match pm_sentences paragraphs with
                           | Some s => sm_avgLength s
                           | None => 0%Z
                           end)
               ++ " words.")).

Definition gtz (a : option Z) (b : Z) : bool :=
  match a with Some x => (b <? x)%Z | None => false end.

Definition eqz (a : option Z) (b : Z) : bool :=
  match a with Some x => (x =? b)%Z | None => false end.

(** [scoreListUsage] (CS-02). *)
Definition scoreListUsage (str : Js.NumberToString) (cfg : Config) (metrics : Metrics)
  : CriterionResult :=
  let lists := m_lists metrics in
  let paragraphs := m_paragraphs metrics in
  let idealRatio := Js.num_or (cfg_get cfg cat "CS-02" cfg_idealRatio) (3 # 10) in
  let actualRatio := lm_listToParagraphRatio lists in
  if (pm_count paragraphs =? 0)%Z && (lm_count lists =? 0)%Z then
    mkCriterion (Some "CS-02") (Some 5%Q)
      [issue "info" "No paragraphs or lists found" None]
      (Some "Unable to assess list usage - no text content found")
  else
    let raw : Q :=
        if Qle_bool idealRatio actualRatio
        then Qmin 10 (7 + (actualRatio - idealRatio) * 10)%Q
        else inject_Z (Js.Math_round ((actualRatio / idealRatio) * 7)%Q) in
    let score0 := Js.clamp10 (Js.Math_round raw) in
    let unordered := gtz (lm_proceduralCount lists) 0 && eqz (lm_orderedCount lists) 0 in
    let score1 := if unordered then (score0 - 1)%Z else score0 in
    mkCriterion (Some "CS-02")
      (Some (inject_Z (Z.max 0 score1)))
      ((if negb (Qle_bool (1 # 10) actualRatio) && (3 <? pm_count paragraphs)%Z
        then [mkIssue "warning" "Low list usage in procedural content"
                (Some "Consider converting step-by-step instructions into numbered lists")
                None None
                (Some ("List-to-paragraph ratio " ++ str actualRatio
                         ++ " is below 0.1 (ideal: " ++ str idealRatio ++ ")"))
                None None]
        else [])
       ++ (if unordered
           then [issue "warning" "Procedural lists are not ordered"
                       (Some "Use numbered lists for step-by-step instructions")]
           else [])
       ++ (if gtz (lm_descriptiveCount lists) 0 && eqz (lm_proceduralCount lists) 0
              && (0 <? lm_count lists)%Z
           then [issue "info" "Lists appear descriptive rather than procedural"
                       (Some "Ensure procedural steps are captured in ordered lists")]
           else []))
      (Some ("List-to-paragraph ratio: " ++ str actualRatio ++ " (ideal: "
               ++ str idealRatio ++ "). " ++ Js.show (lm_count lists)
               ++ " lists with " ++ Js.show (lm_totalItems lists)
               ++ " total items. Procedural lists: "
               ++ Js.show_opt (lm_proceduralCount lists)
               ++ ", descriptive lists: "
               ++ Js.show_opt (lm_descriptiveCount lists) ++ ".")).

(** [JSON.stringify] of the heading distribution. *)
Definition stringify_distribution (d : Js.JsObject Z) : string :=
  "{" ++ Str.join "," (map (fun e : string * Z =>
                              Str.dq ++ fst e ++ Str.dq ++ ":" ++ Js.show (snd e))
                           (Js.entries d))
      ++ "}".

Definition skipIssue (hi : HierarchyIssue) : Issue :=
  mkIssue "warning" (hi_message hi)
          (Some "Maintain proper heading hierarchy without skipping levels")
          (Some ("Heading " ++ Js.show (hi_index hi + 1)))
          None
          (Some "Detected a skipped heading level in the hierarchy")
          None None.

(** [scoreHeadingHierarchy] (CS-04). *)
Definition scoreHeadingHierarchy (metrics : Metrics) : CriterionResult :=
  let headings := m_headings metrics in
  if (hm_count headings =? 0)%Z then
    mkCriterion (Some "CS-04") (Some 3%Q)
      [issue "critical" "No headings found"
             (Some "Add descriptive headings to structure the content")]
      (Some "Page has no heading structure")
  else
    let noH1 := negb (hm_hasH1 headings) in
    let manyH1 := gtz (hm_h1Count headings) 1 in
    let deep := match hm_firstLevel headings with
                | Some l => negb (l =? 0)%Z && (1 <? l)%Z
                | None => false
                end in
    let noH2 := negb (hm_hasH2 headings)
                && existsb (fun level => (3 <=? level)%Z) (hm_levels headings) in
    let invalid := negb (valid (hm_hierarchyValid headings)) in
    let skips := hierarchy_issues (hm_hierarchyValid headings) in
    let skipCount := Z.of_nat (List.length skips) in
    let totalBlocks := cm_totalBlocks (m_content metrics) in
    let perBlock := (inject_Z (hm_count headings) / inject_Z (Z.max 1 totalBlocks))%Q in
    let sparse := negb (Qle_bool (5 # 100) perBlock) && (10 <? totalBlocks)%Z in
    let score :=
        (10 - (if noH1 then 2 else 0) - (if manyH1 then 1 else 0)
            - (if deep then 1 else 0) - (if noH2 then 1 else 0)
            - (if invalid then Z.min 5 (skipCount * 2) else 0)
            - (if sparse then 1 else 0))%Z in
    mkCriterion (Some "CS-04")
      (Some (inject_Z (Z.max 0 score)))
      ((if noH1
        then [mkIssue "warning" "Page lacks an H1 heading"
                (Some "Add a clear H1 heading that describes the page purpose")
                None None
                (Some "Expected a single H1 to establish page context") None None]
        else [])
       ++ (if manyH1
           then [issue "warning"
                       ("Multiple H1 headings found ("
                          ++ Js.show_opt (hm_h1Count headings) ++ ")")
                       (Some "Use a single H1 for the page title and demote others to H2/H3")]
           else [])
       ++ (if deep
           then [issue "warning"
                       ("First heading starts at h" ++ Js.show_opt (hm_firstLevel headings))
                       (Some "Start with an H1 heading to establish page context")]
           else [])
       ++ (if noH2
           then [issue "warning" "Missing H2 headings before deeper sections"
                       (Some "Add H2 headings to group sections before using H3/H4")]
           else [])
       ++ (if invalid then map skipIssue skips else [])
       ++ (if sparse
           then [mkIssue "info" "Content could benefit from more section headings"
                   (Some "Add subheadings to break up long sections")
                   None None
                   (Some ("Headings per block " ++ Js.toFixed perBlock 2
                            ++ " is below 0.05")) None None]
           else []))
      (Some (Js.show (hm_count headings) ++ " headings found. Distribution: "
               ++ stringify_distribution (hm_distribution headings))).

Definition brokenLinkIssue (l : BrokenLink) : Issue :=
  mkIssue "info" "Broken anchor link"
          (Some "Add the anchor target or update the link")
          (Some (bl_href l)) None
          (Some (match bl_reason l with
                 | Some r => if String.eqb r "" then "Missing anchor target" else r
                 | None => "Missing anchor target"
                 end))
          None None.

(** [scoreLinkIntegrity] (CS-07). *)
Definition scoreLinkIntegrity (metrics : Metrics) : CriterionResult :=
  match m_links metrics with
  | None => mkCriterion (Some "CS-07") (Some 10%Q) [] (Some "No links found")
  | Some links =>
      if (lk_total links =? 0)%Z then
        mkCriterion (Some "CS-07") (Some 10%Q) [] (Some "No links found")
      else
        let brokenRatio : Q :=
            if (0 <? lk_total links)%Z
            then (inject_Z (lk_brokenCount links) / inject_Z (lk_total links))%Q
            else 0%Q in
        let score := Js.Math_round ((1 - brokenRatio) * 10)%Q in
        mkCriterion (Some "CS-07")
          (Some (inject_Z (Js.clamp10 score)))
          (if (0 <? lk_brokenCount links)%Z
           then mkIssue (if Qle_bool brokenRatio (2 # 10) then "info" else "warning")
                        (Js.show (lk_brokenCount links) ++ " broken internal anchors detected")
                        (Some "Update or remove broken anchors and ensure targets exist")
                        None None
                        (Some ("Broken link ratio: " ++ Js.toFixed (brokenRatio * 100)%Q 0 ++ "%"))
                        None None
                :: map brokenLinkIssue (firstn 5 (lk_brokenLinks links))
           else [])
          (Some (Js.show (lk_brokenCount links) ++ " broken anchors out of "
                   ++ Js.show (lk_total links) ++ " total links."))
  end.

(** The module's [scoreAll]. *)
Definition scoreAll (str : Js.NumberToString) (cfg : Config) (metrics : Metrics) : RuleResult :=
  let crit : Js.JsObject CriterionResult :=
      [ ("CS-01", scoreParagraphBrevity cfg metrics);
        ("CS-02", scoreListUsage str cfg metrics);
        ("CS-04", scoreHeadingHierarchy metrics);
        ("CS-07", scoreLinkIntegrity metrics) ] in
  let weights : Js.JsObject Q :=
      [ ("CS-01", Js.num_or (cfg_get cfg cat "CS-01" cfg_weight) (35 # 100));
        ("CS-02", Js.num_or (cfg_get cfg cat "CS-02" cfg_weight) (30 # 100));
        ("CS-04", Js.num_or (cfg_get cfg cat "CS-04" cfg_weight) (35 # 100));
        ("CS-07", Js.num_or (cfg_get cfg cat "CS-07" cfg_weight) (10 # 100)) ] in
  mkRuleResult (weighted_category_score weights (33 # 100) crit)
               crit
               (sort_issues (flat_map issues (Js.values crit))).

End ContentStructureRules.

(** ** Parser (js/parser.js) *)

Module Parser.

Definition skippedIssue (previousLevel currentLevel i : Z) : HierarchyIssue :=
  mkHierarchyIssue "skipped"
    ("Heading level skipped from h" ++ Js.show previousLevel
       ++ " to h" ++ Js.show currentLevel)
    i.

(** The [for] loop of [validateHeadingHierarchy], from index [i] with
    [previousLevel]. *)
Fixpoint scanLevels (i previousLevel : Z) (levels : list Z) : list HierarchyIssue :=
  match levels with
  | [] => []
  | currentLevel :: rest =>
      (if (previousLevel + 1 <? currentLevel)%Z && negb (previousLevel =? 0)%Z
       then [skippedIssue previousLevel currentLevel i]
       else [])
      ++ scanLevels (i + 1) currentLevel rest
  end.

Definition validateHeadingHierarchy (levels : list Z) : Hierarchy :=
  match levels with
  | [] => mkHierarchy true []
  | _ =>
      let found := scanLevels 0 0 levels in
      mkHierarchy (match found with [] => true | _ => false end) found
  end.

(** [p.text.substring(0, 100) + '...']. *)
Definition preview (text : string) : string := substring 0 100 text ++ "...".

Definition isLong (p : Paragraph) : bool := (150 <? p_wordCount p)%Z.

Definition Zsum (l : list Z) : Z := fold_left Z.add l 0%Z.

(** The [paragraphs] property of the object [computeMetrics] returns
    (parser.js lines 65-70 and 126-136). *)
Definition paragraphMetrics (ps : list Paragraph) : ParagraphMetrics :=
  let paragraphLengths := map p_wordCount ps in
  let longParagraphs := filter isLong ps in
  let n := Z.of_nat (List.length paragraphLengths) in
  let avgParagraphLength : Q :=
      if (0 <? n)%Z then (inject_Z (Zsum paragraphLengths) / inject_Z n)%Q else 0%Q in
  mkParagraphMetrics
    (Z.of_nat (List.length ps))
    (Js.Math_round avgParagraphLength)
    (match paragraphLengths with
     | [] => 0%Z
     | x :: rest => fold_left Z.max rest x
     end)
    (Z.of_nat (List.length longParagraphs))
    (map (fun p => mkLongParagraph (preview (p_text p)) (p_wordCount p) (p_index p))
         longParagraphs)
    None.

(** [s.replace('h', '')]: the first [h] removed. *)
Fixpoint dropFirst_h (s : string) : string :=
  match s with
  | EmptyString => EmptyString
  | String c s' => if Ascii.eqb c "h" then s' else String c (dropFirst_h s')
  end.

Fixpoint digitsPrefix (acc : option Z) (s : string) : option Z :=
  match s with
  | String c s' =>
      if Str.is_digit c
      then digitsPrefix
             (Some (match acc with Some a => a | None => 0 end * 10
                    + Z.of_nat (Str.code c - 48))%Z) s'
      else acc
  | EmptyString => acc
  end.

Fixpoint dropSpaces (s : string) : string :=
  match s with
  | String c s' => if Str.is_space c then dropSpaces s' else s
  | EmptyString => s
  end.

(** [parseInt(s)] on decimal input: leading blanks, a sign, the longest
    run of digits; [None] is NaN. *)
Definition parseInt (s : string) : option Z :=
  match dropSpaces s with
  | String "-" s' => option_map Z.opp (digitsPrefix None s')
  | String "+" s' => digitsPrefix None s'
  | s' => digitsPrefix None s'
  end.

Definition headingLevel (h : Heading) : option Z := parseInt (dropFirst_h (h_level h)).

Fixpoint repeat_string (s : string) (n : nat) : string :=
  match n with O => "" | S k => s ++ repeat_string s k end.

Definition nl : string := String (ascii_of_nat 10) EmptyString.

Fixpoint rev_string (acc s : string) : string :=
  match s with
  | EmptyString => acc
  | String c s' => rev_string (String c acc) s'
  end.

Definition trim (s : string) : string :=
  rev_string "" (dropSpaces (rev_string "" (dropSpaces s))).

(** [value.replace(/\s+/g, ' ')]: every run of blanks becomes one space. *)
Fixpoint collapseSpaces (in_run : bool) (s : string) : string :=
  match s with
  | EmptyString => EmptyString
  | String c s' =>
      if Str.is_space c
      then if in_run then collapseSpaces true s' else String " " (collapseSpaces true s')
      else String c (collapseSpaces false s')
  end.

Definition normalizeCell (value : string) : string := trim (collapseSpaces false value).

Definition formatRow (row : list string) : string :=
  "| " ++ Str.join " | " (map normalizeCell row) ++ " |".

Definition nonEmpty (s : option string) : option string :=
  match s with
  | Some t => if String.eqb t "" then None else Some t
  | None => None
  end.

Definition tableLines (i : nat) (table : Table) : list string :=
  [ nl ++ "## Table " ++ Js.show (Z.of_nat i + 1)
       ++ match nonEmpty (tbl_caption table) with
          | Some c => " - " ++ c
          | None => ""
          end ]
  +++ match tbl_headers table with
     | Some (h :: hs) =>
         [ formatRow (h :: hs);
           "| " ++ Str.join " | " (map (fun _ => "---") (h :: hs)) ++ " |" ]
     | _ => []
     end
  +++ match tbl_rows table with
     | Some rows =>
         flat_map (fun row => match row with [] => [] | _ => [formatRow row] end)
                  (firstn 3 rows)
     | None => []
     end.

Definition codeLines (i : nat) (block : CodeBlock) : list string :=
  let language := match nonEmpty (cb_language block) with
                  | Some l => if String.eqb l "unknown" then "" else l
                  | None => ""
                  end in
  let trimmed := if (500 <? String.length (cb_content block))%nat
                 then substring 0 500 (cb_content block) ++ "..."
                 else cb_content block in
  [ "[Code " ++ Js.show (Z.of_nat i + 1) ++ "]";
    "```" ++ language;
    trimmed;
    "```" ].

Definition listLines (i : nat) (l : DocList) : list string :=
  ("[List " ++ Js.show (Z.of_nat i + 1) ++ " - " ++ list_type l ++ "]")
  :: ClaudeClient.map_indexed
       (fun item j =>
          "  " ++ (if String.eqb (list_type l) "ol"
                   then Js.show (Z.of_nat j + 1) ++ "." else "-")
               ++ " " ++ item)
       (list_items l) 0.

(** ['#'.repeat(parseInt(...))]: NaN repeats zero times, a negative
    count is a RangeError. *)
Definition headingPrefix (h : Heading) : Completion string :=
  match headingLevel h with
  | Some n => if (n <? 0)%Z
              then Throw (mkError ("Invalid count value: " ++ Js.show n))
              else Normal (repeat_string "#" (Z.to_nat n))
  | None => Normal ""
  end.

(** The [for] loop over the headings. *)
Fixpoint headingText (currentText : string) (hs : list Heading) : Completion string :=
  match hs with
  | [] => Normal currentText
  | h :: rest =>
      match headingPrefix h with
      | Normal prefix =>
          headingText (currentText ++ nl ++ nl ++ prefix ++ " " ++ h_text h) rest
      | Throw e => Throw e
      end
  end.

(** The rest of [getTextForAnalysis], given the text of the headings. *)
Definition assembleText (content : Content) (headingLines : list string) : string :=
  let st := structure content in
  let sections : list string :=
      match nonEmpty (c_title content) with
      | Some t => ["# " ++ t]
      | None => []
      end
      +++ headingLines
      +++ match paragraphs st with
         | [] => []
         | ps =>
             (nl ++ "## Content Paragraphs:")
             :: ClaudeClient.map_indexed
                  (fun p i => "[P" ++ Js.show (Z.of_nat i + 1) ++ "] " ++ p_text p)
                  ps 0
         end
      +++ match lists st with
         | [] => []
         | ls => (nl ++ "## Lists:")
                 :: List.concat (ClaudeClient.map_indexed (fun l i => listLines i l) ls 0)
         end
      +++ match callouts st with
         | Some (c :: cs) =>
             (nl ++ "## Callouts:")
             :: ClaudeClient.map_indexed
                  (fun co i => "[Callout " ++ Js.show (Z.of_nat i + 1) ++ " - "
                                 ++ co_type co ++ "] " ++ co_text co)
                  (c :: cs) 0
         | _ => []
         end
      +++ List.concat (ClaudeClient.map_indexed (fun t i => tableLines i t)
                                          (firstn 3 (tables st)) 0)
      +++ match filter (fun b => match cb_type b with
                                | Some t => negb (String.eqb t "inline")
                                | None => true
                                end) (codeBlocks st) with
         | [] => []
         | blockCode =>
             (nl ++ "## Code Blocks:")
             :: List.concat (ClaudeClient.map_indexed (fun b i => codeLines i b)
                                                 (firstn 3 blockCode) 0)
         end in
  trim (Str.join nl sections).

(** [getTextForAnalysis]: the text sent to the semantic capability. *)
Definition getTextForAnalysis (content : Content) : Completion string :=
  match headings (structure content) with
  | [] => Normal (assembleText content [])
  | hs =>
      match headingText "" hs with
      | Normal currentText => Normal (assembleText content [currentText])
      | Throw e => Throw e
      end
  end.

(** *** The metrics [computeMetrics] derives (parser.js lines 71-181)

    The object is modelled property by property; the heading
    distribution is given for levels that are numbers. *)

(** [getHeadingDistribution(levels)]. *)
Definition getHeadingDistribution (levels : list Z) : Js.JsObject Z :=
  fold_left (fun dist level =>
               let key := "h" ++ Js.show level in
               Js.set dist key (Js.int_or (Js.get dist key) 0 + 1)%Z)
            levels [].

(** [levels.filter(level => level === n).length]. *)
Definition countLevel (n : Z) (levels : list Z) : Z :=
  Z.of_nat (List.length (filter (fun level => (level =? n)%Z) levels)).

(** [Math.round(x * 100) / 100]. *)
Definition round2 (x : Q) : Q := (inject_Z (Js.Math_round (x * 100)) / 100)%Q.

(** The alternatives of [proceduralVerbPattern], in source order. *)
Definition proceduralVerbs : list string :=
  [ "click"; "select"; "choose"; "open"; "go to"; "enter"; "type"; "add"; "remove";
    "delete"; "enable"; "disable"; "run"; "install"; "configure"; "create"; "update";
    "save"; "set"; "navigate"; "verify"; "copy"; "paste"; "upload"; "download"; "edit";
    "apply"; "start"; "stop"; "restart"; "connect"; "sign in"; "log in"; "sign out";
    "logout" ].

(** [/^(verb)\b/i.test(s)] for one alternative. *)
Definition startsWithWord (verb s : string) : bool :=
  match Str.match_elems (Str.literal verb) None s with
  | Some (_, l, r) => Str.boundary l (Str.head r)
  | None => false
  end.

(** [/^step\s+\d+/i.test(s)]. *)
Definition startsWithStep (s : string) : bool :=
  match Str.match_elems (Str.literal "step" +++ [Str.Spaces]) None s with
  | Some (_, _, String c _) => Str.is_digit c
  | _ => false
  end.

Definition isProceduralItem (text : string) : bool :=
  existsb (fun verb => startsWithWord verb (trim text)) proceduralVerbs
  || startsWithStep (trim text).

(** [list.type === 'ol' || proceduralItems >= Math.max(1, Math.ceil(n * 0.3))]. *)
Definition isProceduralList (l : DocList) : bool :=
  let proceduralItems := Z.of_nat (List.length (filter isProceduralItem (list_items l))) in
  String.eqb (list_type l) "ol"
  || (Z.max 1 (Qceiling (inject_Z (Z.of_nat (List.length (list_items l))) * (3 # 10)))
      <=? proceduralItems)%Z.

(** The [lists] property. *)
Definition listMetrics (st : Structure) : ListMetrics :=
  let n := Z.of_nat (List.length (lists st)) in
  let paragraphCount := Z.of_nat (List.length (paragraphs st)) in
  let orderedCount :=
      Z.of_nat (List.length (filter (fun l => String.eqb (list_type l) "ol") (lists st))) in
  let proceduralCount := Z.of_nat (List.length (filter isProceduralList (lists st))) in
  let listToParagraphRatio : Q :=
      if (0 <? paragraphCount)%Z then (inject_Z n / inject_Z paragraphCount)%Q else 0%Q in
  mkListMetrics n (Zsum (map list_itemCount (lists st))) (round2 listToParagraphRatio)
                (Some orderedCount) (Some proceduralCount) (Some (n - proceduralCount)%Z).

(** The [images] property. *)
Definition imageMetrics (content : Content) : ImageMetrics :=
  let imgs := images (structure content) in
  let n := Z.of_nat (List.length imgs) in
  let imagesWithAlt := Z.of_nat (List.length (filter img_hasAlt imgs)) in
  let altTextCoverage : Q :=
      if (0 <? n)%Z then (inject_Z imagesWithAlt / inject_Z n)%Q else 1%Q in
  let imageToTextRatio : Q :=
      if (0 <? wordCount content)%Z
      then (inject_Z n / (inject_Z (wordCount content) / 100))%Q
      else 0%Q in
  mkImageMetrics n imagesWithAlt (n - imagesWithAlt)%Z
                 (round2 altTextCoverage) (round2 imageToTextRatio)
                 (map (fun img => mkMissingAlt (img_src img) (img_index img))
                      (filter (fun img => negb (img_hasAlt img)) imgs)).

(** The [content] property.  [structure.callouts.length] is read
    without a guard: a payload without the array ends the computation
    with a TypeError.  The count of callouts is also stored under
    [content.callouts]; no rule reads it. *)
Definition contentMetrics (content : Content) : Completion ContentMetrics :=
  let st := structure content in
  match callouts st with
  | None => Throw (TypeError_undefined "length")
  | Some cs =>
      let totalContentBlocks :=
          (Z.of_nat (List.length (paragraphs st)) + Z.of_nat (List.length (lists st))
           + Z.of_nat (List.length (tables st)) + Z.of_nat (List.length (codeBlocks st))
           + Z.of_nat (List.length cs))%Z in
      let visualBlocks :=
          (Z.of_nat (List.length (images st)) + Z.of_nat (List.length (tables st)))%Z in
      let visualToContentRatio : Q :=
          if (0 <? totalContentBlocks)%Z
          then (inject_Z visualBlocks / inject_Z totalContentBlocks)%Q
          else 0%Q in
      Normal (mkContentMetrics totalContentBlocks visualBlocks
                               (round2 visualToContentRatio) (wordCount content)
                               (Z.of_nat (List.length (codeBlocks st)))
                               (Z.of_nat (List.length (tables st))))
  end.

End Parser.

(** ** Terminology rules (part_003) *)

Module TerminologyRules.

Definition CONFUSABLE_TERMS : list (string * list string) :=
  [ ("deactivate", ["disable"; "turn off"; "switch off"; "inactivate"]);
    ("delete", ["remove"; "erase"; "clear"; "discard"; "trash"]);
    ("enable", ["activate"; "turn on"; "switch on"]);
    ("create", ["add"; "make"; "new"; "generate"]);
    ("edit", ["modify"; "change"; "update"; "alter"]);
    ("save", ["store"; "keep"; "preserve"]);
    ("cancel", ["abort"; "stop"; "terminate"; "end"]);
    ("connect", ["link"; "attach"; "join"; "integrate"]);
    ("disconnect", ["unlink"; "detach"; "separate"; "remove connection"]);
    ("configure", ["set up"; "setup"; "customize"; "adjust"]);
    ("install", ["set up"; "add"; "deploy"]);
    ("uninstall", ["remove"; "delete"; "uninstall"]) ].

Definition STOP_WORDS : list string :=
  [ "the"; "and"; "that"; "this"; "with"; "from"; "your"; "you"; "for"; "are";
    "was"; "were"; "will"; "have"; "has"; "had"; "then"; "than"; "into"; "onto";
    "over"; "under"; "after"; "before"; "when"; "where"; "what"; "which"; "who";
    "whom"; "why"; "how"; "can"; "cannot"; "could"; "should"; "would"; "not";
    "yes"; "no"; "use"; "using"; "used"; "via"; "per"; "each" ].

Definition quoted (s : string) : string := Str.dq ++ s ++ Str.dq.

(** *** AV-02: confusable terms *)

Record RiskPair : Type := mkRiskPair {
  term1 : string;
  term2 : string;
  context : string
}.

Definition highRiskPairs : list RiskPair :=
  [ mkRiskPair "delete" "remove" "data operations";
    mkRiskPair "deactivate" "disable" "state changes";
    mkRiskPair "uninstall" "remove" "application management" ].

(** [text.match(new RegExp(`\\b${term}\\b`, 'gi'))], counted. *)
Definition occurrences (text term : string) : Z :=
  Str.count_word (Str.literal term) text.

(** [terms.map(...).filter(t => t.count > 0)] for one pair. *)
Definition presentTerms (text : string) (pr : RiskPair) : list (string * Z) :=
  filter (fun tc : string * Z => (0 <? snd tc)%Z)
         [ (term1 pr, occurrences text (term1 pr));
           (term2 pr, occurrences text (term2 pr)) ].

Definition flagged (text : string) (pr : RiskPair) : bool :=
  (1 <? List.length (presentTerms text pr))%nat.

Definition confusableIssue (text : string) (pr : RiskPair) : Issue :=
  let counts := presentTerms text pr in
  mkIssue "warning"
    ("Potentially confusable terms in " ++ context pr ++ ": "
       ++ Str.join " and " (map (fun c => quoted (fst c)) counts))
    (Some ("Ensure " ++ quoted (term1 pr) ++ " and " ++ quoted (term2 pr)
             ++ " have clearly distinct meanings or standardize on one term"))
    None None
    (Some (Str.join ", "
             (map (fun c : string * Z =>
                     quoted (fst c) ++ " used " ++ Js.show (snd c) ++ "x")
                  counts)))
    None None.

(** [detectConfusableTerms] (AV-02). *)
Definition detectConfusableTerms (content : Content) : CriterionResult :=
  let text := Str.toLowerCase (fullText content) in
  let found :=
      flat_map (fun pr => if flagged text pr then [confusableIssue text pr] else [])
               highRiskPairs in
  let score := Z.max 0 (10 - Z.of_nat (List.length found) * 2) in
  mkCriterion (Some "AV-02") (Some (inject_Z score)) found
    (Some ("Checked " ++ Js.show (Z.of_nat (List.length highRiskPairs))
             ++ " high-risk term pairs")).

(** *** AV-01: term consistency *)

Record TermGroup : Type := mkTermGroup {
  variants : Js.JsObject Z;
  total : Z
}.

(** [text.match(new RegExp(`\\b${term.replace(/\s+/g, '\\s+')}\\b`, 'gi'))],
    counted. *)
Definition occurrencesSpaced (text term : string) : Z :=
  Str.count_word (Str.pattern_of false term) text.

Definition extractActionTerms (content : Content) : Js.JsObject TermGroup :=
  let text := Str.toLowerCase (fullText content) in
  fold_left
    (fun terms (group : string * list string) =>
       let primary := fst group in
       fold_left
         (fun terms term =>
            let n := occurrencesSpaced text term in
            if (0 <? n)%Z then
              let g := match Js.get terms primary with
                       | Some g => g
                       | None => mkTermGroup [] 0
                       end in
              Js.set terms primary
                     (mkTermGroup (Js.set (variants g) term n) (total g + n))
            else terms)
         (primary :: snd group) terms)
    CONFUSABLE_TERMS [].

(** [text.split(/[^a-z0-9-]+/).filter(Boolean)]. *)
Definition token_char (c : ascii) : bool :=
  Str.is_lower c || Str.is_digit c || (Str.code c =? 45)%nat.

Definition flushToken (cur : string) (acc : list string) : list string :=
  match cur with
  | EmptyString => acc
  | _ => Parser.rev_string "" cur :: acc
  end.

(** [cur] holds the characters of the token being read, last first. *)
Fixpoint tokensFrom (cur : string) (s : string) : list string :=
  match s with
  | EmptyString => flushToken cur []
  | String c s' =>
      if token_char c then tokensFrom (String c cur) s'
      else flushToken cur (tokensFrom EmptyString s')
  end.

Definition tokenize (text : string) : list string := tokensFrom EmptyString text.

(** [.replace(/-+/g, '-')]. *)
Fixpoint collapseHyphens (in_run : bool) (s : string) : string :=
  match s with
  | EmptyString => EmptyString
  | String c s' =>
      if (Str.code c =? 45)%nat
      then if in_run then collapseHyphens true s' else String c (collapseHyphens true s')
      else String c (collapseHyphens false s')
  end.

Definition endsWith (s suffix : string) : bool :=
  Str.startsWith (Parser.rev_string "" suffix) (Parser.rev_string "" s).

Definition dropLast (n : nat) (s : string) : string :=
  substring 0 (String.length s - n) s.

(** [.replace(/(ing|ed|es|s)$/i, '')]: the leftmost match is the longest
    of the suffixes that apply. *)
Definition stripSuffix (s : string) : string :=
  let l := Str.toLowerCase s in
  if endsWith l "ing" then dropLast 3 s
  else if endsWith l "ed" || endsWith l "es" then dropLast 2 s
  else if endsWith l "s" then dropLast 1 s
  else s.

Fixpoint keepTokenChars (s : string) : string :=
  match s with
  | EmptyString => EmptyString
  | String c s' => if token_char c then String c (keepTokenChars s') else keepTokenChars s'
  end.

Definition normalizeTerm (term : string) : string :=
  stripSuffix (collapseHyphens false (keepTokenChars (Str.toLowerCase term))).

(** One turn of the [forEach] of [extractTerminologyClusters].  A root
    spelled [constructor] finds the inherited property of the object
    literal, skips the initialisation and reads [variants] of a function:
    a TypeError. *)
Definition clusterStep (clusters : Js.JsObject TermGroup) (token : string)
  : Completion (Js.JsObject TermGroup) :=
  if (String.length token <? 4)%nat || existsb (String.eqb token) STOP_WORDS
  then Normal clusters
  else
    let root := normalizeTerm token in
    if (String.length root <? 3)%nat then Normal clusters
    else if String.eqb root "constructor" then Throw (TypeError_undefined token)
    else
      let g := match Js.get clusters root with
               | Some g => g
               | None => mkTermGroup [] 0
               end in
      let n := match Js.get (variants g) token with Some k => k | None => 0 end in
      Normal (Js.set clusters root
                     (mkTermGroup (Js.set (variants g) token (n + 1)) (total g + 1))).

Fixpoint foldTokens (clusters : Js.JsObject TermGroup) (tokens : list string)
  : Completion (Js.JsObject TermGroup) :=
  match tokens with
  | [] => Normal clusters
  | t :: rest =>
      match clusterStep clusters t with
      | Normal c => foldTokens c rest
      | Throw e => Throw e
      end
  end.

Definition extractTerminologyClusters (content : Content)
  : Completion (Js.JsObject TermGroup) :=
  foldTokens [] (tokenize (Str.toLowerCase (fullText content))).

Definition showCount (tc : string * Z) : string :=
  quoted (fst tc) ++ " (" ++ Js.show (snd tc) ++ "x)".

(** The issue, if any, of one entry of [terms] with more than one
    variant. *)
Definition groupIssue (primary : string) (data : TermGroup) : list Issue :=
  let variantCounts :=
      Js.sort_by (fun a b : string * Z => (snd b <=? snd a)%Z) (Js.entries (variants data)) in
  match variantCounts with
  | [] => []
  | mostUsed :: _ =>
      let otherVariants :=
          filter (fun tc : string * Z => negb (String.eqb (fst tc) (fst mostUsed)))
                 variantCounts in
      let significantVariants := filter (fun tc : string * Z => (1 <? snd tc)%Z) otherVariants in
      match otherVariants with
      | [] => []
      | _ =>
          if negb (Nat.eqb (List.length significantVariants) 0)
             || (2 <? Parser.Zsum (map snd otherVariants))%Z
          then [mkIssue "warning"
                  ("Inconsistent terminology: " ++ quoted primary
                     ++ " concept uses multiple terms")
                  (Some ("Standardize on " ++ quoted (fst mostUsed)
                           ++ " throughout the documentation"))
                  None None
                  (Some ("Found: " ++ Str.join ", " (map showCount variantCounts)))
                  None None]
          else []
      end
  end.

Definition multiVariant (data : TermGroup) : bool :=
  (1 <? List.length (Js.keys (variants data)))%nat.

Definition hasOthers (data : TermGroup) : bool :=
  let variantCounts :=
      Js.sort_by (fun a b : string * Z => (snd b <=? snd a)%Z) (Js.entries (variants data)) in
  match variantCounts with
  | [] => false
  | mostUsed :: _ =>
      negb (Nat.eqb (List.length
                       (filter (fun tc : string * Z =>
                                  negb (String.eqb (fst tc) (fst mostUsed)))
                               variantCounts)) 0)
  end.

(** The issue, if any, of one entry of [clusters]. *)
Definition clusterIssue (root : string) (data : TermGroup) : list Issue :=
  let significantVariants :=
      filter (fun tc : string * Z => (2 <=? snd tc)%Z) (Js.entries (variants data)) in
  if (List.length significantVariants <? 2)%nat || (total data <? 4)%Z then []
  else if forallb (fun tc : string * Z =>
                     String.eqb (fst tc) root || String.eqb (fst tc) (root ++ "s"))
                  significantVariants
       then []
       else [mkIssue "info"
               ("Potential terminology variants for " ++ quoted root)
               (Some ("Standardize on a single term for " ++ quoted root
                        ++ " where possible"))
               None None
               (Some ("Found: " ++ Str.join ", " (map showCount significantVariants)))
               None None].

(** [scoreTermConsistency] (AV-01). *)
Definition scoreTermConsistency (content : Content) : Completion CriterionResult :=
  let terms := extractActionTerms content in
  match extractTerminologyClusters content with
  | Throw e => Throw e
  | Normal clusters =>
      let groups := filter (fun e : string * TermGroup => multiVariant (snd e))
                           (Js.entries terms) in
      let totalGroups := Z.of_nat (List.length groups) in
      let inconsistentGroups :=
          Z.of_nat (List.length (filter (fun e : string * TermGroup => hasOthers (snd e))
                                        groups)) in
      let termIssues :=
          flat_map (fun e : string * TermGroup => groupIssue (fst e) (snd e)) groups in
      let clusterIssues :=
          flat_map (fun e : string * TermGroup => clusterIssue (fst e) (snd e))
                   (Js.entries clusters) in
      let clusterInconsistencies := Z.of_nat (List.length clusterIssues) in
      let found := (termIssues ++ clusterIssues)%list in
      let score0 :=
          if (0 <? totalGroups)%Z
          then Js.Math_round ((1 - inject_Z inconsistentGroups / inject_Z totalGroups) * 10)%Q
          else 10%Z in
      let criticalIssues :=
          Z.of_nat (List.length (filter (fun i => String.eqb (severity i) "critical") found)) in
      let score := Z.max 0 (score0 - criticalIssues * 2 - Z.min 3 clusterInconsistencies) in
      Normal (mkCriterion (Some "AV-01") (Some (inject_Z score)) found
                (Some ("Analyzed " ++ Js.show totalGroups ++ " term groups. "
                         ++ Js.show inconsistentGroups ++ " have inconsistent usage. "
                         ++ Js.show clusterInconsistencies
                         ++ " potential synonym clusters detected.")))
  end.

(** The module's [scoreAll]. *)
Definition scoreAll (cfg : Config) (content : Content) : Completion RuleResult :=
  match scoreTermConsistency content with
  | Throw e => Throw e
  | Normal av01 =>
      let crit : Js.JsObject CriterionResult :=
          [ ("AV-01", av01); ("AV-02", detectConfusableTerms content) ] in
      let weights : Js.JsObject Q :=
          [ ("AV-01", Js.num_or (cfg_get cfg "terminology" "AV-01" cfg_weight) (6 # 10));
            ("AV-02", Js.num_or (cfg_get cfg "terminology" "AV-02" cfg_weight) (4 # 10)) ] in
      Normal (mkRuleResult (weighted_category_score weights (5 # 10) crit)
                           crit
                           (sort_issues (flat_map issues (Js.values crit))))
  end.

End TerminologyRules.

(** ** Text-over-visuals rules (part_004) *)

Module TextOverVisualsRules.

(** [/^(step|click|select|go to|navigate|open)/i.test(item)]. *)
Definition looksProcedural (item : string) : bool :=
  existsb (fun w => Str.startsWith w (Str.toLowerCase item))
          ["step"; "click"; "select"; "go to"; "navigate"; "open"].

Definition hasProceduralContent (content : Content) : bool :=
  existsb (fun l => String.eqb (list_type l) "ol" || existsb looksProcedural (list_items l))
          (lists (structure content)).

Definition Qgt (a b : Q) : bool := negb (Qle_bool a b).

(** [scoreTextFirst] (TB-01). *)
Definition scoreTextFirst (str : Js.NumberToString) (metrics : Metrics) (content : Content)
  : CriterionResult :=
  let images := m_images metrics in
  let contentMetrics := m_content metrics in
  if (im_count images =? 0)%Z then
    mkCriterion (Some "TB-01") (Some 10%Q) []
      (Some "No images found - content is fully text-based")
  else
    let imageDensity := im_imageToTextRatio images in
    let tier : Z * list Issue :=
        if Qgt imageDensity 2 then
          (4, [mkIssue "critical" "Content is heavily image-dependent"
                 (Some "Add text descriptions for key steps shown in images. AI assistants cannot interpret screenshots.")
                 None None
                 (Some (Js.show (im_count images) ++ " images for "
                          ++ Js.show (cm_wordCount contentMetrics) ++ " words ("
                          ++ str imageDensity ++ " images per 100 words)"))
                 None None])
        else if Qgt imageDensity 1 then
          (6, [mkIssue "warning" "Content relies significantly on images"
                 (Some "Ensure each image has accompanying text that describes the action or concept")
                 None None
                 (Some (Js.show (im_count images) ++ " images for "
                          ++ Js.show (cm_wordCount contentMetrics) ++ " words"))
                 None None])
        else if Qgt imageDensity (5 # 10) then
          (8, [issue "info" "Good text-to-image balance, minor improvements possible"
                     (Some "Consider adding brief text summaries for complex diagrams")])
        else (10, []) in
    let many := hasProceduralContent content && (5 <? im_count images)%Z in
    mkCriterion (Some "TB-01")
      (Some (inject_Z (if many then Z.min (fst tier) 7 else fst tier)))
      (snd tier
       ++ (if many
           then [mkIssue "warning" "Procedural content with many screenshots"
                   (Some "Ensure step text is complete without needing to reference images")
                   None None
                   (Some (Js.show (im_count images)
                            ++ " images with procedural lists detected"))
                   None None]
           else []))
      (Some ("Image density: " ++ str imageDensity ++ " images per 100 words. "
               ++ Js.show (im_count images) ++ " images total.")).

Definition idealMax : Q := 33 # 100.

Definition percent (q : Q) : string := Js.show (Js.Math_round (q * 100)).

(** [scoreImageRatio] (TB-02). *)
Definition scoreImageRatio (metrics : Metrics) : CriterionResult :=
  let contentMetrics := m_content metrics in
  let ratio := cm_visualToContentRatio contentMetrics in
  if (cm_totalBlocks contentMetrics =? 0)%Z then
    mkCriterion (Some "TB-02") (Some 5%Q)
      [issue "info" "Unable to assess - no content blocks found" None]
      (Some "No content blocks to analyze")
  else
    let score : Z :=
        if Qle_bool ratio idealMax
        then (8 + Js.Math_round ((1 - ratio / idealMax) * 2)%Q)%Z
        else if Qle_bool ratio (5 # 10)
             then (5 + Js.Math_round (((5 # 10) - ratio) / (17 # 100) * 2)%Q)%Z
             else Z.max 0 (Js.Math_round ((1 - ratio) * 8)%Q) in
    mkCriterion (Some "TB-02") (Some (inject_Z score))
      (if Qgt ratio idealMax
       then [mkIssue (if Qgt ratio (5 # 10) then "critical" else "warning")
               ("Visual content ratio (" ++ percent ratio ++ "%) exceeds ideal ("
                  ++ percent idealMax ++ "%)")
               (Some "Add more text-based explanations to balance the visual content")
               None None
               (Some (Js.show (cm_visualBlocks contentMetrics) ++ " visual blocks out of "
                        ++ Js.show (cm_totalBlocks contentMetrics) ++ " total"))
               None None]
       else [])
      (Some ("Visual-to-content ratio: " ++ percent ratio ++ "% (ideal max: "
               ++ percent idealMax ++ "%)")).

(** [src.split('/').pop()]: what follows the last slash. *)
Fixpoint lastSegment (cur : string) (s : string) : string :=
  match s with
  | EmptyString => Parser.rev_string "" cur
  | String c s' =>
      if Ascii.eqb c "/" then lastSegment EmptyString s' else lastSegment (String c cur) s'
  end.

Definition missingAltIssue (img : MissingAlt) : Issue :=
  mkIssue "info" ("Image " ++ Js.show (ma_index img + 1) ++ " missing alt text")
          (Some "Add alt attribute describing the image content")
          (Some (substring 0 50 (lastSegment EmptyString (ma_src img))))
          None None None None.

(** [scoreAltTextCoverage] (TB-03). *)
Definition scoreAltTextCoverage (metrics : Metrics) : CriterionResult :=
  let images := m_images metrics in
  if (im_count images =? 0)%Z then
    mkCriterion (Some "TB-03") (Some 10%Q) [] (Some "No images to check for alt text")
  else
    let coverage := im_altTextCoverage images in
    let score := Js.Math_round (coverage * 10) in
    mkCriterion (Some "TB-03") (Some (inject_Z score))
      (if (0 <? im_withoutAlt images)%Z
       then mkIssue (if Qgt (5 # 10) coverage then "critical"
                     else if Qgt (8 # 10) coverage then "warning" else "info")
                    (Js.show (im_withoutAlt images) ++ " of " ++ Js.show (im_count images)
                       ++ " images missing alt text")
                    (Some "Add descriptive alt text to all images explaining what they show")
                    None None
                    (Some "Images without alt text are invisible to AI assistants")
                    None None
            :: (if (List.length (im_missingAlt images) <=? 5)%nat
                then map missingAltIssue (im_missingAlt images)
                else [])
       else [])
      (Some ("Alt text coverage: " ++ percent coverage ++ "% ("
               ++ Js.show (im_withAlt images) ++ "/" ++ Js.show (im_count images)
               ++ " images)")).

(** The module's [scoreAll]. *)
Definition scoreAll (str : Js.NumberToString) (cfg : Config) (metrics : Metrics)
           (content : Content) : RuleResult :=
  let crit : Js.JsObject CriterionResult :=
      [ ("TB-01", scoreTextFirst str metrics content);
        ("TB-02", scoreImageRatio metrics);
        ("TB-03", scoreAltTextCoverage metrics) ] in
  let weights : Js.JsObject Q :=
      [ ("TB-01", Js.num_or (cfg_get cfg "text-over-visuals" "TB-01" cfg_weight) (35 # 100));
        ("TB-02", Js.num_or (cfg_get cfg "text-over-visuals" "TB-02" cfg_weight) (35 # 100));
        ("TB-03", Js.num_or (cfg_get cfg "text-over-visuals" "TB-03" cfg_weight) (30 # 100)) ] in
  mkRuleResult (weighted_category_score weights (33 # 100) crit)
               crit
               (sort_issues (flat_map issues (Js.values crit))).

End TextOverVisualsRules.

(** ** The Scorer: aggregation (js/scorer.js) *)

Module Scorer.

(** [CATEGORY_WEIGHTS], in source order. *)
Definition CATEGORY_WEIGHTS : Js.JsObject Q :=
  [ ("content-structure", 30 # 100);
    ("outcomes-reversibility", 25 # 100);
    ("terminology", 15 # 100);
    ("text-over-visuals", 10 # 100);
    ("self-contained", 5 # 100);
    ("permissions-plans", 15 # 100) ].

(** [this.CATEGORY_WEIGHTS[key]]; [None] is [undefined]. *)
Definition table_weight (key : string) : option Q := Js.get CATEGORY_WEIGHTS key.

Definition Qsum (l : list Q) : Q := fold_left Qplus l 0%Q.

(** [averageScores(criteria)]: mean of the numeric scores, one decimal;
    0 over no numeric score. *)
Definition numeric_scores (criteria : Js.JsObject CriterionResult) : list Q :=
  flat_map (fun c => match score c with Some s => [s] | None => [] end)
           (Js.values criteria).

Definition averageScores (criteria : Js.JsObject CriterionResult) : Q :=
  let scores := numeric_scores criteria in
  match scores with
  | [] => 0%Q
  | _ => Js.round1 (Qsum scores / inject_Z (Z.of_nat (List.length scores)))
  end.

(** [category.score !== null && !category.estimated]. *)
Definition qualifies (c : Category) : bool :=
  match cat_score c with
  | Some _ => negb (cat_estimated c)
  | None => false
  end.

(** [category.weight || this.CATEGORY_WEIGHTS[key] || 0]. *)
Definition weight_of (key : string) (c : Category) : Q :=
  Js.num_or (cat_weight c) (Js.num_or (table_weight key) 0).

(** One turn of the [forEach] in [calculateCompositeScore]; the state is
    [(totalWeight, weightedSum)]. *)
Definition composite_step (acc : Q * Q) (entry : string * Category) : Q * Q :=
  let (key, c) := entry in
  match cat_score c with
  | Some s =>
      if negb (cat_estimated c)
      then let weight := weight_of key c in
           (fst acc + weight, snd acc + s * weight)%Q
      else acc
  | None => acc
  end.

(** [calculateCompositeScore] in exact arithmetic, a [null] and an
    absent score alike left out; [Scorer64.calculateCompositeScore] is
    the same in doubles. *)
Definition calculateCompositeScore (categories : Categories) : Q :=
  let (totalWeight, weightedSum) :=
      fold_left composite_step (Js.entries categories) (0, 0)%Q in
  if Qeq_bool totalWeight 0 then 0%Q
  else Js.round1 (weightedSum / totalWeight).

Definition getStatus (s : Q) : string :=
  if Qle_bool 7 s then "green"
  else if Qle_bool 4 s then "yellow"
  else "red".

(** [severityOrder[sev] ?? 3]. *)
Definition severityRank (sev : string) : Z :=
  match severityOrder sev with Some n => n | None => 3 end.

(** [{...issue, category: category.name, categoryKey}]. *)
Definition annotate (name : option string) (key : string) (i : Issue) : Issue :=
  mkIssue (severity i) (message i) (fix_ i) (location i) (excerpt i)
          (details i) name (Some key).

Definition flattenIssues (categories : Categories) : list Issue :=
  flat_map (fun entry : string * Category =>
              let (categoryKey, c) := entry in
              map (annotate (cat_name c) categoryKey)
                  (match cat_issues c with Some l => l | None => [] end))
           (Js.entries categories).

Definition collectAllIssues (categories : Categories) : list Issue :=
  Js.sort_by (Js.by_rank (fun i => severityRank (severity i)))
             (flattenIssues categories).

(** [issues.slice(0, n)]. *)
Definition getTopIssues (l : list Issue) (n : nat) : list Issue := firstn n l.

(** [hashText]: the cache key.  [hash] is kept as the integer the
    JavaScript number holds; [^=] and [<<] work on its 32-bit two's
    complement reading. *)
Definition toInt32 (z : Z) : Z := (z + 2 ^ 31) mod 2 ^ 32 - 2 ^ 31.
Definition toUint32 (z : Z) : Z := z mod 2 ^ 32.
Definition shl32 (z : Z) (n : Z) : Z := toInt32 (Z.shiftl (toInt32 z) n).

Definition hashStep (hash : Z) (c : ascii) : Z :=
  let h := Z.lxor (toInt32 hash) (Z.of_nat (nat_of_ascii c)) in
  h + (shl32 h 1 + shl32 h 4 + shl32 h 7 + shl32 h 8 + shl32 h 24).

Definition hexDigit (d : Z) : string :=
  substring (Z.to_nat d) 1 "0123456789abcdef".

(** [n.toString(16)] for [0 <= n < 2^32]; [fuel] bounds the digits. *)
Fixpoint toHex (fuel : nat) (n : Z) : string :=
  match fuel with
  | O => ""
  | S k => if (n <? 16)%Z then hexDigit n
           else toHex k (n / 16) ++ hexDigit (n mod 16)
  end.

Definition hashText (text : string) : string :=
  toHex 8 (toUint32 (fold_left hashStep (list_ascii_of_string text) 2166136261)).

(** *** The two ways of filling the semantic categories *)

(** The criteria and issues one semantic category collects:
    [ids.forEach(id => { if (scores[id]) ... })]. *)
Definition collect (scores : Js.JsObject CriterionResult) (ids : list string)
  : Js.JsObject CriterionResult * list Issue :=
  fold_left
    (fun (acc : Js.JsObject CriterionResult * list Issue) id =>
       match Js.get scores id with
       | Some c => (Js.set (fst acc) id c, (snd acc ++ issues c)%list)
       | None => acc
       end)
    ids ([], []).

Definition claudeCategory (scores : Js.JsObject CriterionResult)
           (cid name key : string) (ids : list string) : Category :=
  let (crit, iss) := collect scores ids in
  mkCategory (Some cid) (Some name) (Some (averageScores crit))
             (table_weight key) crit (Some iss) false None None None.

(** [categories['content-structure'].criteria[id] = c] and
    [.issues.push(...c.issues)]. *)
Definition mergeCriterion (id : string) (c : CriterionResult) : M unit :=
  (cs <- the_category "content-structure" "criteria" ;;
   let cs' := set_cat_criteria cs (Js.set (cat_criteria cs) id c) in
   put_category "content-structure" cs' ;;;
   match cat_issues cs' with
   | Some l =>
       put_category "content-structure" (set_cat_issues cs' (Some (l ++ issues c)%list))
   | None => throw (TypeError_undefined "push")
   end)%eng.

Definition mergeIfPresent (scores : Js.JsObject CriterionResult) (id : string) : M unit :=
  match Js.get scores id with
  | Some c => mergeCriterion id c
  | None => ret tt
  end.

(** [existing.score = Math.round((existing.score + s.score) / 2)] for
    two numbers.  A score that is not a number is [None] in a criterion,
    be it [null] or [undefined]; the code's result then is the rounded
    half of the other score or NaN, and [None] stands in for both: what
    is proved of the merged score is proved for two numbers. *)
Definition mergedScore (a b : option Q) : option Q :=
  match a, b with
  | Some x, Some y => Some (inject_Z (Js.Math_round ((x + y) / 2)))
  | _, _ => None
  end.

Definition mergeTermConflation (scores : Js.JsObject CriterionResult) : M unit :=
  match Js.get scores "AV-02" with
  | Some s =>
      (t <- the_category "terminology" "criteria" ;;
       match Js.get (cat_criteria t) "AV-02" with
       | Some existing =>
           put_category "terminology"
             (set_cat_criteria t
                (Js.set (cat_criteria t) "AV-02"
                   (mkCriterion (criterionId existing)
                                (mergedScore (score existing) (score s))
                                (issues existing ++ issues s)%list
                                (cr_details existing))))
       | None => ret tt
       end)%eng
  | None => ret tt
  end.

(** The first half of [addClaudeScores]: the three semantic categories. *)
Definition setSemanticCategories (scores : Js.JsObject CriterionResult) : M unit :=
  (put_category "outcomes-reversibility"
     (claudeCategory scores "CAT-03" "Outcomes & Reversibility" "outcomes-reversibility"
                     ["OR-01"; "OR-02"; "OR-03"; "OR-04"]) ;;;
   put_category "self-contained"
     (claudeCategory scores "CAT-09" "Self-Contained Context" "self-contained"
                     ["GAP-03"; "GAP-04"]) ;;;
   put_category "permissions-plans"
     (claudeCategory scores "CAT-04" "Permissions & Plans" "permissions-plans"
                     ["PP-01"; "PP-02"; "PP-03"; "PP-04"]))%eng.

(** The second half: the cross-cutting criteria, the content-structure
    score recomputed, the summary stored. *)
Definition mergeCrossCutting (scores : Js.JsObject CriterionResult)
           (rawClaudeResults : ClaudeClient.Response) : M unit :=
  (mergeIfPresent scores "CS-03" ;;;
   mergeIfPresent scores "CS-05" ;;;
   mergeTermConflation scores ;;;
   cs <- the_category "content-structure" "criteria" ;;
   put_category "content-structure"
     (set_cat_score cs (Some (averageScores (cat_criteria cs)))) ;;;
   modify (fun r =>
             mkReport (meta r) (categories r) (compositeScore r) (status r)
               (allIssues r) (topIssues r) (summary r)
               (ClaudeClient.raw_summary rawClaudeResults)
               (ClaudeClient.raw_topIssues rawClaudeResults)
               (sections r)))%eng.

(** [addClaudeScores(results, transformedScores, rawClaudeResults)]. *)
Definition addClaudeScores (transformedScores : ClaudeClient.Transformed)
           (rawClaudeResults : ClaudeClient.Response) : M unit :=
  let scores := ClaudeClient.t_scores transformedScores in
  (setSemanticCategories scores ;;; mergeCrossCutting scores rawClaudeResults)%eng.

Definition hasAny (text : string) (terms : list string) : bool :=
  existsb (fun term => Str.includes text term) terms.

Definition estimatedCategory (cid name key estId : string) (s : Z)
           (iss : list Issue) (det : string) : Category :=
  mkCategory (Some cid) (Some name) (Some (inject_Z s)) (table_weight key)
             [(estId, mkCriterion None (Some (inject_Z s)) iss (Some det))]
             (Some iss) true
             (Some "Estimated using heuristic checks (no Claude)") None None.

Definition estimateOutcomes (text : string) : Category :=
  let destructive :=
      hasAny text ["delete"; "remove"; "erase"; "discard"; "wipe"; "purge"]
      && negb (hasAny text ["cannot be undone"; "irreversible"; "permanent";
                            "warning"; "caution"]) in
  let outcome := hasAny text ["will"; "results in"; "creates"; "updates";
                              "changes"; "affects"] in
  let s := (6 - (if destructive then 2 else 0) + (if outcome then 1 else 0))%Z in
  estimatedCategory "CAT-03" "Outcomes & Reversibility" "outcomes-reversibility" "EST-OR"
    (Js.clamp10 s)
    (if destructive
     then [issue "warning" "Destructive actions detected without reversibility warning"
                 (Some "Add a warning if actions are irreversible or destructive")]
     else [])
    "Estimated from keyword heuristics (no Claude)".

Definition estimatePermissions (text : string) : Category :=
  let perm := hasAny text ["admin"; "permission"; "role"; "access"; "privilege"] in
  let plan := hasAny text ["plan"; "edition"; "subscription"; "upgrade"] in
  let neither := negb perm && negb plan in
  let s := (6 + (if perm then 1 else 0) + (if plan then 1 else 0)
              - (if neither then 1 else 0))%Z in
  estimatedCategory "CAT-04" "Permissions & Plans" "permissions-plans" "EST-PP"
    (Js.clamp10 s)
    (if neither
     then [issue "info" "No explicit permissions or plan requirements detected"
                 (Some "Call out required roles, permissions, or plan editions if applicable")]
     else [])
    "Estimated from keyword heuristics (no Claude)".

Definition estimateContext (metrics : Metrics) : Category :=
  let external := match m_links metrics with
                  | Some l => (lk_internal l <? lk_external l)%Z
                  | None => false
                  end in
  let short := (cm_wordCount (m_content metrics) <? 200)%Z in
  let bare := (hm_count (m_headings metrics) =? 0)%Z in
  let s := (6 - (if external then 1 else 0) - (if short then 1 else 0)
              - (if bare then 1 else 0))%Z in
  estimatedCategory "CAT-09" "Self-Contained Context" "self-contained" "EST-SC"
    (Js.clamp10 s)
    ((if external
      then [issue "info" "Relies heavily on external links for context"
                  (Some "Ensure critical context is included in the page")]
      else [])
     ++ (if short
         then [issue "info" "Low word count may indicate insufficient context"
                     (Some "Add more context so the page can stand alone")]
         else [])
     ++ (if bare
         then [issue "warning" "No headings detected to anchor context"
                     (Some "Add headings to clarify context and structure")]
         else []))
    "Estimated from page structure heuristics (no Claude)".

(** [addEstimatedScores(results, content, metrics)]. *)
Definition addEstimatedScores (content : Content) (metrics : Metrics) : M unit :=
  let text := Str.toLowerCase (fullText content) in
  (put_category "outcomes-reversibility" (estimateOutcomes text) ;;;
   put_category "permissions-plans" (estimatePermissions text) ;;;
   put_category "self-contained" (estimateContext metrics))%eng.

(** *** Section-level rollup *)

(** [Math.round(x * 100) / 100]. *)
Definition round2 (x : Q) : Q := inject_Z (Js.Math_round (x * 100)) / 100.

Definition len {A} (l : list A) : Z := Z.of_nat (List.length l).

(** [buildSectionMetrics(section)].  The source leaves [hasH2],
    [h1Count], [firstLevel], the three list counters and the broken-link
    fields out of this object; no rule applied to a section reads the
    link fields, which are given as empty here. *)
Definition buildSectionMetrics (section : DocSection) : Metrics :=
  let paragraphLengths := map p_wordCount (s_paragraphs section) in
  let longParagraphs := filter Parser.isLong (s_paragraphs section) in
  let avgParagraphLength : Q :=
      if (0 <? len paragraphLengths)%Z
      then (inject_Z (Parser.Zsum paragraphLengths) / inject_Z (len paragraphLengths))%Q
      else 0%Q in
  let totalListItems := Parser.Zsum (map list_itemCount (s_lists section)) in
  let listToParagraphRatio : Q :=
      if (0 <? len (s_paragraphs section))%Z
      then (inject_Z (len (s_lists section)) / inject_Z (len (s_paragraphs section)))%Q
      else 0%Q in
  let imagesWithAlt := len (filter img_hasAlt (s_images section)) in
  let altTextCoverage : Q :=
      if (0 <? len (s_images section))%Z
      then (inject_Z imagesWithAlt / inject_Z (len (s_images section)))%Q
      else 1%Q in
  let totalContentBlocks :=
      (len (s_paragraphs section) + len (s_lists section)
       + len (s_tables section) + len (s_codeBlocks section))%Z in
  let visualBlocks := (len (s_images section) + len (s_tables section))%Z in
  let visualToContentRatio : Q :=
      if (0 <? totalContentBlocks)%Z
      then (inject_Z visualBlocks / inject_Z totalContentBlocks)%Q
      else 0%Q in
  let level := match s_level section with
               | Some l => if (l =? 0)%Z then None else Some l
               | None => None
               end in
  mkMetrics
    (mkParagraphMetrics
       (len (s_paragraphs section))
       (Js.Math_round avgParagraphLength)
       (match paragraphLengths with
        | [] => 0%Z
        | x :: rest => fold_left Z.max rest x
        end)
       (len longParagraphs)
       (ClaudeClient.map_indexed
          (fun p index => mkLongParagraph (Parser.preview (p_text p)) (p_wordCount p)
                                          (Z.of_nat index))
          longParagraphs 0)
       (Some (mkSentenceMetrics 0 0 0 0 [])))
    (mkHeadingMetrics
       (match Parser.nonEmpty (s_title section) with Some _ => 1%Z | None => 0%Z end)
       (match s_level section with Some l => (l =? 1)%Z | None => false end)
       false None None
       (mkHierarchy true [])
       (match level with Some l => [l] | None => [] end)
       (match level with Some l => [("h" ++ Js.show l, 1%Z)] | None => [] end))
    (mkListMetrics (len (s_lists section)) totalListItems
                   (round2 listToParagraphRatio) None None None)
    (mkImageMetrics (len (s_images section)) imagesWithAlt
                    (len (s_images section) - imagesWithAlt)
                    (round2 altTextCoverage)
                    (if (0 <? s_wordCount section)%Z
                     then round2 (inject_Z (len (s_images section))
                                  / (inject_Z (s_wordCount section) / 100))
                     else 0%Q)
                    [])
    (mkContentMetrics totalContentBlocks visualBlocks (round2 visualToContentRatio)
                      (s_wordCount section) (len (s_codeBlocks section))
                      (len (s_tables section)))
    (Some (mkLinkMetrics 0 0 0 0 [])).

Definition scoreOf (c : CriterionResult) : Q :=
  match score c with Some q => q | None => 0%Q end.

Definition scoreSection (str : Js.NumberToString) (cfg : Config) (section : DocSection)
  : SectionScore :=
  let sectionMetrics := buildSectionMetrics section in
  let brevity := ContentStructureRules.scoreParagraphBrevity cfg sectionMetrics in
  let listUsage := ContentStructureRules.scoreListUsage str cfg sectionMetrics in
  mkSectionScore (s_title section) (s_level section)
    (Js.round1 ((scoreOf brevity + scoreOf listUsage) / 2))
    [("CS-01", brevity); ("CS-02", listUsage)]
    (issues brevity ++ issues listUsage)%list
    (s_wordCount section).

(** [addSectionScores(results, content)]. *)
Definition addSectionScores (str : Js.NumberToString) (cfg : Config) (content : Content)
  : M unit :=
  match c_sections content with
  | None | Some [] => ret tt
  | Some secs =>
      let sectionScores := map (scoreSection str cfg) secs in
      let rollupScore :=
          Js.round1 (Qsum (map sec_score sectionScores) / inject_Z (len sectionScores)) in
      (cs <- the_category_or "content-structure"
                             (TypeError_undefined_set "sectionScores") ;;
       put_category "content-structure"
         (mkCategory (cat_id cs) (cat_name cs)
            (Some (Js.round1
                     ((match cat_score cs with Some q => q | None => 0%Q end
                       + rollupScore) / 2)))
            (cat_weight cs) (cat_criteria cs) (cat_issues cs) (cat_estimated cs)
            (cat_message cs) (Some sectionScores) (Some rollupScore)) ;;;
       modify (fun r =>
                 mkReport (meta r) (categories r) (compositeScore r) (status r)
                   (allIssues r) (topIssues r) (summary r) (claudeSummary r)
                   (claudeTopIssues r) (Some sectionScores)))%eng
  end.

(** *** Summary *)

Definition nameOf (c : Category) : string :=
  match cat_name c with Some n => n | None => "undefined" end.

Definition catScore (e : string * Category) : Q :=
  match cat_score (snd e) with Some q => q | None => 0%Q end.

Definition generateSummary (str : Js.NumberToString) (results : Report) : string :=
  let s := compositeScore results in
  let head :=
      match status results with
      | Some "green" =>
          "This documentation scores well for AI-friendliness (" ++ str s ++ "/10). "
      | Some "yellow" =>
          "This documentation needs improvement for AI-friendliness (" ++ str s ++ "/10). "
      | _ =>
          "This documentation has significant AI-friendliness issues (" ++ str s ++ "/10). "
      end in
  let sortedCategories :=
      Js.sort_by (fun a b => Qle_bool (catScore a) (catScore b))
        (filter (fun e : string * Category =>
                   match cat_score (snd e) with Some _ => true | None => false end)
                (Js.entries (categories results))) in
  let tail :=
      match sortedCategories with
      | [] => ""
      | weakest :: _ =>
          let strongest := last sortedCategories weakest in
          (if negb (Qle_bool 6 (catScore weakest))
           then "Weakest area: " ++ nameOf (snd weakest) ++ " ("
                  ++ str (catScore weakest) ++ "/10). "
           else "")
          ++ (if Qle_bool 7 (catScore strongest)
              then "Strongest area: " ++ nameOf (snd strongest) ++ " ("
                     ++ str (catScore strongest) ++ "/10)."
              else "")
      end in
  Parser.trim (head ++ tail).

(** *** The run *)

Record CacheEntry : Type := mkCacheEntry {
  raw : ClaudeClient.Response;
  transformed : ClaudeClient.Transformed;
  savedAt : option string
}.

(** What a run reads from and asks of its surroundings: the clock
    ([new Date().toISOString()]), the global [window.ScoringConfig], the
    cache storage, and the remote semantic call, each answering as it
    did during the run.  Progress notifications are not modelled (the
    default callback does nothing). *)
Record Env : Type := mkEnv {
  now : string;
  config : Config;
  getClaudeCacheEntry : string -> Completion (option CacheEntry);
  saveClaudeCacheEntry : string -> CacheEntry -> Completion unit;
  scoreSemanticCriteria : string -> Content -> string -> Completion ClaudeClient.Response
}.

(** A truthy [apiKey]. *)
Definition usableKey (apiKey : option string) : option string := Parser.nonEmpty apiKey.

Definition ruleCategory (cid name key : string) (r : RuleResult) : Category :=
  mkCategory (Some cid) (Some name) (Some (categoryScore r)) (table_weight key)
             (criteria r) (Some (rule_allIssues r)) false None None None.

(** The body of the [try] block of step 2. *)
Definition claudeStep (env : Env) (key : string) (content : Content) : M unit :=
  (textForAnalysis <- lift (Parser.getTextForAnalysis content) ;;
   let cacheKey := hashText textForAnalysis in
   cached <- lift (getClaudeCacheEntry env cacheKey) ;;
   match cached with
   | Some entry =>
       modify (fun r => set_meta r
                 (set_claudeCache (meta r) (mkCacheInfo "hit" cacheKey (savedAt entry)))) ;;;
       addClaudeScores (transformed entry) (raw entry)
   | None =>
       claudeResults <- lift (scoreSemanticCriteria env key content textForAnalysis) ;;
       let transformedScores := ClaudeClient.transformScores claudeResults in
       lift (saveClaudeCacheEntry env cacheKey
               (mkCacheEntry claudeResults transformedScores None)) ;;;
       modify (fun r => set_meta r
                 (set_claudeCache (meta r) (mkCacheInfo "miss" cacheKey None))) ;;;
       addClaudeScores transformedScores claudeResults
   end)%eng.

(** Steps 4 and 5. *)
Definition finish (str : Js.NumberToString) (r : Report) : Report :=
  let composite := calculateCompositeScore (categories r) in
  let all := collectAllIssues (categories r) in
  let r' := mkReport (meta r) (categories r) composite (Some (getStatus composite))
                     all (getTopIssues all 5) (summary r) (claudeSummary r)
                     (claudeTopIssues r) (sections r) in
  mkReport (meta r') (categories r') (compositeScore r') (status r') (allIssues r')
           (topIssues r') (generateSummary str r') (claudeSummary r')
           (claudeTopIssues r') (sections r').

Definition initialResults (env : Env) (content : Content) (apiKey : option string)
  : Report :=
  mkReport (mkMeta (c_url content) (c_title content) (now env)
                   (match usableKey apiKey with Some _ => "full" | None => "rule-only" end)
                   None None)
           [] 0%Q None [] [] "" None None None.

Definition scoreAllM (str : Js.NumberToString) (env : Env) (content : Content)
           (metrics : Metrics) (apiKey : option string) : M unit :=
  let contentStructureResults := ContentStructureRules.scoreAll str (config env) metrics in
  (terminologyResults <- lift (TerminologyRules.scoreAll (config env) content) ;;
   let textVisualsResults :=
       TextOverVisualsRules.scoreAll str (config env) metrics content in
   put_category "content-structure"
     (ruleCategory "CAT-01" "Content Structure" "content-structure"
                   contentStructureResults) ;;;
   put_category "terminology"
     (ruleCategory "CAT-02" "Consistent Terminology" "terminology" terminologyResults) ;;;
   put_category "text-over-visuals"
     (ruleCategory "CAT-08" "Text Over Visuals" "text-over-visuals" textVisualsResults) ;;;
   match usableKey apiKey with
   | Some key =>
       try_catch (claudeStep env key content)
         (fun error =>
            addEstimatedScores content metrics ;;;
            modify (fun r => set_meta r (set_claudeError (meta r) (err_message error))))
   | None => addEstimatedScores content metrics
   end ;;;
   addSectionScores str (config env) content ;;;
   modify (finish str))%eng.

(** [scoreAll(content, metrics, apiKey)]: the report the promise resolves
    to, or the error it rejects with.  [str] is the host's rendering of
    numbers in the report's texts. *)
Definition scoreAll (str : Js.NumberToString) (env : Env) (content : Content)
           (metrics : Metrics) (apiKey : option string) : Completion Report :=
  match scoreAllM str env content metrics apiKey (initialResults env content apiKey) with
  | (Normal _, r) => Normal r
  | (Throw e, _) => Throw e
  end.

End Scorer.

(** ** The composite score in binary64 (js/scorer.js) *)

Module Scorer64.

(** The value of a field read by [calculateCompositeScore]: a number,
    [null], or [undefined] for an absent field. *)
Inductive JsValue : Type :=
| Undefined
| Null
| Num (x : F64.float).

(** The fields of a category that the composite reads;
    [c_estimated = false] also stands for an absent flag. *)
Record Fields : Type := mkFields {
  c_score : JsValue;
  c_estimated : bool;
  c_weight : JsValue
}.

(** The conversion of a value to a number in an arithmetic operation. *)
Definition toNumber (v : JsValue) : F64.float :=
  match v with
  | Undefined => F64.nan
  | Null => F64.zero
  | Num x => x
  end.

Definition truthy (v : JsValue) : bool :=
  match v with
  | Num x => F64.truthy x
  | Undefined | Null => false
  end.

(** [CATEGORY_WEIGHTS], in source order. *)
Definition CATEGORY_WEIGHTS : Js.JsObject F64.float :=
  [ ("content-structure", F64.ofQ (30 # 100));
    ("outcomes-reversibility", F64.ofQ (25 # 100));
    ("terminology", F64.ofQ (15 # 100));
    ("text-over-visuals", F64.ofQ (10 # 100));
    ("self-contained", F64.ofQ (5 # 100));
    ("permissions-plans", F64.ofQ (15 # 100)) ].

(** [this.CATEGORY_WEIGHTS[key]]. *)
Definition table_weight (key : string) : JsValue :=
  match Js.get CATEGORY_WEIGHTS key with
  | Some w => Num w
  | None => Undefined
  end.

(** [category.score !== null && !category.estimated]. *)
Definition qualifies (c : Fields) : bool :=
  match c_score c with
  | Null => false
  | Undefined | Num _ => negb (c_estimated c)
  end.

(** [category.weight || this.CATEGORY_WEIGHTS[key] || 0]. *)
Definition weight_of (key : string) (c : Fields) : F64.float :=
  if truthy (c_weight c) then toNumber (c_weight c)
  else if truthy (table_weight key) then toNumber (table_weight key)
  else F64.zero.

(** One turn of the [forEach] in [calculateCompositeScore]; the state is
    [(totalWeight, weightedSum)]. *)
Definition composite_step (acc : F64.float * F64.float) (entry : string * Fields)
  : F64.float * F64.float :=
  let (key, c) := entry in
  if qualifies c
  then let weight := weight_of key c in
       (F64.add (fst acc) weight,
        F64.add (snd acc) (F64.mul (toNumber (c_score c)) weight))
  else acc.

Definition calculateCompositeScore (categories : Js.JsObject Fields) : F64.float :=
  let (totalWeight, weightedSum) :=
      fold_left composite_step (Js.entries categories) (F64.zero, F64.zero) in
  if F64.isZero totalWeight then F64.zero
  else F64.round1 (F64.div weightedSum totalWeight).

End Scorer64.

(** * Specification-side notions *)

(** ** C1: the composite score *)

(** The categories the composite counts, in enumeration order. *)
Definition included (cats : Categories) : list (string * Category) :=
  filter (fun e => Scorer.qualifies (snd e)) (Js.entries cats).

Definition sumQ (l : list Q) : Q := fold_right Qplus 0%Q l.

(** The weight the composite gives an entry and the sums over the
    included categories. *)
Definition entryWeight (e : string * Category) : Q := Scorer.weight_of (fst e) (snd e).

Definition weightSum (cats : Categories) : Q := sumQ (map entryWeight (included cats)).

Definition weightedScoreSum (cats : Categories) : Q :=
  sumQ (map (fun e => Scorer.catScore e * entryWeight e)%Q (included cats)).

(** The weight of the fixed table, 0 for a key it does not have. *)
Definition tableWeight (key : string) : Q :=
  match Scorer.table_weight key with Some w => w | None => 0%Q end.


Definition bareCategory (s w : option Q) (est : bool) : Category :=
  mkCategory None None s w [] None est None None None.

(** The spec's renormalization example: A and B weigh 0.5 each, C is
    estimated. *)
Definition exampleABC : Categories :=
  [ ("A", bareCategory (Some 8%Q) (Some (5 # 10)) false);
    ("B", bareCategory (Some 6%Q) (Some (5 # 10)) false);
    ("C", bareCategory None None true) ].


(** *** The composite in binary64 *)













(** ** The stable sort *)

(** [a] stands somewhere before [b] in [l]. *)
Definition precedes {A} (l : list A) (a b : A) : Prop :=
  exists l1 l2 l3, l = (l1 ++ a :: l2 ++ b :: l3)%list.

(** ** The engine monad *)

(** A computation whose normal completions all pass through [f] last. *)
Definition ends_in {A} (f : Report -> Report) (m : M A) : Prop :=
  forall r0 a r, m r0 = (Normal a, r) -> exists r', r = f r'.

(** ** C4: issue collection and ranking *)

Definition issueRank (i : Issue) : Z := Scorer.severityRank (severity i).

(** ** C6: heading hierarchy *)

(** The forward skips of a list of levels, read off the list itself: the
    positions [i >= 1] (counted from [i]) whose level exceeds the level
    just before by more than one, with the two levels. *)
Fixpoint skipsFrom (i : Z) (prev : Z) (levels : list Z) : list (Z * Z * Z) :=
  match levels with
  | [] => []
  | cur :: rest =>
      (if (prev + 1 <? cur)%Z then [(i, prev, cur)] else [])
      ++ skipsFrom (i + 1) cur rest
  end.

Definition skips (levels : list Z) : list (Z * Z * Z) :=
  match levels with
  | [] => []
  | first :: rest => skipsFrom 1 first rest
  end.

Definition skipToIssue (s : Z * Z * Z) : HierarchyIssue :=
  let '(i, prev, cur) := s in
  mkHierarchyIssue "skipped"
    ("Heading level skipped from h" ++ Js.show prev ++ " to h" ++ Js.show cur) i.

(** ** C7: confusable terms (AV-02) *)

(** A word character: a digit, a letter or the underscore. *)
Definition wordCharacter (c : ascii) : bool :=
  let n := nat_of_ascii c in
  ((48 <=? n) && (n <=? 57) || (65 <=? n) && (n <=? 90) || (n =? 95)
   || (97 <=? n) && (n <=? 122))%nat.

Definition isWordCharacter (c : option ascii) : bool :=
  match c with Some a => wordCharacter a | None => false end.

Fixpoint lastChar (s : string) : option ascii :=
  match s with
  | EmptyString => None
  | String c EmptyString => Some c
  | String _ rest => lastChar rest
  end.

(** [term] occurs in [text] as a whole word: the text reads [before],
    then the term (the case of the letters aside), then [after], where
    [before] does not end and [after] does not begin with a word
    character. *)
Definition occursAsWord (text term : string) : Prop :=
  exists before found after,
    text = before ++ found ++ after
    /\ Str.toLowerCase found = Str.toLowerCase term
    /\ isWordCharacter (lastChar before) = false
    /\ isWordCharacter (Str.head after) = false.

(** The whole-word occurrences counted position by position.
    [standsAt term text] is what follows [term] when [text] begins with
    it, the case of the letters aside; [wordAt prev term text] says that
    [term] stands at the front of [text] as a whole word, [prev] being
    the character before. *)
Fixpoint standsAt (term text : string) : option string :=
  match term, text with
  | EmptyString, _ => Some text
  | String a term', String b text' =>
      if Ascii.eqb (Str.lower_char a) (Str.lower_char b) then standsAt term' text' else None
  | String _ _, EmptyString => None
  end.

Definition wordAt (prev : option ascii) (term text : string) : bool :=
  negb (isWordCharacter prev)
  && match standsAt term text with
     | Some rest => negb (isWordCharacter (Str.head rest))
     | None => false
     end.

Fixpoint wholeWordsFrom (prev : option ascii) (term text : string) : Z :=
  match text with
  | EmptyString => 0
  | String c rest =>
      (if wordAt prev term text then 1 else 0) + wholeWordsFrom (Some c) term rest
  end.

Definition wholeWords (text term : string) : Z := wholeWordsFrom None term text.

(** Both terms of a pair occur in the text as whole words. *)
Definition bothOccur (text : string) (pr : TerminologyRules.RiskPair) : bool :=
  (0 <? wholeWords text (TerminologyRules.term1 pr))%Z
  && (0 <? wholeWords text (TerminologyRules.term2 pr))%Z.

(** What the issue of a flagged pair says: its severity, its message
    and its details. *)
Definition pairReport (text : string) (pr : TerminologyRules.RiskPair)
  : string * string * option string :=
  let t1 := TerminologyRules.term1 pr in
  let t2 := TerminologyRules.term2 pr in
  ("warning",
   "Potentially confusable terms in " ++ TerminologyRules.context pr ++ ": "
     ++ Str.dq ++ t1 ++ Str.dq ++ " and " ++ Str.dq ++ t2 ++ Str.dq,
   Some (Str.dq ++ t1 ++ Str.dq ++ " used " ++ Js.show (wholeWords text t1) ++ "x, "
           ++ Str.dq ++ t2 ++ Str.dq ++ " used " ++ Js.show (wholeWords text t2) ++ "x")).

(** Every character of the term is a word character. *)
Fixpoint allWord (term : string) : bool :=
  match term with
  | EmptyString => true
  | String c term' => wordCharacter c && allWord term'
  end.

(** The first [k] characters of the text are word characters. *)
Fixpoint wordRun (k : nat) (text : string) : Prop :=
  match k with
  | O => True
  | S k' => match text with
            | String c rest => wordCharacter c = true /\ wordRun k' rest
            | EmptyString => False
            end
  end.

Definition contentOfText (text : string) : Content :=
  mkContent None None (mkStructure [] [] [] [] [] [] [] None) text 0 None.

Definition deactivateDisableText : string :=
  "Deactivate the account. To deactivate a user, deactivate the role first. You can disable sync or disable alerts.".

(** The same with inflected forms beside the terms: "deactivated",
    "disabled" and "removed" are no occurrences of "deactivate",
    "disable" and "remove". *)
Definition inflectedText : string :=
  "Deactivate the account. To deactivate a user, deactivate the role first; deactivated users stay listed. You can disable sync or disable alerts; disabled alerts and removed items stay hidden.".

(** ** C5 and C10: paragraph brevity (CS-01) *)

(** Metrics with the given paragraph part and nothing else on the page. *)
Definition metricsOfParagraphs (pm : ParagraphMetrics) : Metrics :=
  mkMetrics pm
    (mkHeadingMetrics 0 false false None None (mkHierarchy true []) [] [])
    (mkListMetrics 0 0 0 None None None)
    (mkImageMetrics 0 0 0 1 0 [])
    (mkContentMetrics 0 0 0 0 0 0)
    None.

(** The threshold the configuration asks for, 150 by default. *)
Definition configuredThreshold (cfg : Config) : Z :=
  Js.int_or (cfg_get cfg "content-structure" "CS-01" cfg_threshold) 150.

Definition thresholdConfig (t : Z) : Config :=
  [("content-structure", [("CS-01", mkCriterionConfig None (Some t) None)])].

(** The number of paragraphs of at most [t] words. *)
Definition atOrUnder (t : Z) (ps : list Paragraph) : Z :=
  Z.of_nat (List.length (filter (fun p => (p_wordCount p <=? t)%Z) ps)).

(** CS-01 as C5 words it, with the configured threshold deciding which
    paragraphs count (no sentence metrics). *)
Definition brevityByConfiguredThreshold (cfg : Config) (ps : list Paragraph) : Z :=
  Js.clamp10
    (Js.Math_round (10 * (inject_Z (atOrUnder (configuredThreshold cfg) ps)
                          / inject_Z (Z.of_nat (List.length ps))))).

(** More than a fifth of the sentences are long. *)
Definition manyLong (pm : ParagraphMetrics) : Prop :=
  exists s, pm_sentences pm = Some s
            /\ 0 < sm_total s
            /\ ((2 # 10) < inject_Z (sm_longCount s) / inject_Z (sm_total s))%Q.

Definition wordsParagraph (n : Z) (i : Z) : Paragraph := mkParagraph "text" n i.

(** The scenario page: one paragraph of 210 words, nine of 20. *)
Definition scenarioParagraphs : list Paragraph :=
  wordsParagraph 210 0
  :: map (fun i => wordsParagraph 20 (Z.of_nat i)) (seq 1 9).

Definition eraseMessage (i : Issue) : Issue :=
  mkIssue (severity i) "" (fix_ i) (location i) (excerpt i) (details i)
          (category i) (categoryKey i).

(** ** Objects and the engine's state *)

(** A computation that leaves the category stored under [key] alone,
    however it ends. *)
Definition keeps {A} (key : string) (m : M A) : Prop :=
  forall r0, Js.get (categories (snd (m r0))) key = Js.get (categories r0) key.

(** ** C9 and C2: the semantic categories *)

(** The categories scored from the semantic response and the criterion
    ids each one collects. *)
Definition semanticCategories : list (string * list string) :=
  [ ("outcomes-reversibility", ["OR-01"; "OR-02"; "OR-03"; "OR-04"]);
    ("self-contained", ["GAP-03"; "GAP-04"]);
    ("permissions-plans", ["PP-01"; "PP-02"; "PP-03"; "PP-04"]) ].

(** ** A sample page and its surroundings *)

Definition sampleContent : Content :=
  mkContent (Some "https://help.zoho.com/portal/en/kb/deactivate-user")
            (Some "Deactivate a user")
            (mkStructure
               [ mkHeading "h1" "Deactivate a user";
                 mkHeading "h2" "Before you start";
                 mkHeading "h4" "Steps" ]
               scenarioParagraphs
               [ mkDocList "ol" ["Open Settings"; "Select the user"; "Click Deactivate"] 3 ]
               [] [] [] [] None)
            deactivateDisableText 400 None.

Definition sampleMetrics : Metrics :=
  mkMetrics
    (Parser.paragraphMetrics scenarioParagraphs)
    (mkHeadingMetrics 3 true true (Some 1) (Some 1)
                      (Parser.validateHeadingHierarchy [1; 2; 4]) [1; 2; 4]
                      [("h1", 1); ("h2", 1); ("h4", 1)])
    (mkListMetrics 1 3 (1 # 10) (Some 1) (Some 1) (Some 0))
    (mkImageMetrics 0 0 0 1 0 [])
    (mkContentMetrics 11 0 0 400 0 0)
    (Some (mkLinkMetrics 2 1 1 0 [])).

(** A rendering of numbers for the sample runs. *)
Definition sampleStr : Js.NumberToString := fun q => Js.toFixed q 1.

(** Surroundings with an empty cache, a working store and a remote call
    that ends as given. *)
Definition envAnswering (clock : string) (answer : Completion ClaudeClient.Response)
  : Scorer.Env :=
  Scorer.mkEnv clock [] (fun _ => Normal None) (fun _ _ => Normal tt) (fun _ _ _ => answer).

(** A response that scores OR-01 with 15. *)
Definition overScoredResponse : ClaudeClient.Response :=
  ClaudeClient.mkResponse
    (Some [("OR-01", ClaudeClient.mkRawScore (ClaudeClient.NumberScore 15) (Some "Outcomes are stated")
                                             (Some []) (Some []))])
    (Some "Clear page") None.

(** What the terminology rules return on the sample page. *)
Definition sampleTerminology : RuleResult :=
  match TerminologyRules.scoreAll [] sampleContent with
  | Normal t => t
  | Throw _ => mkRuleResult 0 [] []
  end.

(** The analysis text of the sample page. *)
Definition sampleText : string :=
  match Parser.getTextForAnalysis sampleContent with
  | Normal t => t
  | Throw _ => ""
  end.

Definition categoryScoreAt (r : Report) (key : string) : option Q :=
  match Js.get (categories r) key with
  | Some c => cat_score c
  | None => None
  end.

Definition criterionScoreAt (r : Report) (key id : string) : option Q :=
  match Js.get (categories r) key with
  | Some c => match Js.get (cat_criteria c) id with
              | Some cr => score cr
              | None => None
              end
  | None => None
  end.

(** ** The run, step by step (C3, C8) *)

(** The categories after step 1. *)
Definition ruleCategories (str : Js.NumberToString) (cfg : Config) (content : Content)
           (metrics : Metrics) (terminology : RuleResult) : Categories :=
  [ ("content-structure",
     Scorer.ruleCategory "CAT-01" "Content Structure" "content-structure"
       (ContentStructureRules.scoreAll str cfg metrics));
    ("terminology",
     Scorer.ruleCategory "CAT-02" "Consistent Terminology" "terminology" terminology);
    ("text-over-visuals",
     Scorer.ruleCategory "CAT-08" "Text Over Visuals" "text-over-visuals"
       (TextOverVisualsRules.scoreAll str cfg metrics content)) ].

(** The three categories the Estimator stores. *)
Definition estimates (content : Content) (metrics : Metrics) : Categories :=
  [ ("outcomes-reversibility",
     Scorer.estimateOutcomes (Str.toLowerCase (fullText content)));
    ("permissions-plans",
     Scorer.estimatePermissions (Str.toLowerCase (fullText content)));
    ("self-contained", Scorer.estimateContext metrics) ].

(** What [addSectionScores] does to the content-structure category. *)
Definition blendSections (str : Js.NumberToString) (cfg : Config)
           (secs : list DocSection) (cs : Category) : Category :=
  let sectionScores := map (Scorer.scoreSection str cfg) secs in
  let rollupScore :=
      Js.round1 (Scorer.Qsum (map sec_score sectionScores)
                 / inject_Z (Scorer.len sectionScores)) in
  mkCategory (cat_id cs) (cat_name cs)
    (Some (Js.round1
             ((match cat_score cs with Some q => q | None => 0%Q end + rollupScore) / 2)))
    (cat_weight cs) (cat_criteria cs) (cat_issues cs) (cat_estimated cs)
    (cat_message cs)
    (Some sectionScores) (Some rollupScore).

(** The section breakdown that [addSectionScores] acts on, if any. *)
Definition sectionsToScore (content : Content) : option (list DocSection) :=
  match c_sections content with
  | None | Some [] => None
  | Some secs => Some secs
  end.

(** The report with another time stamp. *)
Definition atClock (t : string) (r : Report) : Report :=
  set_meta r (mkMeta (url (meta r)) (title (meta r)) t (mode (meta r))
                     (claudeCache (meta r)) (claudeError (meta r))).

Definition mapCompletion {A B} (f : A -> B) (c : Completion A) : Completion B :=
  match c with
  | Normal a => Normal (f a)
  | Throw e => Throw e
  end.

(** [addSectionScores] as a function of the report, once the
    content-structure category is there. *)
Definition rolledUp (str : Js.NumberToString) (cfg : Config) (content : Content)
           (r : Report) : Report :=
  match sectionsToScore content, Js.get (categories r) "content-structure" with
  | Some secs, Some cs =>
      mkReport (meta r)
        (Js.set (categories r) "content-structure" (blendSections str cfg secs cs))
        (compositeScore r) (status r) (allIssues r) (topIssues r) (summary r)
        (claudeSummary r) (claudeTopIssues r)
        (Some (map (Scorer.scoreSection str cfg) secs))
  | _, _ => r
  end.

(** The report of a run that estimated the semantic categories, with
    the error message of the failed semantic step if there was one. *)
Definition estimatedReport (str : Js.NumberToString) (env : Scorer.Env)
           (content : Content) (metrics : Metrics) (apiKey : option string)
           (terminology : RuleResult) (failure : option string) : Report :=
  let r0 := Scorer.initialResults env content apiKey in
  let cats := (ruleCategories str (Scorer.config env) content metrics terminology
               ++ estimates content metrics)%list in
  Scorer.finish str
    (rolledUp str (Scorer.config env) content
       (mkReport
          (match failure with
           | Some msg => set_claudeError (meta r0) msg
           | None => meta r0
           end)
          cats (compositeScore r0) (status r0) (allIssues r0) (topIssues r0)
          (summary r0) (claudeSummary r0) (claudeTopIssues r0) (sections r0))).

(** The content-structure category a run ends with. *)
Definition finalContentStructure (str : Js.NumberToString) (cfg : Config)
           (content : Content) (metrics : Metrics) : Category :=
  let cs := Scorer.ruleCategory "CAT-01" "Content Structure" "content-structure"
              (ContentStructureRules.scoreAll str cfg metrics) in
  match sectionsToScore content with
  | Some secs => blendSections str cfg secs cs
  | None => cs
  end.

(** ** Samples for C4 *)

(** The report of the sample page scored without a key. *)
Definition sampleReport : Report :=
  match Scorer.scoreAll sampleStr
          (envAnswering "2026-02-05T10:00:00.000Z" (Normal overScoredResponse))
          sampleContent sampleMetrics None with
  | Normal r => r
  | Throw _ => Scorer.initialResults
                 (envAnswering "2026-02-05T10:00:00.000Z" (Normal overScoredResponse))
                 sampleContent None
  end.

(** Two categories whose issues arrive out of order. *)
Definition unsortedCategories : Categories :=
  [ ("first",
     mkCategory None (Some "First") (Some 5%Q) None []
                (Some [issue "info" "note" None; issue "critical" "broken" None])
                false None None None);
    ("second",
     mkCategory None (Some "Second") (Some 5%Q) None []
                (Some [issue "warning" "check" None])
                false None None None) ].

(** ** Hashing *)

(** FNV-1a over 32 bits: the code unit is xor-ed in, the result is
    multiplied by the FNV prime and cut to 32 bits. *)
Definition fnvPrime : Z := 16777619.

Definition fnv1aStep (h : Z) (c : ascii) : Z :=
  (Z.lxor h (Z.of_nat (nat_of_ascii c)) * fnvPrime) mod 2 ^ 32.

Definition fnv1a32 (text : string) : Z :=
  fold_left fnv1aStep (list_ascii_of_string text) 2166136261.

(** The value of a lower-case hexadecimal numeral, read from the left. *)
Definition hexDigitValue (c : ascii) : option Z :=
  let n := nat_of_ascii c in
  if ((48 <=? n) && (n <=? 57))%nat then Some (Z.of_nat (n - 48))
  else if ((97 <=? n) && (n <=? 102))%nat then Some (Z.of_nat (n - 87))
  else None.

Fixpoint hexValue (acc : Z) (s : string) : option Z :=
  match s with
  | EmptyString => Some acc
  | String c s' =>
      match hexDigitValue c with
      | Some d => hexValue (acc * 16 + d) s'
      | None => None
      end
  end.

(** ** Ranges of scores *)

(** [x] lies between the integers [a] and [b]. *)
Definition within (a b : Z) (x : Q) : Prop := (inject_Z a <= x <= inject_Z b)%Q.

Definition scoreWithin (a b : Z) (s : option Q) : Prop :=
  exists q, s = Some q /\ within a b q.

(** No criterion weight of the configuration is negative. *)
Definition nonnegWeights (cfg : Config) : Prop :=
  forall cat id w, cfg_get cfg cat id cfg_weight = Some w -> (0 <= w)%Q.

(** The image and content ratios are in the range the parser produces. *)
Definition saneRatios (metrics : Metrics) : Prop :=
  (0 <= cm_visualToContentRatio (m_content metrics))%Q
  /\ (0 <= im_altTextCoverage (m_images metrics) <= 1)%Q.

(** The page has no links: CS-07 then does not read the count of
    broken links. *)
Definition noLinks (metrics : Metrics) : Prop :=
  match m_links metrics with
  | Some links => lk_total links = 0
  | None => True
  end.

(** The metrics of the sample page without its links, and the report of
    that page scored without a key. *)
Definition linklessMetrics : Metrics :=
  mkMetrics (m_paragraphs sampleMetrics) (m_headings sampleMetrics) (m_lists sampleMetrics)
            (m_images sampleMetrics) (m_content sampleMetrics)
            (Some (mkLinkMetrics 0 0 0 0 [])).

Definition linklessReport : Report :=
  match Scorer.scoreAll sampleStr
          (envAnswering "2026-02-05T10:00:00.000Z" (Normal overScoredResponse))
          sampleContent linklessMetrics None with
  | Normal r => r
  | Throw _ => Scorer.initialResults
                 (envAnswering "2026-02-05T10:00:00.000Z" (Normal overScoredResponse))
                 sampleContent None
  end.

(** Every score of a category, and of its criteria, lies in [0, 10]. *)
Definition categoryInRange (c : Category) : Prop :=
  scoreWithin 0 10 (cat_score c)
  /\ forall id cr, In (id, cr) (cat_criteria c) -> scoreWithin 0 10 (score cr).

(** ** The engine's state: the meta block *)

(** A computation that leaves [results.meta] alone, however it ends. *)
Definition keepsMeta {A} (m : M A) : Prop :=
  forall r0, meta (snd (m r0)) = meta r0.

(** ** Terminology (AV-01) *)

(** The concept groups of AV-01 for which the text uses more than one
    term. *)
Definition mixedGroups (content : Content) : list (string * TerminologyRules.TermGroup) :=
  filter (fun e => TerminologyRules.multiVariant (snd e))
         (Js.entries (TerminologyRules.extractActionTerms content)).

(** The number of issues of a given severity. *)
Definition countSeverity (sev : string) (l : list Issue) : Z :=
  Z.of_nat (List.length (filter (fun i => String.eqb (severity i) sev) l)).

(** An object in which no key occurs twice. *)
Definition distinctKeys {V} (o : Js.JsObject V) : Prop := NoDup (map fst o).

(** The AV-01 criterion of the text with "deactivate" and "disable". *)
Definition sampleAV01 : CriterionResult :=
  match TerminologyRules.scoreTermConsistency (contentOfText deactivateDisableText) with
  | Normal c => c
  | Throw _ => mkCriterion None None [] None
  end.

(** The tokens the cluster scan reads. *)
Definition clusterTokens (content : Content) : list string :=
  TerminologyRules.tokenize (Str.toLowerCase (fullText content)).

(** A token the cluster scan does not skip. *)
Definition counted (token : string) : bool :=
  negb ((String.length token <? 4)%nat
        || existsb (String.eqb token) TerminologyRules.STOP_WORDS)
  && negb (String.length (TerminologyRules.normalizeTerm token) <? 3)%nat.

(** A surrounding cache that holds [entry] under every key. *)
Definition envCached (clock : string) (entry : Scorer.CacheEntry)
           (answer : Completion ClaudeClient.Response) : Scorer.Env :=
  Scorer.mkEnv clock [] (fun _ => Normal (Some entry)) (fun _ _ => Normal tt)
               (fun _ _ _ => answer).

Definition sampleCacheEntry : Scorer.CacheEntry :=
  Scorer.mkCacheEntry overScoredResponse (ClaudeClient.transformScores overScoredResponse)
                      (Some "2026-02-01T09:00:00.000Z").

(** What the cluster scan keeps about one cluster: its total is the sum
    of its variants' counts, and each variant is a counted word of the
    cluster's root, seen at least once. *)
Definition clusterSound (root : string) (g : TerminologyRules.TermGroup) : Prop :=
  TerminologyRules.total g = Parser.Zsum (map snd (TerminologyRules.variants g))
  /\ Forall (fun tc : string * Z =>
               TerminologyRules.normalizeTerm (fst tc) = root
               /\ counted (fst tc) = true
               /\ 1 <= snd tc)
            (TerminologyRules.variants g).

(** ** Merging the semantic criteria *)

(** The content-structure category once [scores[id]], if there is one,
    has been merged into it. *)
Definition withSemanticCriterion (scores : Js.JsObject CriterionResult) (id : string)
           (cs : Category) : Category :=
  match Js.get scores id with
  | Some c =>
      set_cat_issues (set_cat_criteria cs (Js.set (cat_criteria cs) id c))
                     (option_map (fun l => (l ++ issues c)%list) (cat_issues cs))
  | None => cs
  end.

(** The terminology category once the semantic AV-02, if there is one,
    has been merged into the rule-based AV-02, if there is one. *)
Definition withTermConflation (scores : Js.JsObject CriterionResult) (term : Category)
  : Category :=
  match Js.get scores "AV-02", Js.get (cat_criteria term) "AV-02" with
  | Some s, Some existing =>
      set_cat_criteria term
        (Js.set (cat_criteria term) "AV-02"
           (mkCriterion (criterionId existing)
                        (Scorer.mergedScore (score existing) (score s))
                        (issues existing ++ issues s)%list
                        (cr_details existing)))
  | _, _ => term
  end.

(** A report holding the two rule categories the merge works on. *)
Definition mergeTarget : Report :=
  set_categories
    (Scorer.initialResults (envAnswering "" (Normal overScoredResponse)) sampleContent
                           (Some "sk-ant-key"))
    [ ("content-structure",
       Scorer.ruleCategory "CAT-01" "Content Structure" "content-structure"
         (ContentStructureRules.scoreAll sampleStr [] sampleMetrics));
      ("terminology",
       Scorer.ruleCategory "CAT-02" "Consistent Terminology" "terminology"
         sampleTerminology) ].

(** A response with verdicts on CS-03 and AV-02. *)
Definition crossCuttingResponse : ClaudeClient.Response :=
  ClaudeClient.mkResponse
    (Some [ ("CS-03", ClaudeClient.mkRawScore (ClaudeClient.NumberScore 4) (Some "Steps are compound")
                                              (Some ["Step 2 has two actions"]) None);
            ("AV-02", ClaudeClient.mkRawScore (ClaudeClient.NumberScore 5) (Some "Terms are mixed")
                                              (Some []) (Some [])) ])
    (Some "Needs work") None.

(** ** List usage (CS-02) *)

(** The metrics with another list-to-paragraph ratio. *)
Definition withListRatio (metrics : Metrics) (ratio : Q) : Metrics :=
  mkMetrics (m_paragraphs metrics) (m_headings metrics)
    (mkListMetrics (lm_count (m_lists metrics)) (lm_totalItems (m_lists metrics)) ratio
                   (lm_orderedCount (m_lists metrics))
                   (lm_proceduralCount (m_lists metrics))
                   (lm_descriptiveCount (m_lists metrics)))
    (m_images metrics) (m_content metrics) (m_links metrics).

(** The ideal ratio CS-02 works with, 0.3 by default. *)
Definition idealListRatio (cfg : Config) : Q :=
  Js.num_or (cfg_get cfg "content-structure" "CS-02" cfg_idealRatio) (3 # 10).


(** ** Parser metrics *)

(** The key of a level in the heading distribution. *)
Definition levelKey (level : Z) : string := "h" ++ Js.show level.

(** ** The host's Base64 functions

    [btoa] and [atob] on strings of 8-bit characters ([btoa] throws on
    any other).  [atob] is the forgiving decoding of the HTML standard;
    [None] is its exception. *)

Module Base64.

Definition alphabet : string :=
  "ABCDEFGHIJKLMNOPQRSTUVWXYZabcdefghijklmnopqrstuvwxyz0123456789+/".

Definition sextetChar (n : nat) : ascii :=
  match String.get n alphabet with
  | Some c => c
  | None => "="%char
  end.

Fixpoint indexOf (c : ascii) (s : string) : option nat :=
  match s with
  | EmptyString => None
  | String c' s' => if Ascii.eqb c' c then Some O else option_map S (indexOf c s')
  end.

Definition sextetOf (c : ascii) : option nat := indexOf c alphabet.

(** Three bytes give four sextets; one or two bytes left at the end
    give two or three, the bits that are missing being 0. *)
Fixpoint sextets (bytes : list nat) : list nat :=
  match bytes with
  | [] => []
  | [a] => [a / 4; (a mod 4) * 16]
  | [a; b] => [a / 4; (a mod 4) * 16 + b / 16; (b mod 16) * 4]
  | a :: b :: c :: rest =>
      a / 4 :: (a mod 4) * 16 + b / 16 :: (b mod 16) * 4 + c / 64 :: c mod 64
        :: sextets rest
  end%nat.

Definition padding (n : nat) : list ascii :=
  match (n mod 3)%nat with
  | O => []
  | S O => ["="%char; "="%char]
  | _ => ["="%char]
  end.

Definition btoa (s : string) : string :=
  let bytes := map nat_of_ascii (list_ascii_of_string s) in
  string_of_list_ascii (map sextetChar (sextets bytes) ++ padding (List.length bytes)).

(** ASCII whitespace: tab, line feed, form feed, carriage return, space. *)
Definition isWhitespace (c : ascii) : bool :=
  let n := nat_of_ascii c in
  ((n =? 9) || (n =? 10) || (n =? 12) || (n =? 13) || (n =? 32))%nat.

(** One or two [=] at the end are removed. *)
Definition stripPadding (data : list ascii) : list ascii :=
  match rev data with
  | c1 :: r1 =>
      if Ascii.eqb c1 "=" then
        match r1 with
        | c2 :: r2 => if Ascii.eqb c2 "=" then rev r2 else rev r1
        | [] => rev r1
        end
      else data
  | [] => data
  end.

Fixpoint allSextets (data : list ascii) : option (list nat) :=
  match data with
  | [] => Some []
  | c :: rest =>
      match sextetOf c, allSextets rest with
      | Some v, Some vs => Some (v :: vs)
      | _, _ => None
      end
  end.

(** Four sextets give three bytes; two or three sextets left at the end
    give one or two, the bits left over being dropped. *)
Fixpoint bytesOf (vs : list nat) : list nat :=
  match vs with
  | v1 :: v2 :: v3 :: v4 :: rest =>
      v1 * 4 + v2 / 16 :: (v2 mod 16) * 16 + v3 / 4 :: (v3 mod 4) * 64 + v4
        :: bytesOf rest
  | [v1; v2; v3] => [v1 * 4 + v2 / 16; (v2 mod 16) * 16 + v3 / 4]
  | [v1; v2] => [v1 * 4 + v2 / 16]
  | _ => []
  end%nat.

Definition atob (s : string) : option string :=
  let data := filter (fun c => negb (isWhitespace c)) (list_ascii_of_string s) in
  let data := if (List.length data mod 4 =? 0)%nat then stripPadding data else data in
  if (List.length data mod 4 =? 1)%nat then None
  else match allSextets data with
       | Some vs => Some (string_of_list_ascii (map ascii_of_nat (bytesOf vs)))
       | None => None
       end.

End Base64.

(** ** Storage (js/storage.js)

    [localStorage] is modelled by the items the module keeps in it.  An
    item that the module reads with [JSON.parse] is given by the value
    its text parses to ([JSON.parse] undoes [JSON.stringify] on the
    module's own values, an absent property being the same as an
    [undefined] one), or marked as text that does not parse.  Writing an
    object stores its properties in enumeration order, which is the
    order its text has. *)

Module Storage.

Definition MAX_HISTORY_ITEMS : nat := 50.
Definition MAX_CACHE_ITEMS : nat := 50.
Definition CACHE_TTL_MS : Z := 7 * 24 * 60 * 60 * 1000.

Inductive Stored (A : Type) : Type :=
| Parsed (a : A)
| Unparsable.
Arguments Parsed {A} a.
Arguments Unparsable {A}.

(** One entry of the scoring history. *)
Record HistoryEntry : Type := mkHistoryEntry {
  he_id : string;
  he_url : option string;
  he_title : option string;
  he_compositeScore : option Q;
  he_timestamp : string;
  he_categoryScores : option (Js.JsObject (option Q))
}.

(** The argument of [saveToHistory]. *)
Record HistoryInput : Type := mkHistoryInput {
  hi_url : option string;
  hi_title : option string;
  hi_compositeScore : option Q;
  hi_categoryScores : option (Js.JsObject (option Q))
}.

(** The value of a setting. *)
Inductive SettingValue : Type :=
| Flag (b : bool)
| Text (s : string).

Record LocalStorage : Type := mkLocalStorage {
  apiKeyItem : option string;
  themeItem : option string;
  historyItem : option (Stored (list HistoryEntry));
  settingsItem : option (Stored (Js.JsObject SettingValue));
  claudeCacheItem : option (Stored (Js.JsObject Scorer.CacheEntry))
}.

Definition set_historyItem (ls : LocalStorage) (h : option (Stored (list HistoryEntry)))
  : LocalStorage :=
  mkLocalStorage (apiKeyItem ls) (themeItem ls) h (settingsItem ls) (claudeCacheItem ls).

Definition set_settingsItem (ls : LocalStorage)
           (s : option (Stored (Js.JsObject SettingValue))) : LocalStorage :=
  mkLocalStorage (apiKeyItem ls) (themeItem ls) (historyItem ls) s (claudeCacheItem ls).

Definition set_claudeCacheItem (ls : LocalStorage)
           (c : option (Stored (Js.JsObject Scorer.CacheEntry))) : LocalStorage :=
  mkLocalStorage (apiKeyItem ls) (themeItem ls) (historyItem ls) (settingsItem ls) c.

Definition set_apiKeyItem (ls : LocalStorage) (k : option string) : LocalStorage :=
  mkLocalStorage k (themeItem ls) (historyItem ls) (settingsItem ls) (claudeCacheItem ls).

(** The clock's two conversions: [new Date(ms).toISOString()] and
    [new Date(text).getTime()], [None] being NaN. *)
Record Dates : Type := mkDates {
  toISOString : Z -> string;
  getTime : string -> option Z
}.

(** *** The scoring history *)

(** [getHistory()]: the stored list, [[]] when the item is missing,
    empty or does not parse. *)
Definition getHistory (ls : LocalStorage) : list HistoryEntry :=
  match historyItem ls with
  | Some (Parsed h) => h
  | _ => []
  end.

Definition sameUrl (a b : option string) : bool :=
  match a, b with
  | Some x, Some y => String.eqb x y
  | None, None => true
  | _, _ => false
  end.

(** [history.findIndex(h => h.url === url)], [None] for -1. *)
Fixpoint findIndex (url : option string) (history : list HistoryEntry) : option nat :=
  match history with
  | [] => None
  | h :: rest =>
      if sameUrl (he_url h) url then Some O
      else option_map S (findIndex url rest)
  end.

(** [history[i] = entry] for an index within the array. *)
Fixpoint replaceAt (i : nat) (entry : HistoryEntry) (history : list HistoryEntry)
  : list HistoryEntry :=
  match history, i with
  | [], _ => []
  | _ :: rest, O => entry :: rest
  | h :: rest, S j => h :: replaceAt j entry rest
  end.

(** [saveToHistory(result)]; [id] is the identifier drawn from the clock
    and the random generator, [timestamp] the clock's ISO text. *)
Definition saveToHistory (id timestamp : string) (result : HistoryInput)
           (ls : LocalStorage) : LocalStorage :=
  let history := getHistory ls in
  let entry := mkHistoryEntry id (hi_url result) (hi_title result)
                              (hi_compositeScore result) timestamp
                              (hi_categoryScores result) in
  let updated := match findIndex (he_url entry) history with
                 | Some existingIndex => replaceAt existingIndex entry history
                 | None => entry :: history
                 end in
  let limited := if (MAX_HISTORY_ITEMS <? List.length updated)%nat
                 then firstn MAX_HISTORY_ITEMS updated else updated in
  set_historyItem ls (Some (Parsed limited)).

(** *** The cache of semantic responses *)

(** [getClaudeCache()]. *)
Definition getClaudeCache (ls : LocalStorage) : Js.JsObject Scorer.CacheEntry :=
  match claudeCacheItem ls with
  | Some (Parsed c) => c
  | _ => []
  end.

(** [delete cache[hash]]. *)
Definition deleteKey {V} (o : Js.JsObject V) (k : string) : Js.JsObject V :=
  filter (fun e => negb (String.eqb (fst e) k)) o.

(** [new Date(entry.savedAt).getTime()], [None] being NaN. *)
Definition savedTime (d : Dates) (entry : Scorer.CacheEntry) : option Z :=
  match Scorer.savedAt entry with
  | Some text => getTime d text
  | None => None
  end.

(** [entry.savedAt && Date.now() - new Date(entry.savedAt).getTime() > CACHE_TTL_MS]. *)
Definition expired (d : Dates) (now : Z) (entry : Scorer.CacheEntry) : bool :=
  match Parser.nonEmpty (Scorer.savedAt entry) with
  | Some text => match getTime d text with
                 | Some t => (CACHE_TTL_MS <? now - t)%Z
                 | None => false
                 end
  | None => false
  end.

(** [getClaudeCacheEntry(hash)] at the time [now]: the entry, if any,
    and the storage afterwards. *)
Definition getClaudeCacheEntry (d : Dates) (now : Z) (hash : string) (ls : LocalStorage)
  : option Scorer.CacheEntry * LocalStorage :=
  let cache := getClaudeCache ls in
  match Js.get cache hash with
  | None => (None, ls)
  | Some entry =>
      if expired d now entry
      then (None, set_claudeCacheItem ls (Some (Parsed (Js.entries (deleteKey cache hash)))))
      else (Some entry, ls)
  end.

(** The comparator [(a, b) => new Date(b[1].savedAt) - new Date(a[1].savedAt)]:
    newest first; a difference that is NaN counts as 0. *)
Definition newerFirst (d : Dates) (a b : string * Scorer.CacheEntry) : bool :=
  match savedTime d (snd b), savedTime d (snd a) with
  | Some tb, Some ta => (tb <=? ta)%Z
  | _, _ => true
  end.

(** [Object.fromEntries(entries)]. *)
Definition fromEntries {V} (l : list (string * V)) : Js.JsObject V :=
  fold_left (fun o e => Js.set o (fst e) (snd e)) l [].

(** [saveClaudeCacheEntry(hash, payload)] at the time [now]. *)
Definition saveClaudeCacheEntry (d : Dates) (now : Z) (hash : string)
           (payload : Scorer.CacheEntry) (ls : LocalStorage) : LocalStorage :=
  let cache :=
      Js.set (getClaudeCache ls) hash
             (Scorer.mkCacheEntry (Scorer.raw payload) (Scorer.transformed payload)
                                  (Some (toISOString d now))) in
  let entries := firstn MAX_CACHE_ITEMS (Js.sort_by (newerFirst d) (Js.entries cache)) in
  let pruned := fromEntries entries in
  set_claudeCacheItem ls (Some (Parsed (Js.entries pruned))).

(** *** The settings *)

(** The properties of [source] copied onto [target], as the spread
    [{ ...target, ...source }] does after it has copied [target]. *)
Definition assign {V} (target source : Js.JsObject V) : Js.JsObject V :=
  fold_left (fun o e => Js.set o (fst e) (snd e)) (Js.entries source) target.

(** [{ ...a, ...b }]. *)
Definition spread2 {V} (a b : Js.JsObject V) : Js.JsObject V := assign (assign [] a) b.

Definition defaults : Js.JsObject SettingValue :=
  [("autoScore", Flag true); ("showDetailedIssues", Flag true);
   ("exportFormat", Text "markdown")].

(** [getSettings()]. *)
Definition getSettings (ls : LocalStorage) : Js.JsObject SettingValue :=
  match settingsItem ls with
  | Some (Parsed saved) => spread2 defaults saved
  | _ => defaults
  end.

(** [saveSettings(settings)]. *)
Definition saveSettings (settings : Js.JsObject SettingValue) (ls : LocalStorage)
  : LocalStorage :=
  let current := getSettings ls in
  let merged := spread2 current settings in
  set_settingsItem ls (Some (Parsed (Js.entries merged))).

(** *** The API key *)

(** [s.split('').reverse().join('')]. *)
Definition reverse (s : string) : string :=
  string_of_list_ascii (rev (list_ascii_of_string s)).

(** [saveApiKey(apiKey)]. *)
Definition saveApiKey (apiKey : option string) (ls : LocalStorage) : LocalStorage :=
  match Parser.nonEmpty apiKey with
  | None => set_apiKeyItem ls None
  | Some key => set_apiKeyItem ls (Some (Base64.btoa (reverse key)))
  end.

(** [getApiKey()]: [None] is [null]. *)
Definition getApiKey (ls : LocalStorage) : option string :=
  match Parser.nonEmpty (apiKeyItem ls) with
  | None => None
  | Some obfuscated =>
      match Base64.atob obfuscated with
      | Some text => Some (reverse text)
      | None => None
      end
  end.

(** [hasApiKey()]. *)
Definition hasApiKey (ls : LocalStorage) : bool :=
  match Parser.nonEmpty (getApiKey ls) with
  | Some _ => true
  | None => false
  end.

Definition clearApiKey (ls : LocalStorage) : LocalStorage := set_apiKeyItem ls None.

End Storage.

(** The clock's texts read back: the text of a time is not empty and
    [getTime] returns the time it was made from. *)
Definition readsBack (d : Storage.Dates) : Prop :=
  forall t : Z,
    Storage.toISOString d t <> "" /\ Storage.getTime d (Storage.toISOString d t) = Some t.

(** Every entry of the cache was saved before [now]. *)
Definition savedBefore (d : Storage.Dates) (now : Z)
           (cache : Js.JsObject Scorer.CacheEntry) : Prop :=
  forall k e, In (k, e) cache -> exists t, Storage.savedTime d e = Some t /\ t < now.

(** A clock for the examples: the text of a time is its millisecond
    count in decimal after the letter T. *)
Definition sampleDates : Storage.Dates :=
  Storage.mkDates
    (fun t => String "T" (NilEmpty.string_of_int (Z.to_int t)))
    (fun text => match text with
                 | String "T" rest => option_map Z.of_int (NilEmpty.int_of_string rest)
                 | _ => None
                 end).

Definition sampleHistoryEntry : Storage.HistoryEntry :=
  Storage.mkHistoryEntry "m1abc" (Some "https://help.example.com/a") (Some "Page A")
                         (Some (72 # 10)) "2026-02-01T09:00:00.000Z" None.

Definition sampleLocalStorage : Storage.LocalStorage :=
  Storage.mkLocalStorage None None
    (Some (Storage.Parsed [sampleHistoryEntry]))
    (Some (Storage.Parsed [("exportFormat", Storage.Text "json")]))
    (Some (Storage.Parsed [("1a2b3c4d", Scorer.mkCacheEntry (Scorer.raw sampleCacheEntry)
                                          (Scorer.transformed sampleCacheEntry)
                                          (Some "T1000"))])).

Definition sampleHistoryInput : Storage.HistoryInput :=
  Storage.mkHistoryInput (Some "https://help.example.com/a") (Some "Page A")
                         (Some (81 # 10)) None.

(** ** Report files (the [Export] object) *)

Module Exporter.

(** [[a-z0-9]]. *)
Definition isFileChar (c : ascii) : bool := Str.is_lower c || Str.is_digit c.

(** [s.replace(/[^a-z0-9]+/g, '_')]; [inRun] says that the character
    before belongs to the run being replaced. *)
Fixpoint replaceRuns (inRun : bool) (s : string) : string :=
  match s with
  | EmptyString => EmptyString
  | String c rest =>
      if isFileChar c then String c (replaceRuns false rest)
      else if inRun then replaceRuns true rest
           else String "_" (replaceRuns true rest)
  end.

(** [s.replace(/^_|_$/g, '')]: an underscore at the start goes, and one
    at the end. *)
Definition stripFirst (s : string) : string :=
  match s with
  | String c rest => if Ascii.eqb c "_" then rest else s
  | EmptyString => EmptyString
  end.

Fixpoint stripLast (s : string) : string :=
  match s with
  | EmptyString => EmptyString
  | String c EmptyString => if Ascii.eqb c "_" then EmptyString else s
  | String c rest => String c (stripLast rest)
  end.

(** [sanitizeFilename(name)]. *)
Definition sanitizeFilename (name : option string) : string :=
  let name := match Parser.nonEmpty name with
              | Some text => text
              | None => "report"
              end in
  String.substring 0 50 (stripLast (stripFirst (replaceRuns false (Str.toLowerCase name)))).

End Exporter.

(** A text of lower-case letters, digits and underscores in which no
    underscore follows another; [afterUnderscore] says that an
    underscore may not come first either. *)
Fixpoint underscoresApart (afterUnderscore : bool) (s : string) : bool :=
  match s with
  | EmptyString => true
  | String c rest =>
      if Exporter.isFileChar c then underscoresApart false rest
      else Ascii.eqb c "_" && negb afterUnderscore && underscoresApart true rest
  end.

Fixpoint endsWithUnderscore (s : string) : bool :=
  match s with
  | EmptyString => false
  | String c EmptyString => Ascii.eqb c "_"
  | String _ rest => endsWithUnderscore rest
  end.

(** ** Batch scoring (the [App] object) *)

Module App.

(** An entry of [batchResults]: the report of a page, or
    [{ url, error }] for a URL whose scoring threw. *)
Inductive BatchEntry : Type :=
| Scored (result : Report)
| Failed (url : string) (error : string).

(** [entry.error]. *)
Definition entry_error (e : BatchEntry) : option string :=
  match e with
  | Scored _ => None
  | Failed _ message => Some message
  end.

(** [entry.meta.url]. *)
Definition entry_url (e : BatchEntry) : Completion (option string) :=
  match e with
  | Scored result => Normal (url (meta result))
  | Failed _ _ => Throw (TypeError_undefined "url")
  end.

(** A [Set] of strings, by its elements in insertion order. *)
Definition TokenSet : Type := list string.

Definition has (s : TokenSet) (token : string) : bool := existsb (String.eqb token) s.

(** [new Set(tokens)]. *)
Definition newSet (tokens : list string) : TokenSet :=
  fold_left (fun s token => if has s token then s else (s ++ [token])%list) tokens [].

(** [text.split(/[^a-z0-9]+/)]; [inRun] says that the character before
    belongs to a separator, [current] is the piece read so far. *)
Fixpoint splitRuns (inRun : bool) (current : string) (text : string) : list string :=
  match text with
  | EmptyString => [current]
  | String c rest =>
      if Exporter.isFileChar c then splitRuns false (current ++ String c EmptyString) rest
      else if inRun then splitRuns true EmptyString rest
           else current :: splitRuns true EmptyString rest
  end.

(** [fullText.toLowerCase().split(/[^a-z0-9]+/).filter(token => token.length > 3)]. *)
Definition pageTokens (fullText : string) : list string :=
  filter (fun token => (3 <? String.length token)%nat)
         (splitRuns false EmptyString (Str.toLowerCase fullText)).

(** The closure [similarity]; [None] is a set that is [undefined]. *)
Definition similarity (a b : option TokenSet) : Q :=
  match a, b with
  | Some a, Some b =>
      let intersection := Z.of_nat (List.length (filter (has b) a)) in
      let union := Z.of_nat (List.length a) + Z.of_nat (List.length b) - intersection in
      if (union =? 0)%Z then 0%Q else (inject_Z intersection / inject_Z union)%Q
  | _, _ => 0%Q
  end.

Record Duplicate : Type := mkDuplicate {
  dup_a : option string;
  dup_b : option string;
  dup_similarity : Z
}.

(** [if (entry.error) continue]. *)
Definition skipped (e : BatchEntry) : bool :=
  match Parser.nonEmpty (entry_error e) with
  | Some _ => true
  | None => false
  end.

(** The inner loop of [findDuplicatePages], at index [j] with the
    entries from [j] on. *)
Fixpoint innerLoop (tokenSets : list TokenSet) (i : nat) (first : BatchEntry) (j : nat)
         (rest : list BatchEntry) (duplicates : list Duplicate)
  : Completion (list Duplicate) :=
  match rest with
  | [] => Normal duplicates
  | second :: rest' =>
      if skipped second then innerLoop tokenSets i first (S j) rest' duplicates
      else
        let score := similarity (nth_error tokenSets i) (nth_error tokenSets j) in
        if Qle_bool (85 # 100) score then
          match entry_url first with
          | Throw e => Throw e
          | Normal a =>
              match entry_url second with
              | Throw e => Throw e
              | Normal b =>
                  innerLoop tokenSets i first (S j) rest'
                            (duplicates ++ [mkDuplicate a b (Js.Math_round (score * 100))])
              end
          end
        else innerLoop tokenSets i first (S j) rest' duplicates
  end.

(** The outer loop, at index [i] with the entries from [i] on. *)
Fixpoint outerLoop (tokenSets : list TokenSet) (i : nat) (entries : list BatchEntry)
         (duplicates : list Duplicate) : Completion (list Duplicate) :=
  match entries with
  | [] => Normal duplicates
  | first :: rest =>
      if skipped first then outerLoop tokenSets (S i) rest duplicates
      else match innerLoop tokenSets i first (S i) rest duplicates with
           | Throw e => Throw e
           | Normal duplicates' => outerLoop tokenSets (S i) rest duplicates'
           end
  end.

(** [findDuplicatePages(resultsList, tokenSets)]. *)
Definition findDuplicatePages (resultsList : list BatchEntry) (tokenSets : list TokenSet)
  : Completion (list Duplicate) :=
  outerLoop tokenSets 0 resultsList [].

(** How the scoring of one URL of a batch ends: with the report of the
    page and the text of the page, or with an error thrown before the
    page is entered in the two arrays (saving to the history, which
    comes after, is taken not to throw). *)
Inductive Outcome : Type :=
| Succeeded (result : Report) (fullText : string)
| Threw (url : string) (message : string).

(** One round of the loop of [runBatchScoring] on the two arrays. *)
Definition batchStep (lists : list BatchEntry * list TokenSet) (o : Outcome)
  : list BatchEntry * list TokenSet :=
  match o with
  | Succeeded result fullText =>
      (fst lists ++ [Scored result], snd lists ++ [newSet (pageTokens fullText)])%list
  | Threw url message => (fst lists ++ [Failed url message], snd lists)%list
  end.

(** [batchResults] and [tokenSets] after the loop. *)
Definition batchLists (outcomes : list Outcome) : list BatchEntry * list TokenSet :=
  fold_left batchStep outcomes ([], []).

(** [state.batchDuplicates] as [runBatchScoring] computes it. *)
Definition batchDuplicates (outcomes : list Outcome) : Completion (list Duplicate) :=
  findDuplicatePages (fst (batchLists outcomes)) (snd (batchLists outcomes)).

End App.

(** The comparisons of one page with the pages after it, and of every
    page with the pages after it: a page is given by its URL and the
    token set it is compared by. *)
Fixpoint pairsFrom (a : option string) (sa : option App.TokenSet)
         (rest : list (option string * option App.TokenSet)) : list App.Duplicate :=
  match rest with
  | [] => []
  | (b, sb) :: rest' =>
      (if Qle_bool (85 # 100) (App.similarity sa sb)
       then [App.mkDuplicate a b (Js.Math_round (App.similarity sa sb * 100))]
       else []) ++ pairsFrom a sa rest'
  end%list.

Fixpoint allPairs (pages : list (option string * option App.TokenSet))
  : list App.Duplicate :=
  match pages with
  | [] => []
  | (a, sa) :: rest => (pairsFrom a sa rest ++ allPairs rest)%list
  end.

(** A scored page: its report and its text. *)
Definition succeeded (p : Report * string) : App.Outcome := App.Succeeded (fst p) (snd p).

Definition pageSet (p : Report * string) : App.TokenSet :=
  App.newSet (App.pageTokens (snd p)).

(** Every page with its own token set. *)
Definition ownSets (pages : list (Report * string))
  : list (option string * option App.TokenSet) :=
  map (fun p => (url (meta (fst p)), Some (pageSet p))) pages.

(** Every page with the token set of the page after it. *)
Fixpoint nextSets (pages : list (Report * string))
  : list (option string * option App.TokenSet) :=
  match pages with
  | [] => []
  | p :: rest => (url (meta (fst p)), option_map pageSet (hd_error rest)) :: nextSets rest
  end.

(** The entries that are not skipped, each with the token set at its
    index: [sets] are the token sets from the index of the first entry
    on. *)
Fixpoint zipView (entries : list App.BatchEntry) (sets : list App.TokenSet)
  : list (option string * option App.TokenSet) :=
  match entries with
  | [] => []
  | App.Scored result :: rest => (url (meta result), hd_error sets) :: zipView rest (tl sets)
  | App.Failed _ _ :: rest => zipView rest (tl sets)
  end.

(** Every failed entry carries a message. *)
Definition failuresNamed (entries : list App.BatchEntry) : Prop :=
  Forall (fun e => match e with
                   | App.Failed _ message => message <> ""
                   | App.Scored _ => True
                   end) entries.

Definition samplePageA : Report * string :=
  (sampleReport, "Click Settings, then select Billing and choose a plan.").

Definition samplePageB : Report * string :=
  (set_meta sampleReport
            (mkMeta (Some "https://help.example.com/b") (Some "Page B")
                    "2026-02-05T10:00:00.000Z" "rule-only" None None),
   "Click Settings, then select Billing and choose a plan.").

(** * Verified properties *)

(** ** Rounding and sums *)

Lemma Math_round_comp (x y : Q) : x == y -> Js.Math_round x = Js.Math_round y.
Proof.
  intros H. unfold Js.Math_round. apply Qfloor_comp. now rewrite H.
Qed.

Lemma round1_comp (x y : Q) : x == y -> Js.round1 x == Js.round1 y.
Proof.
  intros H. unfold Js.round1.
  rewrite (Math_round_comp (x * 10) (y * 10)) by now rewrite H.
  reflexivity.
Qed.

Lemma composite_step_spec (acc : Q * Q) (e : string * Category) :
  Scorer.composite_step acc e
  = if Scorer.qualifies (snd e)
    then (fst acc + entryWeight e, snd acc + Scorer.catScore e * entryWeight e)%Q
    else acc.
Proof.
  destruct e as [key c].
  unfold Scorer.composite_step, Scorer.qualifies, Scorer.catScore, entryWeight.
  simpl. destruct (cat_score c); [| reflexivity].
  destruct (cat_estimated c); reflexivity.
Qed.

Lemma composite_fold (l : list (string * Category)) (acc : Q * Q) :
  fst (fold_left Scorer.composite_step l acc)
    == fst acc + sumQ (map entryWeight
                           (filter (fun e => Scorer.qualifies (snd e)) l))
  /\ snd (fold_left Scorer.composite_step l acc)
    == snd acc + sumQ (map (fun e => Scorer.catScore e * entryWeight e)%Q
                           (filter (fun e => Scorer.qualifies (snd e)) l)).
Proof.
  revert acc. induction l as [| e l IH]; intros acc.
  - simpl. split; ring.
  - simpl fold_left. simpl filter. rewrite composite_step_spec.
    destruct (Scorer.qualifies (snd e)).
    + destruct (IH (fst acc + entryWeight e,
                    snd acc + Scorer.catScore e * entryWeight e)%Q) as [H1 H2].
      simpl fst in H1. simpl snd in H2.
      split; [rewrite H1 | rewrite H2]; simpl; ring.
    + apply IH.
Qed.

Lemma composite_sums (cats : Categories) :
  fst (fold_left Scorer.composite_step (Js.entries cats) (0, 0)%Q) == weightSum cats
  /\ snd (fold_left Scorer.composite_step (Js.entries cats) (0, 0)%Q)
       == weightedScoreSum cats.
Proof.
  destruct (composite_fold (Js.entries cats) (0, 0)%Q) as [H1 H2].
  simpl fst in H1. simpl snd in H2.
  unfold weightSum, weightedScoreSum, included. split.
  - rewrite H1. ring.
  - rewrite H2. ring.
Qed.

Lemma Qeq_bool_comp (x y z : Q) : x == y -> Qeq_bool x z = Qeq_bool y z.
Proof.
  intros H. destruct (Qeq_bool y z) eqn:E.
  - apply Qeq_bool_iff. apply Qeq_bool_iff in E. now rewrite H.
  - destruct (Qeq_bool x z) eqn:E'; [| reflexivity].
    apply Qeq_bool_iff in E'. rewrite H in E'. apply Qeq_bool_iff in E'. congruence.
Qed.

Lemma composite_formula (cats : Categories) :
  Scorer.calculateCompositeScore cats
  == if Qeq_bool (weightSum cats) 0 then 0
     else Js.round1 (weightedScoreSum cats / weightSum cats).
Proof.
  unfold Scorer.calculateCompositeScore.
  destruct (composite_sums cats) as [H1 H2].
  destruct (fold_left Scorer.composite_step (Js.entries cats) (0, 0)%Q) as [tw ws].
  simpl fst in H1. simpl snd in H2.
  rewrite (Qeq_bool_comp _ _ 0 H1).
  destruct (Qeq_bool (weightSum cats) 0); [reflexivity |].
  apply round1_comp. now rewrite H1, H2.
Qed.

Lemma tableWeight_fallback (key : string) (c : Category) :
  cat_weight c = None \/ cat_weight c = Scorer.table_weight key ->
  Scorer.weight_of key c == tableWeight key.
Proof.
  unfold Scorer.weight_of, tableWeight, Js.num_or.
  intros [H | H]; rewrite H.
  - destruct (Scorer.table_weight key) as [w |]; [| reflexivity].
    destruct (Qeq_bool w 0) eqn:E; [| reflexivity].
    apply Qeq_bool_iff in E. now rewrite E.
  - destruct (Scorer.table_weight key) as [w |]; [| reflexivity].
    destruct (Qeq_bool w 0) eqn:E; [| reflexivity].
    apply Qeq_bool_iff in E. now rewrite E.
Qed.

Lemma included_iff (cats : Categories) (e : string * Category) :
  In e (included cats)
  <-> In e (Js.entries cats)
      /\ cat_score (snd e) <> None /\ cat_estimated (snd e) = false.
Proof.
  unfold included. rewrite filter_In. unfold Scorer.qualifies.
  destruct (cat_score (snd e)); destruct (cat_estimated (snd e)); simpl;
    intuition congruence.
Qed.

(** *** The composite in binary64 *)






(** ** C1: the composite score *)




(** ** The stable sort *)

Section SortFacts.
Context {A : Type} (rank : A -> Z).

Let leb := Js.by_rank rank.
Let ordered (a b : A) : Prop := (rank a <= rank b)%Z.

Lemma insert_by_perm (f : A -> A -> bool) (x : A) (l : list A) :
  Permutation (x :: l) (Js.insert_by f x l).
Proof.
  induction l as [| y l IH]; simpl.
  - apply Permutation_refl.
  - destruct (f x y).
    + apply Permutation_refl.
    + eapply perm_trans; [apply perm_swap |]. now apply perm_skip.
Qed.

Lemma sort_by_perm (f : A -> A -> bool) (l : list A) :
  Permutation l (Js.sort_by f l).
Proof.
  induction l as [| x l IH]; simpl.
  - apply perm_nil.
  - eapply perm_trans; [apply perm_skip, IH | apply insert_by_perm].
Qed.

Lemma insert_by_sorted (x : A) (l : list A) :
  StronglySorted ordered l -> StronglySorted ordered (Js.insert_by leb x l).
Proof.
  induction 1 as [| y l Hl IH Hy]; simpl.
  - constructor; constructor.
  - unfold leb at 1, Js.by_rank. destruct (Z.leb_spec (rank x) (rank y)) as [Hle | Hlt].
    + constructor; [now constructor |].
      constructor; [exact Hle |].
      eapply Forall_impl; [| exact Hy].
      intros z Hz. unfold ordered in *. lia.
    + constructor; [exact IH |].
      apply (Permutation_Forall (insert_by_perm leb x l)).
      constructor; [unfold ordered; lia | exact Hy].
Qed.

Lemma sort_by_sorted (l : list A) : StronglySorted ordered (Js.sort_by leb l).
Proof.
  induction l as [| x l IH]; simpl.
  - constructor.
  - now apply insert_by_sorted.
Qed.

(** Stability: the elements of one rank keep their order. *)
Lemma insert_by_stable (k : Z) (x : A) (l : list A) :
  filter (fun y => (rank y =? k)%Z) (Js.insert_by leb x l)
  = filter (fun y => (rank y =? k)%Z) (x :: l).
Proof.
  induction l as [| y l IH]; [reflexivity |].
  simpl Js.insert_by. unfold leb at 1, Js.by_rank.
  destruct (Z.leb_spec (rank x) (rank y)) as [Hle | Hlt]; [reflexivity |].
  simpl filter in *. rewrite IH.
  destruct (Z.eqb_spec (rank y) k) as [Hy | Hy];
    destruct (Z.eqb_spec (rank x) k) as [Hx | Hx]; try reflexivity.
  lia.
Qed.

Lemma sort_by_stable (k : Z) (l : list A) :
  filter (fun y => (rank y =? k)%Z) (Js.sort_by leb l)
  = filter (fun y => (rank y =? k)%Z) l.
Proof.
  induction l as [| x l IH]; [reflexivity |].
  simpl Js.sort_by. rewrite insert_by_stable. simpl. now rewrite IH.
Qed.

Lemma sorted_precedes (l : list A) (a b : A) :
  StronglySorted ordered l -> precedes l a b -> (rank a <= rank b)%Z.
Proof.
  intros Hs (l1 & l2 & l3 & ->).
  induction l1 as [| z l1 IH]; simpl in Hs.
  - apply StronglySorted_inv in Hs. destruct Hs as [_ Hall].
    rewrite Forall_forall in Hall. apply Hall.
    apply in_or_app. right. now left.
  - apply StronglySorted_inv in Hs. now apply IH.
Qed.

End SortFacts.

(** ** The engine monad *)

Lemma ends_in_bind {A B} (f : Report -> Report) (m : M A) (k : A -> M B) :
  (forall a, ends_in f (k a)) -> ends_in f (bind m k).
Proof.
  intros Hk r0 b r. unfold bind.
  destruct (m r0) as [[a | e] r1]; [| discriminate].
  apply Hk.
Qed.

Lemma ends_in_modify (f : Report -> Report) : ends_in f (modify f).
Proof.
  intros r0 a r H. unfold modify in H. injection H as _ <-. now exists r0.
Qed.

Lemma scoreAllM_finishes str env content metrics apiKey :
  ends_in (Scorer.finish str) (Scorer.scoreAllM str env content metrics apiKey).
Proof.
  unfold Scorer.scoreAllM.
  repeat (apply ends_in_bind; intros ?).
  apply ends_in_modify.
Qed.

Lemma scoreAll_finished str env content metrics apiKey r :
  Scorer.scoreAll str env content metrics apiKey = Normal r ->
  exists r', r = Scorer.finish str r'.
Proof.
  unfold Scorer.scoreAll.
  destruct (Scorer.scoreAllM str env content metrics apiKey
              (Scorer.initialResults env content apiKey)) as [[u | e] r1] eqn:E;
    [| discriminate].
  intros H. injection H as <-.
  eapply scoreAllM_finishes. exact E.
Qed.

(** ** C4: issue collection and ranking *)

Lemma severityRank_values (s : string) :
  (s = "critical" <-> Scorer.severityRank s = 0)
  /\ (s = "warning" <-> Scorer.severityRank s = 1)
  /\ (s = "info" <-> Scorer.severityRank s = 2)
  /\ (s <> "critical" /\ s <> "warning" /\ s <> "info" <-> Scorer.severityRank s = 3).
Proof.
  unfold Scorer.severityRank, severityOrder.
  destruct (String.eqb_spec s "critical") as [-> | H1].
  { repeat split; intros; try discriminate; try reflexivity; intuition congruence. }
  destruct (String.eqb_spec s "warning") as [-> | H2].
  { repeat split; intros; try discriminate; try reflexivity; intuition congruence. }
  destruct (String.eqb_spec s "info") as [-> | H3].
  { repeat split; intros; try discriminate; try reflexivity; intuition congruence. }
  repeat split; intros; try discriminate; try congruence; intuition congruence.
Qed.

(** C4.  [collectAllIssues] returns the issues of all categories, in
    category-enumeration order and each carrying its category's name and
    key, rearranged so that ranks never decrease along the list
    (critical 0, warning 1, info 2, any other severity 3) while the
    issues of one rank keep their order; [getTopIssues] with 5 is the
    first five elements of that list, a prefix of it; and the report of
    [scoreAll] holds exactly these two lists. *)
Theorem C4_issues_sorted_stable_top5 :
  forall cats : Categories,
    let flat := Scorer.flattenIssues cats in
    let all := Scorer.collectAllIssues cats in
    flat = flat_map (fun e : string * Category =>
                       map (fun i => mkIssue (severity i) (message i) (fix_ i)
                                             (location i) (excerpt i) (details i)
                                             (cat_name (snd e)) (Some (fst e)))
                           (match cat_issues (snd e) with Some l => l | None => [] end))
                    (Js.entries cats)
    /\ Permutation flat all
    /\ (forall a b, precedes all a b -> issueRank a <= issueRank b)
    /\ (forall s, (s = "critical" <-> Scorer.severityRank s = 0)
                  /\ (s = "warning" <-> Scorer.severityRank s = 1)
                  /\ (s = "info" <-> Scorer.severityRank s = 2)
                  /\ (s <> "critical" /\ s <> "warning" /\ s <> "info"
                      <-> Scorer.severityRank s = 3))
    /\ (forall k, filter (fun i => (issueRank i =? k)%Z) all
                  = filter (fun i => (issueRank i =? k)%Z) flat)
    /\ Scorer.getTopIssues all 5 = firstn 5 all
    /\ (exists rest, all = (Scorer.getTopIssues all 5 ++ rest)%list)
    /\ (forall str env content metrics apiKey r,
           Scorer.scoreAll str env content metrics apiKey = Normal r ->
           allIssues r = Scorer.collectAllIssues (categories r)
           /\ topIssues r = firstn 5 (allIssues r)).
Proof.
  intros cats flat all.
  split.
  { unfold flat, Scorer.flattenIssues. apply flat_map_ext. intros [key c]. reflexivity. }
  split; [apply sort_by_perm |].
  split.
  { intros a b Hab.
    apply (sorted_precedes issueRank all a b); [| exact Hab].
    apply (sort_by_sorted issueRank). }
  split; [apply severityRank_values |].
  split; [intros k; apply (sort_by_stable issueRank) |].
  split; [reflexivity |].
  split.
  { exists (skipn 5 all). unfold Scorer.getTopIssues. symmetry. apply firstn_skipn. }
  intros str env content metrics apiKey r H.
  destruct (scoreAll_finished _ _ _ _ _ _ H) as [r' ->].
  split; reflexivity.
Qed.

(** C4 on the two out-of-order categories and on the sample report. *)
Lemma C4_issues_sorted_stable_top5_witness :
  issueRank (mkIssue "critical" "broken" None None None None (Some "First") (Some "first"))
  <= issueRank (mkIssue "info" "note" None None None None (Some "First") (Some "first"))
  /\ allIssues sampleReport = Scorer.collectAllIssues (categories sampleReport)
  /\ topIssues sampleReport = firstn 5 (allIssues sampleReport).
Proof.
  destruct (C4_issues_sorted_stable_top5 unsortedCategories)
    as (_ & _ & Hsorted & _ & _ & _ & _ & Hreport).
  split.
  - apply Hsorted.
    exists [],
      [mkIssue "warning" "check" None None None None (Some "Second") (Some "second")],
      [].
    vm_compute. reflexivity.
  - apply (Hreport sampleStr
             (envAnswering "2026-02-05T10:00:00.000Z" (Normal overScoredResponse))
             sampleContent sampleMetrics None sampleReport).
    vm_compute. reflexivity.
Defined.

(** ** C6: heading hierarchy *)

Lemma scanLevels_skips (i prev : Z) (levels : list Z) :
  prev <> 0 -> Forall (fun l => l <> 0) levels ->
  Parser.scanLevels i prev levels = map skipToIssue (skipsFrom i prev levels).
Proof.
  revert i prev. induction levels as [| cur rest IH]; intros i prev Hp Hall.
  - reflexivity.
  - inversion Hall as [| ? ? Hc Hrest]; subst.
    simpl. rewrite map_app. rewrite (IH _ _ Hc Hrest).
    destruct (Z.eqb_spec prev 0) as [E | _]; [contradiction |].
    rewrite andb_true_r.
    destruct (prev + 1 <? cur)%Z; reflexivity.
Qed.

Lemma skipsFrom_spec (levels : list Z) (i0 prev : Z) (i p c : Z) :
  In (i, p, c) (skipsFrom i0 prev levels)
  <-> exists n : nat,
        i = i0 + Z.of_nat n
        /\ nth_error (prev :: levels) n = Some p
        /\ nth_error levels n = Some c
        /\ p + 1 < c.
Proof.
  revert i0 prev. induction levels as [| cur rest IH]; intros i0 prev.
  - simpl. split; [tauto |]. intros (n & _ & _ & H & _). destruct n; discriminate.
  - simpl skipsFrom. rewrite in_app_iff. rewrite IH. split.
    + intros [H | (n & Hi & Hp & Hc & Hlt)].
      * destruct (Z.ltb_spec (prev + 1) cur) as [Hlt | Hge]; [| contradiction].
        destruct H as [H | []]. injection H as <- <- <-.
        exists O. simpl. repeat split; try lia; reflexivity.
      * exists (S n). simpl. repeat split; try assumption. lia.
    + intros (n & Hi & Hp & Hc & Hlt). destruct n as [| n].
      * left. simpl in Hp, Hc. injection Hp as <-. injection Hc as <-.
        destruct (Z.ltb_spec (prev + 1) cur) as [_ | Hge]; [| lia].
        left. replace i with i0 by lia. reflexivity.
      * right. exists n. simpl in Hp, Hc. repeat split; try assumption. lia.
Qed.

(** C6.  For heading levels (none of them 0, which the scan keeps for
    "no heading yet"), [validateHeadingHierarchy] reports, in document
    order, one issue for each position whose level exceeds the level of
    the heading just before it by more than one, naming both levels and
    the position, and nothing else: a position is flagged exactly when
    its level is more than one above its predecessor's, so a level that
    stays, goes up by one or goes down by any amount is never flagged;
    the result is valid exactly when there is no such position. *)
Theorem C6_hierarchy_flags_forward_skips :
  forall levels : list Z,
    Forall (fun l => l <> 0) levels ->
    let result := Parser.validateHeadingHierarchy levels in
    hierarchy_issues result = map skipToIssue (skips levels)
    /\ (forall i p c,
           In (i, p, c) (skips levels)
           <-> exists n : nat,
                 i = Z.of_nat (S n)
                 /\ nth_error levels n = Some p
                 /\ nth_error levels (S n) = Some c
                 /\ p + 1 < c)
    /\ (forall n p c,
           nth_error levels n = Some p -> nth_error levels (S n) = Some c ->
           c <= p + 1 ->
           ~ exists iss, In iss (hierarchy_issues result)
                         /\ hi_index iss = Z.of_nat (S n))
    /\ (valid result = true <-> skips levels = []).
Proof.
  intros levels Hall result.
  assert (Hissues : hierarchy_issues result = map skipToIssue (skips levels)).
  { unfold result, Parser.validateHeadingHierarchy, skips.
    destruct levels as [| first rest]; [reflexivity |].
    inversion Hall as [| ? ? Hf Hrest]; subst.
    simpl hierarchy_issues. simpl Parser.scanLevels.
    rewrite andb_false_r. simpl app.
    now apply scanLevels_skips. }
  assert (Hspec : forall i p c,
             In (i, p, c) (skips levels)
             <-> exists n : nat,
                   i = Z.of_nat (S n)
                   /\ nth_error levels n = Some p
                   /\ nth_error levels (S n) = Some c
                   /\ p + 1 < c).
  { intros i p c. unfold skips. destruct levels as [| first rest].
    - simpl. split; [tauto |]. intros (n & _ & H & _). destruct n; discriminate.
    - rewrite skipsFrom_spec. split; intros (n & Hi & Hp & Hc & Hlt);
        exists n; (split; [lia |]); (split; [exact Hp |]); (split; [exact Hc |]);
        exact Hlt. }
  split; [exact Hissues |]. split; [exact Hspec |]. split.
  - intros n p c Hp Hc Hle (iss & Hin & Hidx).
    rewrite Hissues in Hin. apply in_map_iff in Hin.
    destruct Hin as ([[i p'] c'] & <- & Hin).
    simpl in Hidx. subst i.
    apply Hspec in Hin. destruct Hin as (n' & Hi & Hp' & Hc' & Hlt).
    assert (n' = n) by lia. subst n'.
    rewrite Hp in Hp'. rewrite Hc in Hc'.
    injection Hp' as <-. injection Hc' as <-. lia.
  - clear Hspec. unfold result in *. unfold Parser.validateHeadingHierarchy in *.
    destruct levels as [| first rest].
    + simpl. tauto.
    + cbn [hierarchy_issues valid] in *. rewrite Hissues.
      destruct (skips (first :: rest)); simpl; split; intros; congruence.
Qed.

(** The scenario of C6: levels h1, h2, h4. *)
Lemma C6_hierarchy_flags_forward_skips_witness :
  let result := Parser.validateHeadingHierarchy [1; 2; 4] in
  valid result = false
  /\ hierarchy_issues result
     = [mkHierarchyIssue "skipped" "Heading level skipped from h2 to h4" 2].
Proof.
  assert (H : Forall (fun l => l <> 0) [1; 2; 4]).
  { repeat constructor; discriminate. }
  destruct (C6_hierarchy_flags_forward_skips [1; 2; 4] H) as (Hi & _ & _ & Hv).
  split.
  - apply Bool.not_true_is_false. intros E. apply Hv in E.
    vm_compute in E. discriminate E.
  - exact Hi.
Defined.

(** ** C7: confusable terms (AV-02) *)

Lemma is_word_wordCharacter (c : ascii) : Str.is_word c = wordCharacter c.
Proof. destruct c as [[] [] [] [] [] [] [] []]; reflexivity. Qed.

Lemma word_at_isWordCharacter (c : option ascii) : Str.word_at c = isWordCharacter c.
Proof. destruct c as [a |]; [apply is_word_wordCharacter | reflexivity]. Qed.

Lemma lower_char_word (c : ascii) : wordCharacter (Str.lower_char c) = wordCharacter c.
Proof. destruct c as [[] [] [] [] [] [] [] []]; reflexivity. Qed.

Lemma lower_eq_word (a b : ascii) :
  Ascii.eqb (Str.lower_char a) (Str.lower_char b) = true ->
  wordCharacter b = wordCharacter a.
Proof.
  intros H. apply Ascii.eqb_eq in H.
  now rewrite <- (lower_char_word a), <- (lower_char_word b), H.
Qed.

(** The literal pattern of a term of word characters matches exactly
    where the term stands, and what it matches are word characters. *)
Lemma match_literal (term : string) :
  allWord term = true ->
  forall (prev : option ascii) (text : string),
    match Str.match_elems (Str.literal term) prev text with
    | Some (n, l, r) =>
        standsAt term text = Some r
        /\ n = String.length term
        /\ wordRun n text
        /\ (term = "" -> l = prev)
        /\ (term <> "" -> isWordCharacter l = true)
    | None => standsAt term text = None
    end.
Proof.
  induction term as [| a term IH]; intros Hw prev text.
  - cbn [Str.literal Str.match_elems standsAt String.length wordRun].
    split; [reflexivity |]. split; [reflexivity |]. split; [exact I |].
    split; [reflexivity |]. intros H. now contradiction H.
  - cbn [allWord] in Hw. apply andb_true_iff in Hw. destruct Hw as [Ha Hw].
    cbn [Str.literal Str.match_elems standsAt].
    destruct text as [| d text]; [reflexivity |].
    destruct (Ascii.eqb (Str.lower_char a) (Str.lower_char d)) eqn:E; [| reflexivity].
    specialize (IH Hw (Some d) text).
    destruct (Str.match_elems (Str.literal term) (Some d) text) as [[[n l] r] |];
      [| exact IH].
    destruct IH as (H1 & H2 & H3 & H4 & H5).
    assert (Hd : wordCharacter d = true) by (rewrite (lower_eq_word a d E); exact Ha).
    split; [exact H1 |]. split; [cbn [String.length]; now rewrite H2 |].
    split; [cbn [wordRun]; now split |].
    split; [discriminate |]. intros _.
    destruct term as [| b term]; [rewrite (H4 eq_refl); exact Hd | apply H5; discriminate].
Qed.

Lemma wholeWordsFrom_nonneg (term text : string) (prev : option ascii) :
  0 <= wholeWordsFrom prev term text.
Proof.
  revert prev. induction text as [| c text IH]; intros prev; cbn [wholeWordsFrom]; [lia |].
  specialize (IH (Some c)). destruct (wordAt prev term (String c text)); lia.
Qed.

(** The global match of the term's pattern between word boundaries finds
    the whole-word occurrences, each once: a position inside a match is
    preceded by a word character, so no occurrence is passed over. *)
Lemma count_from_wholeWords (term : string) :
  term <> "" -> allWord term = true ->
  forall (text : string) (prev : option ascii) (skip : nat),
    skip = O \/ (isWordCharacter prev = true /\ wordRun skip text) ->
    Str.count_from (Str.literal term) prev skip text = wholeWordsFrom prev term text.
Proof.
  intros Hne Hw. induction text as [| c text IH]; intros prev skip Hskip.
  - destruct skip; reflexivity.
  - cbn [Str.count_from wholeWordsFrom]. destruct skip as [| k].
    + unfold Str.match_word, wordAt.
      pose proof (match_literal term Hw prev (String c text)) as Hm.
      unfold Str.boundary.
      destruct (Str.match_elems (Str.literal term) prev (String c text))
        as [[[n l] r] |]; rewrite !word_at_isWordCharacter.
      * destruct Hm as (H1 & H2 & H3 & _ & H5). rewrite H1.
        assert (Hn : exists n', n = S n').
        { destruct term as [| a term]; [contradiction |]. rewrite H2. now eexists. }
        destruct Hn as [n' ->]. cbn [wordRun] in H3. destruct H3 as [Hc Hrun].
        cbn [Str.head isWordCharacter]. rewrite Hc, (H5 Hne).
        destruct (isWordCharacter prev); cbn [xorb negb andb].
        -- rewrite (IH (Some c) O); [reflexivity | now left].
        -- destruct (isWordCharacter (Str.head r)); cbn [negb].
           ++ rewrite (IH (Some c) O); [reflexivity | now left].
           ++ rewrite (IH (Some c) n'); [reflexivity |].
              right. split; [exact Hc | exact Hrun].
      * rewrite Hm. rewrite andb_false_r.
        destruct (xorb (isWordCharacter prev) (isWordCharacter (Str.head (String c text))));
          (rewrite (IH (Some c) O); [reflexivity | now left]).
    + destruct Hskip as [E | [Hp Hrun]]; [discriminate |].
      cbn [wordRun] in Hrun. destruct Hrun as [Hc Hrun].
      unfold wordAt. rewrite Hp. cbn [negb andb].
      apply IH. right. split; [exact Hc | exact Hrun].
Qed.

(** The count the code takes is the number of whole-word occurrences. *)
Lemma occurrences_wholeWords (text term : string) :
  term <> "" -> allWord term = true ->
  TerminologyRules.occurrences text term = wholeWords text term.
Proof.
  intros Hne Hw. unfold TerminologyRules.occurrences, Str.count_word, wholeWords.
  apply count_from_wholeWords; [exact Hne | exact Hw | now left].
Qed.

(** *** Whole-word occurrences and the positions of the text *)

Lemma toLowerCase_empty (s : string) : Str.toLowerCase s = "" -> s = "".
Proof. destruct s; [reflexivity | discriminate]. Qed.

Lemma standsAt_split (term text rest : string) :
  standsAt term text = Some rest
  <-> exists found, text = found ++ rest
                    /\ Str.toLowerCase found = Str.toLowerCase term.
Proof.
  revert text. induction term as [| a term IH]; intros text; cbn [standsAt].
  - split.
    + intros H. injection H as <-. now exists "".
    + intros (found & -> & Hf). apply toLowerCase_empty in Hf. now subst found.
  - destruct text as [| b text].
    + split; [discriminate |]. intros (found & Ht & Hf).
      destruct found; [discriminate Hf | discriminate Ht].
    + destruct (Ascii.eqb_spec (Str.lower_char a) (Str.lower_char b)) as [E | E].
      * rewrite IH. split.
        -- intros (found & -> & Hf). exists (String b found). split; [reflexivity |].
           cbn [Str.toLowerCase]. now rewrite Hf, E.
        -- intros (found & Ht & Hf). destruct found as [| d found]; [discriminate Hf |].
           cbn [append] in Ht. injection Ht as -> ->.
           cbn [Str.toLowerCase] in Hf. injection Hf as _ Hf. now exists found.
      * split; [discriminate |]. intros (found & Ht & Hf).
        destruct found as [| d found]; [discriminate Hf |].
        cbn [append] in Ht. injection Ht as -> ->.
        cbn [Str.toLowerCase] in Hf. injection Hf as Hd _. congruence.
Qed.

Lemma wholeWordsFrom_positive (term : string) :
  term <> "" ->
  forall (text : string) (prev : option ascii),
    0 < wholeWordsFrom prev term text
    <-> exists before found after,
          text = before ++ found ++ after
          /\ Str.toLowerCase found = Str.toLowerCase term
          /\ isWordCharacter (match before with
                              | EmptyString => prev
                              | _ => lastChar before
                              end) = false
          /\ isWordCharacter (Str.head after) = false.
Proof.
  intros Hne. induction text as [| c text IH]; intros prev.
  - cbn [wholeWordsFrom]. split; [lia |].
    intros (before & found & after & Ht & Hf & _).
    destruct before; [| discriminate Ht]. destruct found; [| discriminate Ht].
    symmetry in Hf. apply toLowerCase_empty in Hf. contradiction.
  - cbn [wholeWordsFrom].
    pose proof (wholeWordsFrom_nonneg term text (Some c)) as Hnn. split.
    + intros Hpos. destruct (wordAt prev term (String c text)) eqn:Ew.
      * unfold wordAt in Ew. apply andb_true_iff in Ew. destruct Ew as [Hp Hs].
        destruct (standsAt term (String c text)) as [rest |] eqn:Es; [| discriminate].
        apply standsAt_split in Es. destruct Es as (found & Ht & Hf).
        exists "", found, rest. cbn [append].
        split; [exact Ht |]. split; [exact Hf |].
        split; [now apply negb_true_iff | now apply negb_true_iff].
      * assert (Hrest : 0 < wholeWordsFrom (Some c) term text) by lia.
        apply IH in Hrest. destruct Hrest as (before & found & after & Ht & Hf & Hb & Ha).
        exists (String c before), found, after. cbn [append].
        split; [now rewrite Ht |]. split; [exact Hf |]. split; [| exact Ha].
        destruct before; exact Hb.
    + intros (before & found & after & Ht & Hf & Hb & Ha).
      destruct before as [| d before].
      * cbn [append] in Ht.
        assert (Es : standsAt term (String c text) = Some after).
        { apply standsAt_split. now exists found. }
        unfold wordAt. rewrite Es, Hb, Ha. cbn [negb andb]. lia.
      * cbn [append] in Ht. injection Ht as <- Ht.
        assert (Hrest : 0 < wholeWordsFrom (Some c) term text).
        { apply IH. exists before, found, after.
          split; [exact Ht |]. split; [exact Hf |]. split; [| exact Ha].
          destruct before; exact Hb. }
        destruct (wordAt prev term _); lia.
Qed.

Lemma wholeWords_occurs (text term : string) :
  term <> "" -> (0 < wholeWords text term <-> occursAsWord text term).
Proof.
  intros Hne. unfold wholeWords, occursAsWord.
  rewrite (wholeWordsFrom_positive term Hne text None). split.
  - intros (before & found & after & Ht & Hf & Hb & Ha).
    exists before, found, after. repeat split; try assumption.
    destruct before; [reflexivity | exact Hb].
  - intros (before & found & after & Ht & Hf & Hb & Ha).
    exists before, found, after. repeat split; try assumption.
    destruct before; [reflexivity | exact Hb].
Qed.

(** *** The criterion *)

Lemma string_app_assoc (a b c : string) : (a ++ b) ++ c = a ++ b ++ c.
Proof. induction a as [| x a IH]; cbn [append]; [reflexivity | now rewrite IH]. Qed.

Lemma flagged_bothOccur (text : string) (pr : TerminologyRules.RiskPair) :
  In pr TerminologyRules.highRiskPairs ->
  TerminologyRules.flagged text pr = bothOccur text pr
  /\ (bothOccur text pr = true ->
      (severity (TerminologyRules.confusableIssue text pr),
       message (TerminologyRules.confusableIssue text pr),
       details (TerminologyRules.confusableIssue text pr))
      = pairReport text pr).
Proof.
  intros Hin.
  assert (H1 : TerminologyRules.occurrences text (TerminologyRules.term1 pr)
               = wholeWords text (TerminologyRules.term1 pr)).
  { apply occurrences_wholeWords;
      destruct Hin as [<- | [<- | [<- | []]]]; (discriminate || reflexivity). }
  assert (H2 : TerminologyRules.occurrences text (TerminologyRules.term2 pr)
               = wholeWords text (TerminologyRules.term2 pr)).
  { apply occurrences_wholeWords;
      destruct Hin as [<- | [<- | [<- | []]]]; (discriminate || reflexivity). }
  unfold TerminologyRules.flagged, TerminologyRules.confusableIssue,
    TerminologyRules.presentTerms, bothOccur, pairReport, TerminologyRules.quoted.
  cbv zeta. rewrite H1, H2. cbn [filter snd fst].
  destruct (0 <? wholeWords text (TerminologyRules.term1 pr))%Z;
    destruct (0 <? wholeWords text (TerminologyRules.term2 pr))%Z;
    cbn [andb List.length Nat.ltb Nat.leb]; (split; [reflexivity |]); try discriminate.
  intros _. cbn [severity message details map Str.join fst snd].
  rewrite !string_app_assoc. reflexivity.
Qed.

Lemma flat_map_filter {A B} (p : A -> bool) (f : A -> B) (l : list A) :
  flat_map (fun x => if p x then [f x] else []) l = map f (filter p l).
Proof.
  induction l as [| x l IH]; [reflexivity |].
  simpl. destruct (p x); simpl; now rewrite IH.
Qed.

(** C7.  [detectConfusableTerms] checks the three fixed pairs in order
    and returns criterion AV-02 with one warning per pair whose two
    terms both occur in the lower-cased text as whole words, and the
    score max(0, 10 - 2 x number of such pairs).  A term occurs as a
    whole word when the text reads: something that does not end with a
    word character, the term, something that does not begin with one;
    an inflected form ("disabled") is no occurrence of the term
    ("disable").  The warning of a pair names its context and its two
    terms, and its details give the number of whole-word occurrences of
    each.  When "deactivate" occurs 3 times and "disable" twice and
    "remove" does not occur, the score is 8 and the single issue names
    "deactivate" and "disable" with the counts 3 and 2. *)
Theorem C7_confusable_terms_score :
  forall content : Content,
    let text := Str.toLowerCase (fullText content) in
    let result := TerminologyRules.detectConfusableTerms content in
    let flaggedPairs := filter (bothOccur text) TerminologyRules.highRiskPairs in
    TerminologyRules.highRiskPairs
    = [ TerminologyRules.mkRiskPair "delete" "remove" "data operations";
        TerminologyRules.mkRiskPair "deactivate" "disable" "state changes";
        TerminologyRules.mkRiskPair "uninstall" "remove" "application management" ]
    /\ (forall term, term <> "" -> (0 < wholeWords text term <-> occursAsWord text term))
    /\ criterionId result = Some "AV-02"
    /\ map (fun i => (severity i, message i, details i)) (issues result)
       = map (pairReport text) flaggedPairs
    /\ score result
       = Some (inject_Z (Z.max 0 (10 - 2 * Z.of_nat (List.length flaggedPairs))))
    /\ (wholeWords text "deactivate" = 3 ->
        wholeWords text "disable" = 2 ->
        wholeWords text "remove" = 0 ->
        score result = Some 8%Q
        /\ exists i,
             issues result = [i]
             /\ severity i = "warning"
             /\ message i
                = "Potentially confusable terms in state changes: "
                    ++ Str.dq ++ "deactivate" ++ Str.dq ++ " and "
                    ++ Str.dq ++ "disable" ++ Str.dq
             /\ details i
                = Some (Str.dq ++ "deactivate" ++ Str.dq ++ " used 3x, "
                          ++ Str.dq ++ "disable" ++ Str.dq ++ " used 2x")).
Proof.
  intros content text result flaggedPairs.
  assert (Hissues : issues result
                    = map (TerminologyRules.confusableIssue text) flaggedPairs).
  { unfold result, TerminologyRules.detectConfusableTerms. cbn [issues].
    fold text. unfold flaggedPairs. rewrite <- flat_map_filter.
    set (pairs := TerminologyRules.highRiskPairs).
    assert (Hsub : forall pr, In pr pairs -> In pr TerminologyRules.highRiskPairs)
      by (intros pr H; exact H).
    clearbody pairs. induction pairs as [| pr pairs IH]; [reflexivity |].
    cbn [flat_map]. rewrite (proj1 (flagged_bothOccur text pr (Hsub pr (or_introl eq_refl)))).
    f_equal. apply IH. intros pr' H. apply Hsub. now right. }
  assert (Hreports : map (fun i => (severity i, message i, details i)) (issues result)
                     = map (pairReport text) flaggedPairs).
  { rewrite Hissues, map_map. apply map_ext_in. intros pr Hpr.
    unfold flaggedPairs in Hpr. apply filter_In in Hpr. destruct Hpr as [Hin Hb].
    exact (proj2 (flagged_bothOccur text pr Hin) Hb). }
  assert (Hscore : score result
                   = Some (inject_Z (Z.max 0 (10 - 2 * Z.of_nat (List.length flaggedPairs))))).
  { transitivity (Some (inject_Z (Z.max 0 (10 - Z.of_nat (List.length (issues result)) * 2)))).
    - reflexivity.
    - rewrite Hissues, length_map. do 3 f_equal. lia. }
  split; [reflexivity |].
  split; [intros term Hne; now apply wholeWords_occurs |].
  split; [reflexivity |]. split; [exact Hreports |]. split; [exact Hscore |].
  intros H3 H2 H0.
  assert (Hone : flaggedPairs
                 = [TerminologyRules.mkRiskPair "deactivate" "disable" "state changes"]).
  { unfold flaggedPairs, bothOccur. cbn [TerminologyRules.highRiskPairs filter
      TerminologyRules.term1 TerminologyRules.term2].
    rewrite H3, H2, H0. cbn [Z.ltb Z.compare andb].
    rewrite !andb_false_r. reflexivity. }
  split; [rewrite Hscore, Hone; reflexivity |].
  rewrite Hone in Hreports. cbn [map] in Hreports.
  destruct (issues result) as [| i [| j rest]]; try discriminate Hreports.
  cbn [map] in Hreports. injection Hreports as Hs Hm Hd.
  exists i. split; [reflexivity |]. split; [exact Hs |].
  unfold pairReport in *. cbn [TerminologyRules.term1 TerminologyRules.term2
                               TerminologyRules.context] in *.
  rewrite H3, H2 in Hd. split; [exact Hm | exact Hd].
Qed.

(** The scenario of C7 on a text with "deactivate" three times and
    "disable" twice, beside "deactivated", "disabled" and "removed". *)
Lemma C7_confusable_terms_score_witness :
  let result := TerminologyRules.detectConfusableTerms (contentOfText inflectedText) in
  score result = Some 8%Q
  /\ exists i,
       issues result = [i]
       /\ severity i = "warning"
       /\ message i
          = "Potentially confusable terms in state changes: "
              ++ Str.dq ++ "deactivate" ++ Str.dq ++ " and "
              ++ Str.dq ++ "disable" ++ Str.dq
       /\ details i
          = Some (Str.dq ++ "deactivate" ++ Str.dq ++ " used 3x, "
                    ++ Str.dq ++ "disable" ++ Str.dq ++ " used 2x").
Proof.
  apply (C7_confusable_terms_score (contentOfText inflectedText));
    vm_compute; reflexivity.
Defined.

(** ** C5 and C10: paragraph brevity (CS-01) *)

Lemma manyLongSentences_spec (pm : ParagraphMetrics) :
  ContentStructureRules.manyLongSentences (pm_sentences pm) = true <-> manyLong pm.
Proof.
  unfold ContentStructureRules.manyLongSentences, manyLong.
  destruct (pm_sentences pm) as [s |].
  - rewrite andb_true_iff, Z.ltb_lt, negb_true_iff. split.
    + intros [Ht Hr]. exists s. split; [reflexivity |]. split; [exact Ht |].
      apply Qnot_le_lt. intros Hle. apply Qle_bool_iff in Hle. congruence.
    + intros (s' & Hs & Ht & Hr). injection Hs as <-. split; [exact Ht |].
      destruct (Qle_bool _ _) eqn:E; [| reflexivity].
      apply Qle_bool_iff in E. apply Qle_not_lt in E. contradiction.
  - split; [discriminate |]. intros (s & Hs & _). discriminate.
Qed.

Lemma filter_split_length {A} (p : A -> bool) (l : list A) :
  (Z.of_nat (List.length l) - Z.of_nat (List.length (filter p l))
   = Z.of_nat (List.length (filter (fun x => negb (p x)) l)))%Z.
Proof.
  induction l as [| x l IH]; [reflexivity |].
  cbn [filter]. destruct (p x); cbn [negb List.length];
    rewrite ?Nat2Z.inj_succ; lia.
Qed.

Lemma paragraphMetrics_counts (ps : list Paragraph) :
  let pm := Parser.paragraphMetrics ps in
  pm_count pm = Z.of_nat (List.length ps)
  /\ pm_longCount pm
     = Z.of_nat (List.length (filter (fun p => (150 <? p_wordCount p)%Z) ps))
  /\ pm_count pm - pm_longCount pm = atOrUnder 150 ps
  /\ map lp_wordCount (pm_longParagraphs pm)
     = map p_wordCount (filter (fun p => (150 <? p_wordCount p)%Z) ps)
  /\ pm_sentences pm = None.
Proof.
  unfold Parser.paragraphMetrics. cbn [pm_count pm_longCount pm_longParagraphs pm_sentences].
  split; [reflexivity |]. split; [reflexivity |]. split.
  - unfold Parser.isLong. rewrite filter_split_length. unfold atOrUnder.
    do 2 f_equal. apply filter_ext. intros p.
    destruct (Z.ltb_spec 150 (p_wordCount p)); destruct (Z.leb_spec (p_wordCount p) 150);
      simpl; try reflexivity; lia.
  - split; [| reflexivity]. rewrite map_map. reflexivity.
Qed.

Lemma brevity_score (cfg : Config) (metrics : Metrics) :
  let pm := m_paragraphs metrics in
  pm_count pm <> 0 ->
  score (ContentStructureRules.scoreParagraphBrevity cfg metrics)
  = Some (inject_Z
            (Js.clamp10
               (Js.Math_round
                  (10 * (inject_Z (pm_count pm - pm_longCount pm)
                         / inject_Z (pm_count pm)))
                - (if ContentStructureRules.manyLongSentences (pm_sentences pm)
                   then 1 else 0))))
  /\ issues (ContentStructureRules.scoreParagraphBrevity cfg metrics)
     = (map (ContentStructureRules.longParagraphIssue (configuredThreshold cfg))
            (pm_longParagraphs pm)
        ++ ContentStructureRules.sentenceIssues (pm_sentences pm))%list.
Proof.
  intros pm Hc. unfold ContentStructureRules.scoreParagraphBrevity. fold pm.
  destruct (Z.eqb_spec (pm_count pm) 0) as [E | _]; [contradiction |].
  cbn [score issues]. split; [| reflexivity].
  rewrite (Math_round_comp
             (inject_Z (pm_count pm - pm_longCount pm) / inject_Z (pm_count pm) * 10)
             (10 * (inject_Z (pm_count pm - pm_longCount pm) / inject_Z (pm_count pm))))
    by ring.
  destruct (ContentStructureRules.manyLongSentences (pm_sentences pm));
    [reflexivity |].
  now rewrite Z.sub_0_r.
Qed.

Lemma sentenceIssues_not_critical (sm : option SentenceMetrics) :
  Forall (fun i => severity i <> "critical")
         (ContentStructureRules.sentenceIssues sm).
Proof.
  unfold ContentStructureRules.sentenceIssues.
  destruct sm as [s |]; [| constructor].
  destruct (0 <? sm_total s)%Z; [| constructor].
  apply Forall_app; split.
  - destruct (ContentStructureRules.manyLongSentences (Some s));
      repeat constructor; discriminate.
  - apply Forall_app; split.
    + destruct (0 <? sm_complexCount s)%Z; repeat constructor; discriminate.
    + apply Forall_forall. intros i Hi. apply in_map_iff in Hi.
      destruct Hi as (x & <- & _). discriminate.
Qed.

(** CS-01 as the code has it.  With at least one paragraph, the CS-01
    score is round(10 x (count - longCount) / count), minus 1 when more
    than 20% of the sentences are long, clamped to [0, 10]; one issue is
    raised per entry of [longParagraphs], critical above 200 words and
    warning otherwise, and no other issue of CS-01 is critical.  For
    metrics computed by the parser, [longCount] counts the paragraphs
    over 150 words whatever the configuration says, so the score is
    round(10 x fraction of paragraphs of at most 150 words), clamped,
    and the flagged paragraphs are those over 150 words. *)
Lemma C5_paragraph_brevity :
  forall (cfg : Config) (metrics : Metrics),
    let pm := m_paragraphs metrics in
    let result := ContentStructureRules.scoreParagraphBrevity cfg metrics in
    1 <= pm_count pm ->
    (exists penalty,
        (penalty = 1 /\ manyLong pm \/ penalty = 0 /\ ~ manyLong pm)
        /\ score result
           = Some (inject_Z
                     (Js.clamp10
                        (Js.Math_round
                           (10 * (inject_Z (pm_count pm - pm_longCount pm)
                                  / inject_Z (pm_count pm)))
                         - penalty))))
    /\ (exists rest,
           issues result
           = (map (ContentStructureRules.longParagraphIssue (configuredThreshold cfg))
                  (pm_longParagraphs pm) ++ rest)%list
           /\ Forall (fun i => severity i <> "critical") rest)
    /\ (forall t p,
           severity (ContentStructureRules.longParagraphIssue t p)
           = if (200 <? lp_wordCount p)%Z then "critical" else "warning")
    /\ (forall ps,
           pm = Parser.paragraphMetrics ps ->
           pm_longCount pm
           = Z.of_nat (List.length (filter (fun p => (150 <? p_wordCount p)%Z) ps))
           /\ score result
              = Some (inject_Z
                        (Js.clamp10
                           (Js.Math_round
                              (10 * (inject_Z (atOrUnder 150 ps)
                                     / inject_Z (Z.of_nat (List.length ps)))))))
           /\ map severity (issues result)
              = map (fun p => if (200 <? p_wordCount p)%Z then "critical" else "warning")
                    (filter (fun p => (150 <? p_wordCount p)%Z) ps)).
Proof.
  intros cfg metrics pm result Hc.
  assert (Hnz : pm_count pm <> 0) by lia.
  destruct (brevity_score cfg metrics Hnz) as [Hs Hi]. fold pm in Hs, Hi.
  fold result in Hs, Hi.
  split.
  { destruct (ContentStructureRules.manyLongSentences (pm_sentences pm)) eqn:E.
    - exists 1. split; [left; split; [reflexivity | now apply manyLongSentences_spec] |].
      exact Hs.
    - exists 0. split; [| exact Hs].
      right. split; [reflexivity |]. intros H.
      apply manyLongSentences_spec in H. congruence. }
  split.
  { exists (ContentStructureRules.sentenceIssues (pm_sentences pm)).
    split; [exact Hi | apply sentenceIssues_not_critical]. }
  split; [reflexivity |].
  intros ps Hpm.
  destruct (paragraphMetrics_counts ps) as (H1 & H2 & H3 & H4 & H5).
  rewrite <- Hpm in H1, H2, H3, H4, H5.
  split; [exact H2 |]. split.
  - rewrite Hs, H5, H3, H1. cbn [ContentStructureRules.manyLongSentences].
    now rewrite Z.sub_0_r.
  - rewrite Hi, H5. cbn [ContentStructureRules.sentenceIssues]. rewrite app_nil_r.
    rewrite map_map. cbn [ContentStructureRules.longParagraphIssue severity].
    rewrite Hpm. unfold Parser.paragraphMetrics. cbn [pm_longParagraphs].
    rewrite map_map. reflexivity.
Qed.

(** The scenario of C5: one 210-word paragraph and nine 20-word ones. *)
Lemma C5_paragraph_brevity_witness :
  let metrics := metricsOfParagraphs (Parser.paragraphMetrics scenarioParagraphs) in
  let result := ContentStructureRules.scoreParagraphBrevity [] metrics in
  pm_longCount (m_paragraphs metrics) = 1
  /\ score result = Some (inject_Z 9)
  /\ map severity (issues result) = ["critical"].
Proof.
  assert (Hc : 1 <= pm_count (m_paragraphs
                               (metricsOfParagraphs
                                  (Parser.paragraphMetrics scenarioParagraphs)))).
  { vm_compute. discriminate. }
  destruct (C5_paragraph_brevity
              [] (metricsOfParagraphs (Parser.paragraphMetrics scenarioParagraphs)) Hc)
    as (_ & _ & _ & Hp).
  destruct (Hp scenarioParagraphs eq_refl) as (Hl & Hs & Hi).
  split; [exact Hl |]. split; [exact Hs | exact Hi].
Defined.

(** Under a configured threshold of 100 words, a page whose only
    paragraph has 120 words scores 10 with no issue, where the fraction
    of paragraphs of at most 100 words is 0. *)
Lemma C5_configured_threshold_counterexample :
  let cfg := thresholdConfig 100 in
  let ps := [wordsParagraph 120 0] in
  let result := ContentStructureRules.scoreParagraphBrevity cfg
                  (metricsOfParagraphs (Parser.paragraphMetrics ps)) in
  configuredThreshold cfg = 100
  /\ score result = Some (inject_Z 10)
  /\ issues result = []
  /\ brevityByConfiguredThreshold cfg ps = 0
  /\ score result <> Some (inject_Z (brevityByConfiguredThreshold cfg ps)).
Proof.
  cbv zeta. repeat split; try reflexivity.
  vm_compute. discriminate.
Qed.

(** C5.  The configured word threshold does not reach the score.
    [scoreParagraphBrevity] reads the configured threshold and prints it
    in its texts, but the long paragraphs it scores and flags are the
    ones the parser found, and the parser applies the literal 150.  So,
    for metrics computed by the parser, the score is round(10 x fraction
    of paragraphs of at most 150 words), clamped, and the flagged
    paragraphs are those over 150 words, under every configuration.
    With a configured threshold of 100 words, a page whose only
    paragraph has 120 words scores 10 with no issue, and its details
    say that 0 of 1 paragraphs exceed 100 words; by the configured
    threshold the paragraph is too long and the score would be 0. *)
Theorem C5_configured_threshold_ignored :
  (forall (cfg : Config) (metrics : Metrics) (ps : list Paragraph),
      m_paragraphs metrics = Parser.paragraphMetrics ps ->
      ps <> [] ->
      let result := ContentStructureRules.scoreParagraphBrevity cfg metrics in
      score result
      = Some (inject_Z
                (Js.clamp10
                   (Js.Math_round
                      (10 * (inject_Z (atOrUnder 150 ps)
                             / inject_Z (Z.of_nat (List.length ps)))))))
      /\ map severity (issues result)
         = map (fun p => if (200 <? p_wordCount p)%Z then "critical" else "warning")
               (filter (fun p => (150 <? p_wordCount p)%Z) ps))
  /\ (let cfg := thresholdConfig 100 in
      let ps := [wordsParagraph 120 0] in
      let result := ContentStructureRules.scoreParagraphBrevity cfg
                      (metricsOfParagraphs (Parser.paragraphMetrics ps)) in
      configuredThreshold cfg = 100
      /\ score result = Some (inject_Z 10)
      /\ issues result = []
      /\ cr_details result
         = Some "0 of 1 paragraphs exceed 100 words. Average length: 120 words. Avg sentence length: 0 words."
      /\ atOrUnder (configuredThreshold cfg) ps = 0
      /\ brevityByConfiguredThreshold cfg ps = 0
      /\ score result <> Some (inject_Z (brevityByConfiguredThreshold cfg ps))).
Proof.
  split.
  - intros cfg metrics ps Hpm Hps result.
    assert (Hc : 1 <= pm_count (m_paragraphs metrics)).
    { rewrite Hpm. unfold Parser.paragraphMetrics. cbn [pm_count].
      destruct ps; [contradiction | cbn [List.length]; lia]. }
    destruct (C5_paragraph_brevity cfg metrics Hc) as (_ & _ & _ & Hp).
    destruct (Hp ps Hpm) as (_ & Hs & Hi). split; [exact Hs | exact Hi].
  - cbv zeta.
    destruct C5_configured_threshold_counterexample as (H1 & H2 & H3 & H4 & H5).
    split; [exact H1 |]. split; [exact H2 |]. split; [exact H3 |].
    split; [vm_compute; reflexivity |]. split; [reflexivity |].
    split; [exact H4 | exact H5].
Qed.

(** C10.  The CS-01 criterion depends on the configuration only through
    the texts: under any two configurations the same metrics give the
    same criterion id, the same score, the same number of issues and
    issues that agree in every field but the message; the message of a
    long-paragraph issue and the details text spell out the configured
    threshold; and the count of long paragraphs the score is computed
    from is taken by the parser with the fixed cutoff of 150 words,
    without reading the configuration. *)
Theorem C10_threshold_only_in_texts :
  forall (cfg1 cfg2 : Config) (metrics : Metrics),
    let r1 := ContentStructureRules.scoreParagraphBrevity cfg1 metrics in
    let r2 := ContentStructureRules.scoreParagraphBrevity cfg2 metrics in
    criterionId r1 = criterionId r2
    /\ score r1 = score r2
    /\ List.length (issues r1) = List.length (issues r2)
    /\ map eraseMessage (issues r1) = map eraseMessage (issues r2)
    /\ (forall t p,
           message (ContentStructureRules.longParagraphIssue t p)
           = "Paragraph " ++ Js.show (lp_index p + 1) ++ " has "
               ++ Js.show (lp_wordCount p) ++ " words (threshold: "
               ++ Js.show t ++ ")")
    /\ (forall ps,
           pm_longCount (Parser.paragraphMetrics ps)
           = Z.of_nat (List.length (filter (fun p => (150 <? p_wordCount p)%Z) ps))).
Proof.
  intros cfg1 cfg2 metrics r1 r2.
  assert (Herase : map eraseMessage (issues r1) = map eraseMessage (issues r2)).
  { unfold r1, r2, ContentStructureRules.scoreParagraphBrevity.
    destruct (pm_count (m_paragraphs metrics) =? 0)%Z; [reflexivity |].
    cbn [issues]. rewrite !map_app, !map_map. reflexivity. }
  split.
  { unfold r1, r2, ContentStructureRules.scoreParagraphBrevity.
    destruct (pm_count (m_paragraphs metrics) =? 0)%Z; reflexivity. }
  split.
  { unfold r1, r2, ContentStructureRules.scoreParagraphBrevity.
    destruct (pm_count (m_paragraphs metrics) =? 0)%Z; reflexivity. }
  split.
  { rewrite <- (length_map eraseMessage (issues r1)), Herase. apply length_map. }
  split; [exact Herase |].
  split; [reflexivity |].
  intros ps. reflexivity.
Qed.

(** ** Objects and the engine's state *)

Lemma get_set_same {V} (o : Js.JsObject V) (k : string) (v : V) :
  Js.get (Js.set o k v) k = Some v.
Proof.
  induction o as [| [k' v'] o IH]; simpl.
  - now rewrite String.eqb_refl.
  - destruct (String.eqb k' k) eqn:E; simpl; rewrite E; [reflexivity | exact IH].
Qed.

Lemma get_set_other {V} (o : Js.JsObject V) (k k' : string) (v : V) :
  k <> k' -> Js.get (Js.set o k v) k' = Js.get o k'.
Proof.
  intros Hne. induction o as [| [k0 v0] o IH]; simpl.
  - destruct (String.eqb_spec k k'); [contradiction | reflexivity].
  - destruct (String.eqb_spec k0 k) as [-> | Hk]; simpl.
    + destruct (String.eqb_spec k k'); [contradiction | reflexivity].
    + now rewrite IH.
Qed.

Lemma keeps_bind {A B} key (m : M A) (k : A -> M B) :
  keeps key m -> (forall a, keeps key (k a)) -> keeps key (bind m k).
Proof.
  intros Hm Hk r0. unfold bind. specialize (Hm r0).
  destruct (m r0) as [[a | e] r1]; simpl in *.
  - now rewrite Hk.
  - exact Hm.
Qed.

Lemma keeps_put key key' c : key' <> key -> keeps key (put_category key' c).
Proof. intros Hne r0. simpl. now apply get_set_other. Qed.

Lemma keeps_the_category key key' prop : keeps key (the_category key' prop).
Proof.
  intros r0. unfold the_category, the_category_or.
  now destruct (Js.get (categories r0) key').
Qed.

Lemma keeps_ret {A} key (a : A) : keeps key (ret a).
Proof. intros r0. reflexivity. Qed.

Lemma keeps_throw {A} key e : keeps key (@throw A e).
Proof. intros r0. reflexivity. Qed.

Lemma keeps_modify key f :
  (forall r, categories (f r) = categories r) -> keeps key (modify f).
Proof. intros Hf r0. simpl. now rewrite Hf. Qed.

Lemma keeps_mergeIfPresent key scores id :
  key <> "content-structure" -> keeps key (Scorer.mergeIfPresent scores id).
Proof.
  intros Hne. unfold Scorer.mergeIfPresent, Scorer.mergeCriterion.
  destruct (Js.get scores id); [| apply keeps_ret].
  apply keeps_bind; [apply keeps_the_category |].
  intros cs. cbv zeta.
  apply keeps_bind; [apply keeps_put; congruence |]. intros _.
  destruct (cat_issues _); [| apply keeps_throw].
  apply keeps_put. congruence.
Qed.

Lemma keeps_mergeTermConflation key scores :
  key <> "terminology" -> keeps key (Scorer.mergeTermConflation scores).
Proof.
  intros Hne. unfold Scorer.mergeTermConflation.
  destruct (Js.get scores "AV-02"); [| apply keeps_ret].
  apply keeps_bind; [apply keeps_the_category |].
  intros t. destruct (Js.get (cat_criteria t) "AV-02"); [| apply keeps_ret].
  apply keeps_put. congruence.
Qed.

(** ** C9 and C2: the semantic categories *)

Lemma collect_none (scores : Js.JsObject CriterionResult) (ids : list string) acc :
  (forall id, In id ids -> Js.get scores id = None) ->
  fold_left
    (fun (acc : Js.JsObject CriterionResult * list Issue) id =>
       match Js.get scores id with
       | Some c => (Js.set (fst acc) id c, (snd acc ++ issues c)%list)
       | None => acc
       end)
    ids acc = acc.
Proof.
  revert acc. induction ids as [| id ids IH]; intros acc H; [reflexivity |].
  simpl. rewrite (H id) by now left. apply IH. intros id' Hin. apply H. now right.
Qed.

Lemma claudeCategory_facts scores cid name key ids :
  let c := Scorer.claudeCategory scores cid name key ids in
  cat_score c = Some (Scorer.averageScores (cat_criteria c))
  /\ cat_estimated c = false
  /\ cat_weight c = Scorer.table_weight key
  /\ ((forall id, In id ids -> Js.get scores id = None) -> cat_criteria c = []).
Proof.
  unfold Scorer.claudeCategory.
  destruct (Scorer.collect scores ids) as [crit iss] eqn:E. cbn.
  repeat split. intros H. unfold Scorer.collect in E.
  rewrite collect_none in E by exact H. now injection E as <- _.
Qed.

Lemma keeps_mergeCrossCutting key scores raw :
  key <> "content-structure" -> key <> "terminology" ->
  keeps key (Scorer.mergeCrossCutting scores raw).
Proof.
  intros H1 H2. unfold Scorer.mergeCrossCutting.
  apply keeps_bind; [now apply keeps_mergeIfPresent |]. intros _.
  apply keeps_bind; [now apply keeps_mergeIfPresent |]. intros _.
  apply keeps_bind; [now apply keeps_mergeTermConflation |]. intros _.
  apply keeps_bind; [apply keeps_the_category |]. intros cs.
  apply keeps_bind; [apply keeps_put; congruence |]. intros _.
  apply keeps_modify. reflexivity.
Qed.

Lemma addClaudeScores_sets t raw r0 :
  let r := snd (Scorer.addClaudeScores t raw r0) in
  Js.get (categories r) "outcomes-reversibility"
  = Some (Scorer.claudeCategory (ClaudeClient.t_scores t) "CAT-03"
            "Outcomes & Reversibility" "outcomes-reversibility"
            ["OR-01"; "OR-02"; "OR-03"; "OR-04"])
  /\ Js.get (categories r) "self-contained"
     = Some (Scorer.claudeCategory (ClaudeClient.t_scores t) "CAT-09"
               "Self-Contained Context" "self-contained" ["GAP-03"; "GAP-04"])
  /\ Js.get (categories r) "permissions-plans"
     = Some (Scorer.claudeCategory (ClaudeClient.t_scores t) "CAT-04"
               "Permissions & Plans" "permissions-plans"
               ["PP-01"; "PP-02"; "PP-03"; "PP-04"]).
Proof.
  cbv zeta.
  assert (E : Scorer.addClaudeScores t raw r0
              = Scorer.mergeCrossCutting (ClaudeClient.t_scores t) raw
                  (snd (Scorer.setSemanticCategories (ClaudeClient.t_scores t) r0)))
    by reflexivity.
  rewrite E. clear E.
  repeat split.
  - rewrite keeps_mergeCrossCutting by discriminate.
    cbn [Scorer.setSemanticCategories bind put_category modify snd categories
         set_categories].
    rewrite !get_set_other by discriminate. apply get_set_same.
  - rewrite keeps_mergeCrossCutting by discriminate.
    cbn [Scorer.setSemanticCategories bind put_category modify snd categories
         set_categories].
    rewrite !get_set_other by discriminate. apply get_set_same.
  - rewrite keeps_mergeCrossCutting by discriminate.
    cbn [Scorer.setSemanticCategories bind put_category modify snd categories
         set_categories].
    apply get_set_same.
Qed.

Lemma semanticCategory_cases key ids :
  In (key, ids) semanticCategories ->
  (key = "outcomes-reversibility" /\ ids = ["OR-01"; "OR-02"; "OR-03"; "OR-04"])
  \/ (key = "self-contained" /\ ids = ["GAP-03"; "GAP-04"])
  \/ (key = "permissions-plans" /\ ids = ["PP-01"; "PP-02"; "PP-03"; "PP-04"]).
Proof.
  intros [H | [H | [H | []]]]; injection H as <- <-; tauto.
Qed.

(** C9.  On the semantic path each of the three semantic categories is
    stored, however [addClaudeScores] ends, with a numeric score (the
    mean [averageScores] takes of its criteria), without the estimated
    mark and with the table's weight.  When the transformed response has
    none of the category's criterion ids, the criteria map is empty,
    [averageScores] of it is 0, the score is 0, and the category counts
    in the composite with its full table weight, adding that weight to
    the total and nothing to the weighted sum. *)
Theorem C9_semantic_categories_always_scored :
  forall (t : ClaudeClient.Transformed) (raw : ClaudeClient.Response) (r0 : Report)
         (key : string) (ids : list string),
    In (key, ids) semanticCategories ->
    let r := snd (Scorer.addClaudeScores t raw r0) in
    exists c,
      Js.get (categories r) key = Some c
      /\ cat_score c = Some (Scorer.averageScores (cat_criteria c))
      /\ cat_score c <> None
      /\ cat_estimated c = false
      /\ ((forall id, In id ids -> Js.get (ClaudeClient.t_scores t) id = None) ->
          cat_criteria c = []
          /\ Scorer.averageScores [] = 0%Q
          /\ cat_score c = Some 0%Q
          /\ Scorer.qualifies c = true
          /\ Scorer.weight_of key c = tableWeight key
          /\ (0 < tableWeight key)%Q
          /\ forall acc,
               Scorer.composite_step acc (key, c)
               = (fst acc + tableWeight key, snd acc + 0 * tableWeight key)%Q).
Proof.
  intros t raw r0 key ids Hin r.
  destruct (addClaudeScores_sets t raw r0) as (Hor & Hsc & Hpp). fold r in Hor, Hsc, Hpp.
  assert (Hgen : forall cid name,
             Js.get (categories r) key
             = Some (Scorer.claudeCategory (ClaudeClient.t_scores t) cid name key ids) ->
             Js.num_or (Scorer.table_weight key) (Js.num_or (Scorer.table_weight key) 0)
             = tableWeight key ->
             (0 < tableWeight key)%Q ->
             exists c,
               Js.get (categories r) key = Some c
               /\ cat_score c = Some (Scorer.averageScores (cat_criteria c))
               /\ cat_score c <> None
               /\ cat_estimated c = false
               /\ ((forall id, In id ids ->
                               Js.get (ClaudeClient.t_scores t) id = None) ->
                   cat_criteria c = []
                   /\ Scorer.averageScores [] = 0%Q
                   /\ cat_score c = Some 0%Q
                   /\ Scorer.qualifies c = true
                   /\ Scorer.weight_of key c = tableWeight key
                   /\ (0 < tableWeight key)%Q
                   /\ forall acc,
                        Scorer.composite_step acc (key, c)
                        = (fst acc + tableWeight key,
                           snd acc + 0 * tableWeight key)%Q)).
  { intros cid name Hget Hw0 Hpos.
    destruct (claudeCategory_facts (ClaudeClient.t_scores t) cid name key ids)
      as (Hs & He & Hwt & Hnone).
    assert (Hw : Scorer.weight_of key
                   (Scorer.claudeCategory (ClaudeClient.t_scores t) cid name key ids)
                 = tableWeight key)
      by (unfold Scorer.weight_of; rewrite Hwt; exact Hw0).
    eexists. split; [exact Hget |]. split; [exact Hs |].
    split; [rewrite Hs; discriminate |]. split; [exact He |].
    intros Habsent. specialize (Hnone Habsent).
    assert (Hzero : cat_score
                      (Scorer.claudeCategory (ClaudeClient.t_scores t) cid name key ids)
                    = Some 0%Q) by (rewrite Hs, Hnone; reflexivity).
    split; [exact Hnone |]. split; [reflexivity |]. split; [exact Hzero |].
    split; [unfold Scorer.qualifies; rewrite Hzero, He; reflexivity |].
    split; [exact Hw |]. split; [exact Hpos |].
    intros acc. unfold Scorer.composite_step. rewrite Hzero, He, Hw. reflexivity. }
  destruct (semanticCategory_cases key ids Hin)
    as [[-> ->] | [[-> ->] | [-> ->]]].
  - eapply Hgen; [exact Hor | reflexivity | reflexivity].
  - eapply Hgen; [exact Hsc | reflexivity | reflexivity].
  - eapply Hgen; [exact Hpp | reflexivity | reflexivity].
Qed.

(** The empty response on the sample report: outcomes-reversibility is
    stored with score 0 and counts with weight 0.25. *)
Lemma C9_semantic_categories_always_scored_witness :
  exists c,
    Js.get (categories
              (snd (Scorer.addClaudeScores
                      (ClaudeClient.transformScores
                         (ClaudeClient.mkResponse None None None))
                      (ClaudeClient.mkResponse None None None)
                      (Scorer.initialResults (envAnswering "" (Normal overScoredResponse))
                                             sampleContent None))))
           "outcomes-reversibility" = Some c
    /\ cat_score c = Some 0%Q
    /\ Scorer.qualifies c = true
    /\ Scorer.weight_of "outcomes-reversibility" c = 25 # 100.
Proof.
  destruct (C9_semantic_categories_always_scored
              (ClaudeClient.transformScores (ClaudeClient.mkResponse None None None))
              (ClaudeClient.mkResponse None None None)
              (Scorer.initialResults (envAnswering "" (Normal overScoredResponse))
                                     sampleContent None)
              "outcomes-reversibility" ["OR-01"; "OR-02"; "OR-03"; "OR-04"]
              (or_introl eq_refl))
    as (c & Hget & _ & _ & _ & Hempty).
  exists c. split; [exact Hget |].
  destruct (Hempty (fun id _ => eq_refl)) as (_ & _ & Hs & Hq & Hw & _).
  split; [exact Hs |]. split; [exact Hq | exact Hw].
Defined.

(** C2 at its failing input: a remote response that scores OR-01 with 15
    goes through [transformScores] and [averageScores] unclamped, and the
    report of [scoreAll] carries the criterion score 15 and the category
    score 15, outside [0, 10]. *)
Theorem C2_semantic_scores_not_clamped :
  (forall cid data,
      score (ClaudeClient.transformEntry cid data) = ClaudeClient.raw_score data)
  /\ exists r,
       Scorer.scoreAll sampleStr
         (envAnswering "2026-02-05T10:00:00.000Z" (Normal overScoredResponse))
         sampleContent sampleMetrics (Some "sk-ant-key") = Normal r
       /\ criterionScoreAt r "outcomes-reversibility" "OR-01" = Some 15%Q
       /\ exists q, categoryScoreAt r "outcomes-reversibility" = Some q
                    /\ q == 15 /\ ~ (q <= 10)%Q.
Proof.
  split; [reflexivity |].
  eexists. split; [vm_compute; reflexivity |].
  split; [vm_compute; reflexivity |].
  eexists. split; [vm_compute; reflexivity |].
  split; [reflexivity |].
  intros H. vm_compute in H. apply H. reflexivity.
Qed.

(** ** The run, step by step *)

Lemma bind_normal {A B} (m : M A) (k : A -> M B) r a r' :
  m r = (Normal a, r') -> bind m k r = k a r'.
Proof. intros H. unfold bind. now rewrite H. Qed.

Lemma bind_throw {A B} (m : M A) (k : A -> M B) r e r' :
  m r = (Throw e, r') -> bind m k r = (Throw e, r').
Proof. intros H. unfold bind. now rewrite H. Qed.

Lemma addEstimatedScores_run content metrics r :
  Scorer.addEstimatedScores content metrics r
  = (Normal tt,
     set_categories r
       (fold_left (fun cats (e : string * Category) => Js.set cats (fst e) (snd e))
                  (estimates content metrics) (categories r))).
Proof. reflexivity. Qed.

Lemma addSectionScores_run str cfg content r cs :
  Js.get (categories r) "content-structure" = Some cs ->
  Scorer.addSectionScores str cfg content r
  = (Normal tt,
     match sectionsToScore content with
     | None => r
     | Some secs =>
         mkReport (meta r)
           (Js.set (categories r) "content-structure" (blendSections str cfg secs cs))
           (compositeScore r) (status r) (allIssues r) (topIssues r) (summary r)
           (claudeSummary r) (claudeTopIssues r)
           (Some (map (Scorer.scoreSection str cfg) secs))
     end).
Proof.
  intros Hcs. unfold Scorer.addSectionScores, sectionsToScore.
  destruct (c_sections content) as [[| sec secs] |]; try reflexivity.
  unfold bind, the_category_or. rewrite Hcs. reflexivity.
Qed.

Lemma claudeStep_remote_throws env key content text error r :
  Parser.getTextForAnalysis content = Normal text ->
  Scorer.getClaudeCacheEntry env (Scorer.hashText text) = Normal None ->
  Scorer.scoreSemanticCriteria env key content text = Throw error ->
  Scorer.claudeStep env key content r = (Throw error, r).
Proof.
  intros Htext Hcache Hsem. unfold Scorer.claudeStep.
  unfold bind at 1. unfold lift at 1. rewrite Htext. cbv zeta.
  unfold bind at 1. unfold lift at 1. rewrite Hcache.
  unfold bind at 1. unfold lift at 1. rewrite Hsem. reflexivity.
Qed.

Lemma addSectionScores_rolledUp str cfg content r cs :
  Js.get (categories r) "content-structure" = Some cs ->
  Scorer.addSectionScores str cfg content r = (Normal tt, rolledUp str cfg content r).
Proof.
  intros Hcs. rewrite (addSectionScores_run str cfg content r cs Hcs).
  unfold rolledUp. rewrite Hcs. reflexivity.
Qed.

Lemma scoreAll_fallback str env content metrics apiKey key terminology text error :
  Scorer.usableKey apiKey = Some key ->
  TerminologyRules.scoreAll (Scorer.config env) content = Normal terminology ->
  Parser.getTextForAnalysis content = Normal text ->
  Scorer.getClaudeCacheEntry env (Scorer.hashText text) = Normal None ->
  Scorer.scoreSemanticCriteria env key content text = Throw error ->
  Scorer.scoreAll str env content metrics apiKey
  = Normal (estimatedReport str env content metrics apiKey terminology
              (Some (err_message error))).
Proof.
  intros Hkey Hrules Htext Hcache Hsem.
  unfold Scorer.scoreAll, Scorer.scoreAllM. rewrite Hrules, Hkey.
  set (r0 := Scorer.initialResults env content apiKey).
  unfold bind at 1. unfold lift at 1.
  unfold bind at 1. unfold put_category at 1, modify at 1.
  unfold bind at 1. unfold put_category at 1, modify at 1.
  unfold bind at 1. unfold put_category at 1, modify at 1.
  unfold bind at 1. unfold try_catch.
  rewrite (claudeStep_remote_throws env key content text error _ Htext Hcache Hsem).
  unfold bind at 1. rewrite addEstimatedScores_run. unfold modify at 1.
  unfold bind at 1.
  erewrite addSectionScores_rolledUp by reflexivity.
  unfold modify. reflexivity.
Qed.

Lemma scoreAll_rule_only str env content metrics apiKey :
  Scorer.usableKey apiKey = None ->
  Scorer.scoreAll str env content metrics apiKey
  = mapCompletion
      (fun terminology =>
         estimatedReport str env content metrics apiKey terminology None)
      (TerminologyRules.scoreAll (Scorer.config env) content).
Proof.
  intros Hkey.
  unfold Scorer.scoreAll, Scorer.scoreAllM. rewrite Hkey.
  destruct (TerminologyRules.scoreAll (Scorer.config env) content)
    as [terminology | e]; [| reflexivity].
  set (r0 := Scorer.initialResults env content apiKey).
  unfold bind at 1. unfold lift at 1.
  unfold bind at 1. unfold put_category at 1, modify at 1.
  unfold bind at 1. unfold put_category at 1, modify at 1.
  unfold bind at 1. unfold put_category at 1, modify at 1.
  unfold bind at 1. rewrite addEstimatedScores_run.
  unfold bind at 1.
  erewrite addSectionScores_rolledUp by reflexivity.
  unfold modify. reflexivity.
Qed.

Lemma estimatedReport_categories str env content metrics apiKey terminology failure :
  categories (estimatedReport str env content metrics apiKey terminology failure)
  = ("content-structure",
     finalContentStructure str (Scorer.config env) content metrics)
    :: ("terminology",
        Scorer.ruleCategory "CAT-02" "Consistent Terminology" "terminology" terminology)
    :: ("text-over-visuals",
        Scorer.ruleCategory "CAT-08" "Text Over Visuals" "text-over-visuals"
          (TextOverVisualsRules.scoreAll str (Scorer.config env) metrics content))
    :: estimates content metrics.
Proof.
  unfold estimatedReport, Scorer.finish, rolledUp, finalContentStructure.
  destruct (sectionsToScore content); reflexivity.
Qed.

Lemma estimatedReport_meta str env content metrics apiKey terminology failure :
  meta (estimatedReport str env content metrics apiKey terminology failure)
  = match failure with
    | Some msg => set_claudeError (meta (Scorer.initialResults env content apiKey)) msg
    | None => meta (Scorer.initialResults env content apiKey)
    end.
Proof.
  unfold estimatedReport, Scorer.finish, rolledUp.
  destruct (sectionsToScore content); reflexivity.
Qed.

Lemma estimated_not_counted (c : Category) :
  cat_estimated c = true -> Scorer.qualifies c = false.
Proof.
  intros H. unfold Scorer.qualifies. rewrite H. now destruct (cat_score c).
Qed.

Lemma included_rule_categories (c1 c2 c3 e1 e2 e3 : Category) :
  Scorer.qualifies c1 = true -> Scorer.qualifies c2 = true ->
  Scorer.qualifies c3 = true ->
  cat_estimated e1 = true -> cat_estimated e2 = true -> cat_estimated e3 = true ->
  included [ ("content-structure", c1); ("terminology", c2); ("text-over-visuals", c3);
             ("outcomes-reversibility", e1); ("permissions-plans", e2);
             ("self-contained", e3) ]
  = [ ("content-structure", c1); ("terminology", c2); ("text-over-visuals", c3) ].
Proof.
  intros H1 H2 H3 E1 E2 E3. unfold included.
  change (Js.entries
            [ ("content-structure", c1); ("terminology", c2); ("text-over-visuals", c3);
              ("outcomes-reversibility", e1); ("permissions-plans", e2);
              ("self-contained", e3) ])
    with [ ("content-structure", c1); ("terminology", c2); ("text-over-visuals", c3);
           ("outcomes-reversibility", e1); ("permissions-plans", e2);
           ("self-contained", e3) ].
  cbn [filter snd].
  rewrite H1, H2, H3.
  rewrite (estimated_not_counted e1 E1), (estimated_not_counted e2 E2),
    (estimated_not_counted e3 E3).
  reflexivity.
Qed.

Lemma composite_rule_categories (c1 c2 c3 e1 e2 e3 : Category) (s1 s2 s3 : Q) :
  cat_score c1 = Some s1 -> cat_estimated c1 = false -> cat_weight c1 = Some (30 # 100) ->
  cat_score c2 = Some s2 -> cat_estimated c2 = false -> cat_weight c2 = Some (15 # 100) ->
  cat_score c3 = Some s3 -> cat_estimated c3 = false -> cat_weight c3 = Some (10 # 100) ->
  cat_estimated e1 = true -> cat_estimated e2 = true -> cat_estimated e3 = true ->
  Scorer.calculateCompositeScore
    [ ("content-structure", c1); ("terminology", c2); ("text-over-visuals", c3);
      ("outcomes-reversibility", e1); ("permissions-plans", e2);
      ("self-contained", e3) ]
  == Js.round1 ((s1 * (30 # 100) + s2 * (15 # 100) + s3 * (10 # 100)) / (55 # 100)).
Proof.
  intros S1 N1 W1 S2 N2 W2 S3 N3 W3 E1 E2 E3.
  rewrite composite_formula. unfold weightSum, weightedScoreSum.
  rewrite included_rule_categories;
    try assumption;
    try (unfold Scorer.qualifies;
         rewrite ?S1, ?S2, ?S3, ?N1, ?N2, ?N3; reflexivity).
  cbn [map sumQ fold_right]. unfold entryWeight, Scorer.catScore, Scorer.weight_of.
  cbn [fst snd]. rewrite S1, S2, S3, W1, W2, W3. cbn [Js.num_or Qeq_bool Qnum Qden].
  cbn -[Js.round1 Qplus Qmult Qdiv].
  assert (Hnz : Qeq_bool ((30 # 100) + ((15 # 100) + ((10 # 100) + 0))) 0 = false)
    by reflexivity.
  rewrite Hnz. apply round1_comp. field.
Qed.

(** ** C3: failure of the semantic call *)

Lemma clamp10_range (s : Z) : 0 <= Js.clamp10 s <= 10.
Proof. unfold Js.clamp10. lia. Qed.

Lemma estimates_are_estimated content metrics :
  Forall (fun e : string * Category =>
            cat_estimated (snd e) = true
            /\ exists s, cat_score (snd e) = Some (inject_Z s) /\ 0 <= s <= 10)
         (estimates content metrics).
Proof.
  unfold estimates. repeat constructor; cbn [snd].
  - eexists. split; [reflexivity | apply clamp10_range].
  - eexists. split; [reflexivity | apply clamp10_range].
  - eexists. split; [reflexivity | apply clamp10_range].
Qed.

(** C3.  Take a run with a usable key whose rule stage has completed and
    whose analysis text has been built (so that the semantic call is
    reached), whose cache lookup finds nothing and whose semantic call
    throws [error].  Then [scoreAll] does not throw: it returns a report
    whose [meta.claudeError] is the message of [error], whose
    outcomes-reversibility, permissions-plans and self-contained
    categories are the Estimator's (marked estimated, with a heuristic
    score between 0 and 10), and whose composite is
    [calculateCompositeScore] of its categories, which counts exactly
    content-structure, terminology and text-over-visuals: the weighted
    mean of their three scores with weights 0.30, 0.15 and 0.10. *)
Theorem C3_semantic_failure_is_absorbed :
  forall (str : Js.NumberToString) (env : Scorer.Env) (content : Content)
         (metrics : Metrics) (apiKey : option string) (key : string)
         (terminology : RuleResult) (text : string) (error : JsError),
    Scorer.usableKey apiKey = Some key ->
    TerminologyRules.scoreAll (Scorer.config env) content = Normal terminology ->
    Parser.getTextForAnalysis content = Normal text ->
    Scorer.getClaudeCacheEntry env (Scorer.hashText text) = Normal None ->
    Scorer.scoreSemanticCriteria env key content text = Throw error ->
    exists r,
      Scorer.scoreAll str env content metrics apiKey = Normal r
      /\ claudeError (meta r) = Some (err_message error)
      /\ Js.get (categories r) "outcomes-reversibility"
         = Some (Scorer.estimateOutcomes (Str.toLowerCase (fullText content)))
      /\ Js.get (categories r) "permissions-plans"
         = Some (Scorer.estimatePermissions (Str.toLowerCase (fullText content)))
      /\ Js.get (categories r) "self-contained"
         = Some (Scorer.estimateContext metrics)
      /\ Forall (fun e : string * Category =>
                   cat_estimated (snd e) = true
                   /\ exists s, cat_score (snd e) = Some (inject_Z s) /\ 0 <= s <= 10)
                (estimates content metrics)
      /\ compositeScore r = Scorer.calculateCompositeScore (categories r)
      /\ map fst (included (categories r))
         = ["content-structure"; "terminology"; "text-over-visuals"]
      /\ exists s1 s2 s3,
           categoryScoreAt r "content-structure" = Some s1
           /\ categoryScoreAt r "terminology" = Some s2
           /\ categoryScoreAt r "text-over-visuals" = Some s3
           /\ compositeScore r
              == Js.round1 ((s1 * (30 # 100) + s2 * (15 # 100) + s3 * (10 # 100))
                            / (55 # 100)).
Proof.
  intros str env content metrics apiKey key terminology text error
         Hkey Hrules Htext Hcache Hsem.
  eexists.
  split; [apply (scoreAll_fallback _ _ _ _ _ _ _ _ _ Hkey Hrules Htext Hcache Hsem) |].
  set (r := estimatedReport str env content metrics apiKey terminology
              (Some (err_message error))).
  assert (Hcats := estimatedReport_categories str env content metrics apiKey
                     terminology (Some (err_message error))).
  fold r in Hcats.
  assert (Hcomp : compositeScore r = Scorer.calculateCompositeScore (categories r)).
  { unfold r, estimatedReport, Scorer.finish. reflexivity. }
  split.
  { unfold r. rewrite estimatedReport_meta. reflexivity. }
  split; [rewrite Hcats; reflexivity |].
  split; [rewrite Hcats; reflexivity |].
  split; [rewrite Hcats; reflexivity |].
  split; [apply estimates_are_estimated |].
  split; [exact Hcomp |].
  assert (Hcs : exists s1,
             cat_score (finalContentStructure str (Scorer.config env) content metrics)
             = Some s1
             /\ cat_estimated (finalContentStructure str (Scorer.config env) content metrics)
                = false
             /\ cat_weight (finalContentStructure str (Scorer.config env) content metrics)
                = Some (30 # 100)).
  { unfold finalContentStructure.
    destruct (sectionsToScore content); eexists; repeat split. }
  destruct Hcs as (s1 & Hs1 & He1 & Hw1).
  split.
  - rewrite Hcats. unfold estimates.
    rewrite included_rule_categories; try reflexivity.
    unfold Scorer.qualifies. now rewrite Hs1, He1.
  - exists s1, (categoryScore terminology),
      (categoryScore (TextOverVisualsRules.scoreAll str (Scorer.config env) metrics content)).
    unfold categoryScoreAt. rewrite Hcats. cbn [Js.get String.eqb Ascii.eqb Bool.eqb].
    split; [exact Hs1 |]. split; [reflexivity |]. split; [reflexivity |].
    rewrite Hcomp, Hcats. unfold estimates.
    apply composite_rule_categories; try reflexivity; assumption.
Qed.

(** The sample page scored with a key while the remote call fails with
    a rate-limit error. *)
Lemma C3_semantic_failure_is_absorbed_witness :
  exists r,
    Scorer.scoreAll sampleStr
      (envAnswering "2026-02-05T10:00:00.000Z"
         (Throw (mkError "Rate limit exceeded. Please wait and try again.")))
      sampleContent sampleMetrics (Some "sk-ant-key") = Normal r
    /\ claudeError (meta r) = Some "Rate limit exceeded. Please wait and try again."
    /\ map fst (included (categories r))
       = ["content-structure"; "terminology"; "text-over-visuals"].
Proof.
  assert (Hrules : TerminologyRules.scoreAll [] sampleContent = Normal sampleTerminology)
    by (vm_compute; reflexivity).
  assert (Htext : Parser.getTextForAnalysis sampleContent = Normal sampleText)
    by (vm_compute; reflexivity).
  destruct (C3_semantic_failure_is_absorbed
              sampleStr
              (envAnswering "2026-02-05T10:00:00.000Z"
                 (Throw (mkError "Rate limit exceeded. Please wait and try again.")))
              sampleContent sampleMetrics (Some "sk-ant-key") "sk-ant-key"
              sampleTerminology sampleText
              (mkError "Rate limit exceeded. Please wait and try again.")
              eq_refl Hrules Htext eq_refl eq_refl)
    as (r & Hrun & Herr & _ & _ & _ & _ & _ & Hinc & _).
  exists r. split; [exact Hrun |]. split; [exact Herr | exact Hinc].
Defined.

(** ** The time stamp *)

Lemma Normal_inj {A} (a b : A) : Normal a = Normal b -> a = b.
Proof. intros H. now injection H. Qed.

Lemma Throw_inj {A} (e1 e2 : JsError) : @Throw A e1 = Throw e2 -> e1 = e2.
Proof. intros H. now injection H. Qed.

Lemma rolledUp_atClock str cfg content t r :
  rolledUp str cfg content (atClock t r) = atClock t (rolledUp str cfg content r).
Proof.
  unfold rolledUp, atClock. cbn [categories set_meta].
  destruct (sectionsToScore content); [| reflexivity].
  destruct (Js.get (categories r) "content-structure"); reflexivity.
Qed.

Lemma generateSummary_meta str r m :
  Scorer.generateSummary str (set_meta r m) = Scorer.generateSummary str r.
Proof. destruct r. reflexivity. Qed.

Lemma finish_atClock str t r :
  Scorer.finish str (atClock t r) = atClock t (Scorer.finish str r).
Proof.
  destruct r as [m cats comp st alli top sm csum ctop secs].
  unfold Scorer.finish, atClock, set_meta.
  cbn [meta categories compositeScore status allIssues topIssues summary
       claudeSummary claudeTopIssues sections].
  f_equal.
Qed.

Lemma estimatedReport_clock str env1 env2 content metrics apiKey terminology :
  Scorer.config env1 = Scorer.config env2 ->
  atClock "" (estimatedReport str env1 content metrics apiKey terminology None)
  = atClock "" (estimatedReport str env2 content metrics apiKey terminology None).
Proof.
  intros Hcfg. unfold estimatedReport. cbv zeta. rewrite Hcfg.
  rewrite <- !finish_atClock, <- !rolledUp_atClock.
  do 2 f_equal.
Qed.

(** ** C8: determinism without a semantic capability *)

(** C8.  Without a usable key, two invocations of [scoreAll] on the same
    content and metrics under the same configuration end the same way
    whatever the clock, the cache storage and the remote service are at
    the time: both throw the same error (the one the terminology rules
    throw), or both return reports that are identical once the time
    stamp is set aside, in particular with the same categories, the same
    score for every category and every criterion, and the same
    composite. *)
Theorem C8_rule_only_runs_agree :
  forall (str : Js.NumberToString) (env1 env2 : Scorer.Env) (content : Content)
         (metrics : Metrics) (apiKey : option string),
    Scorer.usableKey apiKey = None ->
    Scorer.config env1 = Scorer.config env2 ->
    let run1 := Scorer.scoreAll str env1 content metrics apiKey in
    let run2 := Scorer.scoreAll str env2 content metrics apiKey in
    mapCompletion (atClock "") run1 = mapCompletion (atClock "") run2
    /\ match run1, run2 with
       | Normal r1, Normal r2 =>
           categories r1 = categories r2
           /\ (forall key, categoryScoreAt r1 key = categoryScoreAt r2 key)
           /\ (forall key id, criterionScoreAt r1 key id = criterionScoreAt r2 key id)
           /\ compositeScore r1 = compositeScore r2
       | Throw e1, Throw e2 => e1 = e2
       | _, _ => False
       end.
Proof.
  intros str env1 env2 content metrics apiKey Hkey Hcfg run1 run2.
  assert (H : mapCompletion (atClock "") run1 = mapCompletion (atClock "") run2).
  { unfold run1, run2. rewrite !scoreAll_rule_only by exact Hkey.
    rewrite Hcfg.
    destruct (TerminologyRules.scoreAll (Scorer.config env2) content)
      as [terminology | e]; [| reflexivity].
    cbn [mapCompletion]. f_equal.
    now apply estimatedReport_clock. }
  split; [exact H |].
  destruct run1 as [r1 | e1]; destruct run2 as [r2 | e2]; cbn [mapCompletion] in H;
    try discriminate H.
  - apply Normal_inj in H.
    assert (Hc : categories r1 = categories r2)
      by exact (f_equal categories H).
    assert (Hs : compositeScore r1 = compositeScore r2)
      by exact (f_equal compositeScore H).
    split; [exact Hc |]. unfold categoryScoreAt, criterionScoreAt. rewrite Hc.
    repeat split. exact Hs.
  - now apply Throw_inj in H.
Qed.

(** The sample page scored twice without a key: at different times,
    and with a remote service that would answer the first time and fail
    the second. *)
Lemma C8_rule_only_runs_agree_witness :
  let run1 :=
      Scorer.scoreAll sampleStr
        (envAnswering "2026-02-05T10:00:00.000Z" (Normal overScoredResponse))
        sampleContent sampleMetrics None in
  let run2 :=
      Scorer.scoreAll sampleStr
        (envAnswering "2026-03-01T08:30:00.000Z" (Throw (mkError "Network error.")))
        sampleContent sampleMetrics None in
  mapCompletion (atClock "") run1 = mapCompletion (atClock "") run2
  /\ match run1, run2 with
     | Normal r1, Normal r2 =>
         categories r1 = categories r2
         /\ (forall key, categoryScoreAt r1 key = categoryScoreAt r2 key)
         /\ (forall key id, criterionScoreAt r1 key id = criterionScoreAt r2 key id)
         /\ compositeScore r1 = compositeScore r2
     | Throw e1, Throw e2 => e1 = e2
     | _, _ => False
     end.
Proof.
  exact (C8_rule_only_runs_agree
           sampleStr
           (envAnswering "2026-02-05T10:00:00.000Z" (Normal overScoredResponse))
           (envAnswering "2026-03-01T08:30:00.000Z" (Throw (mkError "Network error.")))
           sampleContent sampleMetrics None eq_refl eq_refl).
Defined.

(** * Further properties of the engine *)

(** ** The cache key: [hashText] *)

Lemma toInt32_cong (z : Z) : exists k, Scorer.toInt32 z = z + k * 2 ^ 32.
Proof.
  unfold Scorer.toInt32. change (2 ^ 32) with 4294967296. change (2 ^ 31) with 2147483648.
  exists (- ((z + 2147483648) / 4294967296)).
  pose proof (Z.div_mod (z + 2147483648) 4294967296). lia.
Qed.

Lemma shl32_cong (z n : Z) : 0 <= n -> exists k, Scorer.shl32 z n = z * 2 ^ n + k * 2 ^ 32.
Proof.
  intros Hn. unfold Scorer.shl32.
  destruct (toInt32_cong z) as [i Hi].
  destruct (toInt32_cong (Z.shiftl (Scorer.toInt32 z) n)) as [j Hj].
  rewrite Hj, Z.shiftl_mul_pow2, Hi by exact Hn.
  exists (i * 2 ^ n + j). ring.
Qed.

Lemma lxor_low (a c : Z) :
  0 <= c < 2 ^ 32 -> Z.lxor a c mod 2 ^ 32 = Z.lxor (a mod 2 ^ 32) c.
Proof.
  intros Hc. rewrite <- !Z.land_ones by lia.
  rewrite <- (Z.mod_small c (2 ^ 32)) at 2 by exact Hc.
  rewrite <- (Z.land_ones c 32) by lia.
  apply Z.bits_inj'. intros n _.
  rewrite !Z.lxor_spec, !Z.land_spec, Z.lxor_spec.
  destruct (Z.testbit a n), (Z.testbit c n), (Z.testbit (Z.ones 32) n); reflexivity.
Qed.

Lemma code_unit_range (c : ascii) : 0 <= Z.of_nat (nat_of_ascii c) < 2 ^ 32.
Proof.
  pose proof (nat_ascii_bounded c). change (2 ^ 32) with 4294967296. lia.
Qed.

Lemma hashStep_fnv1a (H : Z) (c : ascii) :
  Scorer.hashStep H c mod 2 ^ 32 = fnv1aStep (H mod 2 ^ 32) c.
Proof.
  unfold Scorer.hashStep, fnv1aStep.
  set (h := Z.lxor (Scorer.toInt32 H) (Z.of_nat (nat_of_ascii c))).
  assert (Hh : h mod 2 ^ 32 = Z.lxor (H mod 2 ^ 32) (Z.of_nat (nat_of_ascii c))).
  { unfold h. rewrite lxor_low by apply code_unit_range. f_equal.
    destruct (toInt32_cong H) as [k ->]. apply Z.mod_add. discriminate. }
  rewrite <- Hh.
  destruct (shl32_cong h 1) as [k1 ->]; [lia |].
  destruct (shl32_cong h 4) as [k4 ->]; [lia |].
  destruct (shl32_cong h 7) as [k7 ->]; [lia |].
  destruct (shl32_cong h 8) as [k8 ->]; [lia |].
  destruct (shl32_cong h 24) as [k24 ->]; [lia |].
  rewrite Z.mul_mod_idemp_l by discriminate.
  replace (h + (h * 2 ^ 1 + k1 * 2 ^ 32 + (h * 2 ^ 4 + k4 * 2 ^ 32)
                + (h * 2 ^ 7 + k7 * 2 ^ 32) + (h * 2 ^ 8 + k8 * 2 ^ 32)
                + (h * 2 ^ 24 + k24 * 2 ^ 32)))
    with (h * fnvPrime + (k1 + k4 + k7 + k8 + k24) * 2 ^ 32)
    by (unfold fnvPrime; ring).
  apply Z.mod_add. discriminate.
Qed.

Lemma hash_fold_fnv1a (l : list ascii) (H : Z) :
  fold_left Scorer.hashStep l H mod 2 ^ 32 = fold_left fnv1aStep l (H mod 2 ^ 32).
Proof.
  revert H. induction l as [| c l IH]; intros H; [reflexivity |].
  cbn [fold_left]. rewrite IH, hashStep_fnv1a. reflexivity.
Qed.

Lemma fnv1a32_range (text : string) : 0 <= fnv1a32 text < 2 ^ 32.
Proof.
  unfold fnv1a32.
  assert (H : forall l h, 0 <= h < 2 ^ 32 -> 0 <= fold_left fnv1aStep l h < 2 ^ 32).
  { induction l as [| c l IH]; intros h Hh; [exact Hh |].
    cbn [fold_left]. apply IH. unfold fnv1aStep. apply Z.mod_pos_bound. reflexivity. }
  apply H. change (2 ^ 32) with 4294967296. lia.
Qed.

Lemma length_append (s t : string) :
  String.length (s ++ t) = (String.length s + String.length t)%nat.
Proof. induction s as [| c s IH]; cbn [append String.length]; [reflexivity | now rewrite IH]. Qed.

Lemma hexValue_app (s t : string) (acc : Z) :
  hexValue acc (s ++ t)
  = match hexValue acc s with Some a => hexValue a t | None => None end.
Proof.
  revert acc. induction s as [| c s IH]; intros acc; [reflexivity |].
  cbn [append hexValue]. destruct (hexDigitValue c); [apply IH | reflexivity].
Qed.

Lemma hexDigit_cases (d : Z) :
  0 <= d < 16 ->
  exists c, Scorer.hexDigit d = String c EmptyString /\ hexDigitValue c = Some d.
Proof.
  intros Hd.
  assert (H : d = 0 \/ d = 1 \/ d = 2 \/ d = 3 \/ d = 4 \/ d = 5 \/ d = 6 \/ d = 7
              \/ d = 8 \/ d = 9 \/ d = 10 \/ d = 11 \/ d = 12 \/ d = 13 \/ d = 14
              \/ d = 15) by lia.
  repeat (destruct H as [-> | H]; [eexists; split; reflexivity |]).
  subst d. eexists; split; reflexivity.
Qed.

Lemma hexValue_toHex (fuel : nat) (n : Z) :
  (1 <= fuel)%nat ->
  0 <= n < 16 ^ Z.of_nat fuel ->
  hexValue 0 (Scorer.toHex fuel n) = Some n
  /\ (1 <= String.length (Scorer.toHex fuel n) <= fuel)%nat.
Proof.
  revert n. induction fuel as [| k IH]; intros n Hf Hn; [lia |].
  cbn [Scorer.toHex]. destruct (Z.ltb_spec n 16) as [Hlt | Hge].
  - destruct (hexDigit_cases n) as (c & -> & Hc); [lia |].
    cbn [hexValue String.length]. rewrite Hc. split; [reflexivity | lia].
  - assert (Hk : 0 <= n / 16 < 16 ^ Z.of_nat k).
    { rewrite Nat2Z.inj_succ, Z.pow_succ_r in Hn by lia.
      split; [apply Z.div_pos; lia | apply Z.div_lt_upper_bound; lia]. }
    assert (Hk1 : (1 <= k)%nat).
    { destruct k; [| lia]. change (16 ^ Z.of_nat 0) with 1 in Hk.
      assert (n / 16 = 0) by lia. pose proof (Z.div_mod n 16).
      pose proof (Z.mod_pos_bound n 16). lia. }
    destruct (IH _ Hk1 Hk) as [Hv Hl].
    destruct (hexDigit_cases (n mod 16)) as (c & Hd & Hc);
      [apply Z.mod_pos_bound; lia |].
    rewrite hexValue_app, Hv, Hd. cbn [hexValue]. rewrite Hc.
    split.
    + f_equal. pose proof (Z.div_mod n 16). lia.
    + rewrite length_append. cbn [String.length]. lia.
Qed.

(** X1.  [hashText] is the 32-bit FNV-1a hash of the text's code units
    written in hexadecimal: the shift-and-add loop computes the
    multiplication by the FNV prime 16777619 modulo 2^32, the key is the
    numeral of that hash, of one to eight lower-case hexadecimal digits,
    and it reads back as the hash.  Two texts get the same key exactly
    when their FNV-1a hashes agree. *)
Theorem hashText_is_fnv1a :
  forall text : string,
    Scorer.hashText text = Scorer.toHex 8 (fnv1a32 text)
    /\ hexValue 0 (Scorer.hashText text) = Some (fnv1a32 text)
    /\ 0 <= fnv1a32 text < 2 ^ 32
    /\ (1 <= String.length (Scorer.hashText text) <= 8)%nat
    /\ forall text', Scorer.hashText text = Scorer.hashText text'
                     <-> fnv1a32 text = fnv1a32 text'.
Proof.
  assert (Hkey : forall t, Scorer.hashText t = Scorer.toHex 8 (fnv1a32 t)).
  { intros t. unfold Scorer.hashText, Scorer.toUint32, fnv1a32.
    now rewrite hash_fold_fnv1a. }
  assert (Hval : forall t, hexValue 0 (Scorer.hashText t) = Some (fnv1a32 t)
                           /\ (1 <= String.length (Scorer.hashText t) <= 8)%nat).
  { intros t. rewrite Hkey. apply hexValue_toHex; [lia |].
    pose proof (fnv1a32_range t) as H.
    change (16 ^ Z.of_nat 8) with (2 ^ 32). exact H. }
  intros text. split; [apply Hkey |]. split; [apply Hval |].
  split; [apply fnv1a32_range |]. split; [apply Hval |].
  intros text'. split.
  - intros H. destruct (Hval text) as [H1 _]. destruct (Hval text') as [H2 _].
    rewrite H in H1. congruence.
  - intros H. now rewrite !Hkey, H.
Qed.

(** ** Ranges of means *)

Section MeanRanges.
Local Open Scope Q_scope.

Lemma Qsum_sumQ (l : list Q) (acc : Q) : fold_left Qplus l acc == acc + sumQ l.
Proof.
  revert acc. induction l as [| x l IH]; intros acc.
  - cbn. ring.
  - cbn [fold_left]. rewrite IH. change (sumQ (x :: l)) with (x + sumQ l). ring.
Qed.

Lemma sumQ_within (a b : Z) (l : list Q) :
  Forall (within a b) l ->
  inject_Z a * inject_Z (Z.of_nat (List.length l)) <= sumQ l
  /\ sumQ l <= inject_Z b * inject_Z (Z.of_nat (List.length l)).
Proof.
  induction 1 as [| x l [Hx1 Hx2] _ [IH1 IH2]].
  - change (sumQ []) with 0. change (inject_Z (Z.of_nat (List.length (@nil Q)))) with 0.
    split; lra.
  - change (sumQ (x :: l)) with (x + sumQ l).
    cbn [List.length]. rewrite Nat2Z.inj_succ. unfold Z.succ.
    rewrite inject_Z_plus. change (inject_Z 1) with 1%Q. split; lra.
Qed.

Lemma round1_within (a b : Z) (x : Q) : within a b x -> within a b (Js.round1 x).
Proof.
  intros [Ha Hb]. unfold within, Js.round1, Js.Math_round.
  set (y := x * 10 + (1 # 2)).
  assert (H1 : (a * 10 <= Qfloor y)%Z).
  { rewrite <- (Qfloor_Z (a * 10)). apply Qfloor_resp_le.
    rewrite inject_Z_mult. unfold y. change (inject_Z 10) with 10%Q. lra. }
  assert (H2 : (Qfloor y <= b * 10)%Z).
  { assert (H : inject_Z (Qfloor y) < inject_Z (b * 10 + 1)).
    { apply Qle_lt_trans with y; [apply Qfloor_le |].
      rewrite inject_Z_plus, inject_Z_mult. unfold y.
      change (inject_Z 10) with 10%Q. change (inject_Z 1) with 1%Q. lra. }
    rewrite <- Zlt_Qlt in H. lia. }
  rewrite Zle_Qle, inject_Z_mult in H1, H2. change (inject_Z 10) with 10%Q in H1, H2.
  split.
  - apply Qle_shift_div_l; [reflexivity | exact H1].
  - apply Qle_shift_div_r; [reflexivity | exact H2].
Qed.

Lemma within_comp (a b : Z) (x y : Q) : x == y -> within a b x -> within a b y.
Proof. unfold within. intros E [H1 H2]. rewrite <- E. now split. Qed.

Lemma mean_within (a b : Z) (l : list Q) :
  l <> [] -> Forall (within a b) l ->
  within a b (sumQ l / inject_Z (Z.of_nat (List.length l))).
Proof.
  intros Hne Hall. destruct (sumQ_within a b l Hall) as [H1 H2].
  assert (Hpos : 0 < inject_Z (Z.of_nat (List.length l))).
  { change 0%Q with (inject_Z 0). rewrite <- Zlt_Qlt.
    destruct l; [congruence | cbn [List.length]; lia]. }
  split.
  - apply Qle_shift_div_l; assumption.
  - apply Qle_shift_div_r; assumption.
Qed.

Lemma numeric_scores_within (a b : Z) (criteria : Js.JsObject CriterionResult) :
  (forall c s, In c (Js.values criteria) -> score c = Some s -> within a b s) ->
  Forall (within a b) (Scorer.numeric_scores criteria).
Proof.
  intros H. unfold Scorer.numeric_scores. apply Forall_forall. intros s Hs.
  apply in_flat_map in Hs. destruct Hs as (c & Hc & Hs).
  destruct (score c) as [q |] eqn:E; [| contradiction].
  destruct Hs as [<- | []]. now apply (H c).
Qed.

Lemma averageScores_range (a b : Z) (criteria : Js.JsObject CriterionResult) :
  Forall (within a b) (Scorer.numeric_scores criteria) ->
  Scorer.numeric_scores criteria <> [] ->
  within a b (Scorer.averageScores criteria).
Proof.
  intros Hall Hne. unfold Scorer.averageScores.
  destruct (Scorer.numeric_scores criteria) as [| s l] eqn:E; [congruence |].
  apply round1_within.
  apply (within_comp a b (sumQ (s :: l) / inject_Z (Z.of_nat (List.length (s :: l))))).
  - unfold Scorer.Qsum. rewrite Qsum_sumQ. field.
    change 0%Q with (inject_Z 0). rewrite inject_Z_injective.
    cbn [List.length]. lia.
  - apply mean_within; [discriminate | exact Hall].
Qed.

(** X2.  [averageScores] stays within the range of the scores it
    averages: when every numeric criterion score lies between the
    integers [a] and [b], so does the rounded mean, provided at least
    one criterion has a numeric score.  Over criteria without any
    numeric score (in particular over the empty object) the result is
    the number 0, not [null]. *)
Theorem averageScores_within :
  forall (criteria : Js.JsObject CriterionResult) (a b : Z),
    (forall c s, In c (Js.values criteria) -> score c = Some s -> within a b s) ->
    (Scorer.numeric_scores criteria = [] -> Scorer.averageScores criteria = 0%Q)
    /\ (Scorer.numeric_scores criteria <> [] ->
        within a b (Scorer.averageScores criteria)).
Proof.
  intros criteria a b H. split.
  - intros E. unfold Scorer.averageScores. now rewrite E.
  - intros Hne. apply averageScores_range; [| exact Hne].
    now apply numeric_scores_within.
Qed.

(** Two criteria scored 7 and 8 and one without a score. *)
Lemma averageScores_within_witness :
  within 0 10
    (Scorer.averageScores
       [ ("OR-01", mkCriterion (Some "OR-01") (Some 7%Q) [] None);
         ("OR-02", mkCriterion (Some "OR-02") None [] None);
         ("OR-03", mkCriterion (Some "OR-03") (Some 8%Q) [] None) ]).
Proof.
  apply (averageScores_within
           [ ("OR-01", mkCriterion (Some "OR-01") (Some 7%Q) [] None);
             ("OR-02", mkCriterion (Some "OR-02") None [] None);
             ("OR-03", mkCriterion (Some "OR-03") (Some 8%Q) [] None) ] 0 10).
  - intros c s Hc Hs. vm_compute in Hc.
    destruct Hc as [<- | [<- | [<- | []]]]; cbn in Hs; try discriminate;
      injection Hs as <-; vm_compute; split; discriminate.
  - vm_compute. discriminate.
Defined.

Lemma weighted_sums_within (a b : Z) (l : list (Q * Q)) :
  Forall (fun sw => within a b (fst sw) /\ 0 <= snd sw) l ->
  0 <= sumQ (map snd l)
  /\ inject_Z a * sumQ (map snd l) <= sumQ (map (fun sw => fst sw * snd sw) l)
  /\ sumQ (map (fun sw => fst sw * snd sw) l) <= inject_Z b * sumQ (map snd l).
Proof.
  induction 1 as [| [s w] l [[Hs1 Hs2] Hw] _ (IH0 & IH1 & IH2)].
  - change (sumQ (map snd [])) with 0.
    change (sumQ (map (fun sw : Q * Q => fst sw * snd sw) [])) with 0.
    repeat split; lra.
  - cbn [map fst snd] in *.
    change (sumQ (w :: map snd l)) with (w + sumQ (map snd l)).
    change (sumQ (s * w :: map (fun sw => fst sw * snd sw) l))
      with (s * w + sumQ (map (fun sw => fst sw * snd sw) l)).
    assert (H1 : inject_Z a * w <= s * w) by (apply Qmult_le_compat_r; assumption).
    assert (H2 : s * w <= inject_Z b * w) by (apply Qmult_le_compat_r; assumption).
    repeat split; lra.
Qed.

Lemma weighted_mean_within (a b : Z) (l : list (Q * Q)) :
  Forall (fun sw => within a b (fst sw) /\ 0 <= snd sw) l ->
  ~ sumQ (map snd l) == 0 ->
  within a b (sumQ (map (fun sw => fst sw * snd sw) l) / sumQ (map snd l)).
Proof.
  intros Hall Hnz. destruct (weighted_sums_within a b l Hall) as (H0 & H1 & H2).
  assert (Hpos : 0 < sumQ (map snd l)).
  { apply Qle_lteq in H0. destruct H0 as [H0 | H0]; [exact H0 |].
    exfalso. apply Hnz. symmetry. exact H0. }
  split.
  - apply Qle_shift_div_l; assumption.
  - apply Qle_shift_div_r; assumption.
Qed.

Lemma composite_range (cats : Categories) (a b : Z) :
  (forall e, In e (included cats) ->
             within a b (Scorer.catScore e) /\ 0 <= entryWeight e) ->
  (weightSum cats == 0 -> Scorer.calculateCompositeScore cats == 0)
  /\ (~ weightSum cats == 0 -> within a b (Scorer.calculateCompositeScore cats)).
Proof.
  intros H.
  pose proof (composite_formula cats) as Hf.
  split.
  - intros Hz. rewrite Hf.
    destruct (Qeq_bool (weightSum cats) 0) eqn:E; [reflexivity |].
    apply Qeq_bool_iff in Hz. congruence.
  - intros Hnz.
    destruct (Qeq_bool (weightSum cats) 0) eqn:E.
    { apply Qeq_bool_iff in E. contradiction. }
    apply (within_comp a b (Js.round1 (weightedScoreSum cats / weightSum cats)));
      [symmetry; exact Hf |].
    apply round1_within.
    set (l := map (fun e => (Scorer.catScore e, entryWeight e)) (included cats)).
    assert (Hw : weightSum cats = sumQ (map snd l)).
    { unfold weightSum, l. now rewrite map_map. }
    assert (Hs : weightedScoreSum cats = sumQ (map (fun sw => fst sw * snd sw) l)).
    { unfold weightedScoreSum, l. now rewrite map_map. }
    rewrite Hs, Hw. apply weighted_mean_within.
    + unfold l. apply Forall_forall. intros sw Hin. apply in_map_iff in Hin.
      destruct Hin as (e & <- & He). exact (H e He).
    + now rewrite <- Hw.
Qed.

(** X3.  The composite stays within the range of the scores it
    combines: when every included category (non-null score, not
    estimated) has a score between the integers [a] and [b] and a weight
    that is not negative, the composite is 0 if the included weights sum
    to 0 and lies between [a] and [b] otherwise. *)
Theorem calculateCompositeScore_within :
  forall (cats : Categories) (a b : Z),
    (forall e, In e (included cats) ->
               within a b (Scorer.catScore e) /\ 0 <= entryWeight e) ->
    (weightSum cats == 0 -> Scorer.calculateCompositeScore cats == 0)
    /\ (~ weightSum cats == 0 -> within a b (Scorer.calculateCompositeScore cats)).
Proof. intros cats a b. apply composite_range. Qed.

(** The spec's example A (8, 0.5), B (6, 0.5), C estimated. *)
Lemma calculateCompositeScore_within_witness :
  within 6 8 (Scorer.calculateCompositeScore exampleABC).
Proof.
  apply (calculateCompositeScore_within exampleABC 6 8).
  - intros e He. vm_compute in He.
    destruct He as [<- | [<- | []]]; vm_compute; repeat split; discriminate.
  - vm_compute. discriminate.
Defined.

(** ** Scores of the rule modules and of the Estimator *)

Lemma scoreWithin_Z (a b z : Z) : (a <= z <= b)%Z -> scoreWithin a b (Some (inject_Z z)).
Proof.
  intros [H1 H2]. exists (inject_Z z). split; [reflexivity |].
  split; rewrite <- Zle_Qle; assumption.
Qed.

Lemma Math_round_le (x : Q) (n : Z) : x <= inject_Z n -> (Js.Math_round x <= n)%Z.
Proof.
  intros H. unfold Js.Math_round.
  assert (Hlt : inject_Z (Qfloor (x + (1 # 2))) < inject_Z (n + 1)).
  { apply Qle_lt_trans with (x + (1 # 2)); [apply Qfloor_le |].
    rewrite inject_Z_plus. change (inject_Z 1) with 1. lra. }
  rewrite <- Zlt_Qlt in Hlt. lia.
Qed.

Lemma Math_round_ge (x : Q) (n : Z) : inject_Z n <= x -> (n <= Js.Math_round x)%Z.
Proof.
  intros H. unfold Js.Math_round.
  rewrite <- (Qfloor_Z n). apply Qfloor_resp_le. lra.
Qed.

Lemma CS01_within (cfg : Config) (metrics : Metrics) :
  scoreWithin 0 10 (score (ContentStructureRules.scoreParagraphBrevity cfg metrics)).
Proof.
  unfold ContentStructureRules.scoreParagraphBrevity.
  destruct (pm_count (m_paragraphs metrics) =? 0)%Z; cbn [score].
  - apply (scoreWithin_Z 0 10 10). lia.
  - apply scoreWithin_Z, clamp10_range.
Qed.

Lemma CS02_within (str : Js.NumberToString) (cfg : Config) (metrics : Metrics) :
  scoreWithin 0 10 (score (ContentStructureRules.scoreListUsage str cfg metrics)).
Proof.
  unfold ContentStructureRules.scoreListUsage.
  destruct ((pm_count (m_paragraphs metrics) =? 0)%Z && (lm_count (m_lists metrics) =? 0)%Z);
    cbn [score].
  - apply (scoreWithin_Z 0 10 5). lia.
  - apply scoreWithin_Z.
    match goal with |- context [Js.clamp10 ?x] => pose proof (clamp10_range x) end.
    destruct (ContentStructureRules.gtz _ 0 && ContentStructureRules.eqz _ 0); lia.
Qed.

Lemma CS04_within (metrics : Metrics) :
  scoreWithin 0 10 (score (ContentStructureRules.scoreHeadingHierarchy metrics)).
Proof.
  unfold ContentStructureRules.scoreHeadingHierarchy.
  destruct (hm_count (m_headings metrics) =? 0)%Z; cbn [score].
  - apply (scoreWithin_Z 0 10 3). lia.
  - apply scoreWithin_Z.
    pose proof (Nat2Z.is_nonneg
                  (List.length (hierarchy_issues (hm_hierarchyValid (m_headings metrics))))).
    repeat match goal with
           | |- context [if ?c then _ else _] => destruct c
           end; lia.
Qed.

Lemma CS07_within (metrics : Metrics) :
  scoreWithin 0 10 (score (ContentStructureRules.scoreLinkIntegrity metrics)).
Proof.
  unfold ContentStructureRules.scoreLinkIntegrity.
  destruct (m_links metrics) as [links |]; [| apply (scoreWithin_Z 0 10 10); lia].
  destruct (lk_total links =? 0)%Z; cbn [score].
  - apply (scoreWithin_Z 0 10 10). lia.
  - apply scoreWithin_Z, clamp10_range.
Qed.

Lemma AV01_within (content : Content) (cr : CriterionResult) :
  TerminologyRules.scoreTermConsistency content = Normal cr ->
  scoreWithin 0 10 (score cr).
Proof.
  unfold TerminologyRules.scoreTermConsistency.
  destruct (TerminologyRules.extractTerminologyClusters content) as [clusters | e];
    [| discriminate].
  cbv zeta. intros H. apply Normal_inj in H. subst cr. cbn [score].
  apply scoreWithin_Z.
  set (groups := filter _ (Js.entries (TerminologyRules.extractActionTerms content))).
  set (inc := Z.of_nat (List.length (filter _ groups))).
  set (crit := Z.of_nat (List.length (filter _ _))).
  set (ci := Z.of_nat (List.length (flat_map _ (Js.entries clusters)))).
  assert (Hinc : (0 <= inc)%Z) by apply Nat2Z.is_nonneg.
  assert (Hcrit : (0 <= crit)%Z) by apply Nat2Z.is_nonneg.
  assert (Hci : (0 <= ci)%Z) by apply Nat2Z.is_nonneg.
  assert (H0 : ((if (0 <? Z.of_nat (List.length groups))%Z
                 then Js.Math_round
                        ((1 - inject_Z inc / inject_Z (Z.of_nat (List.length groups))) * 10)
                 else 10) <= 10)%Z).
  { destruct (Z.ltb_spec 0 (Z.of_nat (List.length groups))) as [Hpos | _]; [| lia].
    apply Math_round_le.
    assert (0 <= inject_Z inc / inject_Z (Z.of_nat (List.length groups))).
    { apply Qle_shift_div_l.
      - change 0 with (inject_Z 0). now rewrite <- Zlt_Qlt.
      - rewrite Qmult_0_l. change 0 with (inject_Z 0). now rewrite <- Zle_Qle. }
    change (inject_Z 10) with 10. lra. }
  lia.
Qed.

Lemma AV02_within (content : Content) :
  scoreWithin 0 10 (score (TerminologyRules.detectConfusableTerms content)).
Proof.
  unfold TerminologyRules.detectConfusableTerms. cbn [score].
  apply scoreWithin_Z.
  match goal with |- context [Z.of_nat ?n] => pose proof (Nat2Z.is_nonneg n) end.
  lia.
Qed.

Lemma TB01_within (str : Js.NumberToString) (metrics : Metrics) (content : Content) :
  scoreWithin 0 10 (score (TextOverVisualsRules.scoreTextFirst str metrics content)).
Proof.
  unfold TextOverVisualsRules.scoreTextFirst.
  destruct (im_count (m_images metrics) =? 0)%Z; cbn [score].
  - apply (scoreWithin_Z 0 10 10). lia.
  - apply scoreWithin_Z.
    repeat match goal with
           | |- context [if ?c then _ else _] => destruct c
           end; cbn [fst]; lia.
Qed.

Lemma TB02_within (metrics : Metrics) :
  0 <= cm_visualToContentRatio (m_content metrics) ->
  scoreWithin 0 10 (score (TextOverVisualsRules.scoreImageRatio metrics)).
Proof.
  intros Hr. unfold TextOverVisualsRules.scoreImageRatio.
  set (ratio := cm_visualToContentRatio (m_content metrics)) in *.
  destruct (cm_totalBlocks (m_content metrics) =? 0)%Z; cbn [score].
  - apply (scoreWithin_Z 0 10 5). lia.
  - apply scoreWithin_Z. unfold TextOverVisualsRules.idealMax.
    destruct (Qle_bool ratio (33 # 100)) eqn:E1.
    + apply Qle_bool_iff in E1.
      assert (Q0 : 0 <= ratio / (33 # 100)).
      { apply Qle_shift_div_l; [reflexivity | lra]. }
      assert (Q1 : ratio / (33 # 100) <= 1).
      { apply Qle_shift_div_r; [reflexivity | lra]. }
      assert (H1 : (0 <= Js.Math_round ((1 - ratio / (33 # 100)) * 2))%Z).
      { apply Math_round_ge. change (inject_Z 0) with 0. lra. }
      assert (H2 : (Js.Math_round ((1 - ratio / (33 # 100)) * 2) <= 2)%Z).
      { apply Math_round_le. change (inject_Z 2) with 2. lra. }
      lia.
    + assert (N1 : (33 # 100) < ratio).
      { apply Qnot_le_lt. intros H. apply Qle_bool_iff in H. congruence. }
      destruct (Qle_bool ratio (5 # 10)) eqn:E2.
      * apply Qle_bool_iff in E2.
        assert (Q0 : 0 <= ((5 # 10) - ratio) / (17 # 100)).
        { apply Qle_shift_div_l; [reflexivity | lra]. }
        assert (Q1 : ((5 # 10) - ratio) / (17 # 100) <= 1).
        { apply Qle_shift_div_r; [reflexivity | lra]. }
        assert (H1 : (0 <= Js.Math_round (((5 # 10) - ratio) / (17 # 100) * 2))%Z).
        { apply Math_round_ge. change (inject_Z 0) with 0. lra. }
        assert (H2 : (Js.Math_round (((5 # 10) - ratio) / (17 # 100) * 2) <= 2)%Z).
        { apply Math_round_le. change (inject_Z 2) with 2. lra. }
        lia.
      * assert (N2 : (5 # 10) < ratio).
        { apply Qnot_le_lt. intros H. apply Qle_bool_iff in H. congruence. }
        assert (H2 : (Js.Math_round ((1 - ratio) * 8) <= 4)%Z).
        { apply Math_round_le. change (inject_Z 4) with 4. lra. }
        lia.
Qed.

Lemma TB03_within (metrics : Metrics) :
  0 <= im_altTextCoverage (m_images metrics) <= 1 ->
  scoreWithin 0 10 (score (TextOverVisualsRules.scoreAltTextCoverage metrics)).
Proof.
  intros [H0 H1]. unfold TextOverVisualsRules.scoreAltTextCoverage.
  destruct (im_count (m_images metrics) =? 0)%Z; cbn [score].
  - apply (scoreWithin_Z 0 10 10). lia.
  - apply scoreWithin_Z. split.
    + apply Math_round_ge. change (inject_Z 0) with 0. lra.
    + apply Math_round_le. change (inject_Z 10) with 10. lra.
Qed.

Lemma num_or_pos (a : option Q) (d : Q) :
  (forall w, a = Some w -> 0 <= w) -> 0 < d -> 0 < Js.num_or a d.
Proof.
  intros Ha Hd. unfold Js.num_or. destruct a as [w |]; [| exact Hd].
  destruct (Qeq_bool w 0) eqn:E; [exact Hd |].
  specialize (Ha w eq_refl). apply Qle_lteq in Ha. destruct Ha as [Ha | Ha]; [exact Ha |].
  assert (Qeq_bool w 0 = true) by (apply Qeq_bool_iff; symmetry; exact Ha). congruence.
Qed.

Lemma configured_weight_pos (cfg : Config) (cat id : string) (d fallback : Q) :
  nonnegWeights cfg -> 0 < d -> 0 < fallback ->
  0 < Js.num_or (Some (Js.num_or (cfg_get cfg cat id cfg_weight) d)) fallback.
Proof.
  intros Hcfg Hd Hf. apply num_or_pos; [| exact Hf].
  intros w E. injection E as <-. apply Qlt_le_weak.
  apply num_or_pos; [| exact Hd]. intros w. apply Hcfg.
Qed.

Lemma weighted_fold (weights : Js.JsObject Q) (fallback : Q)
      (l : list (string * CriterionResult)) (acc : Q * Q) :
  let pair := fun e : string * CriterionResult =>
                (Scorer.scoreOf (snd e), Js.num_or (Js.get weights (fst e)) fallback) in
  let step := fun (acc : Q * Q) (e : string * CriterionResult) =>
                let weight := Js.num_or (Js.get weights (fst e)) fallback in
                let s := match score (snd e) with Some q => q | None => 0 end in
                (fst acc + s * weight, snd acc + weight) in
  fst (fold_left step l acc)
    == fst acc + sumQ (map (fun sw => fst sw * snd sw) (map pair l))
  /\ snd (fold_left step l acc) == snd acc + sumQ (map snd (map pair l)).
Proof.
  cbv zeta. revert acc. induction l as [| e l IH]; intros acc.
  - cbn. split; ring.
  - cbn [fold_left map]. destruct (IH (fst acc
                                          + match score (snd e) with
                                            | Some q => q
                                            | None => 0
                                            end * Js.num_or (Js.get weights (fst e)) fallback,
                                        snd acc + Js.num_or (Js.get weights (fst e)) fallback))
      as [H1 H2].
    cbn [fst snd] in H1, H2.
    change (sumQ (?x :: ?l)) with (x + sumQ l).
    split.
    + rewrite H1. unfold Scorer.scoreOf. cbn [fst snd].
      match goal with |- context [sumQ ?t] => generalize (sumQ t) end. intros z. ring.
    + rewrite H2. cbn [fst snd].
      match goal with |- context [sumQ ?t] => generalize (sumQ t) end. intros z. ring.
Qed.

Lemma weighted_category_score_within (weights : Js.JsObject Q) (fallback : Q)
      (crit : Js.JsObject CriterionResult) :
  Js.entries crit <> [] ->
  (forall e, In e (Js.entries crit) ->
             scoreWithin 0 10 (score (snd e))
             /\ 0 < Js.num_or (Js.get weights (fst e)) fallback) ->
  within 0 10 (weighted_category_score weights fallback crit).
Proof.
  intros Hne H. unfold weighted_category_score.
  pose proof (weighted_fold weights fallback (Js.entries crit) (0, 0)) as Hf.
  cbv zeta in Hf.
  match type of Hf with
  | context [fold_left ?f ?l ?a] => destruct (fold_left f l a) as [ws tw]
  end.
  cbn [fst snd] in Hf. destruct Hf as [Hws Htw].
  set (l := map (fun e : string * CriterionResult =>
                   (Scorer.scoreOf (snd e), Js.num_or (Js.get weights (fst e)) fallback))
                (Js.entries crit)) in *.
  assert (Hall : Forall (fun sw => within 0 10 (fst sw) /\ 0 <= snd sw) l).
  { unfold l. apply Forall_forall. intros sw Hin. apply in_map_iff in Hin.
    destruct Hin as (e & <- & He). destruct (H e He) as [(q & Hq & Hw) Hpos].
    cbn [fst snd]. unfold Scorer.scoreOf. rewrite Hq.
    split; [exact Hw | now apply Qlt_le_weak]. }
  assert (Hnz : ~ sumQ (map snd l) == 0).
  { destruct (Js.entries crit) as [| e rest] eqn:E; [congruence |].
    destruct (H e (or_introl eq_refl)) as [_ Hpos].
    assert (Hrest : Forall (fun sw => within 0 10 (fst sw) /\ 0 <= snd sw) (tl l))
      by (unfold l in *; cbn [map tl] in *; now inversion Hall).
    destruct (weighted_sums_within 0 10 _ Hrest) as [Hr _].
    unfold l in *. cbn [map tl snd] in *.
    change (sumQ (?x :: ?t)) with (x + sumQ t). lra. }
  apply round1_within.
  apply (within_comp 0 10 (sumQ (map (fun sw => fst sw * snd sw) l) / sumQ (map snd l))).
  - rewrite Hws, Htw. field. exact Hnz.
  - now apply weighted_mean_within.
Qed.

Lemma entries_plain {V} (o : Js.JsObject V) :
  forallb (fun e => negb (Js.is_index e)) o = true -> Js.entries o = o.
Proof.
  intros H. unfold Js.entries.
  assert (H1 : filter Js.is_index o = []).
  { induction o as [| e o IH]; [reflexivity |].
    cbn [forallb] in H. apply andb_true_iff in H. destruct H as [He Ho].
    cbn [filter]. apply negb_true_iff in He. rewrite He. now apply IH. }
  assert (H2 : filter (fun e => negb (Js.is_index e)) o = o).
  { induction o as [| e o IH]; [reflexivity |].
    cbn [forallb] in H. apply andb_true_iff in H. destruct H as [He Ho].
    cbn [filter]. rewrite He. f_equal. apply IH; [exact Ho |].
    cbn [filter] in H1. apply negb_true_iff in He. rewrite He in H1. exact H1. }
  rewrite H1, H2. reflexivity.
Qed.

Lemma contentStructure_result_in_range str cfg metrics :
  nonnegWeights cfg ->
  within 0 10 (categoryScore (ContentStructureRules.scoreAll str cfg metrics))
  /\ forall id cr, In (id, cr) (criteria (ContentStructureRules.scoreAll str cfg metrics)) ->
                   scoreWithin 0 10 (score cr).
Proof.
  intros Hcfg.
  assert (Hcrit : forall id cr,
             In (id, cr) (criteria (ContentStructureRules.scoreAll str cfg metrics)) ->
             scoreWithin 0 10 (score cr)).
  { intros id cr Hin. cbn [ContentStructureRules.scoreAll criteria In] in Hin.
    destruct Hin as [E | [E | [E | [E | []]]]]; injection E as <- <-.
    - apply CS01_within.
    - apply CS02_within.
    - apply CS04_within.
    - apply CS07_within. }
  split; [| exact Hcrit].
  unfold ContentStructureRules.scoreAll. cbn [categoryScore].
  apply weighted_category_score_within.
  - rewrite entries_plain by reflexivity. discriminate.
  - rewrite entries_plain by reflexivity. intros e He.
    destruct He as [<- | [<- | [<- | [<- | []]]]]; cbn [fst snd];
      (split; [first [apply CS01_within | apply CS02_within | apply CS04_within
                      | apply CS07_within] |]);
      cbn [Js.get String.eqb Ascii.eqb Bool.eqb];
      apply configured_weight_pos; try exact Hcfg; reflexivity.
Qed.

Lemma terminology_result_in_range cfg content (t : RuleResult) :
  nonnegWeights cfg ->
  TerminologyRules.scoreAll cfg content = Normal t ->
  within 0 10 (categoryScore t)
  /\ forall id cr, In (id, cr) (criteria t) -> scoreWithin 0 10 (score cr).
Proof.
  intros Hcfg. unfold TerminologyRules.scoreAll.
  destruct (TerminologyRules.scoreTermConsistency content) as [av01 | e] eqn:E01;
    [| discriminate].
  cbv zeta. intros H. apply Normal_inj in H. subst t. cbn [categoryScore criteria].
  assert (Hcrit : forall id cr,
             In (id, cr) [("AV-01", av01);
                          ("AV-02", TerminologyRules.detectConfusableTerms content)] ->
             scoreWithin 0 10 (score cr)).
  { intros id cr Hin. destruct Hin as [E | [E | []]]; injection E as <- <-.
    - now apply (AV01_within content).
    - apply AV02_within. }
  split; [| exact Hcrit].
  apply weighted_category_score_within.
  - rewrite entries_plain by reflexivity. discriminate.
  - rewrite entries_plain by reflexivity. intros e He.
    destruct He as [<- | [<- | []]]; cbn [fst snd];
      (split; [first [now apply (AV01_within content) | apply AV02_within] |]);
      cbn [Js.get String.eqb Ascii.eqb Bool.eqb];
      apply configured_weight_pos; try exact Hcfg; reflexivity.
Qed.

Lemma textOverVisuals_result_in_range str cfg metrics content :
  nonnegWeights cfg -> saneRatios metrics ->
  within 0 10 (categoryScore (TextOverVisualsRules.scoreAll str cfg metrics content))
  /\ forall id cr,
       In (id, cr) (criteria (TextOverVisualsRules.scoreAll str cfg metrics content)) ->
       scoreWithin 0 10 (score cr).
Proof.
  intros Hcfg [Hratio Hcov].
  assert (Hcrit : forall id cr,
             In (id, cr) (criteria (TextOverVisualsRules.scoreAll str cfg metrics content)) ->
             scoreWithin 0 10 (score cr)).
  { intros id cr Hin. cbn [TextOverVisualsRules.scoreAll criteria In] in Hin.
    destruct Hin as [E | [E | [E | []]]]; injection E as <- <-.
    - apply TB01_within.
    - now apply TB02_within.
    - now apply TB03_within. }
  split; [| exact Hcrit].
  unfold TextOverVisualsRules.scoreAll. cbn [categoryScore].
  apply weighted_category_score_within.
  - rewrite entries_plain by reflexivity. discriminate.
  - rewrite entries_plain by reflexivity. intros e He.
    destruct He as [<- | [<- | [<- | []]]]; cbn [fst snd];
      (split; [first [apply TB01_within | now apply TB02_within | now apply TB03_within] |]);
      cbn [Js.get String.eqb Ascii.eqb Bool.eqb];
      apply configured_weight_pos; try exact Hcfg; reflexivity.
Qed.

Lemma scoreOf_within (a b : Z) (cr : CriterionResult) :
  scoreWithin a b (score cr) -> within a b (Scorer.scoreOf cr).
Proof. intros (q & Hq & Hw). unfold Scorer.scoreOf. now rewrite Hq. Qed.

Lemma half_sum_within (x y : Q) :
  within 0 10 x -> within 0 10 y -> within 0 10 (Js.round1 ((x + y) / 2)).
Proof.
  intros [Hx0 Hx1] [Hy0 Hy1]. apply round1_within. unfold within.
  change (inject_Z 0) with 0 in *. change (inject_Z 10) with 10 in *.
  split.
  - apply Qle_shift_div_l; [reflexivity | lra].
  - apply Qle_shift_div_r; [reflexivity | lra].
Qed.

Lemma scoreSection_within str cfg section :
  within 0 10 (sec_score (Scorer.scoreSection str cfg section))
  /\ forall id cr, In (id, cr) (sec_criteria (Scorer.scoreSection str cfg section)) ->
                   scoreWithin 0 10 (score cr).
Proof.
  unfold Scorer.scoreSection. cbn [sec_score sec_criteria]. split.
  - apply half_sum_within; apply scoreOf_within; [apply CS01_within | apply CS02_within].
  - intros id cr [E | [E | []]]; injection E as <- <-;
      [apply CS01_within | apply CS02_within].
Qed.

Lemma rollup_within str cfg (secs : list DocSection) :
  secs <> [] ->
  let sectionScores := map (Scorer.scoreSection str cfg) secs in
  within 0 10 (Js.round1 (Scorer.Qsum (map sec_score sectionScores)
                          / inject_Z (Scorer.len sectionScores))).
Proof.
  intros Hne sectionScores. apply round1_within.
  apply (within_comp 0 10
           (sumQ (map sec_score sectionScores)
            / inject_Z (Z.of_nat (List.length (map sec_score sectionScores))))).
  - unfold Scorer.Qsum, Scorer.len. rewrite Qsum_sumQ, length_map. field.
    change 0 with (inject_Z 0). rewrite inject_Z_injective.
    unfold sectionScores. rewrite length_map. destruct secs; [congruence |].
    cbn [List.length]. lia.
  - apply mean_within.
    + unfold sectionScores. destruct secs; [congruence | discriminate].
    + apply Forall_forall. intros q Hq. apply in_map_iff in Hq.
      destruct Hq as (sc & <- & Hsc). unfold sectionScores in Hsc.
      apply in_map_iff in Hsc. destruct Hsc as (sec & <- & _).
      apply scoreSection_within.
Qed.

Lemma sectionsToScore_nonempty content secs :
  sectionsToScore content = Some secs -> secs <> [].
Proof.
  unfold sectionsToScore. destruct (c_sections content) as [[| sec rest] |];
    intros H; try discriminate. injection H as <-. discriminate.
Qed.

Lemma finalContentStructure_in_range str cfg content metrics :
  nonnegWeights cfg ->
  categoryInRange (finalContentStructure str cfg content metrics).
Proof.
  intros Hcfg.
  destruct (contentStructure_result_in_range str cfg metrics Hcfg) as [Hs Hc].
  unfold finalContentStructure, categoryInRange.
  destruct (sectionsToScore content) as [secs |] eqn:E.
  - unfold blendSections. cbn [cat_score cat_criteria Scorer.ruleCategory].
    split; [| exact Hc].
    eexists. split; [reflexivity |].
    apply half_sum_within; [exact Hs |].
    apply rollup_within. now apply (sectionsToScore_nonempty content).
  - cbn [cat_score cat_criteria Scorer.ruleCategory]. split; [| exact Hc].
    eexists. split; [reflexivity | exact Hs].
Qed.

Lemma estimates_in_range content metrics key c :
  In (key, c) (estimates content metrics) -> categoryInRange c.
Proof.
  unfold estimates. intros [E | [E | [E | []]]]; injection E as <- <-;
    unfold Scorer.estimateOutcomes, Scorer.estimatePermissions, Scorer.estimateContext,
           Scorer.estimatedCategory, categoryInRange;
    cbn [cat_score cat_criteria];
    (split; [apply scoreWithin_Z, clamp10_range |]);
    intros id cr [E | []]; injection E as <- <-; cbn [score];
    apply scoreWithin_Z, clamp10_range.
Qed.

Lemma estimatedReport_sections str env content metrics apiKey terminology failure :
  sections (estimatedReport str env content metrics apiKey terminology failure)
  = option_map (map (Scorer.scoreSection str (Scorer.config env)))
               (sectionsToScore content).
Proof.
  unfold estimatedReport, Scorer.finish, rolledUp.
  destruct (sectionsToScore content); reflexivity.
Qed.

Lemma estimatedReport_composite str env content metrics apiKey terminology failure :
  compositeScore (estimatedReport str env content metrics apiKey terminology failure)
  = Scorer.calculateCompositeScore
      (categories (estimatedReport str env content metrics apiKey terminology failure)).
Proof. reflexivity. Qed.

(** X4.  On the rule-only path the clamping invariant holds for a page
    without links.  When [scoreAll] runs without a usable key, under a
    configuration without negative weights, on the metrics of a page
    that has no links, whose visual ratio is not negative and whose
    alt-text coverage is a fraction, every category of the report has a
    score in [0, 10], so has every criterion of every category, so has
    every section score, and so has the composite.  (For a page with
    links CS-07 divides [links.brokenCount] by the number of links; the
    metrics of js/parser.js carry no such count, the score is then not a
    number, and that the model does not represent.) *)
Theorem rule_only_report_in_range :
  forall (str : Js.NumberToString) (env : Scorer.Env) (content : Content)
         (metrics : Metrics) (apiKey : option string) (r : Report),
    Scorer.usableKey apiKey = None ->
    nonnegWeights (Scorer.config env) ->
    saneRatios metrics ->
    noLinks metrics ->
    Scorer.scoreAll str env content metrics apiKey = Normal r ->
    (forall key c, In (key, c) (categories r) -> categoryInRange c)
    /\ within 0 10 (compositeScore r)
    /\ (forall secs, sections r = Some secs ->
                     Forall (fun sc => within 0 10 (sec_score sc)) secs).
Proof.
  intros str env content metrics apiKey r Hkey Hcfg Hsane _ Hrun.
  rewrite (scoreAll_rule_only _ _ _ _ _ Hkey) in Hrun.
  destruct (TerminologyRules.scoreAll (Scorer.config env) content)
    as [terminology | e] eqn:Et; [| discriminate].
  cbn [mapCompletion] in Hrun. apply Normal_inj in Hrun. subst r.
  destruct (terminology_result_in_range _ _ _ Hcfg Et) as [Ht Htc].
  destruct (textOverVisuals_result_in_range str _ metrics content Hcfg Hsane) as [Hv Hvc].
  pose proof (finalContentStructure_in_range str _ content metrics Hcfg) as Hcs.
  assert (Hcats : forall key c,
             In (key, c)
                (categories (estimatedReport str env content metrics apiKey
                                             terminology None)) ->
             categoryInRange c).
  { intros key c. rewrite estimatedReport_categories.
    intros [E | [E | [E | Hest]]].
    - injection E as <- <-. exact Hcs.
    - injection E as <- <-. split; [| exact Htc].
      eexists. split; [reflexivity | exact Ht].
    - injection E as <- <-. split; [| exact Hvc].
      eexists. split; [reflexivity | exact Hv].
    - now apply (estimates_in_range content metrics key). }
  split; [exact Hcats |]. split.
  - rewrite estimatedReport_composite, estimatedReport_categories.
    destruct Hcs as [(s1 & Hs1 & Hw1) _].
    assert (He1 : cat_estimated (finalContentStructure str (Scorer.config env)
                                                       content metrics) = false).
    { unfold finalContentStructure. now destruct (sectionsToScore content). }
    assert (Hwt : cat_weight (finalContentStructure str (Scorer.config env)
                                                    content metrics) = Some (30 # 100)).
    { unfold finalContentStructure. now destruct (sectionsToScore content). }
    apply (within_comp 0 10
             (Js.round1 ((s1 * (30 # 100) + categoryScore terminology * (15 # 100)
                          + categoryScore (TextOverVisualsRules.scoreAll
                                             str (Scorer.config env) metrics content)
                            * (10 # 100)) / (55 # 100)))).
    + symmetry. unfold estimates.
      apply composite_rule_categories; try reflexivity; assumption.
    + apply round1_within. destruct Hw1 as [A1 B1], Ht as [A2 B2], Hv as [A3 B3].
      unfold within.
      change (inject_Z 0) with 0 in *. change (inject_Z 10) with 10 in *.
      split.
      * apply Qle_shift_div_l; [reflexivity | lra].
      * apply Qle_shift_div_r; [reflexivity | lra].
  - intros secs. rewrite estimatedReport_sections.
    destruct (sectionsToScore content) as [ss |]; [| discriminate].
    cbn [option_map]. intros E. injection E as <-.
    apply Forall_forall. intros sc Hsc. apply in_map_iff in Hsc.
    destruct Hsc as (sec & <- & _). apply scoreSection_within.
Qed.

(** The sample page without links, scored without a key. *)
Lemma rule_only_report_in_range_witness :
  within 0 10 (compositeScore linklessReport)
  /\ forall key c, In (key, c) (categories linklessReport) -> categoryInRange c.
Proof.
  assert (Hcfg : nonnegWeights []).
  { intros cat id w H. discriminate H. }
  assert (Hsane : saneRatios linklessMetrics).
  { unfold saneRatios. vm_compute. repeat split; discriminate. }
  assert (Hlinks : noLinks linklessMetrics) by reflexivity.
  destruct (rule_only_report_in_range
              sampleStr (envAnswering "2026-02-05T10:00:00.000Z" (Normal overScoredResponse))
              sampleContent linklessMetrics None linklessReport eq_refl Hcfg Hsane Hlinks)
    as (Hc & Hs & _).
  - vm_compute. reflexivity.
  - split; [exact Hs | exact Hc].
Defined.

End MeanRanges.

(** ** The cached semantic response *)

Lemma bind_ext_l {A B} (m m' : M A) (k : A -> M B) r :
  m r = m' r -> bind m k r = bind m' k r.
Proof. intros H. unfold bind. now rewrite H. Qed.

Lemma bind_ext_r {A B} (m : M A) (k k' : A -> M B) r :
  (forall a r', k a r' = k' a r') -> bind m k r = bind m k' r.
Proof. intros H. unfold bind. destruct (m r) as [[a | e] r']; [apply H | reflexivity]. Qed.

Lemma claudeStep_hit env key content text entry r :
  Parser.getTextForAnalysis content = Normal text ->
  Scorer.getClaudeCacheEntry env (Scorer.hashText text) = Normal (Some entry) ->
  Scorer.claudeStep env key content r
  = Scorer.addClaudeScores (Scorer.transformed entry) (Scorer.raw entry)
      (set_meta r (set_claudeCache (meta r)
                     (mkCacheInfo "hit" (Scorer.hashText text) (Scorer.savedAt entry)))).
Proof.
  intros Htext Hcache. unfold Scorer.claudeStep.
  unfold bind at 1. unfold lift at 1. rewrite Htext. cbv zeta.
  unfold bind at 1. unfold lift at 1. rewrite Hcache.
  unfold bind at 1. unfold modify at 1. reflexivity.
Qed.

Lemma keepsMeta_bind {A B} (m : M A) (k : A -> M B) :
  keepsMeta m -> (forall a, keepsMeta (k a)) -> keepsMeta (bind m k).
Proof.
  intros Hm Hk r0. unfold bind. specialize (Hm r0).
  destruct (m r0) as [[a | e] r1]; cbn [snd] in *; [| exact Hm].
  now rewrite Hk.
Qed.

Lemma keepsMeta_put key c : keepsMeta (put_category key c).
Proof. intros r0. reflexivity. Qed.

Lemma keepsMeta_the_category key prop : keepsMeta (the_category key prop).
Proof.
  intros r0. unfold the_category, the_category_or.
  now destruct (Js.get (categories r0) key).
Qed.

Lemma keepsMeta_ret {A} (a : A) : keepsMeta (ret a).
Proof. intros r0. reflexivity. Qed.

Lemma keepsMeta_throw {A} e : keepsMeta (@throw A e).
Proof. intros r0. reflexivity. Qed.

Lemma keepsMeta_mergeIfPresent scores id : keepsMeta (Scorer.mergeIfPresent scores id).
Proof.
  unfold Scorer.mergeIfPresent. destruct (Js.get scores id) as [c |];
    [| apply keepsMeta_ret].
  unfold Scorer.mergeCriterion. apply keepsMeta_bind; [apply keepsMeta_the_category |].
  intros cs. cbv zeta. apply keepsMeta_bind; [apply keepsMeta_put |]. intros _.
  destruct (cat_issues _); [apply keepsMeta_put | apply keepsMeta_throw].
Qed.

Lemma keepsMeta_addClaudeScores t raw : keepsMeta (Scorer.addClaudeScores t raw).
Proof.
  unfold Scorer.addClaudeScores. cbv zeta.
  apply keepsMeta_bind.
  { unfold Scorer.setSemanticCategories.
    repeat (apply keepsMeta_bind; [apply keepsMeta_put | intros _]).
    apply keepsMeta_put. }
  intros _. unfold Scorer.mergeCrossCutting.
  apply keepsMeta_bind; [apply keepsMeta_mergeIfPresent | intros _].
  apply keepsMeta_bind; [apply keepsMeta_mergeIfPresent | intros _].
  apply keepsMeta_bind.
  { unfold Scorer.mergeTermConflation.
    destruct (Js.get _ "AV-02"); [| apply keepsMeta_ret].
    apply keepsMeta_bind; [apply keepsMeta_the_category | intros term].
    destruct (Js.get (cat_criteria term) "AV-02");
      [apply keepsMeta_put | apply keepsMeta_ret]. }
  intros _.
  apply keepsMeta_bind; [apply keepsMeta_the_category | intros cs].
  apply keepsMeta_bind; [apply keepsMeta_put | intros _].
  intros r0. reflexivity.
Qed.

Lemma keepsMeta_addSectionScores str cfg content :
  keepsMeta (Scorer.addSectionScores str cfg content).
Proof.
  unfold Scorer.addSectionScores.
  destruct (c_sections content) as [[| sec secs] |]; try apply keepsMeta_ret.
  cbv zeta. apply keepsMeta_bind.
  { intros r0. unfold the_category_or. now destruct (Js.get (categories r0) _). }
  intros cs. apply keepsMeta_bind; [apply keepsMeta_put | intros _].
  intros r0. reflexivity.
Qed.

Lemma scoreAllM_env str env env' content metrics apiKey key text entry r :
  Scorer.usableKey apiKey = Some key ->
  Parser.getTextForAnalysis content = Normal text ->
  Scorer.getClaudeCacheEntry env (Scorer.hashText text) = Normal (Some entry) ->
  Scorer.config env' = Scorer.config env ->
  Scorer.getClaudeCacheEntry env' = Scorer.getClaudeCacheEntry env ->
  Scorer.scoreAllM str env' content metrics apiKey r
  = Scorer.scoreAllM str env content metrics apiKey r.
Proof.
  intros Hkey Htext Hcache Hcfg Hget.
  unfold Scorer.scoreAllM. rewrite Hcfg, Hkey. cbv zeta.
  apply bind_ext_r. intros terminology r1.
  apply bind_ext_r. intros _ r2.
  apply bind_ext_r. intros _ r3.
  apply bind_ext_r. intros _ r4.
  apply bind_ext_l. unfold try_catch.
  rewrite (claudeStep_hit env key content text entry r4 Htext Hcache).
  rewrite (claudeStep_hit env' key content text entry r4 Htext);
    [reflexivity | now rewrite Hget].
Qed.

Lemma cache_hit_meta str env content metrics apiKey key text entry r0 :
  Scorer.usableKey apiKey = Some key ->
  Parser.getTextForAnalysis content = Normal text ->
  Scorer.getClaudeCacheEntry env (Scorer.hashText text) = Normal (Some entry) ->
  forall r, Scorer.scoreAllM str env content metrics apiKey r0 = (Normal tt, r) ->
            mode (meta r) = mode (meta r0)
            /\ claudeCache (meta r)
               = Some (mkCacheInfo "hit" (Scorer.hashText text) (Scorer.savedAt entry)).
Proof.
  intros Hkey Htext Hcache r. unfold Scorer.scoreAllM. rewrite Hkey. cbv zeta.
  unfold bind at 1. unfold lift at 1.
  destruct (TerminologyRules.scoreAll (Scorer.config env) content)
    as [terminology | e]; [| discriminate].
  unfold bind at 1. unfold put_category at 1, modify at 1.
  unfold bind at 1. unfold put_category at 1, modify at 1.
  unfold bind at 1. unfold put_category at 1, modify at 1.
  set (r3 := set_categories _ _).
  assert (Hr3 : meta r3 = meta r0) by reflexivity.
  clearbody r3.
  unfold bind at 1. unfold try_catch.
  rewrite (claudeStep_hit env key content text entry r3 Htext Hcache).
  set (r4 := set_meta r3 _).
  pose proof (keepsMeta_addClaudeScores (Scorer.transformed entry) (Scorer.raw entry) r4)
    as Hm.
  assert (Hr4 : meta r4
                = set_claudeCache (meta r0)
                    (mkCacheInfo "hit" (Scorer.hashText text) (Scorer.savedAt entry)))
    by (unfold r4; cbn [meta set_meta]; now rewrite Hr3).
  clearbody r4.
  destruct (Scorer.addClaudeScores (Scorer.transformed entry) (Scorer.raw entry) r4)
    as [[[] | e] r5]; cbn [snd] in Hm.
  - unfold bind at 1.
    pose proof (keepsMeta_addSectionScores str (Scorer.config env) content r5) as Hs.
    destruct (Scorer.addSectionScores str (Scorer.config env) content r5)
      as [[[] | e] r6]; cbn [snd] in Hs; [| discriminate].
    unfold modify. intros H. injection H as <-.
    unfold Scorer.finish. cbn [meta]. rewrite Hs, Hm, Hr4. split; reflexivity.
  - unfold bind at 1. rewrite addEstimatedScores_run.
    unfold modify at 1. unfold bind at 1.
    match goal with
    | |- context [Scorer.addSectionScores ?s ?c ?ct ?rr] =>
        pose proof (keepsMeta_addSectionScores s c ct rr) as Hs;
        destruct (Scorer.addSectionScores s c ct rr) as [[[] | e'] r6]
    end; cbn [snd] in Hs; [| discriminate].
    unfold modify. intros H. injection H as <-.
    unfold Scorer.finish. cbn [meta]. rewrite Hs. cbn [meta set_meta set_categories].
    rewrite Hm, Hr4. split; reflexivity.
Qed.

(** X5.  A cache hit replaces the remote call.  When a usable key is
    given and the cache holds an entry under the hash of the analysis
    text, the outcome of [scoreAll] does not depend on the remote
    semantic service nor on the cache's save operation (neither is
    called): any two surroundings with the same clock, configuration and
    cache lookups give the same outcome; and every report returned is in
    mode "full" and records the hit, with the key and the entry's time
    stamp, in [meta.claudeCache]. *)
Theorem cache_hit_skips_remote_call :
  forall (str : Js.NumberToString) (env env' : Scorer.Env) (content : Content)
         (metrics : Metrics) (apiKey : option string) (key text : string)
         (entry : Scorer.CacheEntry),
    Scorer.usableKey apiKey = Some key ->
    Parser.getTextForAnalysis content = Normal text ->
    Scorer.getClaudeCacheEntry env (Scorer.hashText text) = Normal (Some entry) ->
    Scorer.now env' = Scorer.now env ->
    Scorer.config env' = Scorer.config env ->
    Scorer.getClaudeCacheEntry env' = Scorer.getClaudeCacheEntry env ->
    Scorer.scoreAll str env' content metrics apiKey
    = Scorer.scoreAll str env content metrics apiKey
    /\ forall r, Scorer.scoreAll str env content metrics apiKey = Normal r ->
                 mode (meta r) = "full"
                 /\ claudeCache (meta r)
                    = Some (mkCacheInfo "hit" (Scorer.hashText text)
                                        (Scorer.savedAt entry)).
Proof.
  intros str env env' content metrics apiKey key text entry
         Hkey Htext Hcache Hnow Hcfg Hget.
  split.
  - unfold Scorer.scoreAll.
    assert (Hinit : Scorer.initialResults env' content apiKey
                    = Scorer.initialResults env content apiKey).
    { unfold Scorer.initialResults. now rewrite Hnow. }
    rewrite Hinit.
    now rewrite (scoreAllM_env str env env' content metrics apiKey key text entry _
                   Hkey Htext Hcache Hcfg Hget).
  - intros r Hrun. unfold Scorer.scoreAll in Hrun.
    destruct (Scorer.scoreAllM str env content metrics apiKey
                (Scorer.initialResults env content apiKey)) as [[[] | e] r'] eqn:E;
      [| discriminate].
    apply Normal_inj in Hrun. subst r'.
    destruct (cache_hit_meta str env content metrics apiKey key text entry _
                Hkey Htext Hcache r E) as [Hmode Hhit].
    split; [| exact Hhit].
    rewrite Hmode. unfold Scorer.initialResults. cbn [meta mode]. now rewrite Hkey.
Qed.

(** The sample page with a cached response: a remote service that
    would fail changes nothing. *)
Lemma cache_hit_skips_remote_call_witness :
  Scorer.scoreAll sampleStr
    (envCached "2026-02-05T10:00:00.000Z" sampleCacheEntry
               (Throw (mkError "Network error.")))
    sampleContent sampleMetrics (Some "sk-ant-key")
  = Scorer.scoreAll sampleStr
      (envCached "2026-02-05T10:00:00.000Z" sampleCacheEntry (Normal overScoredResponse))
      sampleContent sampleMetrics (Some "sk-ant-key").
Proof.
  assert (Htext : Parser.getTextForAnalysis sampleContent = Normal sampleText)
    by (vm_compute; reflexivity).
  exact (proj1 (cache_hit_skips_remote_call
                  sampleStr
                  (envCached "2026-02-05T10:00:00.000Z" sampleCacheEntry
                             (Normal overScoredResponse))
                  (envCached "2026-02-05T10:00:00.000Z" sampleCacheEntry
                             (Throw (mkError "Network error.")))
                  sampleContent sampleMetrics (Some "sk-ant-key") "sk-ant-key"
                  sampleText sampleCacheEntry
                  eq_refl Htext eq_refl eq_refl eq_refl eq_refl)).
Defined.

(** ** Objects: keys *)

Lemma set_keys {V} (o : Js.JsObject V) (k : string) (v : V) :
  map fst (Js.set o k v) = if existsb (String.eqb k) (map fst o)
                           then map fst o else (map fst o ++ [k])%list.
Proof.
  induction o as [| [k' v'] o IH]; [reflexivity |].
  cbn [Js.set map fst existsb]. rewrite (String.eqb_sym k k').
  destruct (String.eqb k' k) eqn:E; cbn [map fst orb].
  - reflexivity.
  - rewrite IH. now destruct (existsb (String.eqb k) (map fst o)).
Qed.

Lemma NoDup_snoc {A} (l : list A) (x : A) :
  NoDup l -> ~ In x l -> NoDup (l ++ [x]).
Proof.
  induction 1 as [| y l Hy Hl IH]; intros Hx; cbn [app].
  - constructor; [intros [] | constructor].
  - constructor.
    + rewrite in_app_iff. intros [H | [<- | []]]; [contradiction |].
      apply Hx. now left.
    + apply IH. intros H. apply Hx. now right.
Qed.

Lemma set_distinctKeys {V} (o : Js.JsObject V) (k : string) (v : V) :
  distinctKeys o -> distinctKeys (Js.set o k v).
Proof.
  unfold distinctKeys. intros H. rewrite set_keys.
  destruct (existsb (String.eqb k) (map fst o)) eqn:E; [exact H |].
  apply NoDup_snoc; [exact H |]. intros Hx.
  assert (existsb (String.eqb k) (map fst o) = true).
  { apply existsb_exists. exists k. split; [exact Hx | apply String.eqb_refl]. }
  congruence.
Qed.

Lemma in_set {V} (o : Js.JsObject V) (k : string) (v : V) (e : string * V) :
  In e (Js.set o k v) -> fst e = k /\ snd e = v \/ In e o.
Proof.
  induction o as [| [k' v'] o IH]; cbn [Js.set].
  - intros [<- | []]. now left.
  - destruct (String.eqb_spec k' k) as [-> | Hne].
    + intros [<- | H]; [now left | right; now right].
    + intros [<- | H]; [right; now left |].
      destruct (IH H) as [Hl | Hr]; [now left | right; now right].
Qed.

Lemma get_in {V} (o : Js.JsObject V) (k : string) (v : V) :
  Js.get o k = Some v -> In (k, v) o.
Proof.
  induction o as [| [k' v'] o IH]; [discriminate |].
  cbn [Js.get]. destruct (String.eqb_spec k' k) as [-> | Hne].
  - intros E. injection E as <-. now left.
  - intros E. right. now apply IH.
Qed.

Lemma filter_partition_perm {A} (p : A -> bool) (l : list A) :
  Permutation (filter p l ++ filter (fun x => negb (p x)) l) l.
Proof.
  induction l as [| x l IH]; [constructor |].
  cbn [filter]. destruct (p x); cbn [negb app].
  - now constructor.
  - eapply perm_trans; [apply Permutation_sym, Permutation_middle |]. now constructor.
Qed.

Lemma entries_perm {V} (o : Js.JsObject V) : Permutation (Js.entries o) o.
Proof.
  unfold Js.entries.
  eapply perm_trans; [| apply (filter_partition_perm Js.is_index)].
  apply Permutation_app_tail. apply Permutation_sym, sort_by_perm.
Qed.

Lemma entries_distinctKeys {V} (o : Js.JsObject V) :
  distinctKeys o -> distinctKeys (Js.entries o).
Proof.
  unfold distinctKeys. intros H.
  eapply Permutation_NoDup; [| exact H].
  apply Permutation_map, Permutation_sym, entries_perm.
Qed.

(** ** Terminology: AV-01 *)

Lemma actionTerms_distinct (content : Content) (primary : string)
      (g : TerminologyRules.TermGroup) :
  In (primary, g) (TerminologyRules.extractActionTerms content) ->
  distinctKeys (TerminologyRules.variants g).
Proof.
  unfold TerminologyRules.extractActionTerms.
  set (text := Str.toLowerCase (fullText content)).
  set (P := fun terms : Js.JsObject TerminologyRules.TermGroup =>
              forall p g, In (p, g) terms -> distinctKeys (TerminologyRules.variants g)).
  assert (Hinner : forall primary l terms,
             P terms ->
             P (fold_left
                  (fun terms term =>
                     let n := TerminologyRules.occurrencesSpaced text term in
                     if (0 <? n)%Z then
                       let g := match Js.get terms primary with
                                | Some g => g
                                | None => TerminologyRules.mkTermGroup [] 0
                                end in
                       Js.set terms primary
                              (TerminologyRules.mkTermGroup
                                 (Js.set (TerminologyRules.variants g) term n)
                                 (TerminologyRules.total g + n))
                     else terms) l terms)).
  { intros pr l. induction l as [| term l IH]; intros terms Ht; [exact Ht |].
    cbn [fold_left]. apply IH. cbv zeta.
    destruct (0 <? TerminologyRules.occurrencesSpaced text term)%Z; [| exact Ht].
    intros p g' Hin. apply in_set in Hin. destruct Hin as [[_ Hg] | Hin];
      [| exact (Ht p g' Hin)].
    cbn [snd] in Hg. subst g'. cbn [TerminologyRules.variants].
    apply set_distinctKeys.
    destruct (Js.get terms pr) as [g0 |] eqn:E.
    - apply (Ht pr g0). now apply get_in.
    - constructor. }
  assert (Houter : forall groups terms,
             P terms ->
             P (fold_left
                  (fun terms (group : string * list string) =>
                     let primary := fst group in
                     fold_left
                       (fun terms term =>
                          let n := TerminologyRules.occurrencesSpaced text term in
                          if (0 <? n)%Z then
                            let g := match Js.get terms primary with
                                     | Some g => g
                                     | None => TerminologyRules.mkTermGroup [] 0
                                     end in
                            Js.set terms primary
                                   (TerminologyRules.mkTermGroup
                                      (Js.set (TerminologyRules.variants g) term n)
                                      (TerminologyRules.total g + n))
                          else terms)
                       (primary :: snd group) terms) groups terms)).
  { induction groups as [| group groups IH]; intros terms Ht; [exact Ht |].
    cbn [fold_left]. apply IH. cbv zeta.
    exact (Hinner (fst group) (fst group :: snd group) terms Ht). }
  intros Hin. apply (Houter TerminologyRules.CONFUSABLE_TERMS [] (fun p g H => match H with end)
                            primary g Hin).
Qed.

Lemma multiVariant_hasOthers (data : TerminologyRules.TermGroup) :
  distinctKeys (TerminologyRules.variants data) ->
  TerminologyRules.multiVariant data = true ->
  TerminologyRules.hasOthers data = true.
Proof.
  intros Hd Hm. unfold TerminologyRules.hasOthers, TerminologyRules.multiVariant in *.
  set (cmp := fun a b : string * Z => (snd b <=? snd a)%Z).
  pose proof (sort_by_perm cmp (Js.entries (TerminologyRules.variants data))) as Hp.
  assert (Hk : NoDup (map fst (Js.sort_by cmp (Js.entries (TerminologyRules.variants data))))).
  { eapply Permutation_NoDup; [apply Permutation_map, Hp |].
    now apply entries_distinctKeys. }
  assert (Hl : (1 < List.length (Js.sort_by cmp (Js.entries (TerminologyRules.variants data))))%nat).
  { rewrite <- (Permutation_length Hp). unfold Js.keys in Hm. rewrite length_map in Hm.
    now apply Nat.ltb_lt. }
  destruct (Js.sort_by cmp (Js.entries (TerminologyRules.variants data)))
    as [| a [| b rest]]; cbn [List.length] in Hl; try lia.
  cbn [filter]. rewrite String.eqb_refl. cbn [negb].
  destruct (String.eqb_spec (fst b) (fst a)) as [E | _]; [| reflexivity].
  exfalso. cbn [map] in Hk. inversion Hk as [| ? ? Hnot _]. apply Hnot. left. now symmetry.
Qed.

Lemma groupIssue_warning primary data i :
  In i (TerminologyRules.groupIssue primary data) -> severity i = "warning".
Proof.
  unfold TerminologyRules.groupIssue.
  destruct (Js.sort_by _ _) as [| mostUsed rest]; [intros [] |].
  cbv zeta. destruct (filter _ (mostUsed :: rest)); [intros [] |].
  destruct (_ || _); [| intros []]. intros [<- | []]. reflexivity.
Qed.

Lemma clusterIssue_info root data i :
  In i (TerminologyRules.clusterIssue root data) -> severity i = "info".
Proof.
  unfold TerminologyRules.clusterIssue. cbv zeta.
  destruct (_ || _); [intros [] |].
  destruct (forallb _ _); [intros [] |]. intros [<- | []]. reflexivity.
Qed.

Lemma filter_none {A} (p : A -> bool) (l : list A) :
  (forall x, In x l -> p x = false) -> filter p l = [].
Proof.
  induction l as [| x l IH]; intros H; [reflexivity |].
  cbn [filter]. rewrite (H x) by now left. apply IH. intros y Hy. apply H. now right.
Qed.

Lemma filter_all {A} (p : A -> bool) (l : list A) :
  (forall x, In x l -> p x = true) -> filter p l = l.
Proof.
  induction l as [| x l IH]; intros H; [reflexivity |].
  cbn [filter]. rewrite (H x) by now left. f_equal. apply IH. intros y Hy. apply H. now right.
Qed.

(** X6.  AV-01 is all or nothing.  Every concept group for which the
    text uses more than one term counts as inconsistent (the terms other
    than the most used one are never none), so the consistency rate is 0
    as soon as one such group exists; and AV-01 never raises a critical
    issue, so its severity deduction never applies.  The score is
    therefore 0 when some concept is named by more than one term, and
    10 minus the number of cluster notes (at most 3) otherwise; the
    issues are warnings (one per flagged group) and notes (one per
    cluster). *)
Theorem term_consistency_all_or_nothing :
  forall (content : Content) (cr : CriterionResult),
    TerminologyRules.scoreTermConsistency content = Normal cr ->
    Forall (fun i => severity i = "warning" \/ severity i = "info") (issues cr)
    /\ countSeverity "critical" (issues cr) = 0
    /\ score cr
       = Some (inject_Z
                 (match mixedGroups content with
                  | [] => 10 - Z.min 3 (countSeverity "info" (issues cr))
                  | _ => 0
                  end)).
Proof.
  intros content cr. unfold TerminologyRules.scoreTermConsistency.
  destruct (TerminologyRules.extractTerminologyClusters content) as [clusters | e];
    [| discriminate].
  cbv zeta. fold (mixedGroups content).
  set (termIssues := flat_map
                       (fun e : string * TerminologyRules.TermGroup =>
                          TerminologyRules.groupIssue (fst e) (snd e))
                       (mixedGroups content)).
  set (clusterIssues := flat_map
                          (fun e : string * TerminologyRules.TermGroup =>
                             TerminologyRules.clusterIssue (fst e) (snd e))
                          (Js.entries clusters)).
  assert (Hw : forall i, In i termIssues -> severity i = "warning").
  { intros i Hi. apply in_flat_map in Hi. destruct Hi as (e & _ & Hi).
    now apply groupIssue_warning in Hi. }
  assert (Hn : forall i, In i clusterIssues -> severity i = "info").
  { intros i Hi. apply in_flat_map in Hi. destruct Hi as (e & _ & Hi).
    now apply clusterIssue_info in Hi. }
  assert (Hcrit : filter (fun i => String.eqb (severity i) "critical")
                         (termIssues ++ clusterIssues) = []).
  { apply filter_none. intros i Hi. apply in_app_iff in Hi.
    destruct Hi as [Hi | Hi]; [rewrite (Hw i Hi) | rewrite (Hn i Hi)]; reflexivity. }
  assert (Hinfo : filter (fun i => String.eqb (severity i) "info")
                         (termIssues ++ clusterIssues) = clusterIssues).
  { rewrite filter_app.
    rewrite (filter_none _ termIssues)
      by (intros i Hi; rewrite (Hw i Hi); reflexivity).
    apply filter_all. intros i Hi. rewrite (Hn i Hi). reflexivity. }
  assert (Hall : filter (fun e : string * TerminologyRules.TermGroup =>
                           TerminologyRules.hasOthers (snd e)) (mixedGroups content)
                 = mixedGroups content).
  { apply filter_all. intros [p g] Hin. cbn [snd].
    unfold mixedGroups in Hin. apply filter_In in Hin. destruct Hin as [Hin Hm].
    apply multiVariant_hasOthers; [| exact Hm].
    apply (actionTerms_distinct content p).
    apply (Permutation_in _ (entries_perm _)). exact Hin. }
  intros H. apply Normal_inj in H. subst cr. cbn [issues score].
  split.
  { apply Forall_forall. intros i Hi. apply in_app_iff in Hi.
    destruct Hi as [Hi | Hi]; [left; now apply Hw | right; now apply Hn]. }
  unfold countSeverity. rewrite Hcrit, Hinfo, Hall.
  split; [reflexivity |].
  do 2 f_equal.
  pose proof (Nat2Z.is_nonneg (List.length clusterIssues)) as Hc.
  destruct (mixedGroups content) as [| g gs] eqn:Eg.
  - cbn [List.length]. change (0 <? Z.of_nat 0)%Z with false. cbv iota.
    change (Z.of_nat (@List.length Issue [])) with 0. lia.
  - assert (Hpos : (0 <? Z.of_nat (List.length (g :: gs)))%Z = true)
      by (apply Z.ltb_lt; cbn [List.length]; lia).
    rewrite Hpos.
    assert (Hr : Js.Math_round
                   ((1 - inject_Z (Z.of_nat (List.length (g :: gs)))
                         / inject_Z (Z.of_nat (List.length (g :: gs)))) * 10) = 0).
    { rewrite (Math_round_comp _ 0); [reflexivity |].
      field. change 0%Q with (inject_Z 0). rewrite inject_Z_injective.
      cbn [List.length]. lia. }
    rewrite Hr. change (Z.of_nat (@List.length Issue [])) with 0. lia.
Qed.

(** The text with "deactivate" and "disable": one mixed group, score 0. *)
Lemma term_consistency_all_or_nothing_witness :
  score sampleAV01 = Some (inject_Z 0)
  /\ countSeverity "critical" (issues sampleAV01) = 0.
Proof.
  assert (H : TerminologyRules.scoreTermConsistency (contentOfText deactivateDisableText)
              = Normal sampleAV01) by (vm_compute; reflexivity).
  destruct (term_consistency_all_or_nothing _ _ H) as (_ & Hc & Hs).
  split; [| exact Hc]. rewrite Hs. vm_compute. reflexivity.
Defined.

(** ** Terminology: the cluster scan *)

Lemma toLowerCase_length (s : string) : String.length (Str.toLowerCase s) = String.length s.
Proof. induction s as [| c s IH]; cbn; [reflexivity | now rewrite IH]. Qed.

Lemma keepTokenChars_length (s : string) :
  (String.length (TerminologyRules.keepTokenChars s) <= String.length s)%nat.
Proof.
  induction s as [| c s IH]; cbn [TerminologyRules.keepTokenChars String.length]; [lia |].
  destruct (TerminologyRules.token_char c); cbn [String.length]; lia.
Qed.

Lemma collapseHyphens_length (b : bool) (s : string) :
  (String.length (TerminologyRules.collapseHyphens b s) <= String.length s)%nat.
Proof.
  revert b. induction s as [| c s IH]; intros b;
    cbn [TerminologyRules.collapseHyphens String.length]; [lia |].
  destruct (Str.code c =? 45)%nat; [destruct b |]; cbn [String.length];
    try (specialize (IH true); lia); specialize (IH false); lia.
Qed.

Lemma substring_length_le (n m : nat) (s : string) :
  (String.length (substring n m s) <= String.length s)%nat.
Proof.
  revert n m. induction s as [| c s IH]; intros n m.
  - destruct n, m; cbn; lia.
  - destruct n as [| n]; [destruct m as [| m] |]; cbn [substring String.length].
    + lia.
    + specialize (IH 0%nat m). lia.
    + specialize (IH n m). lia.
Qed.

Lemma stripSuffix_length (s : string) :
  (String.length (TerminologyRules.stripSuffix s) <= String.length s)%nat.
Proof.
  unfold TerminologyRules.stripSuffix, TerminologyRules.dropLast. cbv zeta.
  repeat match goal with
         | |- context [if ?c then _ else _] => destruct c
         end; try apply substring_length_le; lia.
Qed.

Lemma normalizeTerm_length (t : string) :
  (String.length (TerminologyRules.normalizeTerm t) <= String.length t)%nat.
Proof.
  unfold TerminologyRules.normalizeTerm.
  eapply Nat.le_trans; [apply stripSuffix_length |].
  eapply Nat.le_trans; [apply collapseHyphens_length |].
  eapply Nat.le_trans; [apply keepTokenChars_length |].
  now rewrite toLowerCase_length.
Qed.

Lemma stop_words_short (t : string) :
  existsb (String.eqb t) TerminologyRules.STOP_WORDS = true ->
  (String.length t <= 6)%nat.
Proof.
  intros H. apply existsb_exists in H. destruct H as (w & Hw & E).
  apply String.eqb_eq in E. subst w.
  assert (Hall : forallb (fun w => (String.length w <=? 6)%nat)
                         TerminologyRules.STOP_WORDS = true) by reflexivity.
  rewrite forallb_forall in Hall. apply Nat.leb_le. now apply Hall.
Qed.

Lemma clusterStep_constructor clusters t :
  TerminologyRules.normalizeTerm t = "constructor" ->
  TerminologyRules.clusterStep clusters t = Throw (TypeError_undefined t).
Proof.
  intros Hroot. unfold TerminologyRules.clusterStep.
  pose proof (normalizeTerm_length t) as Hlen. rewrite Hroot in Hlen.
  cbn [String.length] in Hlen.
  assert (H4 : (String.length t <? 4)%nat = false) by (apply Nat.ltb_ge; lia).
  assert (Hs : existsb (String.eqb t) TerminologyRules.STOP_WORDS = false).
  { destruct (existsb _ _) eqn:E; [| reflexivity].
    apply stop_words_short in E. lia. }
  rewrite H4, Hs. cbn [orb]. cbv zeta. rewrite Hroot. reflexivity.
Qed.

Lemma foldTokens_constructor tokens clusters t :
  In t tokens -> TerminologyRules.normalizeTerm t = "constructor" ->
  exists t', In t' tokens
             /\ TerminologyRules.normalizeTerm t' = "constructor"
             /\ TerminologyRules.foldTokens clusters tokens
                = Throw (TypeError_undefined t').
Proof.
  revert clusters. induction tokens as [| t0 tokens IH]; intros clusters Hin Hroot;
    [contradiction |].
  cbn [TerminologyRules.foldTokens].
  destruct (TerminologyRules.clusterStep clusters t0) as [c | e] eqn:E.
  - destruct Hin as [-> | Hin].
    + rewrite (clusterStep_constructor clusters t Hroot) in E. discriminate.
    + destruct (IH c Hin Hroot) as (t' & Hin' & Hr' & Hf).
      exists t'. split; [now right |]. now split.
  - exists t0. split; [now left |].
    assert (Hr0 : TerminologyRules.normalizeTerm t0 = "constructor").
    { unfold TerminologyRules.clusterStep in E.
      destruct (_ || _); [discriminate |]. cbv zeta in E.
      destruct (_ <? 3)%nat; [discriminate |].
      destruct (String.eqb_spec (TerminologyRules.normalizeTerm t0) "constructor")
        as [Heq | _]; [exact Heq | discriminate]. }
    split; [exact Hr0 |].
    now rewrite <- (clusterStep_constructor clusters t0 Hr0).
Qed.

(** X7.  A page that mentions a constructor cannot be scored.  If one
    of the words of the page reduces to the root "constructor" (as
    "constructor" and "constructors" do), the cluster scan of AV-01 meets
    the [constructor] member that every object inherits, takes it for a
    cluster and throws a TypeError on reading its variants.  The
    terminology rules throw, so [scoreAll] rejects with that error, with
    or without an API key; the error names the first such word. *)
Theorem constructor_word_aborts_scoring :
  forall (content : Content) (t : string),
    In t (clusterTokens content) ->
    TerminologyRules.normalizeTerm t = "constructor" ->
    exists t',
      In t' (clusterTokens content)
      /\ TerminologyRules.normalizeTerm t' = "constructor"
      /\ (forall cfg, TerminologyRules.scoreAll cfg content
                      = Throw (TypeError_undefined t'))
      /\ forall str env metrics apiKey,
           Scorer.scoreAll str env content metrics apiKey
           = Throw (TypeError_undefined t').
Proof.
  intros content t Hin Hroot.
  destruct (foldTokens_constructor _ [] t Hin Hroot) as (t' & Hin' & Hr' & Hf).
  exists t'. split; [exact Hin' |]. split; [exact Hr' |].
  assert (Hrules : forall cfg, TerminologyRules.scoreAll cfg content
                               = Throw (TypeError_undefined t')).
  { intros cfg. unfold TerminologyRules.scoreAll, TerminologyRules.scoreTermConsistency,
      TerminologyRules.extractTerminologyClusters.
    unfold clusterTokens in Hf. now rewrite Hf. }
  split; [exact Hrules |].
  intros str env metrics apiKey.
  unfold Scorer.scoreAll, Scorer.scoreAllM. cbv zeta.
  unfold bind at 1. unfold lift at 1. now rewrite Hrules.
Qed.

(** A page about "the constructors of a class". *)
Lemma constructor_word_aborts_scoring_witness :
  exists t',
    TerminologyRules.normalizeTerm t' = "constructor"
    /\ Scorer.scoreAll sampleStr
         (envAnswering "2026-02-05T10:00:00.000Z" (Normal overScoredResponse))
         (contentOfText "Open the class and list the constructors it declares.")
         sampleMetrics None
       = Throw (TypeError_undefined t').
Proof.
  destruct (constructor_word_aborts_scoring
              (contentOfText "Open the class and list the constructors it declares.")
              "constructors") as (t' & _ & Hr & _ & Hrun).
  - vm_compute. tauto.
  - vm_compute. reflexivity.
  - exists t'. split; [exact Hr | apply Hrun].
Defined.

Lemma Zsum_acc (l : list Z) (acc : Z) : fold_left Z.add l acc = acc + Parser.Zsum l.
Proof.
  unfold Parser.Zsum. revert acc. induction l as [| x l IH]; intros acc; cbn [fold_left].
  - lia.
  - rewrite IH, (IH (0 + x)). lia.
Qed.

Lemma Zsum_cons (x : Z) (l : list Z) : Parser.Zsum (x :: l) = x + Parser.Zsum l.
Proof. unfold Parser.Zsum at 1. cbn [fold_left]. rewrite Zsum_acc. lia. Qed.

Lemma Zsum_set {V} (f : V -> Z) (o : Js.JsObject V) (k : string) (v : V) :
  Parser.Zsum (map (fun e => f (snd e)) (Js.set o k v))
  = Parser.Zsum (map (fun e => f (snd e)) o)
    - match Js.get o k with Some x => f x | None => 0 end
    + f v.
Proof.
  induction o as [| [k' v'] o IH]; cbn [Js.set Js.get map].
  - rewrite Zsum_cons. cbn [snd]. unfold Parser.Zsum. cbn. lia.
  - destruct (String.eqb k' k); cbn [map]; rewrite !Zsum_cons; cbn [snd]; [lia |].
    rewrite IH. lia.
Qed.

Lemma clusterStep_cases clusters t c :
  TerminologyRules.clusterStep clusters t = Normal c ->
  (counted t = false /\ c = clusters)
  \/ (counted t = true
      /\ TerminologyRules.normalizeTerm t <> "constructor"
      /\ c = let root := TerminologyRules.normalizeTerm t in
             let g := match Js.get clusters root with
                      | Some g => g
                      | None => TerminologyRules.mkTermGroup [] 0
                      end in
             let n := match Js.get (TerminologyRules.variants g) t with
                      | Some k => k
                      | None => 0
                      end in
             Js.set clusters root
                    (TerminologyRules.mkTermGroup
                       (Js.set (TerminologyRules.variants g) t (n + 1))
                       (TerminologyRules.total g + 1))).
Proof.
  unfold TerminologyRules.clusterStep, counted.
  destruct (_ || _); cbn [negb andb].
  - intros H. apply Normal_inj in H. now left.
  - cbv zeta. destruct (_ <? 3)%nat; cbn [negb].
    + intros H. apply Normal_inj in H. now left.
    + destruct (String.eqb_spec (TerminologyRules.normalizeTerm t) "constructor")
        as [E | Hne]; [discriminate |].
      intros H. apply Normal_inj in H. right. repeat split; [exact Hne | now symmetry].
Qed.

Lemma foldTokens_sound tokens :
  forall clusters result,
    TerminologyRules.foldTokens clusters tokens = Normal result ->
    (forall root g, In (root, g) clusters -> clusterSound root g) ->
    (forall root g, In (root, g) result -> clusterSound root g)
    /\ Parser.Zsum (map (fun e => TerminologyRules.total (snd e)) result)
       = Parser.Zsum (map (fun e => TerminologyRules.total (snd e)) clusters)
         + Z.of_nat (List.length (filter counted tokens)).
Proof.
  induction tokens as [| t tokens IH]; intros clusters result Hrun Hinv.
  - cbn in Hrun. apply Normal_inj in Hrun. subst result. split; [exact Hinv |].
    cbn [filter List.length]. lia.
  - cbn [TerminologyRules.foldTokens] in Hrun.
    destruct (TerminologyRules.clusterStep clusters t) as [c | e] eqn:E; [| discriminate].
    apply clusterStep_cases in E. destruct E as [[Hc ->] | (Hc & Hne & ->)].
    + destruct (IH _ _ Hrun Hinv) as [H1 H2]. split; [exact H1 |].
      cbn [filter]. now rewrite Hc.
    + cbv zeta in Hrun.
      set (root := TerminologyRules.normalizeTerm t) in *.
      set (g := match Js.get clusters root with
                | Some g => g
                | None => TerminologyRules.mkTermGroup [] 0
                end) in *.
      set (n := match Js.get (TerminologyRules.variants g) t with
                | Some k => k
                | None => 0
                end) in *.
      assert (Hg : clusterSound root g).
      { unfold g. destruct (Js.get clusters root) as [g0 |] eqn:Eg.
        - apply Hinv. now apply get_in.
        - split; [reflexivity | constructor]. }
      assert (Hn : 0 <= n).
      { unfold n. destruct (Js.get (TerminologyRules.variants g) t) as [k |] eqn:Ek; [| lia].
        destruct Hg as [_ Hall]. rewrite Forall_forall in Hall.
        apply get_in in Ek. specialize (Hall _ Ek). cbn [snd] in Hall. lia. }
      assert (Hnew : clusterSound root
                       (TerminologyRules.mkTermGroup
                          (Js.set (TerminologyRules.variants g) t (n + 1))
                          (TerminologyRules.total g + 1))).
      { destruct Hg as [Htot Hall]. split.
        - cbn [TerminologyRules.total TerminologyRules.variants].
          rewrite (Zsum_set (fun z : Z => z)). fold n. rewrite Htot.
          replace (map (fun e : string * Z => snd e) (TerminologyRules.variants g))
            with (map snd (TerminologyRules.variants g)) by reflexivity.
          lia.
        - cbn [TerminologyRules.variants]. apply Forall_forall. intros tc Hin.
          apply in_set in Hin. destruct Hin as [[Hk Hv] | Hin].
          + rewrite Hk, Hv. repeat split; [exact Hc | lia].
          + rewrite Forall_forall in Hall. now apply Hall. }
      assert (Hinv' : forall r g',
                 In (r, g')
                    (Js.set clusters root
                       (TerminologyRules.mkTermGroup
                          (Js.set (TerminologyRules.variants g) t (n + 1))
                          (TerminologyRules.total g + 1))) ->
                 clusterSound r g').
      { intros r g' Hin. apply in_set in Hin. cbn [fst snd] in Hin.
        destruct Hin as [[-> ->] | Hin]; [exact Hnew | now apply Hinv]. }
      destruct (IH _ _ Hrun Hinv') as [H1 H2]. split; [exact H1 |].
      rewrite H2, (Zsum_set TerminologyRules.total). cbn [TerminologyRules.total].
      cbn [filter]. rewrite Hc. cbn [List.length]. rewrite Nat2Z.inj_succ.
      unfold g. destruct (Js.get clusters root); cbn [TerminologyRules.total]; lia.
Qed.

(** X8.  The cluster scan accounts for every counted word.  When
    [extractTerminologyClusters] returns, each cluster's total is the
    sum of the counts of its variants, each variant is a word of the
    page that is counted (at least four characters, not a stop word, a
    root of at least three characters), reduces to the cluster's root
    and was seen at least once, and the totals of all clusters add up to
    the number of counted words of the page. *)
Theorem clusters_account_for_words :
  forall (content : Content) (clusters : Js.JsObject TerminologyRules.TermGroup),
    TerminologyRules.extractTerminologyClusters content = Normal clusters ->
    (forall root g, In (root, g) clusters -> clusterSound root g)
    /\ Parser.Zsum (map (fun e => TerminologyRules.total (snd e)) clusters)
       = Z.of_nat (List.length (filter counted (clusterTokens content))).
Proof.
  intros content clusters H. unfold TerminologyRules.extractTerminologyClusters in H.
  destruct (foldTokens_sound _ _ _ H (fun r g (Hin : In (r, g) []) => match Hin with end))
    as [H1 H2].
  split; [exact H1 |]. rewrite H2. reflexivity.
Qed.

(** The text with "deactivate" and "disable": its clusters add up to
    its counted words. *)
Lemma clusters_account_for_words_witness :
  exists clusters,
    TerminologyRules.extractTerminologyClusters (contentOfText deactivateDisableText)
    = Normal clusters
    /\ Parser.Zsum (map (fun e => TerminologyRules.total (snd e)) clusters)
       = Z.of_nat (List.length
                     (filter counted (clusterTokens (contentOfText deactivateDisableText)))).
Proof.
  destruct (TerminologyRules.extractTerminologyClusters
              (contentOfText deactivateDisableText)) as [clusters | e] eqn:E.
  - exists clusters. split; [reflexivity |].
    exact (proj2 (clusters_account_for_words _ clusters E)).
  - vm_compute in E. discriminate E.
Defined.

(** ** Merging the semantic criteria into the rule categories *)

Lemma mergeIfPresent_run scores id r cs l :
  Js.get (categories r) "content-structure" = Some cs ->
  cat_issues cs = Some l ->
  exists r',
    Scorer.mergeIfPresent scores id r = (Normal tt, r')
    /\ Js.get (categories r') "content-structure"
       = Some (withSemanticCriterion scores id cs)
    /\ forall k, k <> "content-structure" ->
                 Js.get (categories r') k = Js.get (categories r) k.
Proof.
  intros Hcs Hl. unfold Scorer.mergeIfPresent, withSemanticCriterion.
  destruct (Js.get scores id) as [c |].
  - unfold Scorer.mergeCriterion, bind, the_category, the_category_or.
    rewrite Hcs. cbv zeta. cbn [put_category modify categories set_categories
                                cat_issues set_cat_criteria].
    rewrite Hl. cbn [option_map]. eexists. split; [reflexivity |].
    cbn [categories set_categories]. split.
    + apply get_set_same.
    + intros k Hk. rewrite !get_set_other by congruence. reflexivity.
  - exists r. repeat split; assumption.
Qed.

Lemma withSemanticCriterion_issues scores id cs l :
  cat_issues cs = Some l ->
  exists l', cat_issues (withSemanticCriterion scores id cs) = Some l'.
Proof.
  intros Hl. unfold withSemanticCriterion. destruct (Js.get scores id) as [c |].
  - cbn [cat_issues set_cat_issues]. rewrite Hl. cbn [option_map]. now eexists.
  - now exists l.
Qed.

Lemma mergeTermConflation_run scores r term :
  Js.get (categories r) "terminology" = Some term ->
  exists r',
    Scorer.mergeTermConflation scores r = (Normal tt, r')
    /\ Js.get (categories r') "terminology" = Some (withTermConflation scores term)
    /\ forall k, k <> "terminology" -> Js.get (categories r') k = Js.get (categories r) k.
Proof.
  intros Ht. unfold Scorer.mergeTermConflation, withTermConflation.
  destruct (Js.get scores "AV-02") as [s |]; [| exists r; repeat split; assumption].
  unfold bind, the_category, the_category_or. rewrite Ht.
  destruct (Js.get (cat_criteria term) "AV-02") as [existing |];
    [| exists r; repeat split; assumption].
  cbn [put_category modify]. eexists. split; [reflexivity |].
  cbn [categories set_categories]. split.
  - apply get_set_same.
  - intros k Hk. now rewrite get_set_other by congruence.
Qed.

Lemma withSemanticCriterion_criteria scores id cs id' :
  Js.get (cat_criteria (withSemanticCriterion scores id cs)) id'
  = if String.eqb id id'
    then match Js.get scores id with
         | Some c => Some c
         | None => Js.get (cat_criteria cs) id'
         end
    else Js.get (cat_criteria cs) id'.
Proof.
  unfold withSemanticCriterion. destruct (Js.get scores id) as [c |].
  - cbn [cat_criteria set_cat_issues set_cat_criteria].
    destruct (String.eqb_spec id id') as [<- | Hne].
    + apply get_set_same.
    + now apply get_set_other.
  - now destruct (String.eqb id id').
Qed.

(** X9.  What the semantic merge does to the two rule categories.  On
    a report that holds the content-structure category (with its issue
    list) and the terminology category, [addClaudeScores] completes, and
    afterwards: the content-structure score is the plain mean
    [averageScores] of its criteria, whatever weighted score the rules
    had given it; its criteria are the old ones with CS-03 and CS-05
    taken from the semantic scores where present; the terminology
    category keeps its score and its issue list, although its AV-02
    criterion, when both sides have one, now carries the issues of both
    and, for two numeric scores, the rounded mean of the two. *)
Theorem semantic_merge_rescoring :
  forall (t : ClaudeClient.Transformed) (raw : ClaudeClient.Response) (r0 : Report)
         (cs term : Category) (l : list Issue),
    Js.get (categories r0) "content-structure" = Some cs ->
    cat_issues cs = Some l ->
    Js.get (categories r0) "terminology" = Some term ->
    let scores := ClaudeClient.t_scores t in
    exists r cs' term',
      Scorer.addClaudeScores t raw r0 = (Normal tt, r)
      /\ Js.get (categories r) "content-structure" = Some cs'
      /\ cat_score cs' = Some (Scorer.averageScores (cat_criteria cs'))
      /\ (forall id, id <> "CS-03" -> id <> "CS-05" ->
                     Js.get (cat_criteria cs') id = Js.get (cat_criteria cs) id)
      /\ (forall id, id = "CS-03" \/ id = "CS-05" ->
                     Js.get (cat_criteria cs') id
                     = match Js.get scores id with
                       | Some c => Some c
                       | None => Js.get (cat_criteria cs) id
                       end)
      /\ Js.get (categories r) "terminology" = Some term'
      /\ cat_score term' = cat_score term
      /\ cat_issues term' = cat_issues term
      /\ (forall s existing,
             Js.get scores "AV-02" = Some s ->
             Js.get (cat_criteria term) "AV-02" = Some existing ->
             exists merged,
               Js.get (cat_criteria term') "AV-02" = Some merged
               /\ issues merged = (issues existing ++ issues s)%list
               /\ forall x y : Q,
                    score existing = Some x -> score s = Some y ->
                    score merged = Some (inject_Z (Js.Math_round ((x + y) / 2)))).
Proof.
  intros t raw r0 cs term l Hcs Hl Hterm scores.
  unfold Scorer.addClaudeScores. fold scores. cbv zeta.
  unfold bind at 1.
  assert (E1 : Scorer.setSemanticCategories scores r0
               = (Normal tt, snd (Scorer.setSemanticCategories scores r0)))
    by reflexivity.
  rewrite E1.
  set (r1 := snd (Scorer.setSemanticCategories scores r0)).
  assert (Hcs1 : Js.get (categories r1) "content-structure" = Some cs).
  { unfold r1. cbn [Scorer.setSemanticCategories bind put_category modify snd categories
                    set_categories].
    rewrite !get_set_other by discriminate. exact Hcs. }
  assert (Ht1 : Js.get (categories r1) "terminology" = Some term).
  { unfold r1. cbn [Scorer.setSemanticCategories bind put_category modify snd categories
                    set_categories].
    rewrite !get_set_other by discriminate. exact Hterm. }
  clearbody r1. clear E1.
  unfold Scorer.mergeCrossCutting.
  destruct (mergeIfPresent_run scores "CS-03" r1 cs l Hcs1 Hl) as (r2 & E2 & Hcs2 & Ho2).
  unfold bind at 1. rewrite E2.
  destruct (withSemanticCriterion_issues scores "CS-03" cs l Hl) as [l2 Hl2].
  destruct (mergeIfPresent_run scores "CS-05" r2 _ l2 Hcs2 Hl2) as (r3 & E3 & Hcs3 & Ho3).
  unfold bind at 1. rewrite E3.
  assert (Ht3 : Js.get (categories r3) "terminology" = Some term).
  { rewrite Ho3, Ho2 by discriminate. exact Ht1. }
  destruct (mergeTermConflation_run scores r3 term Ht3) as (r4 & E4 & Ht4 & Ho4).
  unfold bind at 1. rewrite E4.
  assert (Hcs4 : Js.get (categories r4) "content-structure"
                 = Some (withSemanticCriterion scores "CS-05"
                           (withSemanticCriterion scores "CS-03" cs))).
  { rewrite Ho4 by discriminate. exact Hcs3. }
  unfold bind at 1. unfold the_category, the_category_or. rewrite Hcs4.
  unfold bind at 1. cbn [put_category modify].
  set (csF := withSemanticCriterion scores "CS-05" (withSemanticCriterion scores "CS-03" cs))
    in *.
  eexists. exists (set_cat_score csF (Some (Scorer.averageScores (cat_criteria csF)))).
  exists (withTermConflation scores term).
  split; [reflexivity |]. cbn [categories set_categories].
  split; [apply get_set_same |].
  split; [reflexivity |].
  cbn [cat_criteria set_cat_score]. unfold csF.
  split.
  { intros id H3 H5. rewrite !withSemanticCriterion_criteria.
    destruct (String.eqb_spec "CS-05" id) as [E | _]; [congruence |].
    destruct (String.eqb_spec "CS-03" id) as [E | _]; [congruence | reflexivity]. }
  split.
  { intros id [-> | ->]; rewrite !withSemanticCriterion_criteria.
    - cbn [String.eqb Ascii.eqb Bool.eqb]. reflexivity.
    - cbn [String.eqb Ascii.eqb Bool.eqb].
      destruct (Js.get scores "CS-05"); reflexivity. }
  split; [rewrite get_set_other by discriminate; exact Ht4 |].
  unfold withTermConflation.
  split; [| split].
  - destruct (Js.get scores "AV-02"); [| reflexivity].
    now destruct (Js.get (cat_criteria term) "AV-02").
  - destruct (Js.get scores "AV-02"); [| reflexivity].
    now destruct (Js.get (cat_criteria term) "AV-02").
  - intros s existing Hs He. rewrite Hs, He. cbn [cat_criteria set_cat_criteria].
    eexists. split; [apply get_set_same |]. split; [reflexivity |].
    intros x y Hx Hy. cbn [score]. now rewrite Hx, Hy.
Qed.

(** The merge of a response with verdicts on CS-03 and AV-02 into the
    rule categories of the sample page. *)
Lemma semantic_merge_rescoring_witness :
  exists r cs',
    Scorer.addClaudeScores (ClaudeClient.transformScores crossCuttingResponse)
                           crossCuttingResponse mergeTarget = (Normal tt, r)
    /\ Js.get (categories r) "content-structure" = Some cs'
    /\ cat_score cs' = Some (Scorer.averageScores (cat_criteria cs')).
Proof.
  destruct (semantic_merge_rescoring
              (ClaudeClient.transformScores crossCuttingResponse) crossCuttingResponse
              mergeTarget
              (Scorer.ruleCategory "CAT-01" "Content Structure" "content-structure"
                 (ContentStructureRules.scoreAll sampleStr [] sampleMetrics))
              (Scorer.ruleCategory "CAT-02" "Consistent Terminology" "terminology"
                 sampleTerminology)
              (rule_allIssues (ContentStructureRules.scoreAll sampleStr [] sampleMetrics))
              eq_refl eq_refl eq_refl)
    as (r & cs' & term' & Hrun & Hget & Hscore & _).
  exists r, cs'. split; [exact Hrun |]. split; [exact Hget | exact Hscore].
Defined.

(** ** List usage (CS-02) *)

Section ListUsage.
Local Open Scope Q_scope.

Lemma Math_round_mono (x y : Q) : x <= y -> (Js.Math_round x <= Js.Math_round y)%Z.
Proof. intros H. unfold Js.Math_round. apply Qfloor_resp_le. lra. Qed.

Lemma listUsage_raw_mono (ideal q1 q2 : Q) :
  0 < ideal -> q1 <= q2 ->
  let raw := fun q : Q =>
               if Qle_bool ideal q
               then Qmin 10 (7 + (q - ideal) * 10)
               else inject_Z (Js.Math_round ((q / ideal) * 7)) in
  raw q1 <= raw q2.
Proof.
  intros Hi Hq raw. unfold raw.
  destruct (Qle_bool ideal q1) eqn:E1; destruct (Qle_bool ideal q2) eqn:E2.
  - apply Q.min_glb; [apply Q.le_min_l |].
    eapply Qle_trans; [apply Q.le_min_r |]. lra.
  - apply Qle_bool_iff in E1.
    assert (~ ideal <= q2) by (intros H; apply Qle_bool_iff in H; congruence).
    exfalso. apply H. lra.
  - assert (N1 : q1 < ideal).
    { apply Qnot_le_lt. intros H. apply Qle_bool_iff in H. congruence. }
    apply Qle_bool_iff in E2.
    assert (H7 : (Js.Math_round (q1 / ideal * 7) <= 7)%Z).
    { apply Math_round_le. change (inject_Z 7) with 7.
      assert (Hd : q1 / ideal <= 1) by (apply Qle_shift_div_r; [exact Hi | lra]).
      revert Hd. generalize (q1 / ideal). intros z Hz. lra. }
    rewrite Zle_Qle in H7. change (inject_Z 7) with 7 in H7.
    apply Q.min_glb; lra.
  - rewrite <- Zle_Qle. apply Math_round_mono.
    assert (Hd : q1 / ideal <= q2 / ideal).
    { apply Qmult_le_compat_r; [exact Hq |]. apply Qlt_le_weak, Qinv_lt_0_compat, Hi. }
    revert Hd. generalize (q1 / ideal) (q2 / ideal). intros z1 z2 Hz. lra.
Qed.

(** X10.  A higher list-to-paragraph ratio never lowers CS-02.  With a
    positive ideal ratio (0.3 unless configured), on metrics that differ
    only in the ratio, the CS-02 score for the larger ratio is at least
    the score for the smaller one. *)
Theorem list_usage_monotone :
  forall (str : Js.NumberToString) (cfg : Config) (metrics : Metrics) (q1 q2 : Q),
    0 < idealListRatio cfg -> q1 <= q2 ->
    Scorer.scoreOf (ContentStructureRules.scoreListUsage str cfg (withListRatio metrics q1))
    <= Scorer.scoreOf (ContentStructureRules.scoreListUsage str cfg (withListRatio metrics q2)).
Proof.
  intros str cfg metrics q1 q2 Hi Hq.
  unfold ContentStructureRules.scoreListUsage, withListRatio, Scorer.scoreOf.
  cbn [m_lists m_paragraphs lm_count lm_listToParagraphRatio lm_proceduralCount
       lm_orderedCount lm_descriptiveCount lm_totalItems].
  change (Js.num_or (cfg_get cfg ContentStructureRules.cat "CS-02" cfg_idealRatio) (3 # 10))
    with (idealListRatio cfg).
  destruct ((pm_count (m_paragraphs metrics) =? 0)%Z && (lm_count (m_lists metrics) =? 0)%Z);
    cbn [score]; [lra |].
  rewrite <- Zle_Qle.
  pose proof (listUsage_raw_mono (idealListRatio cfg) q1 q2 Hi Hq) as Hraw.
  cbv zeta in Hraw. apply Math_round_mono in Hraw.
  unfold Js.clamp10.
  destruct (ContentStructureRules.gtz _ 0 && ContentStructureRules.eqz _ 0); lia.
Qed.

(** The sample page with a tenth and with a half of a list per
    paragraph. *)
Lemma list_usage_monotone_witness :
  Scorer.scoreOf (ContentStructureRules.scoreListUsage sampleStr []
                    (withListRatio sampleMetrics (1 # 10)))
  <= Scorer.scoreOf (ContentStructureRules.scoreListUsage sampleStr []
                       (withListRatio sampleMetrics (5 # 10))).
Proof.
  apply (list_usage_monotone sampleStr [] sampleMetrics (1 # 10) (5 # 10)).
  - reflexivity.
  - discriminate.
Defined.

End ListUsage.

(** ** The semantic adapter: [transformScores] *)

Lemma set_fresh {V} (o : Js.JsObject V) (k : string) (v : V) :
  ~ In k (map fst o) -> Js.set o k v = (o ++ [(k, v)])%list.
Proof.
  induction o as [| [k' v'] o IH]; intros Hk; [reflexivity |].
  cbn [Js.set app]. destruct (String.eqb_spec k' k) as [-> | Hne].
  - exfalso. apply Hk. now left.
  - f_equal. apply IH. intros H. apply Hk. now right.
Qed.

Lemma fold_set_distinct {V W} (f : string -> V -> W) (l : list (string * V))
      (acc : Js.JsObject W) :
  NoDup (map fst acc ++ map fst l) ->
  fold_left (fun t (e : string * V) => Js.set t (fst e) (f (fst e) (snd e))) l acc
  = (acc ++ map (fun e => (fst e, f (fst e) (snd e))) l)%list.
Proof.
  revert acc. induction l as [| [k v] l IH]; intros acc Hnd.
  - cbn. now rewrite app_nil_r.
  - cbn [fold_left map fst snd]. cbn [map fst] in Hnd.
    rewrite set_fresh.
    + rewrite IH.
      * now rewrite <- app_assoc.
      * rewrite map_app. cbn [map fst]. now rewrite <- app_assoc.
    + apply NoDup_remove_2 in Hnd. intros H. apply Hnd. apply in_app_iff. now left.
Qed.


Lemma get_iff_in {V} (o : Js.JsObject V) (k : string) (v : V) :
  distinctKeys o -> (Js.get o k = Some v <-> In (k, v) o).
Proof.
  unfold distinctKeys. intros Hnd. split; [apply get_in |].
  induction o as [| [k' v'] o IH]; [intros [] |].
  cbn [map fst] in Hnd. inversion Hnd as [| ? ? Hnot Hrest]; subst.
  cbn [Js.get]. intros [E | Hin].
  - injection E as -> ->. now rewrite String.eqb_refl.
  - destruct (String.eqb_spec k' k) as [-> | _]; [| now apply IH].
    exfalso. apply Hnot. apply in_map_iff. now exists (k, v).
Qed.

Lemma get_perm {V} (o o' : Js.JsObject V) (k : string) :
  distinctKeys o -> Permutation o o' -> Js.get o' k = Js.get o k.
Proof.
  intros Hd Hp.
  assert (Hd' : distinctKeys o').
  { unfold distinctKeys in *. eapply Permutation_NoDup; [| exact Hd].
    now apply Permutation_map. }
  destruct (Js.get o k) as [v |] eqn:E.
  - apply (get_iff_in o' k v Hd'). apply (Permutation_in _ Hp).
    now apply (get_iff_in o k v Hd).
  - destruct (Js.get o' k) as [v' |] eqn:E'; [| reflexivity].
    apply (get_iff_in o' k v' Hd') in E'.
    apply (Permutation_in _ (Permutation_sym Hp)) in E'.
    apply (get_iff_in o k v' Hd) in E'. congruence.
Qed.





(** ** The parser's metrics *)

Lemma to_int_not_nil (z : Z) :
  Z.to_int z <> Decimal.Pos Decimal.Nil /\ Z.to_int z <> Decimal.Neg Decimal.Nil.
Proof.
  split; intros H; pose proof (DecimalZ.of_to z) as E; rewrite H in E;
    cbn in E; subst z; discriminate H.
Qed.

Lemma show_inj (a b : Z) : Js.show a = Js.show b -> a = b.
Proof.
  unfold Js.show. intros H. apply DecimalZ.to_int_inj.
  destruct (to_int_not_nil a) as [A1 A2]. destruct (to_int_not_nil b) as [B1 B2].
  pose proof (NilZero.isi (Z.to_int a) A1 A2) as Ea.
  pose proof (NilZero.isi (Z.to_int b) B1 B2) as Eb.
  rewrite H in Ea. congruence.
Qed.

Lemma levelKey_inj (a b : Z) : levelKey a = levelKey b -> a = b.
Proof. unfold levelKey. cbn [append]. intros H. injection H as H. now apply show_inj. Qed.

Lemma distribution_fold (levels : list Z) (dist : Js.JsObject Z) :
  let result := fold_left (fun dist level =>
                             Js.set dist (levelKey level)
                                    (Js.int_or (Js.get dist (levelKey level)) 0 + 1))
                          levels dist in
  (forall k v, In (k, v) dist -> 1 <= v) ->
  distinctKeys dist ->
  distinctKeys result
  /\ (forall k v, In (k, v) result -> 1 <= v)
  /\ (forall n, Js.int_or (Js.get result (levelKey n)) 0
                = Js.int_or (Js.get dist (levelKey n)) 0 + Parser.countLevel n levels)
  /\ Parser.Zsum (map snd result) = Parser.Zsum (map snd dist) + Z.of_nat (List.length levels).
Proof.
  cbv zeta. revert dist. induction levels as [| l levels IH]; intros dist Hpos Hd.
  - cbn [fold_left]. unfold Parser.countLevel. cbn [filter List.length].
    repeat split; try assumption; intros; lia.
  - cbn [fold_left].
    set (dist' := Js.set dist (levelKey l) (Js.int_or (Js.get dist (levelKey l)) 0 + 1)).
    assert (Hold : 0 <= Js.int_or (Js.get dist (levelKey l)) 0).
    { unfold Js.int_or. destruct (Js.get dist (levelKey l)) as [x |] eqn:E; [| lia].
      apply get_in in E. specialize (Hpos _ _ E). destruct (x =? 0)%Z; lia. }
    assert (Hpos' : forall k v, In (k, v) dist' -> 1 <= v).
    { intros k v Hin. apply in_set in Hin. cbn [fst snd] in Hin.
      destruct Hin as [[_ ->] | Hin]; [lia | now apply (Hpos k)]. }
    destruct (IH dist' Hpos' (set_distinctKeys _ _ _ Hd)) as (H1 & H2 & H3 & H4).
    split; [exact H1 |]. split; [exact H2 |]. split.
    + intros n. rewrite H3. unfold dist', Parser.countLevel. cbn [filter].
      destruct (Z.eqb_spec l n) as [-> | Hne].
      * rewrite get_set_same. cbn [List.length]. rewrite Nat2Z.inj_succ.
        unfold Js.int_or at 1.
        destruct (Z.eqb_spec (Js.int_or (Js.get dist (levelKey n)) 0 + 1) 0); lia.
      * rewrite get_set_other; [lia |]. intros E. apply levelKey_inj in E. contradiction.
    + rewrite H4. unfold dist'.
      replace (map snd (Js.set dist (levelKey l)
                               (Js.int_or (Js.get dist (levelKey l)) 0 + 1)))
        with (map (fun e : string * Z => (fun z : Z => z) (snd e))
                  (Js.set dist (levelKey l)
                          (Js.int_or (Js.get dist (levelKey l)) 0 + 1)))
        by reflexivity.
      rewrite (Zsum_set (fun z : Z => z)).
      replace (map (fun e : string * Z => snd e) dist) with (map snd dist) by reflexivity.
      cbn [List.length]. rewrite Nat2Z.inj_succ.
      unfold Js.int_or. destruct (Js.get dist (levelKey l)) as [x |] eqn:E; [| lia].
      apply get_in in E. specialize (Hpos _ _ E).
      destruct (Z.eqb_spec x 0); lia.
Qed.

(** X12.  The heading distribution counts the levels.  For every list
    of levels, [getHeadingDistribution] holds, under the key "h" followed
    by a level, the number of headings of that level, and no entry for a
    level that does not occur; no key occurs twice, and the counts add
    up to the number of headings. *)
Theorem heading_distribution_counts :
  forall levels : list Z,
    let dist := Parser.getHeadingDistribution levels in
    distinctKeys dist
    /\ (forall n, Js.get dist (levelKey n)
                  = if (Parser.countLevel n levels =? 0)%Z then None
                    else Some (Parser.countLevel n levels))
    /\ Parser.Zsum (map snd dist) = Z.of_nat (List.length levels).
Proof.
  intros levels dist.
  destruct (distribution_fold levels [] (fun k v (H : In (k, v) []) => match H with end))
    as (H1 & H2 & H3 & H4); [constructor |].
  change (fold_left _ levels []) with dist in H1, H2, H3, H4.
  split; [exact H1 |]. split.
  - intros n. specialize (H3 n). cbn [Js.get] in H3.
    unfold Js.int_or at 2 in H3.
    destruct (Js.get dist (levelKey n)) as [v |] eqn:E.
    + pose proof (H2 _ _ (get_in _ _ _ E)) as Hv.
      unfold Js.int_or in H3. destruct (Z.eqb_spec v 0); [lia |].
      destruct (Z.eqb_spec (Parser.countLevel n levels) 0); [lia |]. f_equal. lia.
    + unfold Js.int_or in H3.
      destruct (Z.eqb_spec (Parser.countLevel n levels) 0); [reflexivity | lia].
  - rewrite H4. reflexivity.
Qed.

Section ParserRatios.
Local Open Scope Q_scope.

Lemma round2_nonneg (x : Q) : 0 <= x -> 0 <= Parser.round2 x.
Proof.
  intros H. unfold Parser.round2.
  assert (H0 : (0 <= Js.Math_round (x * 100))%Z).
  { apply Math_round_ge. change (inject_Z 0) with 0. lra. }
  rewrite Zle_Qle in H0. change (inject_Z 0) with 0 in H0.
  apply Qle_shift_div_l; [reflexivity | lra].
Qed.

Lemma round2_le_1 (x : Q) : x <= 1 -> Parser.round2 x <= 1.
Proof.
  intros H. unfold Parser.round2.
  assert (H0 : (Js.Math_round (x * 100) <= 100)%Z).
  { apply Math_round_le. change (inject_Z 100) with 100. lra. }
  rewrite Zle_Qle in H0. change (inject_Z 100) with 100 in H0.
  apply Qle_shift_div_r; [reflexivity | lra].
Qed.

Lemma fraction_range (a n : Z) :
  (0 <= a <= n)%Z -> (0 < n)%Z -> 0 <= inject_Z a / inject_Z n <= 1.
Proof.
  intros [Ha Hn] Hpos.
  rewrite Zle_Qle in Ha, Hn. rewrite Zlt_Qlt in Hpos. change (inject_Z 0) with 0 in *.
  split.
  - apply Qle_shift_div_l; [exact Hpos | lra].
  - apply Qle_shift_div_r; [exact Hpos | lra].
Qed.

Lemma filter_length_le {A} (p : A -> bool) (l : list A) :
  (List.length (filter p l) <= List.length l)%nat.
Proof.
  induction l as [| x l IH]; [constructor |].
  cbn [filter]. destruct (p x); cbn [List.length]; lia.
Qed.

(** X13.  The image and content metrics are consistent and in range.
    The images with and without alt text add up to the image count, the
    list of images missing alt text has one entry per image without,
    the alt-text coverage is a fraction (1 on a page without images),
    and the image density is not negative.  The content metrics need
    the callouts array: without it the computation ends with a
    TypeError; with it the visual ratio is not negative.  Metrics put
    together from these parts satisfy the range conditions of the
    text-over-visuals rules. *)
Theorem parser_image_and_content_metrics :
  forall content : Content,
    let im := Parser.imageMetrics content in
    (im_withAlt im + im_withoutAlt im = im_count im)%Z
    /\ (0 <= im_withAlt im)%Z /\ (0 <= im_withoutAlt im)%Z
    /\ Z.of_nat (List.length (im_missingAlt im)) = im_withoutAlt im
    /\ 0 <= im_altTextCoverage im <= 1
    /\ (im_count im = 0%Z -> im_altTextCoverage im == 1)
    /\ 0 <= im_imageToTextRatio im
    /\ (callouts (structure content) = None <->
        Parser.contentMetrics content = Throw (TypeError_undefined "length"))
    /\ forall cm, Parser.contentMetrics content = Normal cm ->
                  0 <= cm_visualToContentRatio cm
                  /\ (0 <= cm_visualBlocks cm)%Z /\ (0 <= cm_totalBlocks cm)%Z
                  /\ forall pm hm lm links, saneRatios (mkMetrics pm hm lm im cm links).
Proof.
  intros content im. unfold im, Parser.imageMetrics. cbv zeta.
  cbn [im_withAlt im_withoutAlt im_count im_missingAlt im_altTextCoverage
       im_imageToTextRatio].
  set (imgs := images (structure content)).
  pose proof (filter_length_le img_hasAlt imgs) as Hle.
  assert (Hcov : 0 <= Parser.round2
                        (if (0 <? Z.of_nat (List.length imgs))%Z
                         then inject_Z (Z.of_nat (List.length (filter img_hasAlt imgs)))
                              / inject_Z (Z.of_nat (List.length imgs))
                         else 1) <= 1).
  { destruct (Z.ltb_spec 0 (Z.of_nat (List.length imgs))) as [Hpos | _].
    - destruct (fraction_range (Z.of_nat (List.length (filter img_hasAlt imgs)))
                               (Z.of_nat (List.length imgs))) as [F0 F1]; [lia | lia |].
      split; [now apply round2_nonneg | now apply round2_le_1].
    - split; [apply round2_nonneg | apply round2_le_1]; lra. }
  split; [lia |]. split; [lia |]. split; [lia |]. split.
  { rewrite length_map. rewrite <- (filter_split_length img_hasAlt imgs). reflexivity. }
  split; [exact Hcov |]. split.
  { intros Hz. destruct (Z.ltb_spec 0 (Z.of_nat (List.length imgs))); [lia | reflexivity]. }
  split.
  { apply round2_nonneg.
    destruct (Z.ltb_spec 0 (wordCount content)) as [Hw | _]; [| lra].
    rewrite Zlt_Qlt in Hw. change (inject_Z 0) with 0 in Hw.
    assert (Hn : 0 <= inject_Z (Z.of_nat (List.length imgs))).
    { change 0 with (inject_Z 0). rewrite <- Zle_Qle. lia. }
    apply Qle_shift_div_l.
    - apply Qlt_shift_div_l; [reflexivity | lra].
    - lra. }
  unfold Parser.contentMetrics. cbv zeta.
  destruct (callouts (structure content)) as [cs |].
  - split; [split; discriminate |].
    intros cm H. apply Normal_inj in H. subst cm.
    cbn [cm_visualToContentRatio cm_visualBlocks cm_totalBlocks].
    match goal with
    | |- context [Parser.round2 ?x] => assert (Hr : 0 <= Parser.round2 x)
    end.
    { apply round2_nonneg.
      match goal with
      | |- context [(0 <? ?t)%Z] => destruct (Z.ltb_spec 0 t) as [Hpos | _]
      end; [| lra].
      apply Qle_shift_div_l.
      - now rewrite Zlt_Qlt in Hpos.
      - rewrite Qmult_0_l. change 0 with (inject_Z 0). rewrite <- Zle_Qle. lia. }
    split; [exact Hr |]. split; [lia |]. split; [lia |].
    intros pm hm lm links. unfold saneRatios.
    cbn [m_content m_images cm_visualToContentRatio im_altTextCoverage].
    split; [exact Hr | exact Hcov].
  - split; [split; reflexivity |]. intros cm H. discriminate H.
Qed.

End ParserRatios.

Lemma filter_implies_length {A} (p q : A -> bool) (l : list A) :
  (forall x, p x = true -> q x = true) ->
  (List.length (filter p l) <= List.length (filter q l))%nat.
Proof.
  intros H. induction l as [| x l IH]; [constructor |].
  cbn [filter]. destruct (p x) eqn:E.
  - rewrite (H x E). cbn [List.length]. lia.
  - destruct (q x); cbn [List.length]; lia.
Qed.

(** X14.  The list counters are consistent.  Every ordered list counts
    as procedural, so the ordered lists are at most the procedural ones;
    the procedural and the descriptive lists add up to the list count,
    which is the number of lists of the page, and none of the three
    counters is negative. *)
Theorem parser_list_counters :
  forall st : Structure,
    exists ordered procedural descriptive : Z,
      lm_orderedCount (Parser.listMetrics st) = Some ordered
      /\ lm_proceduralCount (Parser.listMetrics st) = Some procedural
      /\ lm_descriptiveCount (Parser.listMetrics st) = Some descriptive
      /\ 0 <= ordered <= procedural
      /\ 0 <= descriptive
      /\ procedural + descriptive = lm_count (Parser.listMetrics st)
      /\ lm_count (Parser.listMetrics st) = Z.of_nat (List.length (lists st)).
Proof.
  intros st. unfold Parser.listMetrics. cbv zeta.
  cbn [lm_orderedCount lm_proceduralCount lm_descriptiveCount lm_count].
  do 3 eexists. split; [reflexivity |]. split; [reflexivity |]. split; [reflexivity |].
  pose proof (filter_implies_length (fun l => String.eqb (list_type l) "ol")
                                    Parser.isProceduralList (lists st)) as Hop.
  pose proof (filter_length_le Parser.isProceduralList (lists st)) as Hpl.
  assert (Himp : forall x, String.eqb (list_type x) "ol" = true ->
                           Parser.isProceduralList x = true).
  { intros x E. unfold Parser.isProceduralList. cbv zeta. now rewrite E. }
  specialize (Hop Himp).
  split; [lia |]. split; [lia |]. split; [lia |]. reflexivity.
Qed.

(** ** The scoring history (js/storage.js) *)

Lemma sameUrl_true_iff (a b : option string) : Storage.sameUrl a b = true <-> a = b.
Proof.
  destruct a as [x |], b as [y |]; cbn [Storage.sameUrl]; split; intros H;
    try discriminate; try reflexivity.
  - apply String.eqb_eq in H. now subst.
  - injection H as ->. apply String.eqb_refl.
Qed.

Lemma findIndex_None (url : option string) (h : list Storage.HistoryEntry) :
  Storage.findIndex url h = None -> ~ In url (map Storage.he_url h).
Proof.
  induction h as [| e h IH]; cbn [Storage.findIndex map]; [intros _ [] |].
  destruct (Storage.sameUrl (Storage.he_url e) url) eqn:E; [discriminate |].
  destruct (Storage.findIndex url h); [discriminate |]. intros _ [H | H].
  - apply sameUrl_true_iff in H. congruence.
  - now apply IH.
Qed.

Lemma findIndex_Some (url : option string) (h : list Storage.HistoryEntry) (i : nat) :
  Storage.findIndex url h = Some i ->
  exists old, nth_error h i = Some old /\ Storage.he_url old = url.
Proof.
  revert i. induction h as [| e h IH]; intros i; cbn [Storage.findIndex]; [discriminate |].
  destruct (Storage.sameUrl (Storage.he_url e) url) eqn:E.
  - intros H. injection H as <-. exists e. split; [reflexivity |].
    now apply sameUrl_true_iff.
  - destruct (Storage.findIndex url h) as [j |]; [| discriminate].
    cbn [option_map]. intros H. injection H as <-. cbn [nth_error]. now apply IH.
Qed.

Lemma replaceAt_length (i : nat) (e : Storage.HistoryEntry) (h : list Storage.HistoryEntry) :
  List.length (Storage.replaceAt i e h) = List.length h.
Proof.
  revert i. induction h as [| x h IH]; intros [| i]; cbn [Storage.replaceAt List.length];
    try reflexivity. now rewrite IH.
Qed.

Lemma replaceAt_urls (i : nat) (e old : Storage.HistoryEntry) (h : list Storage.HistoryEntry) :
  nth_error h i = Some old -> Storage.he_url old = Storage.he_url e ->
  map Storage.he_url (Storage.replaceAt i e h) = map Storage.he_url h.
Proof.
  revert i. induction h as [| x h IH]; intros [| i]; cbn [nth_error Storage.replaceAt map];
    try discriminate.
  - intros H Hu. injection H as ->. now rewrite Hu.
  - intros H Hu. f_equal. now apply IH.
Qed.

Lemma replaceAt_nth (i : nat) (e old : Storage.HistoryEntry) (h : list Storage.HistoryEntry) :
  nth_error h i = Some old -> nth_error (Storage.replaceAt i e h) i = Some e.
Proof.
  revert i. induction h as [| x h IH]; intros [| i]; cbn [nth_error Storage.replaceAt];
    try discriminate; [reflexivity | apply IH].
Qed.

Lemma replaceAt_findIndex (i : nat) (e : Storage.HistoryEntry) (h : list Storage.HistoryEntry) :
  Storage.findIndex (Storage.he_url e) h = Some i ->
  Storage.findIndex (Storage.he_url e) (Storage.replaceAt i e h) = Some i.
Proof.
  revert i. induction h as [| x h IH]; intros i; cbn [Storage.findIndex]; [discriminate |].
  destruct (Storage.sameUrl (Storage.he_url x) (Storage.he_url e)) eqn:E.
  - intros H. injection H as <-. cbn [Storage.replaceAt Storage.findIndex].
    now rewrite (proj2 (sameUrl_true_iff _ _) eq_refl).
  - destruct (Storage.findIndex (Storage.he_url e) h) as [j |] eqn:F; [| discriminate].
    cbn [option_map]. intros H. injection H as <-.
    cbn [Storage.replaceAt Storage.findIndex]. rewrite E, (IH j eq_refl). reflexivity.
Qed.

Lemma replaceAt_in (i : nat) (e x : Storage.HistoryEntry) (h : list Storage.HistoryEntry) :
  In x (Storage.replaceAt i e h) -> x = e \/ In x h.
Proof.
  revert i. induction h as [| y h IH]; intros [| i]; cbn [Storage.replaceAt In];
    try tauto.
  - intros [H | H]; [now left | right; now right].
  - intros [H | H]; [right; now left |]. destruct (IH _ H); [now left | right; now right].
Qed.

Lemma replaceAt_keeps (i : nat) (e old x : Storage.HistoryEntry)
      (h : list Storage.HistoryEntry) :
  nth_error h i = Some old -> Storage.he_url x <> Storage.he_url old ->
  In x h -> In x (Storage.replaceAt i e h).
Proof.
  revert i. induction h as [| y h IH]; intros [| i]; cbn [nth_error Storage.replaceAt In];
    try discriminate.
  - intros H Hu [-> | Hin]; [| now right]. injection H as ->. congruence.
  - intros H Hu [-> | Hin]; [now left | right; now apply IH].
Qed.

Lemma NoDup_firstn {A} (n : nat) (l : list A) : NoDup l -> NoDup (firstn n l).
Proof.
  intros H. rewrite <- (firstn_skipn n l) in H. now apply NoDup_app_remove_r in H.
Qed.

Lemma in_firstn {A} (n : nat) (l : list A) (x : A) : In x (firstn n l) -> In x l.
Proof.
  intros H. rewrite <- (firstn_skipn n l). apply in_or_app. now left.
Qed.

(** X15.  Saving a result keeps the history in shape.  On a history of
    at most 50 entries with one entry per URL, [saveToHistory] leaves a
    history of at most 50 entries with one entry per URL; the page just
    saved is found under its URL and carries the new score; nothing is
    in the history that was not there before, and the entries of the
    other pages all stay, unless the page is new and the history was
    full (then the last one is dropped). *)
Theorem saveToHistory_keeps_history :
  forall (id timestamp : string) (result : Storage.HistoryInput) (ls : Storage.LocalStorage),
    (List.length (Storage.getHistory ls) <= Storage.MAX_HISTORY_ITEMS)%nat ->
    NoDup (map Storage.he_url (Storage.getHistory ls)) ->
    let entry := Storage.mkHistoryEntry id (Storage.hi_url result) (Storage.hi_title result)
                                        (Storage.hi_compositeScore result) timestamp
                                        (Storage.hi_categoryScores result) in
    let history' := Storage.getHistory (Storage.saveToHistory id timestamp result ls) in
    (List.length history' <= Storage.MAX_HISTORY_ITEMS)%nat
    /\ NoDup (map Storage.he_url history')
    /\ (exists i, Storage.findIndex (Storage.hi_url result) history' = Some i
                  /\ nth_error history' i = Some entry)
    /\ (forall e, In e history' -> e = entry \/ In e (Storage.getHistory ls))
    /\ (forall e, In e (Storage.getHistory ls) ->
                  Storage.he_url e <> Storage.hi_url result ->
                  (List.length (Storage.getHistory ls) < Storage.MAX_HISTORY_ITEMS)%nat
                  \/ In (Storage.hi_url result) (map Storage.he_url (Storage.getHistory ls)) ->
                  In e history').
Proof.
  intros id timestamp result ls Hlen Hurls entry history'.
  set (history := Storage.getHistory ls) in *.
  assert (Heq : history'
                = let updated := match Storage.findIndex (Storage.hi_url result) history with
                                 | Some existingIndex =>
                                     Storage.replaceAt existingIndex entry history
                                 | None => entry :: history
                                 end in
                  if (Storage.MAX_HISTORY_ITEMS <? List.length updated)%nat
                  then firstn Storage.MAX_HISTORY_ITEMS updated else updated)
    by reflexivity.
  rewrite Heq. clear Heq history'. cbv zeta.
  destruct (Storage.findIndex (Storage.hi_url result) history) as [i |] eqn:F.
  - destruct (findIndex_Some _ _ _ F) as (old & Hnth & Hold).
    rewrite replaceAt_length.
    destruct (Nat.ltb_spec Storage.MAX_HISTORY_ITEMS (List.length history)) as [Hgt | _];
      [lia |].
    split; [now rewrite replaceAt_length |].
    split; [now rewrite (replaceAt_urls i entry old history Hnth Hold) |].
    split.
    { exists i. split; [apply (replaceAt_findIndex i entry history F) |].
      now apply (replaceAt_nth i entry old). }
    split; [intros e; apply replaceAt_in |].
    intros e Hin Hne _. apply (replaceAt_keeps i entry old); congruence.
  - pose proof (findIndex_None _ _ F) as Hfresh.
    assert (Hnd : NoDup (map Storage.he_url (entry :: history))).
    { cbn [map]. constructor; assumption. }
    assert (Hfind : forall rest, Storage.findIndex (Storage.hi_url result) (entry :: rest)
                                 = Some O).
    { intros rest. cbn [Storage.findIndex].
      change (Storage.he_url entry) with (Storage.hi_url result).
      now rewrite (proj2 (sameUrl_true_iff _ _) eq_refl). }
    destruct (Nat.ltb_spec Storage.MAX_HISTORY_ITEMS (List.length (entry :: history)))
      as [Hgt | Hle].
    + unfold Storage.MAX_HISTORY_ITEMS at 1 2 3 4 5.
      change (firstn 50 (entry :: history)) with (entry :: firstn 49 history).
      split.
      { cbn [List.length]. pose proof (firstn_le_length 49 history).
        unfold Storage.MAX_HISTORY_ITEMS. lia. }
      split.
      { change (entry :: firstn 49 history) with (firstn 50 (entry :: history)).
        rewrite <- firstn_map. now apply NoDup_firstn. }
      split; [exists O; split; [apply Hfind | reflexivity] |].
      split.
      { intros e [<- | Hin]; [now left | right; now apply (in_firstn 49)]. }
      intros e Hin Hne [Hlt | Hthere]; [| contradiction].
      cbn [List.length] in Hgt. lia.
    + split; [exact Hle |]. split; [exact Hnd |].
      split; [exists O; split; [apply Hfind | reflexivity] |].
      split; [intros e [<- | Hin]; [now left | now right] |].
      intros e Hin _ _. now right.
Qed.

(** The first page saved again: its entry is replaced, not added. *)
Lemma saveToHistory_keeps_history_witness :
  (List.length (Storage.getHistory
                  (Storage.saveToHistory "m2xyz" "2026-02-05T10:00:00.000Z"
                                         sampleHistoryInput sampleLocalStorage))
   <= Storage.MAX_HISTORY_ITEMS)%nat.
Proof.
  assert (Hlen : (List.length (Storage.getHistory sampleLocalStorage)
                  <= Storage.MAX_HISTORY_ITEMS)%nat)
    by (vm_compute; lia).
  assert (Hurls : NoDup (map Storage.he_url (Storage.getHistory sampleLocalStorage))).
  { cbn. constructor; [intros [] | constructor]. }
  exact (proj1 (saveToHistory_keeps_history "m2xyz" "2026-02-05T10:00:00.000Z"
                                            sampleHistoryInput sampleLocalStorage
                                            Hlen Hurls)).
Defined.

(** ** The cache of semantic responses (js/storage.js) *)

Lemma sort_by_head {A} (leb : A -> A -> bool) (x : A) (l : list A) :
  In x l ->
  (forall y, In y l -> leb x y = true) ->
  (forall y, In y l -> y = x \/ leb y x = false) ->
  exists rest, Js.sort_by leb l = x :: rest.
Proof.
  induction l as [| a l IH]; intros Hin Hfirst Hothers; [destruct Hin |].
  cbn [Js.sort_by].
  assert (Hx : a = x -> exists rest, Js.insert_by leb a (Js.sort_by leb l) = x :: rest).
  { intros ->. destruct (Js.sort_by leb l) as [| y r] eqn:E; cbn [Js.insert_by].
    - now exists [].
    - rewrite Hfirst; [now exists (y :: r) |]. right.
      apply (Permutation_in y (Permutation_sym (sort_by_perm leb l))).
      rewrite E. now left. }
  destruct (Hothers a (or_introl eq_refl)) as [Ha | Ha]; [now apply Hx |].
  destruct Hin as [Hin | Hin]; [now apply Hx |].
  destruct IH as [rest E].
  - exact Hin.
  - intros y Hy. apply Hfirst. now right.
  - intros y Hy. apply Hothers. now right.
  - rewrite E. cbn [Js.insert_by]. rewrite Ha. now exists (Js.insert_by leb a rest).
Qed.

Lemma fromEntries_distinct {V} (l : list (string * V)) :
  NoDup (map fst l) -> Storage.fromEntries l = l.
Proof.
  intros H. unfold Storage.fromEntries.
  rewrite (fold_set_distinct (fun _ v => v) l []); [| exact H].
  cbn [app]. rewrite <- (map_id l) at 2. apply map_ext. now intros [k v].
Qed.

Lemma set_in_same {V} (o : Js.JsObject V) (k : string) (v : V) : In (k, v) (Js.set o k v).
Proof.
  induction o as [| [k' v'] o IH]; cbn [Js.set]; [now left |].
  destruct (String.eqb_spec k' k) as [-> | _]; [now left | now right].
Qed.

Lemma set_length {V} (o : Js.JsObject V) (k : string) (v : V) :
  (List.length (Js.set o k v) <= S (List.length o))%nat.
Proof.
  induction o as [| [k' v'] o IH]; cbn [Js.set List.length]; [lia |].
  destruct (String.eqb k' k); cbn [List.length]; lia.
Qed.

Lemma get_None_iff {V} (o : Js.JsObject V) (k : string) :
  Js.get o k = None <-> ~ In k (map fst o).
Proof.
  induction o as [| [k' v] o IH]; cbn [Js.get map fst In]; [tauto |].
  destruct (String.eqb_spec k' k) as [-> | Hne].
  - split; [discriminate | intros H; exfalso; apply H; now left].
  - rewrite IH. tauto.
Qed.

Lemma get_entries_deleteKey {V} (o : Js.JsObject V) (k : string) :
  Js.get (Js.entries (Storage.deleteKey o k)) k = None.
Proof.
  apply get_None_iff. intros Hin.
  apply (Permutation_in k (Permutation_map fst (entries_perm (Storage.deleteKey o k)))) in Hin.
  apply in_map_iff in Hin. destruct Hin as ([k' v] & Hk & Hin). cbn [fst] in Hk. subst k'.
  unfold Storage.deleteKey in Hin. apply filter_In in Hin. destruct Hin as [_ Hneq].
  cbn [fst] in Hneq. now rewrite String.eqb_refl in Hneq.
Qed.

(** X16.  A response saved in the cache is found again for seven days.
    With a clock whose texts read back, on a cache whose entries were
    all saved before now, [saveClaudeCacheEntry] leaves at most 50
    entries, all of them saved by now; [getClaudeCacheEntry] with the
    same key returns the saved response, stamped with the time of
    saving, as long as no more than seven days have passed, and leaves
    the storage as it is; later than that it returns nothing and removes
    the entry.  No entry appears that was not saved, and below 50
    entries none of the others is lost. *)
Theorem cache_save_then_lookup :
  forall (d : Storage.Dates) (now : Z) (hash : string) (payload : Scorer.CacheEntry)
         (ls : Storage.LocalStorage),
    readsBack d ->
    distinctKeys (Storage.getClaudeCache ls) ->
    savedBefore d now (Storage.getClaudeCache ls) ->
    let saved := Scorer.mkCacheEntry (Scorer.raw payload) (Scorer.transformed payload)
                                     (Some (Storage.toISOString d now)) in
    let ls' := Storage.saveClaudeCacheEntry d now hash payload ls in
    (List.length (Storage.getClaudeCache ls') <= Storage.MAX_CACHE_ITEMS)%nat
    /\ distinctKeys (Storage.getClaudeCache ls')
    /\ (forall later, now < later -> savedBefore d later (Storage.getClaudeCache ls'))
    /\ (forall later, later - now <= Storage.CACHE_TTL_MS ->
                      Storage.getClaudeCacheEntry d later hash ls' = (Some saved, ls'))
    /\ (forall later, Storage.CACHE_TTL_MS < later - now ->
                      fst (Storage.getClaudeCacheEntry d later hash ls') = None
                      /\ Js.get (Storage.getClaudeCache
                                   (snd (Storage.getClaudeCacheEntry d later hash ls'))) hash
                         = None)
    /\ (forall k e, Js.get (Storage.getClaudeCache ls') k = Some e ->
                    k = hash /\ e = saved \/ Js.get (Storage.getClaudeCache ls) k = Some e)
    /\ ((List.length (Storage.getClaudeCache ls) < Storage.MAX_CACHE_ITEMS)%nat ->
        forall k, k <> hash ->
                  Js.get (Storage.getClaudeCache ls') k = Js.get (Storage.getClaudeCache ls) k).
Proof.
  intros d now hash payload ls Hd Hkeys Hold saved ls'.
  set (cache0 := Storage.getClaudeCache ls) in *.
  set (cache1 := Js.set cache0 hash saved).
  set (sorted := Js.sort_by (Storage.newerFirst d) (Js.entries cache1)).
  set (kept := firstn Storage.MAX_CACHE_ITEMS sorted).
  assert (Hstored : Storage.getClaudeCache ls' = Js.entries (Storage.fromEntries kept))
    by reflexivity.
  destruct (Hd now) as [Hne Hback].
  assert (Htime : Storage.savedTime d saved = Some now) by exact Hback.
  assert (Hperm : Permutation cache1 sorted).
  { eapply perm_trans; [apply Permutation_sym, entries_perm | apply sort_by_perm]. }
  assert (Hk1 : distinctKeys cache1) by now apply set_distinctKeys.
  assert (Hks : NoDup (map fst sorted)).
  { eapply Permutation_NoDup; [apply Permutation_map, Hperm | exact Hk1]. }
  assert (Hkk : NoDup (map fst kept)).
  { unfold kept. rewrite <- firstn_map. now apply NoDup_firstn. }
  rewrite (fromEntries_distinct kept Hkk) in Hstored.
  assert (Hpk : Permutation kept (Js.entries kept)) by apply Permutation_sym, entries_perm.
  assert (Hin1 : forall k e, In (k, e) cache1 -> k = hash /\ e = saved \/ In (k, e) cache0).
  { intros k e Hin. apply in_set in Hin. exact Hin. }
  assert (Hfrom : forall k e, In (k, e) (Js.entries kept) -> In (k, e) cache1).
  { intros k e Hin.
    apply (Permutation_in _ (Permutation_sym Hperm)).
    apply (in_firstn Storage.MAX_CACHE_ITEMS).
    apply (Permutation_in _ (Permutation_sym Hpk)). exact Hin. }
  assert (Hhead : exists rest, sorted = (hash, saved) :: rest).
  { apply sort_by_head.
    - apply (Permutation_in _ (Permutation_sym (entries_perm cache1))). apply set_in_same.
    - intros [k e] Hy. apply (Permutation_in _ (entries_perm cache1)) in Hy.
      unfold Storage.newerFirst. cbn [snd]. rewrite Htime.
      destruct (Hin1 k e Hy) as [[-> ->] | Hy0].
      + rewrite Htime. apply Z.leb_refl.
      + destruct (Hold k e Hy0) as (t & -> & Ht). apply Z.leb_le. lia.
    - intros [k e] Hy. apply (Permutation_in _ (entries_perm cache1)) in Hy.
      destruct (Hin1 k e Hy) as [[-> ->] | Hy0]; [now left | right].
      unfold Storage.newerFirst. cbn [snd]. rewrite Htime.
      destruct (Hold k e Hy0) as (t & -> & Ht). apply Z.leb_gt. lia. }
  destruct Hhead as [rest Hsorted].
  assert (Hget : Js.get (Js.entries kept) hash = Some saved).
  { rewrite (get_perm kept (Js.entries kept) hash Hkk Hpk).
    unfold kept. rewrite Hsorted. unfold Storage.MAX_CACHE_ITEMS.
    cbn [firstn Js.get]. now rewrite String.eqb_refl. }
  rewrite Hstored.
  split.
  { rewrite <- (Permutation_length Hpk). unfold kept. apply firstn_le_length. }
  split; [now apply entries_distinctKeys |].
  split.
  { intros later Hlater k e Hin. destruct (Hin1 k e (Hfrom k e Hin)) as [[-> ->] | Hin0].
    - exists now. split; [exact Htime | exact Hlater].
    - destruct (Hold k e Hin0) as (t & Ht & Hlt). exists t. split; [exact Ht | lia]. }
  split.
  { intros later Hlater. unfold Storage.getClaudeCacheEntry. cbv zeta.
    rewrite Hstored, Hget. unfold Storage.expired, Parser.nonEmpty.
    cbn [Scorer.savedAt saved]. destruct (String.eqb _ ""); [reflexivity |].
    rewrite Hback. destruct (Z.ltb_spec Storage.CACHE_TTL_MS (later - now)); [lia | reflexivity]. }
  split.
  { intros later Hlater. unfold Storage.getClaudeCacheEntry. cbv zeta.
    rewrite Hstored, Hget. unfold Storage.expired, Parser.nonEmpty.
    cbn [Scorer.savedAt saved].
    destruct (String.eqb_spec (Storage.toISOString d now) "") as [E | _]; [contradiction |].
    rewrite Hback. destruct (Z.ltb_spec Storage.CACHE_TTL_MS (later - now)); [| lia].
    cbn [fst snd]. split; [reflexivity |]. apply get_entries_deleteKey. }
  split.
  { intros k e Hg. apply get_in in Hg.
    destruct (Hin1 k e (Hfrom k e Hg)) as [H | H]; [now left | right].
    now apply get_iff_in. }
  intros Hroom k Hk.
  assert (Hall : kept = sorted).
  { unfold kept. apply firstn_all2.
    rewrite <- (Permutation_length Hperm). pose proof (set_length cache0 hash saved).
    fold cache1 in H. lia. }
  rewrite (get_perm kept (Js.entries kept) k Hkk Hpk), Hall.
  rewrite (get_perm cache1 sorted k Hk1 Hperm). apply get_set_other. congruence.
Qed.

(** The sample clock reads back. *)
Lemma sampleDates_readsBack : readsBack sampleDates.
Proof.
  intros t. split; [discriminate |].
  cbn [sampleDates Storage.toISOString Storage.getTime].
  rewrite NilEmpty.isi. cbn [option_map]. now rewrite DecimalZ.of_to.
Qed.

(** A second response saved at 2000 ms beside one saved at 1000 ms, and
    asked for at 5000 ms. *)
Lemma cache_save_then_lookup_witness :
  Storage.getClaudeCacheEntry sampleDates 5000 "9f8e7d6c"
    (Storage.saveClaudeCacheEntry sampleDates 2000 "9f8e7d6c" sampleCacheEntry
                                  sampleLocalStorage)
  = (Some (Scorer.mkCacheEntry (Scorer.raw sampleCacheEntry)
                               (Scorer.transformed sampleCacheEntry)
                               (Some (Storage.toISOString sampleDates 2000))),
     Storage.saveClaudeCacheEntry sampleDates 2000 "9f8e7d6c" sampleCacheEntry
                                  sampleLocalStorage).
Proof.
  assert (Hkeys : distinctKeys (Storage.getClaudeCache sampleLocalStorage)).
  { unfold distinctKeys. cbn. constructor; [intros [] | constructor]. }
  assert (Hold : savedBefore sampleDates 2000 (Storage.getClaudeCache sampleLocalStorage)).
  { intros k e [E | []]. injection E as <- <-. exists 1000. split; [reflexivity | lia]. }
  destruct (cache_save_then_lookup sampleDates 2000 "9f8e7d6c" sampleCacheEntry
                                   sampleLocalStorage sampleDates_readsBack Hkeys Hold)
    as (_ & _ & _ & Hfound & _).
  apply Hfound. unfold Storage.CACHE_TTL_MS. lia.
Defined.

(** ** The API key (js/storage.js) *)

Lemma list_ind3 {A} (P : list A -> Prop) :
  P [] -> (forall a, P [a]) -> (forall a b, P [a; b]) ->
  (forall a b c rest, P rest -> P (a :: b :: c :: rest)) ->
  forall l, P l.
Proof.
  intros H0 H1 H2 H3 l.
  assert (H : P l /\ (forall a, P (a :: l)) /\ (forall a b, P (a :: b :: l))).
  { induction l as [| x l (IH0 & IH1 & IH2)].
    - repeat split; auto.
    - repeat split; auto. }
  exact (proj1 H).
Qed.

Lemma sextet_facts (n : nat) :
  (n < 64)%nat ->
  Base64.sextetOf (Base64.sextetChar n) = Some n
  /\ Base64.isWhitespace (Base64.sextetChar n) = false
  /\ Ascii.eqb (Base64.sextetChar n) "=" = false.
Proof.
  intros H.
  do 64 (destruct n as [| n]; [vm_compute; repeat split |]).
  lia.
Qed.

(* The quotient and the remainder of [x] by the constant [n]. *)
Ltac nat_divmod x n :=
  pose proof (Nat.div_mod_eq x n);
  pose proof (Nat.mod_upper_bound x n ltac:(discriminate)).

Ltac sextet_arith a b c :=
  nat_divmod a 4%nat; nat_divmod b 16%nat; nat_divmod c 64%nat;
  nat_divmod ((a mod 4) * 16)%nat 16%nat;
  nat_divmod ((a mod 4) * 16 + b / 16)%nat 16%nat;
  nat_divmod ((b mod 16) * 4)%nat 4%nat;
  nat_divmod ((b mod 16) * 4 + c / 64)%nat 4%nat.

Lemma sextets_range (bytes : list nat) :
  Forall (fun a => (a < 256)%nat) bytes ->
  Forall (fun v => (v < 64)%nat) (Base64.sextets bytes).
Proof.
  induction bytes as [| a | a b | a b c rest IH] using list_ind3; intros H;
    cbn [Base64.sextets].
  - constructor.
  - inversion H as [| ? ? Ha _]; subst. sextet_arith a a a.
    repeat (apply Forall_cons; [lia |]). apply Forall_nil.
  - inversion H as [| ? ? Ha H']; subst. inversion H' as [| ? ? Hb _]; subst.
    sextet_arith a b b.
    repeat (apply Forall_cons; [lia |]). apply Forall_nil.
  - inversion H as [| ? ? Ha H']; subst. inversion H' as [| ? ? Hb H'']; subst.
    inversion H'' as [| ? ? Hc Hrest]; subst. sextet_arith a b c.
    do 4 (apply Forall_cons; [lia |]). now apply IH.
Qed.

Lemma bytesOf_sextets (bytes : list nat) :
  Forall (fun a => (a < 256)%nat) bytes ->
  Base64.bytesOf (Base64.sextets bytes) = bytes.
Proof.
  induction bytes as [| a | a b | a b c rest IH] using list_ind3; intros H;
    cbn [Base64.sextets Base64.bytesOf].
  - reflexivity.
  - inversion H as [| ? ? Ha _]; subst. sextet_arith a a a. f_equal. lia.
  - inversion H as [| ? ? Ha H']; subst. inversion H' as [| ? ? Hb _]; subst.
    sextet_arith a b b. f_equal; [lia |]. f_equal. lia.
  - inversion H as [| ? ? Ha H']; subst. inversion H' as [| ? ? Hb H'']; subst.
    inversion H'' as [| ? ? Hc Hrest]; subst. sextet_arith a b c.
    f_equal; [lia |]. f_equal; [lia |]. f_equal; [lia |]. now apply IH.
Qed.

(** The sextets and the padding together come in fours; the sextets
    alone never leave one over. *)
Lemma sextets_length (bytes : list nat) :
  ((List.length (Base64.sextets bytes)
    + List.length (Base64.padding (List.length bytes))) mod 4 = 0
   /\ List.length (Base64.sextets bytes) mod 4 <> 1)%nat.
Proof.
  induction bytes as [| a | a b | a b c rest IH] using list_ind3;
    try (vm_compute; split; [reflexivity | discriminate]).
  cbn [Base64.sextets List.length].
  assert (E : Base64.padding (S (S (S (List.length rest))))
              = Base64.padding (List.length rest)).
  { unfold Base64.padding.
    replace (S (S (S (List.length rest)))) with (List.length rest + 1 * 3)%nat by lia.
    now rewrite Nat.Div0.mod_add. }
  rewrite E. destruct IH as [IH1 IH2].
  set (n := List.length (Base64.sextets rest)) in *.
  set (p := List.length (Base64.padding (List.length rest))) in *.
  replace (S (S (S (S n))) + p)%nat with (n + p + 1 * 4)%nat by lia.
  replace (S (S (S (S n)))) with (n + 1 * 4)%nat by lia.
  rewrite !Nat.Div0.mod_add. now split.
Qed.

Lemma allSextets_chars (vs : list nat) :
  Forall (fun v => (v < 64)%nat) vs ->
  Base64.allSextets (map Base64.sextetChar vs) = Some vs.
Proof.
  induction 1 as [| v vs Hv _ IH]; [reflexivity |].
  cbn [map Base64.allSextets].
  destruct (sextet_facts v Hv) as (-> & _). now rewrite IH.
Qed.

Lemma padding_cases (n : nat) :
  Base64.padding n = [] \/ Base64.padding n = ["="%char]
  \/ Base64.padding n = ["="%char; "="%char].
Proof.
  unfold Base64.padding. destruct (n mod 3)%nat as [| [| m]]; auto.
Qed.

Lemma filter_keeps_all {A} (p : A -> bool) (l : list A) :
  Forall (fun x => p x = true) l -> filter p l = l.
Proof.
  induction 1 as [| x l Hx _ IH]; [reflexivity |]. cbn [filter]. now rewrite Hx, IH.
Qed.

Lemma stripPadding_body (body pad : list ascii) :
  Forall (fun c => Ascii.eqb c "=" = false) body ->
  pad = [] \/ pad = ["="%char] \/ pad = ["="%char; "="%char] ->
  Base64.stripPadding (body ++ pad) = body.
Proof.
  intros Hbody Hpad. unfold Base64.stripPadding. rewrite rev_app_distr.
  assert (Hrev : Forall (fun c => Ascii.eqb c "=" = false) (rev body)).
  { apply Forall_forall. intros c Hc. apply in_rev in Hc.
    now apply (proj1 (Forall_forall _ _) Hbody). }
  destruct Hpad as [-> | [-> | ->]]; cbn [rev app].
  - rewrite app_nil_r. destruct (rev body) as [| c1 r1] eqn:E; [reflexivity |].
    inversion Hrev as [| ? ? H1 _]; subst. now rewrite H1.
  - cbn [Ascii.eqb Bool.eqb]. destruct (rev body) as [| c2 r2] eqn:E.
    + cbn [rev]. rewrite <- (rev_involutive body), E. reflexivity.
    + inversion Hrev as [| ? ? H2 _]; subst. rewrite H2, <- E. apply rev_involutive.
  - cbn [Ascii.eqb Bool.eqb]. rewrite <- (rev_involutive body) at 2. reflexivity.
Qed.

Lemma atob_btoa (s : string) : Base64.atob (Base64.btoa s) = Some s.
Proof.
  unfold Base64.atob, Base64.btoa. cbv zeta.
  rewrite list_ascii_of_string_of_list_ascii.
  set (bytes := map nat_of_ascii (list_ascii_of_string s)).
  assert (Hbytes : Forall (fun a => (a < 256)%nat) bytes).
  { apply Forall_forall. intros a Ha. apply in_map_iff in Ha.
    destruct Ha as (c & <- & _). apply nat_ascii_bounded. }
  pose proof (sextets_range bytes Hbytes) as Hrange.
  set (body := map Base64.sextetChar (Base64.sextets bytes)).
  assert (Hchars : Forall (fun c => Base64.isWhitespace c = false
                                    /\ Ascii.eqb c "=" = false) body).
  { apply Forall_forall. intros c Hc. apply in_map_iff in Hc.
    destruct Hc as (v & <- & Hv).
    destruct (sextet_facts v (proj1 (Forall_forall _ _) Hrange v Hv)) as (_ & H1 & H2).
    now split. }
  assert (Hfilter : filter (fun c => negb (Base64.isWhitespace c))
                           (body ++ Base64.padding (List.length bytes))%list
                    = (body ++ Base64.padding (List.length bytes))%list).
  { apply filter_keeps_all. apply Forall_app. split.
    - eapply Forall_impl; [| exact Hchars]. intros c [-> _]. reflexivity.
    - destruct (padding_cases (List.length bytes)) as [-> | [-> | ->]];
        repeat constructor. }
  rewrite !Hfilter.
  destruct (sextets_length bytes) as [Hfour Hone].
  assert (Hlen : (List.length (body ++ Base64.padding (List.length bytes))%list mod 4 = 0)%nat).
  { rewrite length_app. unfold body. now rewrite length_map. }
  rewrite !Hlen. cbn [Nat.eqb].
  assert (Hstrip : Base64.stripPadding (body ++ Base64.padding (List.length bytes))%list
                   = body).
  { apply stripPadding_body; [| apply padding_cases].
    eapply Forall_impl; [| exact Hchars]. now intros c [_ H]. }
  rewrite !Hstrip.
  assert (Hlenb : List.length body = List.length (Base64.sextets bytes))
    by (unfold body; apply length_map).
  rewrite Hlenb.
  destruct (Nat.eqb_spec (List.length (Base64.sextets bytes) mod 4) 1) as [E | _];
    [contradiction |].
  unfold body. rewrite (allSextets_chars _ Hrange), (bytesOf_sextets _ Hbytes).
  unfold bytes. rewrite map_map.
  rewrite (map_ext _ (fun c => c) ascii_nat_embedding), map_id.
  now rewrite string_of_list_ascii_of_string.
Qed.

Lemma reverse_involutive (s : string) : Storage.reverse (Storage.reverse s) = s.
Proof.
  unfold Storage.reverse. rewrite list_ascii_of_string_of_list_ascii, rev_involutive.
  apply string_of_list_ascii_of_string.
Qed.

Lemma btoa_nonempty (s : string) : s <> "" -> Base64.btoa s <> "".
Proof.
  intros Hs. unfold Base64.btoa. cbv zeta.
  destruct s as [| a s]; [contradiction |].
  cbn [list_ascii_of_string map]. destruct (map nat_of_ascii (list_ascii_of_string s)) as [| b [| c l]];
    cbn [Base64.sextets map app string_of_list_ascii]; discriminate.
Qed.

Lemma reverse_nonempty (s : string) : s <> "" -> Storage.reverse s <> "".
Proof.
  intros Hs E. apply Hs. rewrite <- (reverse_involutive s), E. reflexivity.
Qed.

(** X17.  The API key comes back as it was saved.  After
    [saveApiKey(key)] with a key that is not empty, [getApiKey()]
    returns that key and [hasApiKey()] is true, whatever was stored
    before; what is kept in storage is the Base64 text of the reversed
    key, and the history and the cache are left alone.  After
    [saveApiKey] with no key or an empty one, and after [clearApiKey()],
    there is no key. *)
Theorem api_key_round_trip :
  forall (key : string) (ls : Storage.LocalStorage),
    key <> "" ->
    let ls' := Storage.saveApiKey (Some key) ls in
    Storage.getApiKey ls' = Some key
    /\ Storage.hasApiKey ls' = true
    /\ Storage.apiKeyItem ls' = Some (Base64.btoa (Storage.reverse key))
    /\ Storage.getHistory ls' = Storage.getHistory ls
    /\ Storage.getClaudeCache ls' = Storage.getClaudeCache ls
    /\ Storage.getApiKey (Storage.clearApiKey ls') = None
    /\ Storage.getApiKey (Storage.saveApiKey (Some "") ls') = None
    /\ Storage.getApiKey (Storage.saveApiKey None ls') = None.
Proof.
  intros key ls Hkey ls'.
  assert (Hsave : ls' = Storage.set_apiKeyItem ls (Some (Base64.btoa (Storage.reverse key)))).
  { subst ls'. unfold Storage.saveApiKey, Parser.nonEmpty.
    destruct (String.eqb_spec key "") as [E | _]; [contradiction | reflexivity]. }
  assert (Hget : Storage.getApiKey ls' = Some key).
  { rewrite Hsave. unfold Storage.getApiKey, Parser.nonEmpty.
    cbn [Storage.set_apiKeyItem Storage.apiKeyItem].
    destruct (String.eqb_spec (Base64.btoa (Storage.reverse key)) "") as [E | _].
    - exfalso. revert E. apply btoa_nonempty. now apply reverse_nonempty.
    - rewrite atob_btoa. now rewrite reverse_involutive. }
  split; [exact Hget |].
  split.
  { unfold Storage.hasApiKey. rewrite Hget. unfold Parser.nonEmpty.
    destruct (String.eqb_spec key "") as [E | _]; [contradiction | reflexivity]. }
  rewrite Hsave. repeat split.
Qed.

(** A key of 12 characters. *)
Lemma api_key_round_trip_witness :
  Storage.getApiKey (Storage.saveApiKey (Some "sk-ant-key01") sampleLocalStorage)
  = Some "sk-ant-key01".
Proof.
  assert (Hkey : "sk-ant-key01" <> "") by discriminate.
  exact (proj1 (api_key_round_trip "sk-ant-key01" sampleLocalStorage Hkey)).
Defined.

(** ** File names of the reports (the [Export] object) *)

Lemma replaceRuns_apart (b : bool) (s : string) :
  underscoresApart b (Exporter.replaceRuns b s) = true.
Proof.
  revert b. induction s as [| c s IH]; intros b; [reflexivity |].
  cbn [Exporter.replaceRuns]. destruct (Exporter.isFileChar c) eqn:E.
  - cbn [underscoresApart]. rewrite E. apply IH.
  - destruct b; [apply IH |].
    cbn [underscoresApart]. replace (Exporter.isFileChar "_") with false by reflexivity.
    cbn [Ascii.eqb Bool.eqb negb andb]. apply IH.
Qed.

Lemma stripFirst_apart (s : string) :
  underscoresApart false s = true -> underscoresApart true (Exporter.stripFirst s) = true.
Proof.
  destruct s as [| c s]; [reflexivity |].
  cbn [Exporter.stripFirst underscoresApart].
  destruct (Ascii.eqb_spec c "_") as [-> | Hne].
  - replace (Exporter.isFileChar "_") with false by reflexivity. cbn [negb andb]. tauto.
  - cbn [underscoresApart]. destruct (Exporter.isFileChar c); [tauto |].
    cbn [andb]. discriminate.
Qed.

Lemma stripLast_apart (b : bool) (s : string) :
  underscoresApart b s = true -> underscoresApart b (Exporter.stripLast s) = true.
Proof.
  revert b. induction s as [| c s IH]; intros b; [reflexivity |].
  destruct s as [| c' s'].
  - cbn [Exporter.stripLast]. destruct (Ascii.eqb c "_"); [reflexivity | tauto].
  - change (Exporter.stripLast (String c (String c' s')))
      with (String c (Exporter.stripLast (String c' s'))).
    set (rest := String c' s') in *. cbn [underscoresApart].
    destruct (Exporter.isFileChar c); [apply IH |].
    intros H. apply andb_true_iff in H. destruct H as [H1 H2].
    rewrite H1. cbn [andb]. now apply IH.
Qed.

Lemma stripLast_end (b : bool) (s : string) :
  underscoresApart b s = true -> endsWithUnderscore (Exporter.stripLast s) = false.
Proof.
  revert b. induction s as [| c s IH]; intros b; [reflexivity |].
  destruct s as [| c' s'].
  - cbn [Exporter.stripLast]. destruct (Ascii.eqb c "_") eqn:E; [reflexivity |].
    intros _. cbn [endsWithUnderscore]. exact E.
  - change (Exporter.stripLast (String c (String c' s')))
      with (String c (Exporter.stripLast (String c' s'))).
    intros H.
    assert (Hrest : exists b', underscoresApart b' (String c' s') = true).
    { cbn [underscoresApart] in H. destruct (Exporter.isFileChar c); [now exists false |].
      apply andb_true_iff in H. destruct H as [_ H]. now exists true. }
    destruct Hrest as [b' Hrest]. pose proof (IH b' Hrest) as Hend.
    destruct (Exporter.stripLast (String c' s')) as [| d t] eqn:E.
    + (* the rest was a single underscore: [c] is not one *)
      cbn [endsWithUnderscore].
      destruct s' as [| c'' s''].
      * cbn [Exporter.stripLast] in E. destruct (Ascii.eqb c' "_") eqn:Ec';
          [| discriminate E].
        apply Ascii.eqb_eq in Ec'. subst c'.
        cbn [underscoresApart] in H. destruct (Exporter.isFileChar c) eqn:Ec.
        -- destruct (Ascii.eqb_spec c "_") as [-> | _]; [vm_compute in Ec; discriminate Ec | reflexivity].
        -- apply andb_true_iff in H. destruct H as [_ H].
           vm_compute in H. discriminate H.
      * discriminate E.
    + exact Hend.
Qed.

Lemma substring_apart (b : bool) (n : nat) (s : string) :
  underscoresApart b s = true -> underscoresApart b (String.substring 0 n s) = true.
Proof.
  revert b s. induction n as [| n IH]; intros b [| c s]; try reflexivity.
  cbn [String.substring underscoresApart].
  destruct (Exporter.isFileChar c); [apply IH |].
  intros H. apply andb_true_iff in H. destruct H as [H1 H2].
  rewrite H1. cbn [andb]. now apply IH.
Qed.

Lemma substring_length_bound (n : nat) (s : string) :
  (String.length (String.substring 0 n s) <= n)%nat.
Proof.
  revert s. induction n as [| n IH]; intros [| c s]; cbn [String.substring String.length];
    try lia. specialize (IH s). lia.
Qed.

Lemma substring_short (n : nat) (s : string) :
  (String.length (String.substring 0 n s) < n)%nat -> String.substring 0 n s = s.
Proof.
  revert s. induction n as [| n IH]; intros [| c s]; cbn [String.substring String.length];
    try lia; try reflexivity.
  intros H. f_equal. apply IH. lia.
Qed.

Lemma apart_chars (b : bool) (s : string) (c : ascii) :
  underscoresApart b s = true -> In c (list_ascii_of_string s) ->
  Exporter.isFileChar c = true \/ c = "_"%char.
Proof.
  revert b. induction s as [| d s IH]; intros b H Hin; [destruct Hin |].
  cbn [underscoresApart] in H. cbn [list_ascii_of_string] in Hin.
  destruct (Exporter.isFileChar d) eqn:E.
  - destruct Hin as [<- | Hin]; [now left | now apply (IH false)].
  - rewrite !andb_true_iff in H. destruct H as [[Hd _] Hs].
    destruct Hin as [<- | Hin]; [right; now apply Ascii.eqb_eq | now apply (IH true)].
Qed.

(** X18.  The file name of a report is safe.  Whatever the page title,
    [sanitizeFilename] returns at most 50 characters, each a lower-case
    letter, a digit or an underscore; it does not begin with an
    underscore and has no two underscores in a row.  It ends with an
    underscore only when it was cut at 50 characters. *)
Theorem sanitizeFilename_safe :
  forall name : option string,
    let file := Exporter.sanitizeFilename name in
    (String.length file <= 50)%nat
    /\ (forall c, In c (list_ascii_of_string file) ->
                  Exporter.isFileChar c = true \/ c = "_"%char)
    /\ underscoresApart true file = true
    /\ (endsWithUnderscore file = true -> String.length file = 50%nat).
Proof.
  intros name file. subst file. unfold Exporter.sanitizeFilename. cbv zeta.
  set (text := match Parser.nonEmpty name with Some t => t | None => "report" end).
  set (replaced := Exporter.replaceRuns false (Str.toLowerCase text)).
  pose proof (replaceRuns_apart false (Str.toLowerCase text)) as H0. fold replaced in H0.
  pose proof (stripFirst_apart replaced H0) as H1.
  pose proof (stripLast_apart true _ H1) as H2.
  pose proof (stripLast_end true _ H1) as Hend.
  pose proof (substring_apart true 50 _ H2) as H3.
  set (stripped := Exporter.stripLast (Exporter.stripFirst replaced)) in *.
  pose proof (substring_length_bound 50 stripped) as Hlen.
  split; [exact Hlen |].
  split; [intros c; now apply (apart_chars true) |].
  split; [exact H3 |].
  intros He.
  destruct (Nat.eq_dec (String.length (String.substring 0 50 stripped)) 50) as [E | Hne];
    [exact E |].
  rewrite substring_short in He by lia. congruence.
Qed.

(** ** Duplicate pages of a batch (the [App] object) *)

Lemma skipn_hd {A} (n : nat) (l : list A) : hd_error (skipn n l) = nth_error l n.
Proof.
  revert l. induction n as [| n IH]; intros [| x l]; try reflexivity. apply IH.
Qed.

Lemma skipn_tl {A} (n : nat) (l : list A) : tl (skipn n l) = skipn (S n) l.
Proof.
  revert l. induction n as [| n IH]; intros [| x l]; try reflexivity. apply (IH l).
Qed.

Lemma skipped_failed (u message : string) :
  message <> "" -> App.skipped (App.Failed u message) = true.
Proof.
  intros H. unfold App.skipped, Parser.nonEmpty. cbn [App.entry_error].
  destruct (String.eqb_spec message "") as [E | _]; [contradiction | reflexivity].
Qed.

Lemma innerLoop_pairs (tokenSets : list App.TokenSet) (i : nat) (result : Report)
      (rest : list App.BatchEntry) :
  failuresNamed rest ->
  forall (j : nat) (duplicates : list App.Duplicate),
    App.innerLoop tokenSets i (App.Scored result) j rest duplicates
    = Normal (duplicates
              ++ pairsFrom (url (meta result)) (nth_error tokenSets i)
                           (zipView rest (skipn j tokenSets)))%list.
Proof.
  induction 1 as [| second rest Hsecond _ IH]; intros j duplicates.
  - cbn [App.innerLoop zipView pairsFrom]. now rewrite app_nil_r.
  - cbn [App.innerLoop]. destruct second as [result' | u message].
    + cbn [App.skipped App.entry_error Parser.nonEmpty App.entry_url zipView pairsFrom].
      rewrite skipn_hd, skipn_tl.
      destruct (Qle_bool (85 # 100)
                         (App.similarity (nth_error tokenSets i) (nth_error tokenSets j))).
      * rewrite IH, <- app_assoc. reflexivity.
      * rewrite IH. reflexivity.
    + rewrite (skipped_failed u message Hsecond). cbn [zipView].
      rewrite skipn_tl. apply IH.
Qed.

Lemma outerLoop_pairs (tokenSets : list App.TokenSet) (entries : list App.BatchEntry) :
  failuresNamed entries ->
  forall (i : nat) (duplicates : list App.Duplicate),
    App.outerLoop tokenSets i entries duplicates
    = Normal (duplicates ++ allPairs (zipView entries (skipn i tokenSets)))%list.
Proof.
  induction 1 as [| first rest Hfirst Hrest IH]; intros i duplicates.
  - cbn [App.outerLoop zipView allPairs]. now rewrite app_nil_r.
  - cbn [App.outerLoop]. destruct first as [result | u message].
    + cbn [App.skipped App.entry_error Parser.nonEmpty zipView allPairs].
      rewrite (innerLoop_pairs tokenSets i result rest Hrest), IH.
      rewrite skipn_hd, skipn_tl, <- app_assoc. reflexivity.
    + rewrite (skipped_failed u message Hfirst). cbn [zipView].
      rewrite skipn_tl. apply IH.
Qed.

Lemma findDuplicatePages_pairs (entries : list App.BatchEntry)
      (tokenSets : list App.TokenSet) :
  failuresNamed entries ->
  App.findDuplicatePages entries tokenSets = Normal (allPairs (zipView entries tokenSets)).
Proof.
  intros H. unfold App.findDuplicatePages. now rewrite (outerLoop_pairs _ _ H).
Qed.

Lemma batchLists_scored (pages : list (Report * string))
      (lists : list App.BatchEntry * list App.TokenSet) :
  fold_left App.batchStep (map succeeded pages) lists
  = (fst lists ++ map (fun p => App.Scored (fst p)) pages,
     snd lists ++ map pageSet pages)%list.
Proof.
  revert lists. induction pages as [| p pages IH]; intros [rs ts]; cbn [map fold_left fst snd].
  - now rewrite !app_nil_r.
  - rewrite IH. cbn [succeeded App.batchStep fst snd]. now rewrite <- !app_assoc.
Qed.

Lemma scored_named (pages : list (Report * string)) :
  failuresNamed (map (fun p => App.Scored (fst p)) pages).
Proof. apply Forall_forall. intros e He. apply in_map_iff in He. now destruct He as (p & <- & _). Qed.

Lemma zipView_own (pages : list (Report * string)) :
  zipView (map (fun p => App.Scored (fst p)) pages) (map pageSet pages) = ownSets pages.
Proof.
  induction pages as [| p pages IH]; [reflexivity |].
  cbn [map zipView hd_error tl ownSets]. f_equal. exact IH.
Qed.

Lemma zipView_next (pages : list (Report * string)) :
  zipView (map (fun p => App.Scored (fst p)) pages) (tl (map pageSet pages)) = nextSets pages.
Proof.
  induction pages as [| p pages IH]; [reflexivity |].
  cbn [map zipView tl nextSets]. f_equal; [| exact IH].
  f_equal. now destruct pages.
Qed.

(** *** The similarity of two sets *)

Lemma has_In (s : App.TokenSet) (token : string) : App.has s token = true <-> In token s.
Proof.
  unfold App.has. rewrite existsb_exists. split.
  - intros (x & Hx & E). apply String.eqb_eq in E. now subst.
  - intros H. exists token. split; [exact H | apply String.eqb_refl].
Qed.

Lemma newSet_step_NoDup (tokens : list string) (s : App.TokenSet) :
  NoDup s ->
  NoDup (fold_left (fun s token => if App.has s token then s else (s ++ [token])%list)
                   tokens s).
Proof.
  revert s. induction tokens as [| t tokens IH]; intros s Hs; [exact Hs |].
  cbn [fold_left]. apply IH. destruct (App.has s t) eqn:E; [exact Hs |].
  apply NoDup_snoc; [exact Hs |]. intros Hin. apply has_In in Hin. congruence.
Qed.

Lemma newSet_NoDup (tokens : list string) : NoDup (App.newSet tokens).
Proof. apply newSet_step_NoDup. constructor. Qed.

Lemma newSet_step_nonempty (tokens : list string) (s : App.TokenSet) :
  s <> [] ->
  fold_left (fun s token => if App.has s token then s else (s ++ [token])%list) tokens s
  <> [].
Proof.
  revert s. induction tokens as [| t tokens IH]; intros s Hs; [exact Hs |].
  cbn [fold_left]. apply IH. destruct (App.has s t); [exact Hs |].
  now destruct s.
Qed.

Lemma newSet_nonempty (tokens : list string) : tokens <> [] -> App.newSet tokens <> [].
Proof.
  destruct tokens as [| t tokens]; [contradiction |]. intros _.
  unfold App.newSet. cbn [fold_left App.has existsb app].
  apply newSet_step_nonempty. discriminate.
Qed.

Section Similarity.
Local Open Scope Q_scope.

Lemma similarity_range (a b : option App.TokenSet) :
  match a with Some s => NoDup s | None => True end ->
  0 <= App.similarity a b <= 1.
Proof.
  intros Ha. destruct a as [a |], b as [b |]; cbn [App.similarity]; try lra.
  set (inter := filter (App.has b) a).
  assert (H1 : (List.length inter <= List.length a)%nat) by apply filter_length_le.
  assert (H2 : (List.length inter <= List.length b)%nat).
  { apply NoDup_incl_length; [now apply NoDup_filter |].
    intros x Hx. apply filter_In in Hx. now apply has_In. }
  destruct (Z.eqb_spec (Z.of_nat (List.length a) + Z.of_nat (List.length b)
                        - Z.of_nat (List.length inter)) 0) as [_ | Hne]; [lra |].
  set (u := (Z.of_nat (List.length a) + Z.of_nat (List.length b)
             - Z.of_nat (List.length inter))%Z) in *.
  assert (Hu : (0 < u)%Z) by (unfold u in *; lia).
  assert (Hi : (0 <= Z.of_nat (List.length inter) <= u)%Z) by (unfold u; lia).
  assert (Hq : 0 < inject_Z u) by (change 0 with (inject_Z 0); now rewrite <- Zlt_Qlt).
  split.
  - apply Qle_shift_div_l; [exact Hq |]. rewrite Qmult_0_l.
    change 0 with (inject_Z 0). rewrite <- Zle_Qle. lia.
  - apply Qle_shift_div_r; [exact Hq |]. rewrite Qmult_1_l.
    rewrite <- Zle_Qle. lia.
Qed.

Lemma similarity_same (s : App.TokenSet) :
  s <> [] -> App.similarity (Some s) (Some s) == 1.
Proof.
  intros Hs. cbn [App.similarity].
  assert (Hall : filter (App.has s) s = s).
  { apply filter_keeps_all. apply Forall_forall. intros x Hx. now apply has_In. }
  rewrite Hall.
  assert (Hlen : (0 < Z.of_nat (List.length s))%Z) by (destruct s; [contradiction | cbn; lia]).
  replace (Z.of_nat (List.length s) + Z.of_nat (List.length s)
           - Z.of_nat (List.length s))%Z with (Z.of_nat (List.length s)) by lia.
  destruct (Z.eqb_spec (Z.of_nat (List.length s)) 0) as [E | _]; [lia |].
  field. intros E. apply (Qeq_bool_neq _ 0) in E; [exact E |].
  unfold Qeq_bool, inject_Z. cbn. destruct (Z.of_nat (List.length s)); try lia; reflexivity.
Qed.

Lemma pairsFrom_range (a : option string) (sa : option App.TokenSet)
      (rest : list (option string * option App.TokenSet)) (d : App.Duplicate) :
  match sa with Some s => NoDup s | None => True end ->
  In d (pairsFrom a sa rest) -> (85 <= App.dup_similarity d <= 100)%Z.
Proof.
  intros Hsa. induction rest as [| [b sb] rest IH]; cbn [pairsFrom]; [intros [] |].
  intros Hin. apply in_app_or in Hin. destruct Hin as [Hin | Hin]; [| now apply IH].
  destruct (Qle_bool (85 # 100) (App.similarity sa sb)) eqn:E; [| destruct Hin].
  destruct Hin as [<- | []]. cbn [App.dup_similarity].
  apply Qle_bool_iff in E. pose proof (similarity_range sa sb Hsa) as [_ Hle].
  split.
  - apply Math_round_ge. change (inject_Z 85) with 85. lra.
  - apply Math_round_le. change (inject_Z 100) with 100. lra.
Qed.

Lemma allPairs_range (pages : list (option string * option App.TokenSet))
      (d : App.Duplicate) :
  Forall (fun p => match snd p with Some s => NoDup s | None => True end) pages ->
  In d (allPairs pages) -> (85 <= App.dup_similarity d <= 100)%Z.
Proof.
  induction 1 as [| [a sa] rest Hp _ IH]; cbn [allPairs]; [intros [] |].
  intros Hin. apply in_app_or in Hin. destruct Hin as [Hin | Hin]; [| now apply IH].
  now apply (pairsFrom_range a sa rest).
Qed.

End Similarity.

(** X19.  The duplicates of a batch in which every URL was scored.  Each
    page is compared with every page after it by the Jaccard similarity
    of their own token sets, and a pair is reported when that is 0.85 or
    more; a reported similarity is between 85 and 100; two pages with
    the same text, if it has a token at all, are reported with 100. *)
Theorem batch_duplicates_all_scored :
  forall pages : list (Report * string),
    App.batchDuplicates (map succeeded pages) = Normal (allPairs (ownSets pages))
    /\ (forall d, In d (allPairs (ownSets pages)) -> 85 <= App.dup_similarity d <= 100)
    /\ (forall p q : Report * string,
           snd p = snd q -> App.pageTokens (snd p) <> [] ->
           App.batchDuplicates [succeeded p; succeeded q]
           = Normal [App.mkDuplicate (url (meta (fst p))) (url (meta (fst q))) 100]).
Proof.
  assert (Hclosed : forall pages,
             App.batchDuplicates (map succeeded pages) = Normal (allPairs (ownSets pages))).
  { intros pages. unfold App.batchDuplicates, App.batchLists.
    rewrite batchLists_scored. cbn [fst snd app].
    rewrite (findDuplicatePages_pairs _ _ (scored_named pages)). now rewrite zipView_own. }
  intros pages. split; [apply Hclosed |]. split.
  - intros d. apply allPairs_range. apply Forall_forall. intros x Hx.
    unfold ownSets in Hx. apply in_map_iff in Hx. destruct Hx as (p & <- & _).
    cbn [snd]. apply newSet_NoDup.
  - intros p q Htext Htokens.
    change [succeeded p; succeeded q] with (map succeeded [p; q]). rewrite Hclosed.
    cbn [ownSets map allPairs pairsFrom app]. unfold pageSet. rewrite <- Htext.
    pose proof (similarity_same _ (newSet_nonempty _ Htokens)) as Hsim.
    set (sim := App.similarity (Some (App.newSet (App.pageTokens (snd p))))
                               (Some (App.newSet (App.pageTokens (snd p))))) in *.
    assert (Hle : Qle_bool (85 # 100) sim = true).
    { apply Qle_bool_iff. rewrite Hsim. discriminate. }
    rewrite Hle. cbn [app]. do 3 f_equal.
    unfold Js.Math_round.
    assert (E : (sim * 100 + (1 # 2) == 201 # 2)%Q) by (rewrite Hsim; reflexivity).
    now rewrite (Qfloor_comp _ _ E).
Qed.

(** X20.  A failed URL at the head of a batch shifts the comparison.
    When the first URL of a batch failed (with a message) and the others
    were scored, each page is compared by the token set of the page
    after it and the last page by none; so of two pages that follow a
    failed URL no duplicate is ever reported, whatever their text. *)
Theorem batch_duplicates_after_failure :
  forall (failedUrl message : string) (pages : list (Report * string)),
    message <> "" ->
    App.batchDuplicates (App.Threw failedUrl message :: map succeeded pages)
    = Normal (allPairs (nextSets pages))
    /\ (forall p q : Report * string,
           App.batchDuplicates [App.Threw failedUrl message; succeeded p; succeeded q]
           = Normal []).
Proof.
  intros failedUrl message pages Hmessage.
  assert (Hclosed : forall pages,
             App.batchDuplicates (App.Threw failedUrl message :: map succeeded pages)
             = Normal (allPairs (nextSets pages))).
  { intros l. unfold App.batchDuplicates, App.batchLists. cbn [fold_left App.batchStep fst snd app].
    rewrite batchLists_scored. cbn [fst snd app].
    rewrite findDuplicatePages_pairs.
    - cbn [zipView]. now rewrite zipView_next.
    - constructor; [exact Hmessage | apply scored_named]. }
  split; [apply Hclosed |].
  intros p q. change [App.Threw failedUrl message; succeeded p; succeeded q]
    with (App.Threw failedUrl message :: map succeeded [p; q]).
  rewrite Hclosed. cbn [nextSets hd_error option_map allPairs pairsFrom app].
  reflexivity.
Qed.

(** Two pages with the same text after a URL that could not be fetched. *)
Lemma batch_duplicates_after_failure_witness :
  App.batchDuplicates [App.Threw "https://help.example.com/x" "Fetch failed (404)";
                       succeeded samplePageA; succeeded samplePageB]
  = Normal [].
Proof.
  assert (Hmessage : "Fetch failed (404)" <> "") by discriminate.
  exact (proj2 (batch_duplicates_after_failure "https://help.example.com/x"
                                               "Fetch failed (404)" [] Hmessage)
               samplePageA samplePageB).
Defined.

(** ** The settings (js/storage.js) *)

Lemma get_fold_set {V} (l : list (string * V)) (target : Js.JsObject V) (k : string) :
  NoDup (map fst l) ->
  Js.get (fold_left (fun o e => Js.set o (fst e) (snd e)) l target) k
  = match Js.get l k with
    | Some v => Some v
    | None => Js.get target k
    end.
Proof.
  revert target. induction l as [| [k' v] l IH]; intros target Hnd; [reflexivity |].
  cbn [map fst] in Hnd. inversion Hnd as [| ? ? Hfresh Hrest]; subst.
  cbn [fold_left fst snd Js.get]. rewrite (IH _ Hrest).
  destruct (String.eqb_spec k' k) as [-> | Hne].
  - rewrite (proj2 (get_None_iff l k) Hfresh). apply get_set_same.
  - destruct (Js.get l k); [reflexivity |]. apply get_set_other. congruence.
Qed.

Lemma fold_set_keys {V} (l : list (string * V)) (target : Js.JsObject V) :
  distinctKeys target ->
  distinctKeys (fold_left (fun o e => Js.set o (fst e) (snd e)) l target).
Proof.
  revert target. induction l as [| e l IH]; intros target H; [exact H |].
  cbn [fold_left]. apply IH. now apply set_distinctKeys.
Qed.

Lemma fold_set_keeps {V} (l : list (string * V)) (target : Js.JsObject V) (k : string) :
  Js.get target k <> None ->
  Js.get (fold_left (fun o e => Js.set o (fst e) (snd e)) l target) k <> None.
Proof.
  revert target. induction l as [| [k' v] l IH]; intros target H; [exact H |].
  cbn [fold_left fst snd]. apply IH.
  destruct (String.eqb_spec k k') as [-> | Hne].
  - rewrite get_set_same. discriminate.
  - rewrite get_set_other by congruence. exact H.
Qed.

Lemma get_assign {V} (target source : Js.JsObject V) (k : string) :
  distinctKeys source ->
  Js.get (Storage.assign target source) k
  = match Js.get source k with
    | Some v => Some v
    | None => Js.get target k
    end.
Proof.
  intros H. unfold Storage.assign.
  rewrite get_fold_set by (now apply entries_distinctKeys).
  now rewrite (get_perm source (Js.entries source) k H (Permutation_sym (entries_perm source))).
Qed.

Lemma get_spread2 {V} (a b : Js.JsObject V) (k : string) :
  distinctKeys a -> distinctKeys b ->
  Js.get (Storage.spread2 a b) k
  = match Js.get b k with
    | Some v => Some v
    | None => Js.get a k
    end.
Proof.
  intros Ha Hb. unfold Storage.spread2. rewrite (get_assign _ b k Hb).
  destruct (Js.get b k); [reflexivity |]. rewrite (get_assign _ a k Ha).
  now destruct (Js.get a k).
Qed.

Lemma spread2_keys {V} (a b : Js.JsObject V) : distinctKeys (Storage.spread2 a b).
Proof.
  unfold Storage.spread2, Storage.assign. apply fold_set_keys, fold_set_keys. constructor.
Qed.

Lemma defaults_keys : distinctKeys Storage.defaults.
Proof.
  unfold distinctKeys. cbn. repeat constructor; cbn; intuition discriminate.
Qed.

Lemma getSettings_keys (ls : Storage.LocalStorage) : distinctKeys (Storage.getSettings ls).
Proof.
  unfold Storage.getSettings.
  destruct (Storage.settingsItem ls) as [[saved |] |]; try exact defaults_keys.
  apply spread2_keys.
Qed.

(** Whatever is stored, the default settings have a value. *)
Lemma getSettings_defaults (ls : Storage.LocalStorage) (k : string) :
  Js.get Storage.defaults k <> None -> Js.get (Storage.getSettings ls) k <> None.
Proof.
  intros H. unfold Storage.getSettings.
  destruct (Storage.settingsItem ls) as [[saved |] |]; try exact H.
  unfold Storage.spread2, Storage.assign at 1. apply fold_set_keeps.
  rewrite (get_assign [] Storage.defaults k defaults_keys).
  now destruct (Js.get Storage.defaults k).
Qed.

(** X21.  A saved setting is read back, and the others stay.  After
    [saveSettings(settings)], [getSettings()] gives for every name the
    value just saved, if the name is among the saved ones, and else the
    value it gave before; and it always gives a value for the three
    default settings. *)
Theorem settings_round_trip :
  forall (settings : Js.JsObject Storage.SettingValue) (ls : Storage.LocalStorage),
    distinctKeys settings ->
    (forall k : string,
        Js.get (Storage.getSettings (Storage.saveSettings settings ls)) k
        = match Js.get settings k with
          | Some v => Some v
          | None => Js.get (Storage.getSettings ls) k
          end)
    /\ (forall k : string,
           In k ["autoScore"; "showDetailedIssues"; "exportFormat"] ->
           Js.get (Storage.getSettings (Storage.saveSettings settings ls)) k <> None).
Proof.
  intros settings ls Hs. split.
  - intros k. unfold Storage.saveSettings. cbv zeta.
    unfold Storage.getSettings at 1.
    cbn [Storage.set_settingsItem Storage.settingsItem].
    set (current := Storage.getSettings ls).
    pose proof (spread2_keys current settings) as Hm.
    rewrite (get_spread2 Storage.defaults _ k defaults_keys (entries_distinctKeys _ Hm)).
    rewrite (get_perm _ (Js.entries (Storage.spread2 current settings)) k Hm
                      (Permutation_sym (entries_perm _))).
    rewrite (get_spread2 current settings k (getSettings_keys ls) Hs).
    destruct (Js.get settings k) as [v |]; [reflexivity |].
    destruct (Js.get current k) as [v |] eqn:E; [reflexivity |].
    destruct (Js.get Storage.defaults k) as [v |] eqn:F; [| reflexivity].
    exfalso. apply (getSettings_defaults ls k); [rewrite F; discriminate | exact E].
  - intros k Hk. apply getSettings_defaults.
    cbn in Hk. destruct Hk as [<- | [<- | [<- | []]]]; discriminate.
Qed.

(** The export format set to CSV on the sample storage. *)
Lemma settings_round_trip_witness :
  Js.get (Storage.getSettings
            (Storage.saveSettings [("exportFormat", Storage.Text "csv")] sampleLocalStorage))
         "exportFormat"
  = Some (Storage.Text "csv").
Proof.
  assert (Hs : distinctKeys [("exportFormat", Storage.Text "csv")]).
  { unfold distinctKeys. cbn. constructor; [intros [] | constructor]. }
  exact (proj1 (settings_round_trip [("exportFormat", Storage.Text "csv")]
                                    sampleLocalStorage Hs) "exportFormat").
Defined.
